(* ===== verification/_CoqProject ===== *)
-Q . S2P
Prelude.v
GoStrings.v
Http.v
GoTime.v
Json.v
Config.v
Session.v
Auth.v
Float64.v
RateLimit.v
Middleware.v
Storage.v
Sha256.v
Sql.v
Api.v
Wire.v
Transfer.v
Parser.v
Ingest.v
Concurrent.v
Migrate.v
Schema.v
Server.v
Access.v
Fits.v
Delivery.v
Main.v
TestSupport.v
