(* ===== verification/Prelude.v ===== *)
(** * lite-mail: verification development

    lite-mail is a small web mail server in Go. A mail worker posts raw messages
    to it; it keeps them in MariaDB and in files; users log in with a shared key
    and read the messages they received. This library models the Go program under
    src/ (cmd/server and internal/) and proves what makes it correct.

    ** Files and what they model

    - [Prelude]: Go's [error] and [(T, error)] results, 64-bit integers, lenses,
      tactics, list lemmas. No part of the program.
    - [GoStrings]: the parts of [strings], [unicode/utf8], [strconv],
      [encoding/hex] and [path/filepath] that the server calls, on byte strings.
    - [Http]: requests, response writers (with the size-limited body and the
      logging recorder), cookies, contexts, clock and randomness.
    - [GoTime]: the civil calendar and RFC 3339 dates, as [time] prints them.
    - [Json]: [encoding/json]: the bytes that [writeJSON] sends for a value, a
      reader of JSON text, and the decoder of a login body.
    - [Config]: [Load] (internal/config/config.go).
    - [Session], [Auth]: sessions, cookies, login, logout, [RequireAuth]
      (internal/auth).
    - [Float64], [RateLimit]: Go's float64 arithmetic and the rate limiter with
      its cleanup (internal/middleware/ratelimit.go).
    - [Middleware]: CORS, request ids, security headers, logging, body limit
      (internal/middleware) and the API error helpers (internal/api/errors.go).
    - [Storage]: raw messages and attachments as files
      (internal/storage/storage.go).
    - [Sha256]: SHA-256 and [HashBytes] (internal/ingest/parser.go).
    - [Sql]: [database/sql] and the four tables of migration 001.
    - [Api]: list, view, raw message and attachment handlers (internal/api).
    - [Wire]: what a client reads in the bytes of the list and view replies.
    - [Transfer]: the base64 and quoted-printable decoders ([encoding/base64],
      [mime/quotedprintable]) that the parser puts around a body.
    - [Parser]: MIME parsing (internal/ingest/parser.go).
    - [Ingest]: the ingest handler and its transaction
      (internal/ingest/handler.go).
    - [Concurrent]: the same handler as a sequence of calls to the database and the
      file system, and any number of such sequences interleaved.
    - [Migrate]: loading, applying and rolling back migrations, connecting
      (internal/db/migrate.go).
    - [Schema]: the six embedded migration files (internal/db/embed.go,
      internal/db/migrations) and what their statements do to the tables.
    - [Server]: [New], the routes with their middleware, the small handlers
      (internal/server/server.go, handlers.go).
    - [Access]: what a session lives through while the server serves.
    - [Fits]: the server over a database that refuses statements which do not fit
      the migrated tables.
    - [Delivery]: from the ingest route to the mail routes of a running server.
    - [Main]: the start and the end of the process (cmd/server/main.go, [Start]
      and [Shutdown] of internal/server/server.go).
    - [TestSupport]: the test helpers (internal/testutil), and which request
      headers the server reads.

    A handler is a function [Request -> ResponseWriter -> state -> ResponseWriter *
    state]; a middleware is a function on handlers. A component is written over its
    own state and runs inside the whole application state ([Server.App]: runtime,
    log, sessions, the two limiters, database, files) through a [Lens]. The
    definitions keep the names of the source; a statement of SQL keeps its text up
    to white space.

    ** Interfaces

    Code outside src/ is a type class of operations, with a second class of the
    documented behaviour the proofs rely on:

    - [Session.SessionStore] is the source's own interface; [CookieSessionStore]
      implements it, and the clients' theorems are proved against its laws;
    - [Storage.FileSystem]: [os] files, with failures and torn writes;
    - [Sql.SQLDriver]: statement texts with placeholders; its laws give the
      meaning of the texts the code sends over the rows of the tables, with
      AUTO_INCREMENT keys, UNIQUE indexes, the collation, connections that break
      while rows are read and commits whose reply is lost;
    - [Concurrent.SharedSQL]: a database that several transactions use at once;
      [one_at_a_time] makes one of every [SQLDriver];
    - [Migrate.MigDriver]: the same for migrations, where a statement may commit
      the transaction it is in; [Migrate.MySQLDriver]: connection strings;
    - [Migrate.SortLib]: [sort.Slice]; [Parser.MailLib]: [net/mail], [mime],
      multipart, charsets, [html2text], and in what pieces a body is read;
      [GoStrings.UnicodeTable]: lower case beyond ASCII;
    - [Migrate.MigLaws] has the predicate [foreign]: a statement that does not touch
      schema_migrations. Theorems assume it of the statements they run, those
      about the shipped files of [Schema.shipped_statements] only;
    - [Schema.FollowsDDL]: a migration database that gives the statements of the
      shipped files their documented effect, and refuses one of them that cannot have
      it; nothing is assumed of other statements;
    - [Server.ChiRouter]: which registered route a method and a path lead to;
      [Server.StaticFiles]: the embedded files; [TestSupport.LibraryReads]: which
      request headers these two look at.

    Each is instantiated by a concrete implementation ([MemFS], [MemDB], [SharedDB]
    and [MemMig] with injected faults, a merge sort, small tables) for which its laws
    are proved; the witnesses ([..._witness]) apply the theorems to it.

    ** What the theorems show

    - From end to end: what the ingest route accepted is given back by the mail
      routes, after any traffic, to its recipients and administrators and to
      nobody else, byte for byte ([delivered_mail_reaches_its_readers]).
    - Ingestion: a 200 means one complete message more with readable files
      ([accepted_message_is_durable]); any failure leaves the tables as they were
      or with one complete message more ([ingest_is_atomic]); a delivered body is
      never accepted again; exactly the parsed recipients see the message; bodies
      over the limit are refused. A message that cannot be parsed is kept but
      hidden, and one with an attachment known already is never accepted.
    - Concurrent ingestion: the handler is the sequence of its calls
      ([calls_are_the_handler]); under every interleaving the messages are added
      whole or not at all and the replies tell which
      ([concurrent_deliveries_are_atomic]), and none is accepted twice; but a
      delivery that races may truncate the raw file of an accepted message
      ([racing_write_tears_accepted_message]).
    - The composed server: every request led to a mail route is answered as an
      access specification says ([served_mail_is_authorised]); a successful login
      gives access until the session expires or is logged out, whatever else is
      served ([Access.login_gives_access], over [outlives], what every operation
      keeps of a session); from the start and through any traffic, rows keep their files
      and nothing stored is lost ([stored_mail_survives]); only requests with the
      ingest key change mail; every reply carries its protective headers and is
      logged once; password guesses per address are bounded over every stretch of
      traffic; the ingest route's answers.
    - Storage refines a map from blobs to contents; a half-written raw message
      stays.
    - The limiter refines an exact token bucket, floats and cleanup included;
      every interleaving of its atomic steps is safe and a concurrent burst is
      granted exactly the rate; a client that polls too fast starves.
    - Sessions: login, expiry, eviction, logout, lifetimes and their overflow.
    - The API: exact list pages, foreign messages look absent, statements are
      parameterised, header-safe attachment names.
    - The wire: a JSON reply reads back as the value the handler gave
      ([json_reply_reads_back]) and cannot break out of a page
      ([json_reply_is_html_safe]); a client finds in a view or a page exactly what
      is stored ([view_arrives_as_stored], [page_arrives_as_stored]); a login body
      opens exactly the session its credentials have, or is refused
      ([login_body_is_read_whole]).
    - Parsing terminates, stores only valid UTF-8, takes the envelope from the
      headers and undoes the encoding of a body ([encoded_leaf_is_decoded]).
    - Migrations: exact loading and runs, reruns do nothing, failed migrations
      start over, rollback undoes the latest, splitting round trips.
      The shipped files lead step by step from no table to the four mail tables
      and back ([shipped_migrations_step]); but the first one cannot be started
      again ([first_migration_never_recovers]).
    - The statements of the handlers and the tables: a database that refuses every
      statement which does not fit the migrated tables, in its names, arguments and
      values, serves every request as one that does not ask
      ([statements_fit_the_tables]).
    - The test helpers: a teardown undoes one migration of three
      ([teardown_undoes_one_migration]), a fixture is found from anywhere, and the
      key they send is read by nothing ([test_key_opens_nothing]).
    - The process: a server that runs was fully migrated and has the mail tables, and
      a start that fails has one of three reasons ([server_starts_ready]);
      exit status; it comes to rest; a signal before the server has started makes
      it hang.

    Properties of the whole application are proved once for middleware and
    handlers of a kind and found by instance search: [WellBehaved] (what a handler
    does to its writer), [Aside], [Tame] and [Moves] (which parts of the state it
    changes, and how), [Blind] (a request header it does not read), [Endures] (what a
    session outlives), and [Proper] instances for [handler_eq] (handlers that cannot
    be told apart).

    ** Bounds and fuel

    Integers are Go's 64-bit ones, wrapped with [wrap64] where the code's
    arithmetic can overflow; durations saturate as [time.Time.Sub] does; instants
    are unbounded. [Float64] leaves the exponent unbounded (see there). The fuel of
    [Parser.parseEntity] is one more than the length of the body: a part is
    smaller than the body around it, so it never runs out ([parse_terminates]).
    [Transfer.qp_read] takes a line off the body at every step, so the length of the
    body is enough ([qp_read_enough]). The recursions on strings and digits take the length and the number of bits as
    fuel, with lemmas that more changes nothing. The process takes at most six
    steps ([process_comes_to_rest]).

    ** Not modelled

    - Log records other than the request log, and printed lines.
    - The router's matching: which route a path leads to is a parameter, so
      statements are about requests that were led to a route. The path it is given
      is [URL.Path]; chi prefers [URL.RawPath] when that is set.
    - [Content-Length] and the cookies are fields of a request beside its header, as
      the handlers read them; setting those two headers does not change the fields.
    - The call of [Shutdown] and its return are one event of the process, and
      [ListenAndServe] returns [ErrServerClosed] after it; in net/http it may return
      while [Shutdown] still waits for connections.
    - An error of [LastInsertId] is an error of the [Exec] before it.
    - Concurrent requests are modelled for ingestion, for the rate limiter and
      between the goroutines of [main]; the other theorems take requests one after
      the other, each handler as one step. The session store's methods are atomic
      through its mutex. A call that writes a file is one step: a reader that finds
      the file between its truncation and the write is not modelled.
    - Reading a file that exists does not fail.
    - [New] writes its defaults into the configuration it is given; the model
      returns the completed copy, as [main] does not read the original again for
      the fields that change.
    - Panics inside a handler; request contexts that are cancelled; the ten
      seconds of the shutdown context.
    - The meaning of SQL types and constraints beyond what [Sql] and [Schema] say:
      [Schema.ddl] keeps the tables, their full-text indexes and foreign keys.
    - internal/server/embed.go and internal/db/models.go (declarations only), the
      integration tests, the JavaScript client and the TypeScript worker. *)

From stdpp Require Export base gmap strings list fin_maps fin_sets.
From stdpp Require Export relations sorting.
From Stdlib Require Export ZArith Lia.
From Stdlib Require Import Ascii String.

(** ** Scopes *)

Declare Scope lm_scope.
Delimit Scope lm_scope with lm.
#[global] Open Scope Z_scope.

(** Let [simpl] compute string concatenation. *)
#[global] Arguments String.append !_ _ / : simpl nomatch.

(** ** Go's error values

    An [error] is a chain: a sentinel ([var ErrX = errors.New(...)], compared
    by identity), a text built in place, or a text wrapping another error
    ([fmt.Errorf("...: %w", err)]). *)

Inductive error :=
  | ESentinel (name text : string)
  | EText (text : string)
  | EWrap (prefix : string) (inner : error).

#[export] Instance error_eq_dec : EqDecision error.
Proof. solve_decision. Defined.

(** [err.Error()] *)
Fixpoint error_Error (e : error) : string :=
  match e with
  | ESentinel _ t => t
  | EText t => t
  | EWrap p i => p +:+ ": " +:+ error_Error i
  end.

(** [errors.Is(err, target)] for a sentinel target. *)
Fixpoint errors_Is (e target : error) : bool :=
  bool_decide (e = target) ||
  match e with EWrap _ i => errors_Is i target | _ => false end.

(** ** A [(T, error)] result *)

Inductive result (A : Type) :=
  | Ok (a : A)
  | Err (e : error).
Arguments Ok {A} a.
Arguments Err {A} e.

#[export] Instance result_ret : MRet result := fun A a => Ok a.
#[export] Instance result_bind : MBind result := fun A B f m =>
  match m with Ok a => f a | Err e => Err e end.
#[export] Instance result_fmap : FMap result := fun A B f m =>
  match m with Ok a => Ok (f a) | Err e => Err e end.

#[export] Instance result_eq_dec {A} `{EqDecision A} : EqDecision (result A).
Proof. solve_decision. Defined.

(** [if err != nil { return fmt.Errorf(prefix + ": %w", err) }] *)
Definition wrap_err {A} (prefix : string) (m : result A) : result A :=
  match m with Ok a => Ok a | Err e => Err (EWrap prefix e) end.

Definition is_ok {A} (m : result A) : bool :=
  match m with Ok _ => true | Err _ => false end.

Lemma result_bind_Ok {A B} (f : A -> result B) (m : result A) b :
  (m ≫= f) = Ok b -> exists a, m = Ok a /\ f a = Ok b.
Proof. destruct m as [a|e]; [by exists a|done]. Qed.

Lemma wrap_err_Ok {A} p (m : result A) a : wrap_err p m = Ok a <-> m = Ok a.
Proof. destruct m; simpl; split; congruence. Qed.

Lemma wrap_err_Err {A} p (m : result A) e :
  wrap_err p m = Err e <-> exists e', m = Err e' /\ e = EWrap p e'.
Proof.
  destruct m; simpl; split.
  - done.
  - by intros (? & ? & ?).
  - intros [= <-]. eauto.
  - by intros (? & [= <-] & ->).
Qed.

(** ** Machine integers: Go's [int] and [int64] on a 64-bit platform *)

Definition min_int64 : Z := - 2 ^ 63.
Definition max_int64 : Z := 2 ^ 63 - 1.
Definition in_int64 (z : Z) : Prop := min_int64 <= z <= max_int64.
#[export] Instance in_int64_dec z : Decision (in_int64 z).
Proof. unfold in_int64. apply _. Defined.

(** Two's complement wrap-around of the arithmetic operators. *)
Definition wrap64 (z : Z) : Z := (z + 2 ^ 63) mod 2 ^ 64 - 2 ^ 63.

Lemma wrap64_id z : in_int64 z -> wrap64 z = z.
Proof.
  unfold in_int64, wrap64, min_int64, max_int64. intros H.
  rewrite Z.mod_small; lia.
Qed.

Lemma wrap64_range z : in_int64 (wrap64 z).
Proof.
  unfold in_int64, wrap64, min_int64, max_int64.
  pose proof (Z.mod_pos_bound (z + 2 ^ 63) (2 ^ 64)). lia.
Qed.

(** ** Lenses: how a component finds its own state in a larger one *)

Class Lens (W S : Type) := {
  view : W -> S;
  put : S -> W -> W;
  view_put : forall s w, view (put s w) = s;
  put_view : forall w, put (view w) w = w;
  put_put : forall s s' w, put s (put s' w) = put s w
}.

#[export] Instance lens_id S : Lens S S := {|
  view := fun s => s; put := fun s _ => s;
  view_put := fun _ _ => eq_refl; put_view := fun _ => eq_refl;
  put_put := fun _ _ _ => eq_refl |}.

(** ** Tactics *)

(** Split every [match]/[if] on a hypothesis or the goal, keeping equations. *)
Ltac break_match_in H :=
  match type of H with
  | context [match ?x with _ => _ end] =>
      lazymatch x with
      | context [match _ with _ => _ end] => fail
      | _ => let E := fresh "E" in destruct x eqn:E
      end
  end.
Ltac break_match_goal :=
  match goal with
  | |- context [match ?x with _ => _ end] =>
      lazymatch x with
      | context [match _ with _ => _ end] => fail
      | _ => let E := fresh "E" in destruct x eqn:E
      end
  end.
Ltac break_all H := repeat (break_match_in H; simplify_eq/=; try done).

(** Split the integer comparisons of the goal. *)
Ltac break_Z :=
  repeat match goal with
    | |- context [?a <=? ?b] => destruct (Z.leb_spec a b)
    | |- context [?a <? ?b] => destruct (Z.ltb_spec a b)
    end.

(** Evaluate closed propositions. *)
Ltac by_compute := vm_compute; first [reflexivity | done | intuition congruence].

Create Rewrite HintDb lens.
#[export] Hint Rewrite @view_put @put_view @put_put : lens.
Ltac simpl_lens := autorewrite with lens in *.

(** ** Lists *)

Lemma forallb_Forall {A} (p : A -> bool) l :
  forallb p l = true <-> Forall (fun x => p x = true) l.
Proof.
  induction l as [|x l IH]; simpl; [by split|].
  by rewrite andb_true_iff, IH, Forall_cons.
Qed.

Lemma map_reverse {A B} (f : A -> B) l : map f (reverse l) = reverse (map f l).
Proof.
  induction l as [|x l IH]; [done|]. simpl. by rewrite !reverse_cons, map_app, IH.
Qed.

Lemma Sorted_impl {A} (R S : A -> A -> Prop) l :
  (forall a b, R a b -> S a b) -> Sorted R l -> Sorted S l.
Proof.
  intros HRS. induction 1 as [|a l Hl IH Ha]; constructor; [done|].
  destruct Ha; constructor. by apply HRS.
Qed.

Lemma Sorted_map {A B} (f : A -> B) (R : B -> B -> Prop) l :
  Sorted (fun a b => R (f a) (f b)) l <-> Sorted R (map f l).
Proof.
  split.
  - induction 1 as [|a l Hl IH Ha]; simpl; constructor; [done|]. destruct Ha; constructor. done.
  - induction l as [|a l IH]; simpl; intros Hs; constructor; apply Sorted_inv in Hs as [Hs Hd]; [by apply IH|].
    destruct l as [|b l]; constructor. by inversion Hd.
Qed.
