(* ===== verification/GoStrings.v ===== *)
(** * Go's strings

    The parts of Go's [strings], [unicode/utf8], [strconv], [encoding/hex] and
    [path/filepath] (Unix) that the server calls. A Go [string] and a [[]byte]
    are both a [string]: a sequence of bytes. *)

From S2P Require Export Prelude.
From Stdlib Require Export Ascii.
From Stdlib Require Import String.

Open Scope Z_scope.

(** ** Bytes *)

Definition code (c : ascii) : Z := Z.of_N (N_of_ascii c).
Definition byte (z : Z) : ascii := ascii_of_N (Z.to_N (z mod 256)).

Definition slen (s : string) : Z := Z.of_nat (String.length s).

Fixpoint stake (n : nat) (s : string) : string :=
  match n, s with
  | S n', String a s' => String a (stake n' s')
  | _, _ => EmptyString
  end.

Fixpoint sdrop (n : nat) (s : string) : string :=
  match n, s with
  | S n', String _ s' => sdrop n' s'
  | _, _ => s
  end.

(** Every byte of [s] satisfies [p]. *)
Fixpoint sforall (p : ascii -> bool) (s : string) : bool :=
  match s with
  | EmptyString => true
  | String a s' => p a && sforall p s'
  end.

Fixpoint sconcat (l : list string) : string :=
  match l with [] => EmptyString | s :: l' => s +:+ sconcat l' end.

(** ** strings *)

Definition HasPrefix (s p : string) : bool := String.prefix p s.
Definition HasSuffix (s p : string) : bool :=
  (String.length p <=? String.length s)%nat &&
  bool_decide (sdrop (String.length s - String.length p) s = p).
Definition TrimSuffix (s p : string) : string :=
  if HasSuffix s p then stake (String.length s - String.length p) s else s.

(** [strings.Index(s, string(c))] for a one-byte separator. *)
Fixpoint IndexByte (s : string) (c : ascii) : option nat :=
  match s with
  | EmptyString => None
  | String a s' => if bool_decide (a = c) then Some O else S <$> IndexByte s' c
  end.

(** [strings.Split(s, string(c))] for a one-byte separator. *)
Fixpoint Split (s : string) (c : ascii) : list string :=
  match s with
  | EmptyString => [EmptyString]
  | String a s' =>
      if bool_decide (a = c) then EmptyString :: Split s' c
      else match Split s' c with
           | h :: t => String a h :: t
           | [] => [String a EmptyString]
           end
  end.

(** [strings.SplitN(s, string(c), 2)] *)
Definition SplitN2 (s : string) (c : ascii) : list string :=
  match IndexByte s c with
  | Some i => [stake i s; sdrop (S i) s]
  | None => [s]
  end.

(** [strings.Join(l, sep)] *)
Definition Join (l : list string) (sep : string) : string := String.concat sep l.

(** [strings.ContainsAny(s, chars)] for ASCII [chars]. *)
Fixpoint sexists (p : ascii -> bool) (s : string) : bool :=
  match s with
  | EmptyString => false
  | String a s' => p a || sexists p s'
  end.
Definition ContainsAny (s chars : string) : bool :=
  sexists (fun a => sexists (fun b => bool_decide (a = b)) chars) s.

(** ** unicode/utf8 *)

Definition RuneError : Z := 0xFFFD.
Definition MaxRune : Z := 0x10FFFF.

Definition in_range (lo hi z : Z) : bool := (lo <=? z) && (z <=? hi).

(** [utf8.ValidRune]: a code point that is not a surrogate half. *)
Definition ValidRune (r : Z) : bool := in_range 0 0xD7FF r || in_range 0xE000 MaxRune r.

(** The range the second byte must lie in, by first byte (the accept ranges
    that exclude overlong forms, surrogates and values above [MaxRune]). *)
Definition accept_lo (b0 : Z) : Z :=
  if b0 =? 0xE0 then 0xA0 else if b0 =? 0xF0 then 0x90 else 0x80.
Definition accept_hi (b0 : Z) : Z :=
  if b0 =? 0xED then 0x9F else if b0 =? 0xF4 then 0x8F else 0xBF.

(** [utf8.DecodeRuneInString]: the first rune and its width in bytes. *)
Definition DecodeRune (s : string) : Z * nat :=
  match s with
  | EmptyString => (RuneError, 0%nat)
  | String a s1 =>
      let b0 := code a in
      if b0 <? 0x80 then (b0, 1%nat)
      else if negb (in_range 0xC2 0xF4 b0) then (RuneError, 1%nat)
      else match s1 with
      | EmptyString => (RuneError, 1%nat)
      | String b s2 =>
          let b1 := code b in
          if negb (in_range (accept_lo b0) (accept_hi b0) b1) then (RuneError, 1%nat)
          else if b0 <? 0xE0 then ((b0 - 0xC0) * 64 + (b1 - 0x80), 2%nat)
          else match s2 with
          | EmptyString => (RuneError, 1%nat)
          | String c s3 =>
              let b2 := code c in
              if negb (in_range 0x80 0xBF b2) then (RuneError, 1%nat)
              else if b0 <? 0xF0
              then ((b0 - 0xE0) * 4096 + (b1 - 0x80) * 64 + (b2 - 0x80), 3%nat)
              else match s3 with
              | EmptyString => (RuneError, 1%nat)
              | String d _ =>
                  let b3 := code d in
                  if negb (in_range 0x80 0xBF b3) then (RuneError, 1%nat)
                  else ((b0 - 0xF0) * 262144 + (b1 - 0x80) * 4096
                        + (b2 - 0x80) * 64 + (b3 - 0x80), 4%nat)
              end
          end
      end
  end.

(** [utf8.AppendRune] on a valid rune. *)
Definition encode_valid (r : Z) : string :=
  if r <? 0x80 then String (byte r) EmptyString
  else if r <? 0x800 then
    String (byte (0xC0 + r / 64)) (String (byte (0x80 + r mod 64)) EmptyString)
  else if r <? 0x10000 then
    String (byte (0xE0 + r / 4096))
      (String (byte (0x80 + r / 64 mod 64))
        (String (byte (0x80 + r mod 64)) EmptyString))
  else
    String (byte (0xF0 + r / 262144))
      (String (byte (0x80 + r / 4096 mod 64))
        (String (byte (0x80 + r / 64 mod 64))
          (String (byte (0x80 + r mod 64)) EmptyString))).

(** [strings.Builder.WriteRune]: an invalid rune is written as U+FFFD. *)
Definition EncodeRune (r : Z) : string :=
  if ValidRune r then encode_valid r else encode_valid RuneError.

(** What [for _, c := range s] visits, with the bytes of each rune. An invalid
    byte is the rune [RuneError] of one byte. *)
Fixpoint runes_fuel (n : nat) (s : string) : list (Z * string) :=
  match n, s with
  | S n', String _ _ =>
      let '(r, w) := DecodeRune s in (r, stake w s) :: runes_fuel n' (sdrop w s)
  | _, _ => []
  end.
Definition runes (s : string) : list (Z * string) := runes_fuel (String.length s) s.

Definition invalid_byte (x : Z * string) : bool :=
  (x.1 =? RuneError) && (String.length x.2 =? 1)%nat.

(** [utf8.Valid] *)
Definition Valid (s : string) : bool := forallb (fun x => negb (invalid_byte x)) (runes s).

(** [strings.Map(f, s)]: a negative result drops the rune. *)
Definition Map (f : Z -> Z) (s : string) : string :=
  sconcat (map (fun x => if f x.1 <? 0 then EmptyString else EncodeRune (f x.1)) (runes s)).

(** [strings.ToValidUTF8(s, repl)]: each run of invalid bytes becomes one
    [repl]. [inv] tells whether the previous rune was invalid. *)
Fixpoint to_valid (inv : bool) (repl : string) (l : list (Z * string)) : string :=
  match l with
  | [] => EmptyString
  | x :: l' =>
      if invalid_byte x then
        if inv then to_valid true repl l' else repl +:+ to_valid true repl l'
      else x.2 +:+ to_valid false repl l'
  end.
Definition ToValidUTF8 (s repl : string) : string := to_valid false repl (runes s).

(** [unicode.IsSpace] *)
Definition IsSpace (r : Z) : bool :=
  in_range 9 13 r || (r =? 0x20) || (r =? 0x85) || (r =? 0xA0) || (r =? 0x1680)
  || in_range 0x2000 0x200A r || (r =? 0x2028) || (r =? 0x2029) || (r =? 0x202F)
  || (r =? 0x205F) || (r =? 0x3000).

Fixpoint drop_while {A} (p : A -> bool) (l : list A) : list A :=
  match l with
  | [] => []
  | x :: l' => if p x then drop_while p l' else l
  end.

(** [strings.TrimSpace] *)
Definition trim_runes (l : list (Z * string)) : list (Z * string) :=
  let sp := fun x : Z * string => IsSpace x.1 in
  reverse (drop_while sp (reverse (drop_while sp l))).
Definition TrimSpace (s : string) : string := sconcat (map snd (trim_runes (runes s))).

(** [unicode.ToLower]: ASCII is written out; the simple lower-case mapping of
    the other code points is the Unicode table, a parameter. *)
Class UnicodeTable := {
  uni_lower : Z -> Z;
  uni_lower_idem : forall r, 0x80 <= r -> 0x80 <= uni_lower r -> uni_lower (uni_lower r) = uni_lower r;
  uni_lower_small : forall r, 0x80 <= r -> in_range 0x41 0x5A (uni_lower r) = false;
  uni_lower_valid : forall r, 0x80 <= r -> ValidRune r = true -> ValidRune (uni_lower r) = true;
  uni_lower_space : forall r, 0x80 <= r -> IsSpace (uni_lower r) = IsSpace r
}.

Definition unicode_ToLower `{UnicodeTable} (r : Z) : Z :=
  if in_range 0x41 0x5A r then r + 32
  else if r <? 0x80 then r
  else uni_lower r.

(** [strings.ToLower] *)
Definition ToLower `{UnicodeTable} (s : string) : string := Map unicode_ToLower s.

(** ** strconv *)

Definition is_digit (c : ascii) : bool := in_range 48 57 (code c).

Fixpoint parse_digits (acc : Z) (s : string) : option Z :=
  match s with
  | EmptyString => Some acc
  | String c s' => if is_digit c then parse_digits (acc * 10 + (code c - 48)) s' else None
  end.

Definition parse_unsigned (s : string) : option Z :=
  match s with EmptyString => None | _ => parse_digits 0 s end.

(** [strconv.ParseInt(s, 10, 64)]; every failure is [None]. *)
Definition ParseInt (s : string) : option Z :=
  let v :=
    match s with
    | String c s' =>
        if bool_decide (c = "-"%char) then Z.opp <$> parse_unsigned s'
        else if bool_decide (c = "+"%char) then parse_unsigned s'
        else parse_unsigned s
    | EmptyString => None
    end in
  match v with
  | Some z => if bool_decide (in_int64 z) then Some z else None
  | None => None
  end.

(** [strconv.Atoi]: [int] has 64 bits. *)
Definition Atoi (s : string) : option Z := ParseInt s.

Definition digit (z : Z) : ascii := byte (48 + z).

Fixpoint digits_fuel (n : nat) (z : Z) : string :=
  match n with
  | O => EmptyString
  | S n' =>
      if z <? 10 then String (digit z) EmptyString
      else digits_fuel n' (z / 10) +:+ String (digit (z mod 10)) EmptyString
  end.
Definition digits (z : Z) : string := digits_fuel (S (Z.to_nat (Z.log2 z))) z.

(** [strconv.FormatInt(z, 10)], [fmt.Sprintf("%d", z)] *)
Definition FormatInt (z : Z) : string :=
  if z <? 0 then String "-" (digits (- z)) else digits z.

Fixpoint zeros (n : nat) : string :=
  match n with O => EmptyString | S n' => String "0" (zeros n') end.

(** [fmt.Sprintf("%03d", z)]: zero padding to width 3, after the sign. *)
Definition Format03d (z : Z) : string :=
  if z <? 0 then String "-" (zeros (2 - String.length (digits (- z))) +:+ digits (- z))
  else zeros (3 - String.length (digits z)) +:+ digits z.

(** ** encoding/hex *)

Definition hex_digit (z : Z) : ascii := if z <? 10 then byte (48 + z) else byte (87 + z).
Fixpoint hex_EncodeToString (s : string) : string :=
  match s with
  | EmptyString => EmptyString
  | String c s' =>
      String (hex_digit (code c / 16)) (String (hex_digit (code c mod 16)) (hex_EncodeToString s'))
  end.

Definition is_hex (c : ascii) : bool := is_digit c || in_range 97 102 (code c).

(** ** path/filepath on Unix *)

Definition slash : ascii := "/"%char.

(** One element of a path pushed on the (reversed) list of cleaned elements. *)
Definition clean_push (rooted : bool) (stack : list string) (c : string) : list string :=
  if bool_decide (c = EmptyString) || bool_decide (c = "."%string) then stack
  else if bool_decide (c = ".."%string) then
    match stack with
    | top :: rest =>
        if bool_decide (top = ".."%string) then ".."%string :: stack else rest
    | [] => if rooted then [] else [".."%string]
    end
  else c :: stack.

Definition clean_stack (rooted : bool) (cs : list string) : list string :=
  fold_left (clean_push rooted) cs [].

(** [filepath.Clean] *)
Definition Clean (path : string) : string :=
  let rooted := HasPrefix path "/" in
  let cs := reverse (clean_stack rooted (Split path slash)) in
  if rooted then "/" +:+ Join cs "/"
  else match cs with [] => "."%string | _ => Join cs "/" end.

(** [filepath.Join] *)
Definition path_Join (elems : list string) : string :=
  match drop_while (fun e => bool_decide (e = EmptyString)) elems with
  | [] => EmptyString
  | es => Clean (Join es "/")
  end.

(** [filepath.Base] *)
Definition Base (path : string) : string :=
  match path with
  | EmptyString => "."%string
  | _ =>
      match drop_while (fun e => bool_decide (e = EmptyString)) (reverse (Split path slash)) with
      | [] => "/"%string
      | c :: _ => c
      end
  end.

(** [filepath.Dir]: what is before the last separator, cleaned. *)
Definition Dir (path : string) : string :=
  match reverse (Split path slash) with
  | _ :: c :: cs => Clean (Join (reverse (c :: cs)) "/" +:+ "/")
  | _ => Clean EmptyString
  end.

(** ** Bytes and strings: lemmas *)

#[local] Ltac Zify.zify_post_hook ::= Z.to_euclidean_division_equations.

Lemma code_range c : 0 <= code c < 256.
Proof.
  unfold code. pose proof (N_ascii_bounded c). lia.
Qed.

Lemma code_byte z : 0 <= z < 256 -> code (byte z) = z.
Proof.
  intros H. unfold code, byte. rewrite Z.mod_small by lia.
  rewrite N_ascii_embedding by lia. lia.
Qed.

Lemma byte_code c : byte (code c) = c.
Proof.
  unfold byte, code. rewrite Z.mod_small.
  - by rewrite N2Z.id, ascii_N_embedding.
  - apply code_range.
Qed.

Lemma code_inj c d : code c = code d -> c = d.
Proof. intros H. rewrite <-(byte_code c), <-(byte_code d). congruence. Qed.

Lemma sapp_nil_r s : s +:+ EmptyString = s.
Proof. induction s; simpl; congruence. Qed.

Lemma sapp_assoc s t u : (s +:+ t) +:+ u = s +:+ (t +:+ u).
Proof. induction s; simpl; congruence. Qed.

Lemma sapp_length s t : String.length (s +:+ t) = (String.length s + String.length t)%nat.
Proof. induction s; simpl; congruence. Qed.

Lemma sapp_inj_l s t u : s +:+ t = s +:+ u -> t = u.
Proof. induction s; simpl; intros; [done|]. simplify_eq. auto. Qed.

Lemma stake_sdrop n s : stake n s +:+ sdrop n s = s.
Proof. revert n. induction s; intros [|n]; simpl; try done. by rewrite IHs. Qed.

Lemma stake_app s t : stake (String.length s) (s +:+ t) = s.
Proof. induction s; simpl; [by destruct t | congruence]. Qed.

Lemma sdrop_app s t : sdrop (String.length s) (s +:+ t) = t.
Proof. induction s; simpl; [by destruct t | done]. Qed.

Lemma HasSuffix_app s t : HasSuffix (s +:+ t) t = true.
Proof.
  unfold HasSuffix. rewrite sapp_length. apply andb_true_iff. split; [apply Nat.leb_le; lia|].
  apply bool_decide_eq_true. replace (String.length s + String.length t - String.length t)%nat with (String.length s) by lia.
  apply sdrop_app.
Qed.

Lemma stake_app_le n s t : (n <= String.length s)%nat -> stake n (s +:+ t) = stake n s.
Proof.
  revert n. induction s as [|a s IH]; intros [|n] Hn; simpl in *; try done; try lia; try (by destruct t).
  by rewrite IH by lia.
Qed.

Lemma sdrop_app_le n s t : (n <= String.length s)%nat -> sdrop n (s +:+ t) = sdrop n s +:+ t.
Proof.
  revert n. induction s as [|a s IH]; intros [|n] Hn; simpl in *; try done; try lia; try (by destruct t).
  apply IH. lia.
Qed.

Lemma sdrop_length n s : String.length (sdrop n s) = (String.length s - n)%nat.
Proof. revert n. induction s; intros [|n]; simpl; try done; apply IHs. Qed.

Lemma stake_all n s : (String.length s <= n)%nat -> stake n s = s.
Proof.
  revert n. induction s as [|a s IH]; intros [|n] Hn; simpl in *; [done|done|lia|].
  by rewrite IH by lia.
Qed.

Lemma stake_length n s : (n <= String.length s)%nat -> String.length (stake n s) = n.
Proof. revert n. induction s; intros [|n] H; simpl in *; try lia. rewrite IHs; lia. Qed.

Lemma sforall_app p s t : sforall p (s +:+ t) = sforall p s && sforall p t.
Proof. induction s; simpl; [done|]. by rewrite IHs, andb_assoc. Qed.

Lemma sforall_impl (p q : ascii -> bool) s :
  (forall c, p c = true -> q c = true) -> sforall p s = true -> sforall q s = true.
Proof.
  intros Hpq. induction s as [|a s IH]; simpl; [done|].
  rewrite !andb_true_iff. intros [??]. auto.
Qed.

Lemma sexists_sforall p s : sexists p s = negb (sforall (fun a => negb (p a)) s).
Proof. induction s; simpl; [done|]. rewrite IHs. by destruct (p a). Qed.

Lemma HasPrefix_spec s p : HasPrefix s p = true <-> exists t, s = p +:+ t.
Proof.
  unfold HasPrefix. revert s. induction p as [|a p IH]; intros s; simpl.
  - split; [by exists s | by destruct s].
  - destruct s as [|b s]; [split; [done | by intros [t ?]]|].
    simpl. destruct (ascii_dec a b) as [<-|Hne]; [rewrite IH|]; split.
    + intros [t ->]. by exists t.
    + intros [t [= ->]]. by exists t.
    + done.
    + intros [t [= -> _]]. done.
Qed.

Lemma sconcat_app l l' : sconcat (l ++ l') = sconcat l +:+ sconcat l'.
Proof. induction l; simpl; [done|]. by rewrite IHl, sapp_assoc. Qed.

(** ** UTF-8: decoding and encoding are inverse on valid runes *)

Lemma in_range_spec lo hi z : in_range lo hi z = true <-> lo <= z <= hi.
Proof. unfold in_range. rewrite andb_true_iff, !Z.leb_le. done. Qed.

Lemma in_range_false lo hi z : in_range lo hi z = false <-> z < lo \/ hi < z.
Proof. unfold in_range. rewrite andb_false_iff, !Z.leb_gt. done. Qed.

Lemma ValidRune_spec r :
  ValidRune r = true <-> 0 <= r <= 0xD7FF \/ 0xE000 <= r <= MaxRune.
Proof. unfold ValidRune. by rewrite orb_true_iff, !in_range_spec. Qed.

(** Decide every integer test of the goal by [lia]. *)
Ltac z_decide :=
  repeat first
    [ rewrite code_byte by lia
    | match goal with
      | |- context [?a <? ?b] =>
          first [ rewrite (proj2 (Z.ltb_lt a b)) by lia
                | rewrite (proj2 (Z.ltb_ge a b)) by lia ]
      | |- context [?a =? ?b] =>
          first [ rewrite (proj2 (Z.eqb_eq a b)) by lia
                | rewrite (proj2 (Z.eqb_neq a b)) by lia ]
      | |- context [in_range ?a ?b ?c] =>
          first [ rewrite (proj2 (in_range_spec a b c)) by lia
                | rewrite (proj2 (in_range_false a b c)) by lia ]
      end ]; simpl.

Lemma DecodeRune_encode r s :
  ValidRune r = true ->
  DecodeRune (encode_valid r +:+ s) = (r, String.length (encode_valid r)).
Proof.
  intros Hr%ValidRune_spec. unfold MaxRune in Hr. unfold encode_valid.
  destruct (Z.ltb_spec r 0x80); [|destruct (Z.ltb_spec r 0x800);
    [|destruct (Z.ltb_spec r 0x10000)]]; simpl.
  - z_decide. done.
  - z_decide. unfold accept_lo, accept_hi. z_decide. f_equal. lia.
  - rewrite !code_byte by lia. z_decide.
    assert (in_range (accept_lo (224 + r / 4096)) (accept_hi (224 + r / 4096))
              (128 + r / 64 mod 64) = true) as ->.
    { apply in_range_spec. unfold accept_lo, accept_hi.
      destruct (Z.eqb_spec (224 + r / 4096) 0xE0);
      destruct (Z.eqb_spec (224 + r / 4096) 0xF0);
      destruct (Z.eqb_spec (224 + r / 4096) 0xED);
      destruct (Z.eqb_spec (224 + r / 4096) 0xF4); lia. }
    z_decide. f_equal. lia.
  - rewrite !code_byte by lia. z_decide.
    assert (in_range (accept_lo (240 + r / 262144)) (accept_hi (240 + r / 262144))
              (128 + r / 4096 mod 64) = true) as ->.
    { apply in_range_spec. unfold accept_lo, accept_hi.
      destruct (Z.eqb_spec (240 + r / 262144) 0xE0);
      destruct (Z.eqb_spec (240 + r / 262144) 0xF0);
      destruct (Z.eqb_spec (240 + r / 262144) 0xED);
      destruct (Z.eqb_spec (240 + r / 262144) 0xF4); lia. }
    z_decide. f_equal. lia.
Qed.

(** The other direction: unless the decoder reports an invalid byte, the bytes
    it consumes are the encoding of the rune it returns. *)
Lemma byte_of_code z c : z = code c -> byte z = c.
Proof. intros ->. apply byte_code. Qed.

Lemma DecodeRune_spec a s r w :
  DecodeRune (String a s) = (r, w) ->
  (r = RuneError /\ w = 1%nat) \/
  (ValidRune r = true /\ w = String.length (encode_valid r) /\
   exists t, String a s = encode_valid r +:+ t).
Proof.
  simpl. pose proof (code_range a) as Ha.
  destruct (Z.ltb_spec (code a) 0x80).
  { intros [= <- <-]. right. rewrite ValidRune_spec. unfold encode_valid, MaxRune.
    z_decide. split; [lia|]. split; [done|]. exists s. by rewrite byte_code. }
  destruct (in_range 0xC2 0xF4 (code a)) eqn:E0; simpl; [|by intros [= <- <-]; left].
  apply in_range_spec in E0. destruct s as [|b s]; [by intros [= <- <-]; left|].
  pose proof (code_range b) as Hb.
  destruct (in_range (accept_lo _) _ (code b)) eqn:E1; simpl; [|by intros [= <- <-]; left].
  apply in_range_spec in E1. unfold accept_lo, accept_hi in E1.
  assert (0x80 <= code b <= 0xBF) as Hb'.
  { revert E1. repeat case_match; lia. }
  destruct (Z.ltb_spec (code a) 0xE0).
  { intros [= <- <-]. right. rewrite ValidRune_spec. unfold encode_valid, MaxRune.
    z_decide. split; [lia|]. split; [done|]. exists s.
    rewrite (byte_of_code _ a), (byte_of_code _ b) by lia. done. }
  destruct s as [|c s]; [by intros [= <- <-]; left|]. pose proof (code_range c) as Hc.
  destruct (in_range 0x80 0xBF (code c)) eqn:E2; simpl; [|by intros [= <- <-]; left].
  apply in_range_spec in E2.
  destruct (Z.ltb_spec (code a) 0xF0).
  { intros [= <- <-]. right. rewrite ValidRune_spec. unfold encode_valid, MaxRune.
    assert (code a = 0xE0 -> 0xA0 <= code b) by (intros Heq; rewrite Heq in E1; simpl in E1; lia).
    assert (code a = 0xED -> code b <= 0x9F) by (intros Heq; rewrite Heq in E1; simpl in E1; lia).
    z_decide. split; [lia|]. split; [done|]. exists s.
    rewrite (byte_of_code _ a), (byte_of_code _ b), (byte_of_code _ c) by lia. done. }
  destruct s as [|d s]; [by intros [= <- <-]; left|]. pose proof (code_range d) as Hd.
  destruct (in_range 0x80 0xBF (code d)) eqn:E3; simpl; [|by intros [= <- <-]; left].
  apply in_range_spec in E3.
  intros [= <- <-]. right. rewrite ValidRune_spec. unfold encode_valid, MaxRune.
  assert (code a = 0xF0 -> 0x90 <= code b) by (intros Heq; rewrite Heq in E1; simpl in E1; lia).
  assert (code a = 0xF4 -> code b <= 0x8F) by (intros Heq; rewrite Heq in E1; simpl in E1; lia).
  z_decide. split; [lia|]. split; [done|]. exists s.
  rewrite (byte_of_code _ a), (byte_of_code _ b), (byte_of_code _ c), (byte_of_code _ d) by lia.
  done.
Qed.

Lemma encode_valid_nonempty r : exists a t, encode_valid r = String a t.
Proof. unfold encode_valid. repeat case_match; eauto. Qed.

Lemma DecodeRune_width a s r w :
  DecodeRune (String a s) = (r, w) -> (1 <= w <= S (String.length s))%nat.
Proof.
  intros [[_ ->]|(_ & -> & t & Ht)]%DecodeRune_spec; [lia|].
  apply (f_equal String.length) in Ht. rewrite sapp_length in Ht. simpl in Ht.
  destruct (encode_valid_nonempty r) as (b & u & Hu). rewrite Hu in *. simpl in *. lia.
Qed.

Lemma runes_fuel_enough n m s :
  (String.length s <= n)%nat -> (String.length s <= m)%nat -> runes_fuel n s = runes_fuel m s.
Proof.
  revert m s. induction n as [|n IH]; intros [|m] [|a s] Hn Hm; simpl in Hn, Hm; try lia; try done.
  cbn [runes_fuel]. destruct (DecodeRune (String a s)) as [r w] eqn:E.
  pose proof (DecodeRune_width _ _ _ _ E). f_equal.
  apply IH; rewrite sdrop_length; simpl; lia.
Qed.

Lemma runes_cons a s :
  runes (String a s) =
  let '(r, w) := DecodeRune (String a s) in
  (r, stake w (String a s)) :: runes (sdrop w (String a s)).
Proof.
  unfold runes. cbn [String.length runes_fuel].
  destruct (DecodeRune (String a s)) as [r w] eqn:E. f_equal.
  pose proof (DecodeRune_width _ _ _ _ E).
  apply runes_fuel_enough; rewrite ?sdrop_length; simpl; lia.
Qed.

(** Induction on the runes of a string. *)
Lemma runes_ind (P : string -> Prop) :
  P EmptyString ->
  (forall a s r w, DecodeRune (String a s) = (r, w) ->
     P (sdrop w (String a s)) -> P (String a s)) ->
  forall s, P s.
Proof.
  intros H0 HS s. remember (String.length s) as n eqn:Hn.
  revert s Hn. induction n as [n IH] using lt_wf_ind. intros [|a s] ->; [done|].
  destruct (DecodeRune (String a s)) as [r w] eqn:E. apply (HS _ _ _ _ E).
  pose proof (DecodeRune_width _ _ _ _ E).
  eapply IH; [|done]. rewrite sdrop_length. simpl. lia.
Qed.

Lemma runes_encode r s :
  ValidRune r = true -> runes (encode_valid r +:+ s) = (r, encode_valid r) :: runes s.
Proof.
  intros Hr. destruct (encode_valid_nonempty r) as (a & t & Ht).
  pose proof (DecodeRune_encode r s Hr) as HD. rewrite Ht in *.
  change (String a t +:+ s) with (String a (t +:+ s)) in *.
  rewrite runes_cons, HD. change (String a (t +:+ s)) with (String a t +:+ s).
  by rewrite stake_app, sdrop_app.
Qed.

Lemma runes_concat s : sconcat (map snd (runes s)) = s.
Proof.
  induction s as [|a s r w E IH] using runes_ind; [done|].
  rewrite runes_cons, E. simpl. by rewrite IH, stake_sdrop.
Qed.

Lemma invalid_byte_encode r : invalid_byte (r, encode_valid r) = false.
Proof.
  unfold invalid_byte. simpl. destruct (Z.eqb_spec r RuneError) as [->|]; done.
Qed.

(** Every element of [runes s] is an invalid byte or a correctly encoded rune. *)
Lemma runes_elems s :
  Forall (fun x => invalid_byte x = true \/ ValidRune x.1 = true /\ x.2 = encode_valid x.1)
    (runes s).
Proof.
  induction s as [|a s r w E IH] using runes_ind; [constructor|].
  rewrite runes_cons, E. constructor; [|done]. simpl.
  pose proof (DecodeRune_width _ _ _ _ E).
  destruct (DecodeRune_spec _ _ _ _ E) as [[-> ->]|(Hr & -> & t & ->)].
  - left. unfold invalid_byte. simpl. by destruct s.
  - right. by rewrite stake_app.
Qed.

(** [utf8.Valid]: a byte string is valid iff it is a sequence of encodings. *)
Lemma Valid_spec s :
  Valid s = true <->
  exists rs, Forall (fun r => ValidRune r = true) rs /\ s = sconcat (map encode_valid rs).
Proof.
  split.
  - unfold Valid. rewrite forallb_Forall. intros H. exists (map fst (runes s)).
    rewrite <-(runes_concat s) at 2. pose proof (runes_elems s) as He.
    induction (runes s) as [|x l IH]; simpl; [done|].
    apply Forall_cons in H as [Hx H]. apply Forall_cons in He as [[Hi|[Hv Hb]] He].
    { by rewrite Hi in Hx. }
    destruct (IH H He) as [IH1 IH2]. split; [by constructor|]. by rewrite Hb, IH2.
  - intros (rs & Hrs & ->). induction Hrs as [|r rs Hr Hrs IH]; simpl; [done|].
    unfold Valid in *. rewrite runes_encode by done. cbn [forallb].
    by rewrite invalid_byte_encode.
Qed.

Lemma Valid_encode r : ValidRune r = true -> Valid (encode_valid r) = true.
Proof.
  intros Hr. apply Valid_spec. exists [r]. split; [by repeat constructor|].
  simpl. by rewrite sapp_nil_r.
Qed.

Lemma Valid_app s t : Valid s = true -> Valid t = true -> Valid (s +:+ t) = true.
Proof.
  rewrite !Valid_spec. intros (rs & Hrs & ->) (rs' & Hrs' & ->).
  exists (rs ++ rs'). split; [by apply Forall_app|]. by rewrite map_app, sconcat_app.
Qed.

Lemma Valid_sconcat l : Forall (fun s => Valid s = true) l -> Valid (sconcat l) = true.
Proof. induction 1; simpl; [done|]. by apply Valid_app. Qed.

Lemma EncodeRune_valid r : exists r', ValidRune r' = true /\ EncodeRune r = encode_valid r'.
Proof. unfold EncodeRune. destruct (ValidRune r) eqn:E; [by exists r | by exists RuneError]. Qed.

Lemma Valid_EncodeRune r : Valid (EncodeRune r) = true.
Proof. destruct (EncodeRune_valid r) as (r' & Hr & ->). by apply Valid_encode. Qed.

(** [strings.Map] always returns valid UTF-8, whatever its input. *)
Lemma Valid_Map f s : Valid (Map f s) = true.
Proof.
  apply Valid_sconcat. apply Forall_map, Forall_true. intros x. simpl.
  destruct (f x.1 <? 0); [done | apply Valid_EncodeRune].
Qed.

Lemma Valid_ToLower `{UnicodeTable} s : Valid (ToLower s) = true.
Proof. apply Valid_Map. Qed.

Lemma Valid_to_valid inv repl l :
  Valid repl = true ->
  Forall (fun x => invalid_byte x = true \/ ValidRune x.1 = true /\ x.2 = encode_valid x.1) l ->
  Valid (to_valid inv repl l) = true.
Proof.
  intros Hrepl H. revert inv. induction H as [|x l Hx Hl IH]; intros inv; simpl; [done|].
  destruct (invalid_byte x) eqn:Ei.
  - destruct inv; [done|]. by apply Valid_app.
  - destruct Hx as [?|[Hv ->]]; [congruence|]. apply Valid_app; [by apply Valid_encode | done].
Qed.

(** [strings.ToValidUTF8] returns valid UTF-8 and leaves valid input alone. *)
Lemma Valid_ToValidUTF8 s repl : Valid repl = true -> Valid (ToValidUTF8 s repl) = true.
Proof. intros H. apply Valid_to_valid; [done | apply runes_elems]. Qed.

Lemma ToValidUTF8_id s repl : Valid s = true -> ToValidUTF8 s repl = s.
Proof.
  unfold Valid, ToValidUTF8. rewrite forallb_Forall. intros H.
  rewrite <-(runes_concat s) at 2.
  induction H as [|x l Hx Hl IH]; simpl; [done|].
  apply negb_true_iff in Hx. by rewrite Hx, IH.
Qed.

(** A byte string below 0x80 is valid. *)
Lemma Valid_ascii s : sforall (fun c => code c <? 0x80) s = true -> Valid s = true.
Proof.
  induction s as [|a s IH]; [done|]. simpl. rewrite andb_true_iff, Z.ltb_lt. intros [Ha Hs].
  change (String a s) with (String a EmptyString +:+ s). apply Valid_app; [|auto].
  pose proof (code_range a).
  assert (String a EmptyString = encode_valid (code a)) as ->.
  { unfold encode_valid. z_decide. by rewrite byte_code. }
  apply Valid_encode, ValidRune_spec. unfold MaxRune. lia.
Qed.

(** ** Trimming and case mapping *)

Lemma drop_while_suffix {A} (p : A -> bool) l : exists l1, l = l1 ++ drop_while p l.
Proof.
  induction l as [|x l [l1 IH]]; simpl; [by exists []|].
  destruct (p x); [|by exists []]. exists (x :: l1). simpl. by f_equal.
Qed.

Lemma drop_while_head {A} (p : A -> bool) l x l' : drop_while p l = x :: l' -> p x = false.
Proof.
  induction l as [|y l IH]; simpl; [done|]. destruct (p y) eqn:E; [auto|].
  intros [= <- _]. done.
Qed.

Lemma drop_while_id {A} (p : A -> bool) l :
  match l with [] => True | x :: _ => p x = false end -> drop_while p l = l.
Proof. destruct l; simpl; [done|]. by intros ->. Qed.

(** A list whose two ends are not in [p] is what trimming produces and keeps. *)
Definition ends_not {A} (p : A -> bool) (l : list A) : Prop :=
  match l with [] => True | x :: _ => p x = false end /\
  match reverse l with [] => True | x :: _ => p x = false end.

Definition is_space_elem (x : Z * string) : bool := IsSpace x.1.

Lemma trim_runes_infix l : exists l1 l3, l = l1 ++ trim_runes l ++ l3.
Proof.
  destruct (drop_while_suffix is_space_elem l) as [l1 H1].
  destruct (drop_while_suffix is_space_elem (reverse (drop_while is_space_elem l))) as [l3 H3].
  exists l1, (reverse l3). apply (f_equal reverse) in H3.
  rewrite reverse_involutive, reverse_app in H3. unfold trim_runes.
  etransitivity; [exact H1|]. f_equal. exact H3.
Qed.

Lemma trim_runes_ends l : ends_not is_space_elem (trim_runes l).
Proof.
  unfold trim_runes. set (m := drop_while _ l).
  destruct (drop_while_suffix is_space_elem (reverse m)) as [l3 H3].
  split; [|rewrite reverse_involutive].
  - destruct (reverse (drop_while _ (reverse m))) as [|x t] eqn:E; [done|].
    apply (f_equal reverse) in H3. rewrite reverse_involutive, reverse_app in H3.
    unfold is_space_elem in H3 at 1. rewrite E in H3. simpl in H3.
    eapply (drop_while_head is_space_elem l). exact H3.
  - destruct (drop_while _ (reverse m)) as [|x t] eqn:E; [done|].
    by apply drop_while_head in E.
Qed.

Lemma trim_runes_id l : ends_not is_space_elem l -> trim_runes l = l.
Proof.
  intros [H1 H2]. unfold trim_runes.
  rewrite (drop_while_id _ l), (drop_while_id _ (reverse l)) by done.
  apply reverse_involutive.
Qed.

(** A suffix, resp. a prefix, of the runes of a string is the decoding of its bytes. *)
Lemma runes_suffix s l1 l2 : runes s = l1 ++ l2 -> runes (sconcat (map snd l2)) = l2.
Proof.
  revert s. induction l1 as [|x l1 IH]; intros s Hs; simpl in Hs.
  - subst l2. by rewrite runes_concat.
  - destruct s as [|a s]; [done|]. rewrite runes_cons in Hs.
    destruct (DecodeRune (String a s)) as [r w]. simplify_eq/=. eauto.
Qed.

Lemma DecodeRune_prefix_invalid a u s :
  DecodeRune (String a (u +:+ s)) = (RuneError, 1%nat) ->
  DecodeRune (String a u) = (RuneError, 1%nat).
Proof.
  intros H. destruct (DecodeRune (String a u)) as [r w] eqn:E.
  destruct (DecodeRune_spec _ _ _ _ E) as [[-> ->]|(Hr & -> & t & Ht)]; [done|].
  change (String a (u +:+ s)) with (String a u +:+ s) in H.
  rewrite Ht, sapp_assoc, DecodeRune_encode in H by done. simplify_eq.
Qed.

Lemma runes_prefix s l1 l2 : runes s = l1 ++ l2 -> runes (sconcat (map snd l1)) = l1.
Proof.
  revert l1. induction s as [|a s r w E IH] using runes_ind; intros l1 Hs.
  { by destruct l1. }
  destruct l1 as [|x l1]; [done|]. rewrite runes_cons, E in Hs.
  injection Hs as <- Hs. cbn [map sconcat snd].
  assert (sdrop w (String a s) = sconcat (map snd l1) +:+ sconcat (map snd l2)) as Hd.
  { rewrite <-sconcat_app, <-map_app, <-Hs. by rewrite runes_concat. }
  destruct (DecodeRune_spec _ _ _ _ E) as [[-> ->]|(Hr & -> & t & Ht)].
  - simpl in *. rewrite Hd in E. apply DecodeRune_prefix_invalid in E.
    rewrite runes_cons, E. simpl. f_equal. eauto.
  - rewrite Ht, stake_app, runes_encode by done. f_equal. eauto.
Qed.

Lemma runes_TrimSpace s : runes (TrimSpace s) = trim_runes (runes s).
Proof.
  destruct (trim_runes_infix (runes s)) as (l1 & l3 & H).
  unfold TrimSpace. apply runes_suffix in H as H'.
  exact (runes_prefix _ _ _ H').
Qed.

Lemma TrimSpace_idem s : TrimSpace (TrimSpace s) = TrimSpace s.
Proof.
  unfold TrimSpace at 1. rewrite runes_TrimSpace, trim_runes_id; [done|].
  apply trim_runes_ends.
Qed.

Lemma runes_encode_list rs :
  Forall (fun r => ValidRune r = true) rs ->
  runes (sconcat (map encode_valid rs)) = map (fun r => (r, encode_valid r)) rs.
Proof. induction 1; simpl; [done|]. rewrite runes_encode by done. by f_equal. Qed.

Section lower.
Context `{UnicodeTable}.

Lemma ValidRune_RuneError : ValidRune RuneError = true.
Proof. done. Qed.

Lemma runes_values s : Forall (fun x => ValidRune x.1 = true) (runes s).
Proof.
  eapply Forall_impl; [apply runes_elems|]. intros [r b] [Hi|[Hv _]]; [|done].
  unfold invalid_byte in Hi. apply andb_true_iff in Hi as [->%Z.eqb_eq _]. done.
Qed.

Lemma unicode_ToLower_valid r : ValidRune r = true -> ValidRune (unicode_ToLower r) = true.
Proof.
  intros Hr. unfold unicode_ToLower.
  destruct (in_range 0x41 0x5A r) eqn:E.
  - apply in_range_spec in E. apply ValidRune_spec. unfold MaxRune. lia.
  - destruct (Z.ltb_spec r 0x80); [done|]. apply uni_lower_valid; [lia|done].
Qed.

Lemma unicode_ToLower_space r : IsSpace (unicode_ToLower r) = IsSpace r.
Proof.
  unfold unicode_ToLower. destruct (in_range 0x41 0x5A r) eqn:E.
  - apply in_range_spec in E. unfold IsSpace. z_decide. done.
  - destruct (Z.ltb_spec r 0x80); [done|]. apply uni_lower_space. lia.
Qed.

Lemma unicode_ToLower_idem r : unicode_ToLower (unicode_ToLower r) = unicode_ToLower r.
Proof.
  unfold unicode_ToLower at 2 3. destruct (in_range 0x41 0x5A r) eqn:E.
  - apply in_range_spec in E. unfold unicode_ToLower. by z_decide.
  - destruct (Z.ltb_spec r 0x80) as [?|Hr].
    + unfold unicode_ToLower. rewrite E. by z_decide.
    + unfold unicode_ToLower. rewrite uni_lower_small by done.
      destruct (Z.ltb_spec (uni_lower r) 0x80); [done|]. by apply uni_lower_idem.
Qed.

Lemma ToLower_spec s :
  ToLower s = sconcat (map encode_valid (map (fun x => unicode_ToLower x.1) (runes s))).
Proof.
  unfold ToLower, Map. f_equal. rewrite map_map. apply map_ext_Forall.
  eapply Forall_impl; [apply runes_values|]. intros x Hx. simpl.
  apply unicode_ToLower_valid in Hx. unfold EncodeRune. rewrite Hx.
  apply ValidRune_spec in Hx. by z_decide.
Qed.

Lemma runes_ToLower s :
  runes (ToLower s) =
  map (fun r => (r, encode_valid r)) (map (fun x => unicode_ToLower x.1) (runes s)).
Proof.
  rewrite ToLower_spec. apply runes_encode_list, Forall_map.
  eapply Forall_impl; [apply runes_values|]. intros x. apply unicode_ToLower_valid.
Qed.

Lemma ToLower_idem s : ToLower (ToLower s) = ToLower s.
Proof.
  rewrite (ToLower_spec (ToLower s)), runes_ToLower, !map_map, ToLower_spec.
  f_equal. rewrite !map_map. apply map_ext. intros x. simpl. by rewrite unicode_ToLower_idem.
Qed.

Lemma TrimSpace_id s : ends_not is_space_elem (runes s) -> TrimSpace s = s.
Proof. intros H'. unfold TrimSpace. by rewrite trim_runes_id, runes_concat. Qed.

(** Lower-casing does not create white space at the ends. *)
Lemma TrimSpace_ToLower_trimmed s : TrimSpace (ToLower (TrimSpace s)) = ToLower (TrimSpace s).
Proof.
  apply TrimSpace_id. rewrite runes_ToLower, runes_TrimSpace, map_map.
  destruct (trim_runes_ends (runes s)) as [H1 H2]. unfold ends_not.
  rewrite <-map_reverse.
  split; [destruct (trim_runes (runes s)) | destruct (reverse (trim_runes (runes s)))];
    unfold is_space_elem in *; simpl in *; try done; by rewrite unicode_ToLower_space.
Qed.

(** The canonical form [ToLower(TrimSpace(x))] of an address is a fixed point. *)
Lemma canonical_idem s :
  ToLower (TrimSpace (ToLower (TrimSpace s))) = ToLower (TrimSpace s).
Proof. by rewrite TrimSpace_ToLower_trimmed, ToLower_idem. Qed.
End lower.

(** A small concrete table: Latin-1 and Cyrillic capitals. *)
Definition table_lower (r : Z) : Z :=
  if in_range 0xC0 0xD6 r then r + 32
  else if in_range 0x410 0x42F r then r + 32
  else r.

Lemma table_lower_cases r :
  table_lower r = r /\ in_range 0xC0 0xD6 r = false /\ in_range 0x410 0x42F r = false \/
  table_lower r = r + 32 /\ (0xC0 <= r <= 0xD6 \/ 0x410 <= r <= 0x42F).
Proof.
  unfold table_lower. destruct (in_range 0xC0 0xD6 r) eqn:E1; [apply in_range_spec in E1; auto|].
  destruct (in_range 0x410 0x42F r) eqn:E2; [apply in_range_spec in E2; auto|]. auto.
Qed.

#[export] Instance unicode_latin : UnicodeTable.
Proof.
  refine {| uni_lower := table_lower |}; intros r Hr;
    destruct (table_lower_cases r) as [(-> & E1 & E2)|[-> Hc]].
  - unfold table_lower. by rewrite E1, E2.
  - intros _. unfold table_lower. by z_decide.
  - z_decide. done.
  - z_decide. done.
  - done.
  - intros _. apply ValidRune_spec. unfold MaxRune. lia.
  - done.
  - unfold IsSpace. z_decide. by destruct Hc; z_decide.
Defined.

(** ** Decimal numbers: printing and parsing are inverse *)

Lemma parse_digits_app a s t :
  parse_digits a (s +:+ t) = parse_digits a s ≫= fun v => parse_digits v t.
Proof. revert a. induction s; intros b; simpl; [done|]. by destruct (is_digit a). Qed.

Lemma code_digit z : 0 <= z < 10 -> code (digit z) = 48 + z.
Proof. intros. unfold digit. rewrite code_byte; lia. Qed.

Lemma is_digit_digit z : 0 <= z < 10 -> is_digit (digit z) = true.
Proof. intros. unfold is_digit. rewrite code_digit by done. apply in_range_spec. lia. Qed.

Lemma parse_digit z a : 0 <= z < 10 -> parse_digits a (String (digit z) EmptyString) = Some (a * 10 + z).
Proof. intros. simpl. rewrite is_digit_digit, code_digit by done. f_equal. lia. Qed.

Lemma digits_fuel_spec n z :
  0 <= z < 10 ^ Z.of_nat n -> (0 < n)%nat ->
  parse_digits 0 (digits_fuel n z) = Some z /\ digits_fuel n z <> EmptyString /\
  sforall is_digit (digits_fuel n z) = true.
Proof.
  revert z. induction n as [|n IH]; intros z Hz Hn; [lia|]. cbn [digits_fuel].
  destruct (Z.ltb_spec z 10).
  { rewrite parse_digit by lia. simpl. by rewrite is_digit_digit by lia. }
  rewrite Nat2Z.inj_succ, Z.pow_succ_r in Hz by lia.
  destruct n as [|n]; [simpl in Hz; lia|].
  destruct (IH (z / 10)) as (IH1 & IH2 & IH3); [lia|lia|].
  rewrite parse_digits_app, IH1. simpl option_bind. cbn [mbind option_bind].
  rewrite parse_digit by lia. split; [f_equal; lia|]. split.
  - by destruct (digits_fuel (S n) (z / 10)).
  - rewrite sforall_app, IH3. simpl. by rewrite is_digit_digit by lia.
Qed.

Lemma digits_fuel_enough z : 0 <= z -> z < 10 ^ Z.of_nat (S (Z.to_nat (Z.log2 z))).
Proof.
  intros Hz. pose proof (Z.log2_nonneg z). rewrite Nat2Z.inj_succ, Z2Nat.id by done.
  destruct (Z.eq_dec z 0) as [->|]; [done|].
  destruct (Z.log2_spec z) as [_ Hlt]; [lia|].
  eapply Z.lt_le_trans; [exact Hlt|]. apply Z.pow_le_mono_l. lia.
Qed.

Lemma digits_spec z :
  0 <= z ->
  parse_digits 0 (digits z) = Some z /\ digits z <> EmptyString /\
  sforall is_digit (digits z) = true.
Proof. intros. apply digits_fuel_spec; [|lia]. split; [done | by apply digits_fuel_enough]. Qed.

Lemma digits_head z : 0 <= z -> exists c t, digits z = String c t /\ is_digit c = true.
Proof.
  intros (_ & H2 & H3)%digits_spec. destruct (digits z) as [|c t]; [done|].
  simpl in H3. apply andb_true_iff in H3 as [? _]. eauto.
Qed.

Lemma parse_unsigned_digits z : 0 <= z -> parse_unsigned (digits z) = Some z.
Proof.
  intros Hz. destruct (digits_spec z Hz) as (H1 & H2 & _).
  unfold parse_unsigned. by destruct (digits z).
Qed.

(** [strconv.ParseInt] inverts [strconv.FormatInt] on [int64]. *)
Lemma ParseInt_FormatInt z : in_int64 z -> ParseInt (FormatInt z) = Some z.
Proof.
  intros Hz. unfold ParseInt, FormatInt. destruct (Z.ltb_spec z 0).
  - simpl. rewrite parse_unsigned_digits by lia. simpl. rewrite Z.opp_involutive.
    by rewrite bool_decide_eq_true_2.
  - destruct (digits_head z) as (c & t & Hd & Hc); [lia|].
    rewrite Hd, !bool_decide_eq_false_2 by (intros ->; done).
    rewrite <-Hd, parse_unsigned_digits by lia. by rewrite bool_decide_eq_true_2.
Qed.

Lemma FormatInt_inj z z' : in_int64 z -> in_int64 z' -> FormatInt z = FormatInt z' -> z = z'.
Proof.
  intros H1%ParseInt_FormatInt H2%ParseInt_FormatInt Heq. rewrite Heq in H1. congruence.
Qed.

Lemma ParseInt_range s z : ParseInt s = Some z -> in_int64 z.
Proof.
  unfold ParseInt. intros H. repeat case_match; simplify_eq; by case_bool_decide.
Qed.

(** ** ASCII properties of runes and of bytes *)

Lemma encode_valid_high r c0 :
  ValidRune r = true -> 0x80 <= r -> sforall (fun c => 0x80 <=? code c) (encode_valid r) = true /\
  (forall p : Z -> bool, (forall z, 0x80 <= z -> p z = c0) ->
     sforall (fun c => bool_decide (p (code c) = c0)) (encode_valid r) = true).
Proof.
  intros Hv Hr. assert (sforall (fun c => 0x80 <=? code c) (encode_valid r) = true) as Hh.
  { apply ValidRune_spec in Hv. unfold MaxRune in Hv. unfold encode_valid.
    destruct (Z.ltb_spec r 0x80); [lia|].
    destruct (Z.ltb_spec r 0x800); [|destruct (Z.ltb_spec r 0x10000)]; simpl;
      rewrite !code_byte by lia; rewrite !andb_true_iff, !Z.leb_le; lia. }
  split; [done|]. intros p Hp. eapply sforall_impl; [|exact Hh].
  intros c Hc%Z.leb_le. apply bool_decide_eq_true. by apply Hp.
Qed.

Lemma sexists_app p s t : sexists p (s +:+ t) = sexists p s || sexists p t.
Proof. induction s; simpl; [done|]. by rewrite IHs, orb_assoc. Qed.

(** A test of code points that only ASCII passes sees the bytes. *)
Lemma runes_ascii (p : Z -> bool) s :
  (forall z, 0x80 <= z -> p z = false) ->
  existsb (fun x => p x.1) (runes s) = sexists (fun c => p (code c)) s.
Proof.
  intros Hp. induction s as [|a s r w E IH] using runes_ind; [done|].
  rewrite runes_cons, E. cbn [existsb fst]. rewrite IH.
  rewrite <-(stake_sdrop w (String a s)) at 2. rewrite sexists_app. f_equal.
  destruct (Z.lt_ge_cases (code a) 0x80) as [Ha|Ha].
  - unfold DecodeRune in E. rewrite (proj2 (Z.ltb_lt _ _) Ha) in E. injection E as <- <-.
    simpl. by rewrite orb_false_r.
  - assert (0x80 <= r /\ sforall (fun c => 0x80 <=? code c) (stake w (String a s)) = true) as [Hr Hs].
    { destruct (DecodeRune_spec _ _ _ _ E) as [[-> ->]|(Hv & -> & t & Ht)].
      - simpl. rewrite (proj2 (Z.leb_le _ _) Ha). done.
      - rewrite Ht, stake_app. assert (0x80 <= r) as Hr; [|split; [done|by apply (encode_valid_high r true)]].
        apply Z.nlt_ge. intros Hr. unfold encode_valid in Ht. rewrite (proj2 (Z.ltb_lt _ _) Hr) in Ht.
        injection Ht as -> _. apply ValidRune_spec in Hv. rewrite code_byte in Ha by lia. lia. }
    rewrite (Hp r Hr), sexists_sforall. symmetry. apply negb_false_iff.
    eapply sforall_impl; [|exact Hs]. intros c Hc%Z.leb_le. by rewrite Hp.
Qed.

Lemma sforall_sconcat p l : sforall p (sconcat l) = forallb (sforall p) l.
Proof. induction l; simpl; [done|]. by rewrite sforall_app, IHl. Qed.

(** Trimming only removes. *)
Lemma sforall_TrimSpace p s : sforall p s = true -> sforall p (TrimSpace s) = true.
Proof.
  destruct (trim_runes_infix (runes s)) as (l1 & l3 & H). rewrite <-(runes_concat s) at 1.
  rewrite H, !map_app, !sconcat_app, !sforall_app, !andb_true_iff. unfold TrimSpace. tauto.
Qed.

(** Trimming removes only white space. *)
Lemma existsb_trim_runes (p : Z -> bool) l :
  (forall r, IsSpace r = true -> p r = false) ->
  existsb (fun x => p x.1) (trim_runes l) = existsb (fun x => p x.1) l.
Proof.
  intros Hp. assert (forall l, existsb (fun x : Z * string => p x.1) (drop_while is_space_elem l) =
    existsb (fun x => p x.1) l) as Hd.
  { clear l. intros l. induction l as [|x l IH]; simpl; [done|]. destruct (is_space_elem x) eqn:E; [|done].
    by rewrite IH, (Hp x.1). }
  assert (forall l, existsb (fun x : Z * string => p x.1) (reverse l) = existsb (fun x => p x.1) l) as Hr.
  { clear l. intros l. induction l as [|x l IH]; [done|].
    rewrite reverse_cons, existsb_app, IH. simpl. by rewrite orb_false_r, orb_comm. }
  unfold trim_runes. fold is_space_elem. by rewrite Hr, Hd, Hr, Hd.
Qed.

(** ** Hexadecimal *)

Lemma hex_digit_hex z : 0 <= z < 16 -> is_hex (hex_digit z) = true.
Proof.
  intros. unfold is_hex, is_digit, hex_digit. destruct (Z.ltb_spec z 10).
  - rewrite code_byte by lia. by z_decide.
  - rewrite code_byte by lia. by z_decide.
Qed.

Lemma hex_length s : String.length (hex_EncodeToString s) = (2 * String.length s)%nat.
Proof. induction s as [|a s IH]; simpl; lia. Qed.

Lemma hex_chars s : sforall is_hex (hex_EncodeToString s) = true.
Proof.
  induction s as [|a s IH]; simpl; [done|]. pose proof (code_range a).
  by rewrite !hex_digit_hex, IH by lia.
Qed.

Lemma hex_digit_inj z z' : 0 <= z < 16 -> 0 <= z' < 16 -> hex_digit z = hex_digit z' -> z = z'.
Proof.
  intros ?? H. apply (f_equal code) in H. revert H. unfold hex_digit.
  destruct (Z.ltb_spec z 10), (Z.ltb_spec z' 10); rewrite !code_byte by lia; lia.
Qed.

Lemma hex_inj s t : hex_EncodeToString s = hex_EncodeToString t -> s = t.
Proof.
  revert t. induction s as [|a s IH]; intros [|b t]; simpl; try done.
  intros [= H1 H2 H3]. pose proof (code_range a). pose proof (code_range b).
  apply hex_digit_inj in H1; [|lia..]. apply hex_digit_inj in H2; [|lia..].
  f_equal; [apply code_inj; lia | auto].
Qed.

(** ** Paths *)

(** A path element that [Clean] keeps as it is. *)
Definition no_char (c : ascii) (s : string) : bool := sforall (fun a => negb (bool_decide (a = c))) s.
Definition plain_elem (c : string) : Prop :=
  c <> EmptyString /\ c <> "."%string /\ c <> ".."%string /\ no_char slash c = true.

Lemma Split_no_char s c : no_char c s = true -> Split s c = [s].
Proof.
  induction s as [|a s IH]; [done|]. unfold no_char. simpl.
  rewrite andb_true_iff, negb_true_iff, bool_decide_eq_false. intros [Hne Hs].
  by rewrite bool_decide_eq_false_2, IH.
Qed.

Lemma Split_nonempty s c : Split s c <> [].
Proof. destruct s; simpl; [done|]. repeat case_match; done. Qed.

Lemma Split_app s t c : Split (s +:+ String c t) c = Split s c ++ Split t c.
Proof.
  induction s as [|a s IH]; simpl.
  - by rewrite bool_decide_eq_true_2.
  - case_bool_decide; [by rewrite IH|]. rewrite IH.
    pose proof (Split_nonempty s c). by destruct (Split s c).
Qed.

Lemma Join_cons x y l sep : Join (x :: y :: l) sep = x +:+ (sep +:+ Join (y :: l) sep).
Proof. done. Qed.

Lemma Join_app l l' sep :
  l <> [] -> l' <> [] -> Join (l ++ l') sep = Join l sep +:+ (sep +:+ Join l' sep).
Proof.
  intros Hl Hl'. induction l as [|x [|y l] IH]; [done| |].
  - destruct l'; [done|]. done.
  - change ((x :: y :: l) ++ l') with (x :: y :: (l ++ l')).
    rewrite !Join_cons. change (y :: (l ++ l')) with ((y :: l) ++ l'). rewrite IH by done.
    by rewrite !sapp_assoc.
Qed.

Lemma Split_Join_plain x cs :
  Forall plain_elem cs -> Split (Join (x :: cs) "/") slash = Split x slash ++ cs.
Proof.
  intros H. revert x. induction H as [|c cs (Hc & _ & _ & Hs) H IH]; intros x.
  - by rewrite app_nil_r.
  - rewrite Join_cons. change ("/" +:+ ?r) with (String slash r).
    by rewrite Split_app, IH, (Split_no_char c).
Qed.

Lemma clean_stack_plain rooted cs st :
  Forall plain_elem cs -> fold_left (clean_push rooted) cs st = reverse cs ++ st.
Proof.
  intros H. revert st. induction H as [|c cs (H1 & H2 & H3 & _) H IH]; intros st; [done|].
  simpl. rewrite IH, reverse_cons, <-app_assoc. simpl. do 2 f_equal.
  unfold clean_push. by rewrite !bool_decide_eq_false_2.
Qed.

(** What [Clean] leaves of a directory in front of the elements under it. *)
Definition dir_prefix (base : string) : string :=
  let rooted := HasPrefix base "/" in
  let st := reverse (clean_stack rooted (Split base slash)) in
  (if rooted then "/" else EmptyString) +:+
  match st with [] => EmptyString | _ => Join st "/" +:+ "/" end.

Lemma HasPrefix_slash a s : HasPrefix (String a s) "/" = bool_decide (a = slash).
Proof.
  unfold HasPrefix, slash. cbn [String.prefix].
  destruct (ascii_dec "/"%char a) as [<-|Hne]; [by destruct s|].
  by rewrite bool_decide_eq_false_2.
Qed.

(** [filepath.Join(base, c1, ..., cn)] for plain elements: a fixed prefix
    followed by the elements. In particular it cannot leave the directory. *)
Lemma path_Join_plain base cs :
  base <> EmptyString -> cs <> [] -> Forall plain_elem cs ->
  path_Join (base :: cs) = dir_prefix base +:+ Join cs "/".
Proof.
  intros Hb Hcs Hp. unfold path_Join. cbn [drop_while].
  rewrite bool_decide_eq_false_2 by done. unfold Clean, dir_prefix, clean_stack.
  rewrite (Split_Join_plain base cs Hp), fold_left_app, clean_stack_plain by done.
  rewrite reverse_app, reverse_involutive.
  assert (HasPrefix (Join (base :: cs) "/") "/" = HasPrefix base "/") as ->.
  { destruct base as [|a base]; [done|]. destruct cs; [done|]. rewrite Join_cons.
    change (String a base +:+ ?t) with (String a (base +:+ t)). by rewrite !HasPrefix_slash. }
  set (st := reverse (fold_left _ _ [])).
  assert (Join (st ++ cs) "/" =
    match st with [] => EmptyString | _ => Join st "/" +:+ "/" end +:+ Join cs "/") as ->.
  { destruct st as [|x st]; [done|]. rewrite Join_app by done. by rewrite sapp_assoc. }
  destruct (HasPrefix base "/"); [by rewrite !sapp_assoc|].
  destruct (st ++ cs) eqn:E; [|done]. destruct st, cs; done.
Qed.

(** *** Cleaning is idempotent *)

Lemma Split_elems s c : Forall (fun x => no_char c x = true) (Split s c).
Proof.
  induction s as [|a s IH]; simpl; [by repeat constructor|].
  case_bool_decide as Ha; [by constructor|].
  pose proof (Split_nonempty s c). destruct (Split s c) as [|h t]; [done|].
  apply Forall_cons in IH as [Hh Ht]. constructor; [|done].
  unfold no_char in *. simpl. by rewrite bool_decide_eq_false_2, Hh.
Qed.

Lemma Split_Join cs :
  cs <> [] -> Forall (fun x => no_char slash x = true) cs -> Split (Join cs "/") slash = cs.
Proof.
  intros Hne H. induction H as [|x cs Hx H IH]; [done|]. destruct cs as [|y cs].
  - simpl. by apply Split_no_char.
  - rewrite Join_cons. change ("/" +:+ ?r) with (String slash r).
    by rewrite Split_app, IH, (Split_no_char x).
Qed.

Lemma Split_Join_char c cs :
  cs <> [] -> Forall (fun x => no_char c x = true) cs ->
  Split (Join cs (String c EmptyString)) c = cs.
Proof.
  intros Hne H. induction H as [|x cs Hx H IH]; [done|]. destruct cs as [|y cs].
  - simpl. by apply Split_no_char.
  - rewrite Join_cons. change (String c EmptyString +:+ ?r) with (String c r).
    by rewrite Split_app, IH, (Split_no_char x).
Qed.

(** Decoding never reads past an ASCII character. *)
Lemma DecodeRune_ascii a u c t :
  code c < 0x80 -> DecodeRune (String a (u +:+ String c t)) = DecodeRune (String a u).
Proof.
  intros Hc. assert (forall lo hi, 0x80 <= lo -> in_range lo hi (code c) = false) as Hno.
  { intros lo hi Hlo. unfold in_range. by rewrite (proj2 (Z.leb_gt _ _)) by lia. }
  assert (forall b, 0x80 <= accept_lo b) as Hlo.
  { intros b. unfold accept_lo. repeat case_match; lia. }
  cbn [DecodeRune]. destruct (code a <? 0x80); [done|]. destruct (negb _); [done|].
  destruct u as [|b u]; cbn [String.append]; [by rewrite Hno|].
  destruct (negb _); [done|]. destruct (code a <? 0xE0); [done|].
  destruct u as [|d u]; cbn [String.append]; [by rewrite Hno|].
  destruct (negb _); [done|]. destruct (code a <? 0xF0); [done|].
  destruct u as [|e u]; cbn [String.append]; [by rewrite Hno|]. done.
Qed.

Lemma runes_app_ascii s c t :
  code c < 0x80 -> runes (s +:+ String c t) = runes s ++ runes (String c t).
Proof.
  intros Hc. induction s as [|a s r w E IH] using runes_ind; [done|].
  change (String a s +:+ String c t) with (String a (s +:+ String c t)).
  rewrite (runes_cons a (s +:+ String c t)), (runes_cons a s), DecodeRune_ascii, E by done.
  assert (w <= String.length (String a s))%nat as Hw by (apply DecodeRune_width in E; simpl; lia).
  change (String a (s +:+ String c t)) with (String a s +:+ String c t).
  rewrite stake_app_le, sdrop_app_le by done. cbn [app]. by rewrite IH.
Qed.

(** What [clean_push] builds: plain elements on top of a run of [..]. *)
Definition clean_ok (rooted : bool) (st : list string) : Prop :=
  exists ps n, st = ps ++ repeat ".."%string n /\ Forall plain_elem ps /\ (rooted = true -> n = 0%nat).

Lemma clean_push_ok rooted st c :
  clean_ok rooted st -> no_char slash c = true -> clean_ok rooted (clean_push rooted st c).
Proof.
  intros (ps & n & -> & Hps & Hr) Hc. unfold clean_push.
  destruct (bool_decide (c = EmptyString) || bool_decide (c = "."%string)) eqn:E1; [by exists ps, n|].
  apply orb_false_iff in E1 as [E0%bool_decide_eq_false E1%bool_decide_eq_false].
  case_bool_decide as E2; [|exists (c :: ps), n; split_and!; [done|by constructor|done]].
  destruct ps as [|p ps]; simpl.
  - destruct n as [|n]; simpl.
    + destruct rooted; [by exists [], 0%nat|by exists [], 1%nat].
    + exists [], (S (S n)). split_and!; [done|done|]. intros Ht. by specialize (Hr Ht).
  - apply Forall_cons in Hps as [(_ & _ & Hp & _) Hps]. rewrite bool_decide_eq_false_2 by done.
    by exists ps, n.
Qed.

Lemma clean_stack_ok rooted cs : Forall (fun x => no_char slash x = true) cs -> clean_ok rooted (clean_stack rooted cs).
Proof.
  unfold clean_stack. assert (clean_ok rooted []) as H0 by (by exists [], 0%nat).
  revert H0. generalize (@nil string). intros st H0 H. revert st H0.
  induction H as [|c cs Hc H IH]; intros st H0; simpl; [done|]. by apply IH, clean_push_ok.
Qed.

Lemma clean_push_dots k m :
  fold_left (clean_push false) (repeat ".."%string k) (repeat ".."%string m) = repeat ".."%string (k + m).
Proof.
  revert m. induction k as [|k IH]; intros m; [done|]. simpl.
  assert (clean_push false (repeat ".."%string m) ".." = repeat ".."%string (S m)) as ->.
  { by destruct m. }
  rewrite IH. by rewrite Nat.add_succ_r.
Qed.

Lemma clean_stack_id rooted st : clean_ok rooted st -> clean_stack rooted (reverse st) = st.
Proof.
  intros (ps & n & -> & Hps & Hr). unfold clean_stack. rewrite reverse_app, fold_left_app.
  assert (fold_left (clean_push rooted) (reverse (repeat ".."%string n)) [] = repeat ".."%string n) as ->.
  { assert (reverse (repeat ".."%string n) = repeat ".."%string n) as ->.
    { clear. induction n as [|n IH]; [done|]. simpl. rewrite reverse_cons, IH. clear IH.
      induction n as [|n IH]; [done|]. simpl. by rewrite IH. }
    destruct rooted; [by rewrite Hr|]. pose proof (clean_push_dots n 0) as Hd.
    rewrite Nat.add_0_r in Hd. exact Hd. }
  rewrite clean_stack_plain by (by apply Forall_reverse). by rewrite reverse_involutive.
Qed.

Lemma clean_ok_elems rooted st : clean_ok rooted st -> Forall (fun x => no_char slash x = true /\ x <> EmptyString) st.
Proof.
  intros (ps & n & -> & Hps & _). apply Forall_app. split.
  - eapply Forall_impl; [exact Hps|]. by intros x (? & _ & _ & ?).
  - clear. induction n; constructor; [by split|done].
Qed.

(** A cleaned path, rooted or not. *)
Definition render (rooted : bool) (cs : list string) : string :=
  (if rooted then "/" else EmptyString) +:+ Join cs "/".

Lemma render_rooted rooted cs :
  cs <> [] -> Forall (fun x => no_char slash x = true /\ x <> EmptyString) cs ->
  HasPrefix (render rooted cs) "/" = rooted.
Proof.
  intros Hne H. destruct rooted.
  { unfold render. change ("/" +:+ ?t) with (String slash t). rewrite HasPrefix_slash.
    by apply bool_decide_eq_true_2. }
  destruct cs as [|x cs]; [done|]. apply Forall_cons in H as [[Hx Hx0] _].
  destruct x as [|a x]; [done|]. unfold render.
  assert (exists t, Join (String a x :: cs) "/" = String a t) as [t Ht].
  { destruct cs; [by eexists|]. rewrite Join_cons. by eexists. }
  rewrite Ht. change (EmptyString +:+ ?s) with s. rewrite HasPrefix_slash.
  unfold no_char in Hx. simpl in Hx. apply andb_true_iff in Hx as [Hx _].
  by apply negb_true_iff in Hx.
Qed.

Lemma clean_stack_render rooted st sep :
  st <> [] -> clean_ok rooted st -> sep = EmptyString \/ sep = "/"%string ->
  clean_stack rooted (Split (render rooted (reverse st) +:+ sep) slash) = st.
Proof.
  intros Hne Hok Hsep. pose proof (clean_ok_elems _ _ Hok) as Hel.
  assert (reverse st <> []) as Hne'.
  { intros He%(f_equal reverse). by rewrite reverse_involutive in He. }
  assert (Forall (fun x => no_char slash x = true) (reverse st)) as Hel'.
  { apply Forall_reverse. eapply Forall_impl; [exact Hel|]. by intros x []. }
  assert (Split (render rooted (reverse st) +:+ sep) slash =
    (if rooted then [EmptyString] else []) ++ reverse st ++
    (if bool_decide (sep = EmptyString) then [] else [EmptyString])) as ->.
  { unfold render. rewrite sapp_assoc.
    assert (Split (Join (reverse st) "/" +:+ sep) slash =
      reverse st ++ (if bool_decide (sep = EmptyString) then [] else [EmptyString])) as Hs.
    { destruct Hsep as [->| ->].
      - rewrite bool_decide_eq_true_2, sapp_nil_r, app_nil_r by done. by apply Split_Join.
      - rewrite bool_decide_eq_false_2 by done. change "/"%string with (String slash EmptyString).
        rewrite Split_app. by rewrite Split_Join. }
    destruct rooted; [|exact Hs]. change ("/" +:+ ?t) with (String slash t). simpl. by rewrite Hs. }
  unfold clean_stack. rewrite !fold_left_app.
  assert (fold_left (clean_push rooted) (if rooted then [EmptyString] else []) [] = []) as ->
    by (by destruct rooted).
  pose proof (clean_stack_id rooted st Hok) as Hid. unfold clean_stack in Hid. rewrite Hid.
  by case_bool_decide.
Qed.

Lemma Clean_render rooted st sep :
  st <> [] -> clean_ok rooted st -> sep = EmptyString \/ sep = "/"%string ->
  Clean (render rooted (reverse st) +:+ sep) = render rooted (reverse st).
Proof.
  intros Hne Hok Hsep. pose proof (clean_ok_elems _ _ Hok) as Hel.
  assert (reverse st <> []) as Hne'.
  { intros He%(f_equal reverse). by rewrite reverse_involutive in He. }
  assert (HasPrefix (render rooted (reverse st) +:+ sep) "/" = rooted) as Hp.
  { pose proof (render_rooted rooted (reverse st) Hne' (proj2 (Forall_reverse _ _) Hel)) as Hr.
    destruct (render rooted (reverse st)) as [|a t] eqn:E.
    - exfalso. unfold render in E. destruct rooted; [done|].
      destruct (reverse st) as [|[|] []] eqn:Er; try done.
      + apply (f_equal reverse) in Er. rewrite reverse_involutive in Er. subst st.
        apply Forall_cons in Hel as [[_ ?] _]. done.
    - change (String a t +:+ sep) with (String a (t +:+ sep)). rewrite HasPrefix_slash in *. done. }
  unfold Clean. rewrite Hp, clean_stack_render by done. unfold render.
  destruct rooted; [done|]. by destruct (reverse st).
Qed.

Definition base_stack (base : string) : list string :=
  clean_stack (HasPrefix base "/") (Split base slash).

Lemma base_stack_ok base : clean_ok (HasPrefix base "/") (base_stack base).
Proof. apply clean_stack_ok, Split_elems. Qed.

Lemma clean_ok_plain rooted st cs :
  clean_ok rooted st -> Forall plain_elem cs -> clean_ok rooted (reverse cs ++ st).
Proof.
  intros (ps & n & -> & Hps & Hr) Hcs. exists (reverse cs ++ ps), n.
  split_and!; [by rewrite app_assoc| |done]. apply Forall_app. by rewrite Forall_reverse.
Qed.

Lemma path_Join_render base cs :
  base <> EmptyString -> cs <> [] -> Forall plain_elem cs ->
  path_Join (base :: cs) = render (HasPrefix base "/") (reverse (base_stack base) ++ cs).
Proof.
  intros Hb Hcs Hp. rewrite path_Join_plain by done. unfold dir_prefix, render. fold (base_stack base).
  rewrite !sapp_assoc. f_equal. destruct (reverse (base_stack base)) as [|x st] eqn:E; [done|].
  rewrite Join_app by done. by rewrite sapp_assoc.
Qed.

(** [filepath.Join(filepath.Join(base, cs...), k) = filepath.Join(base, cs..., k)] *)
Lemma path_Join_nested base cs k :
  base <> EmptyString -> cs <> [] -> Forall plain_elem cs -> plain_elem k ->
  path_Join [path_Join (base :: cs); k] = path_Join (base :: cs ++ [k]).
Proof.
  intros Hb Hcs Hp Hk.
  assert (Forall plain_elem (cs ++ [k])) as Hp' by (apply Forall_app; split; [done|by constructor]).
  rewrite (path_Join_render base (cs ++ [k])) by (done || by destruct cs).
  rewrite (path_Join_render base cs) by done.
  assert (path_Join [render (HasPrefix base "/") (reverse (base_stack base) ++ cs); k] =
    Clean (render (HasPrefix base "/") (reverse (base_stack base) ++ cs) +:+ ("/" +:+ k))) as ->.
  { unfold path_Join. cbn [drop_while]. rewrite bool_decide_eq_false_2; [done|].
    unfold render. destruct (HasPrefix base "/"); [done|]. change (EmptyString +:+ ?t) with t.
    destruct cs as [|c cs]; [done|]. apply Forall_cons in Hp as [(Hc & _) _].
    destruct (reverse (base_stack base)) as [|x st].
    - destruct c; [done|]. by destruct cs.
    - change ((x :: st) ++ c :: cs) with (x :: (st ++ c :: cs)).
      destruct (st ++ c :: cs) eqn:E; [by destruct st|]. rewrite Join_cons. by destruct x. }
  set (rooted := HasPrefix base "/"). set (l := reverse (base_stack base)).
  assert (render rooted (l ++ cs) +:+ ("/" +:+ k) = render rooted (l ++ cs ++ [k]) +:+ EmptyString) as ->.
  { unfold render. rewrite sapp_nil_r, sapp_assoc, app_assoc, (Join_app (l ++ cs)); [done| |done].
    by destruct l, cs. }
  assert (l ++ cs ++ [k] = reverse (reverse (cs ++ [k]) ++ base_stack base)) as ->.
  { by rewrite reverse_app, reverse_involutive. }
  apply Clean_render; [by rewrite reverse_snoc| |by left].
  apply clean_ok_plain; [apply base_stack_ok|done].
Qed.

Lemma Dir_path_Join base cs k :
  base <> EmptyString -> cs <> [] -> Forall plain_elem cs -> plain_elem k ->
  Dir (path_Join (base :: cs ++ [k])) = path_Join (base :: cs).
Proof.
  intros Hb Hcs Hp Hk.
  assert (Forall plain_elem (cs ++ [k])) as Hp' by (apply Forall_app; split; [done|by constructor]).
  rewrite !path_Join_render by (done || by destruct cs).
  pose proof (base_stack_ok base) as Hok. set (rooted := HasPrefix base "/") in *.
  rewrite app_assoc. set (L := reverse (base_stack base) ++ cs).
  assert (L = reverse (reverse cs ++ base_stack base)) as HL by (unfold L; by rewrite reverse_app, reverse_involutive).
  assert (L <> []) as HL0 by (unfold L; by destruct (reverse (base_stack base)), cs).
  assert (clean_ok rooted (reverse cs ++ base_stack base)) as Hok' by (by apply clean_ok_plain).
  assert (Forall (fun x => no_char slash x = true) (L ++ [k])) as Hel.
  { apply Forall_app. split; [|constructor; [apply Hk|done]]. rewrite HL. apply Forall_reverse.
    eapply Forall_impl; [exact (clean_ok_elems _ _ Hok')|]. by intros x []. }
  assert (Split (render rooted (L ++ [k])) slash =
    (if rooted then [EmptyString] else []) ++ L ++ [k]) as Hs.
  { unfold render. assert (Split (Join (L ++ [k]) "/") slash = L ++ [k]) as Hj
      by (apply Split_Join; [by destruct L|done]).
    destruct rooted; [|exact Hj]. change ("/" +:+ ?t) with (String slash t). simpl. by rewrite Hj. }
  unfold Dir. rewrite Hs, app_assoc, reverse_snoc.
  destruct (reverse ((if rooted then [EmptyString] else []) ++ L)) as [|x t] eqn:E.
  { apply (f_equal reverse) in E. rewrite reverse_involutive in E. by destruct rooted, L. }
  rewrite <-E, reverse_involutive.
  assert (Join ((if rooted then [EmptyString] else []) ++ L) "/" +:+ "/" = render rooted L +:+ "/") as ->.
  { unfold render. destruct rooted; [|done]. by destruct L. }
  rewrite HL. apply Clean_render; [|done|by right].
  intros He%(f_equal reverse). rewrite <-HL in He. done.
Qed.

Lemma sapp_split_no_char c s s' t t' :
  no_char c s = true -> no_char c s' = true ->
  s +:+ String c t = s' +:+ String c t' -> s = s' /\ t = t'.
Proof.
  revert s'. induction s as [|a s IH]; intros [|b s']; unfold no_char; simpl;
    rewrite ?andb_true_iff, ?negb_true_iff, ?bool_decide_eq_false.
  - intros _ _ [= ->]. done.
  - intros _ [? _] [= -> _]. done.
  - intros [? _] _ [= -> _]. done.
  - intros [_ ?] [_ ?] [= -> ?]. destruct (IH s') as [-> ->]; done.
Qed.

Lemma digits_no_slash z : 0 <= z -> no_char slash (digits z) = true.
Proof.
  intros (_ & _ & H)%digits_spec. eapply sforall_impl; [|exact H].
  intros c Hc. apply negb_true_iff, bool_decide_eq_false. by intros ->.
Qed.

Lemma plain_digits z : 0 <= z -> plain_elem (digits z).
Proof.
  intros Hz. pose proof (digits_no_slash z Hz).
  destruct (digits_head z Hz) as (c & t & Hd & Hc). rewrite Hd in *.
  split; [done|]. split; [intros [= -> _]; done|]. split; [intros [= -> _]; done|done].
Qed.
