(* ===== verification/Http.v ===== *)
(** * net/http, context and the runtime, as the handlers use them

    A handler is a function from a request, a response writer and the state it
    works on to the writer and state it leaves. The response writer is Go's
    interface value: the server's own writer, or the recorder that the logging
    middleware wraps around another writer. JSON bodies are kept as values;
    [Json] renders them as the bytes that are sent. *)

From S2P Require Export GoStrings.

Open Scope Z_scope.

(** ** Time: nanoseconds since the Unix epoch *)

Definition Nanosecond : Z := 1.
Definition Second : Z := 1000000000.
Definition Minute : Z := 60 * Second.
Definition Hour : Z := 60 * Minute.

(** [time.Time{}], January 1 of year 1. *)
Definition zero_time : Z := -62135596800 * Second.
Definition IsZero (t : Z) : bool := t =? zero_time.

(** [t.After(u)] *)
Definition After (t u : Z) : bool := u <? t.

(** [t.Unix()] *)
Definition Unix (t : Z) : Z := t / Second.

(** [t.Sub(u)] saturates at the ends of [time.Duration]. *)
Definition Sub (t u : Z) : Z := Z.max min_int64 (Z.min max_int64 (t - u)).

(** ** The runtime: successive readings of the clock and of crypto/rand *)

Record Runtime := mkRuntime {
  clock_at : nat -> Z;
  clock_pos : nat;
  rand_at : nat -> option (nat -> ascii);
  rand_pos : nat
}.

Definition time_Now (rt : Runtime) : Z * Runtime :=
  (clock_at rt (clock_pos rt),
   mkRuntime (clock_at rt) (S (clock_pos rt)) (rand_at rt) (rand_pos rt)).

Definition ErrRand : error := EText "crypto/rand: read failed".

Fixpoint bytes_from (f : nat -> ascii) (start n : nat) : string :=
  match n with O => EmptyString | S n' => String (f start) (bytes_from f (S start) n') end.

(** [rand.Read(b)] with [len(b) = n]: it fills all of [b] or fails. *)
Definition rand_Read (n : nat) (rt : Runtime) : result string * Runtime :=
  (match rand_at rt (rand_pos rt) with
   | Some f => Ok (bytes_from f 0 n)
   | None => Err ErrRand
   end,
   mkRuntime (clock_at rt) (clock_pos rt) (rand_at rt) (S (rand_pos rt))).

(** ** Contexts *)

(** [auth.Session] (internal/auth/session.go). *)
Record Session := mkSession {
  Email : string;
  IsAdmin : bool;
  ExpiresAt : Z;
  Token : string
}.

#[export] Instance Session_eq_dec : EqDecision Session.
Proof. solve_decision. Defined.

(** The key types of the three packages that store values in a context. *)
Inductive CtxKey := contextKeyRequestID | requestIDKey | sessionContextKey.
#[export] Instance CtxKey_eq_dec : EqDecision CtxKey.
Proof. solve_decision. Defined.

Inductive CtxVal := CtxString (s : string) | CtxSession (s : Session).

Definition Context := list (CtxKey * CtxVal).

(** [context.WithValue] *)
Definition WithValue (ctx : Context) (k : CtxKey) (v : CtxVal) : Context := (k, v) :: ctx.

(** [ctx.Value(key)] *)
Fixpoint Value (ctx : Context) (k : CtxKey) : option CtxVal :=
  match ctx with
  | [] => None
  | (k', v) :: ctx' => if bool_decide (k = k') then Some v else Value ctx' k
  end.

(** ** Headers *)

(** RFC 7230 token characters ([httpguts.IsTokenRune]). *)
Definition token_char (c : ascii) : bool :=
  let z := code c in
  in_range 48 57 z || in_range 65 90 z || in_range 97 122 z
  || existsb (fun x => z =? x) [33; 35; 36; 37; 38; 39; 42; 43; 45; 46; 94; 95; 96; 124; 126].

(** [http.CanonicalHeaderKey] *)
Fixpoint canonical_key (upper : bool) (s : string) : string :=
  match s with
  | EmptyString => EmptyString
  | String c s' =>
      let z := code c in
      let c' := if upper && in_range 97 122 z then byte (z - 32)
                else if negb upper && in_range 65 90 z then byte (z + 32) else c in
      String c' (canonical_key (z =? 45) s')
  end.
Definition CanonicalHeaderKey (s : string) : string :=
  if sforall token_char s then canonical_key true s else s.

Record Cookie := mkCookie {
  c_Name : string; c_Value : string; c_HttpOnly : bool; c_Secure : bool;
  c_SameSiteLax : bool; c_Path : string; c_MaxAge : Z; c_Expires : Z
}.

(** A header map. The [Set-Cookie] values are kept apart, in order, as the
    cookies they render. *)
Record Header := mkHeader {
  h_fields : gmap string (list string);
  h_cookies : list Cookie
}.

Definition empty_header : Header := mkHeader ∅ [].

Definition Header_Get (h : Header) (k : string) : string :=
  match h_fields h !! CanonicalHeaderKey k with Some (v :: _) => v | _ => EmptyString end.
Definition Header_Set (h : Header) (k v : string) : Header :=
  mkHeader (<[CanonicalHeaderKey k := [v]]> (h_fields h)) (h_cookies h).
Definition Header_Add (h : Header) (k v : string) : Header :=
  mkHeader (<[CanonicalHeaderKey k := default [] (h_fields h !! CanonicalHeaderKey k) ++ [v]]> (h_fields h)) (h_cookies h).
Definition Header_Del (h : Header) (k : string) : Header :=
  mkHeader (delete (CanonicalHeaderKey k) (h_fields h)) (h_cookies h).

(** [cookie.String() != ""]: the name is a token. *)
Definition valid_cookie_name (n : string) : bool :=
  negb (bool_decide (n = EmptyString)) && sforall token_char n.

(** ** Requests *)

(** A body reader: the bytes it delivers, then an error or end of file. *)
Record Body := mkBody { body_bytes : string; body_error : option error }.

(** [io.ReadAll] *)
Definition ReadAll (b : Body) : string * option error := (body_bytes b, body_error b).

(** [io.LimitReader(b, n)]: end of file after [n] bytes. *)
Definition LimitReader (b : Body) (n : Z) : Body :=
  if n <=? slen (body_bytes b) then mkBody (stake (Z.to_nat n) (body_bytes b)) None else b.

Definition ErrBodyTooLarge : error := ESentinel "http.MaxBytesError" "http: request body too large".

(** [http.MaxBytesReader(w, b, n)]: an error after [n] bytes if there are more. *)
Definition MaxBytesReader (b : Body) (n : Z) : Body :=
  if n <? slen (body_bytes b) then mkBody (stake (Z.to_nat n) (body_bytes b)) (Some ErrBodyTooLarge)
  else b.

Record Request := mkRequest {
  Method : string;
  URLPath : string;
  Query : list (string * string);
  ReqHeader : Header;
  ReqCookies : list (string * string);
  RemoteAddr : string;
  ContentLength : Z;
  ReqBody : Body;
  ReqCtx : Context;
  URLParams : list (string * string)
}.

Fixpoint assoc_get (l : list (string * string)) (k : string) : option string :=
  match l with
  | [] => None
  | (k', v) :: l' => if bool_decide (k = k') then Some v else assoc_get l' k
  end.

(** [r.URL.Query().Get(k)], [chi.URLParam(r, k)]: the empty string when absent. *)
Definition Query_Get (r : Request) (k : string) : string := default EmptyString (assoc_get (Query r) k).
Definition URLParam (r : Request) (k : string) : string := default EmptyString (assoc_get (URLParams r) k).

(** [r.Cookie(name)] *)
Definition Req_Cookie (r : Request) (name : string) : option string :=
  if bool_decide (name = EmptyString) then None else assoc_get (ReqCookies r) name.

(** [r.WithContext(ctx)], and [r.Body = b]. *)
Definition WithContext (r : Request) (ctx : Context) : Request :=
  mkRequest (Method r) (URLPath r) (Query r) (ReqHeader r) (ReqCookies r) (RemoteAddr r)
    (ContentLength r) (ReqBody r) ctx (URLParams r).
Definition with_body (r : Request) (b : Body) : Request :=
  mkRequest (Method r) (URLPath r) (Query r) (ReqHeader r) (ReqCookies r) (RemoteAddr r)
    (ContentLength r) b (ReqCtx r) (URLParams r).

(** ** Responses *)

Inductive json :=
  | JString (s : string)
  | JBool (b : bool)
  | JInt (z : Z)
  | JTime (t : Z)
  | JList (l : list json)
  | JObj (fields : list (string * json)).

Inductive Chunk := Bytes (s : string) | Json (v : json).

(** The server's writer: the header map the handler edits, what was sent (the
    status with the headers as they were then) and the body. *)
Record BaseWriter := mkBase {
  bw_header : Header;
  bw_sent : option (Z * Header);
  bw_body : list Chunk
}.

(** A [http.ResponseWriter]: the server's, or [responseRecorder]
    (internal/middleware/logging.go), which embeds another writer. *)
Inductive ResponseWriter :=
  | RWBase (b : BaseWriter)
  | RWRecorder (inner : ResponseWriter) (status : Z).

Definition new_writer : ResponseWriter := RWBase (mkBase empty_header None []).

Fixpoint rw_base (w : ResponseWriter) : BaseWriter :=
  match w with RWBase b => b | RWRecorder i _ => rw_base i end.

Fixpoint on_base (f : BaseWriter -> BaseWriter) (w : ResponseWriter) : ResponseWriter :=
  match w with RWBase b => RWBase (f b) | RWRecorder i s => RWRecorder (on_base f i) s end.

Definition base_WriteHeader (status : Z) (b : BaseWriter) : BaseWriter :=
  match bw_sent b with
  | Some _ => b
  | None => mkBase (bw_header b) (Some (status, bw_header b)) (bw_body b)
  end.

Definition base_Write (c : Chunk) (b : BaseWriter) : BaseWriter :=
  let b' := base_WriteHeader 200 b in
  mkBase (bw_header b') (bw_sent b') (bw_body b' ++ [c]).

(** [w.Header().Set] and [w.Header().Del] edit the shared map in place. *)
Definition set_header (k v : string) (w : ResponseWriter) : ResponseWriter :=
  on_base (fun b => mkBase (Header_Set (bw_header b) k v) (bw_sent b) (bw_body b)) w.
Definition add_header (k v : string) (w : ResponseWriter) : ResponseWriter :=
  on_base (fun b => mkBase (Header_Add (bw_header b) k v) (bw_sent b) (bw_body b)) w.
Definition del_header (k : string) (w : ResponseWriter) : ResponseWriter :=
  on_base (fun b => mkBase (Header_Del (bw_header b) k) (bw_sent b) (bw_body b)) w.

(** [http.SetCookie(w, cookie)] *)
Definition SetCookie (c : Cookie) (w : ResponseWriter) : ResponseWriter :=
  if valid_cookie_name (c_Name c) then
    on_base (fun b =>
      mkBase (mkHeader (h_fields (bw_header b)) (h_cookies (bw_header b) ++ [c]))
        (bw_sent b) (bw_body b)) w
  else w.

(** [w.WriteHeader(status)]; the recorder's method is logging.go:14-17. *)
Fixpoint WriteHeader (status : Z) (w : ResponseWriter) : ResponseWriter :=
  match w with
  | RWBase b => RWBase (base_WriteHeader status b)
  | RWRecorder inner _ => RWRecorder (WriteHeader status inner) status
  end.

(** [w.Write]: the recorder inherits it from the writer it embeds. *)
Definition Write (c : Chunk) (w : ResponseWriter) : ResponseWriter := on_base (base_Write c) w.

(** [http.Error] and [http.NotFound] *)
Definition http_Error (msg : string) (status : Z) (w : ResponseWriter) : ResponseWriter :=
  let w := del_header "Content-Length" w in
  let w := set_header "Content-Type" "text/plain; charset=utf-8" w in
  let w := set_header "X-Content-Type-Options" "nosniff" w in
  let w := WriteHeader status w in
  Write (Bytes (msg +:+ String (byte 10) EmptyString)) w.
Definition NotFound (w : ResponseWriter) : ResponseWriter := http_Error "404 page not found" 404 w.

(** [writeJSON] of internal/auth, internal/ingest and internal/api. *)
Definition writeJSON (status : Z) (body : json) (w : ResponseWriter) : ResponseWriter :=
  let w := set_header "Content-Type" "application/json" w in
  let w := WriteHeader status w in
  Write (Json body) w.

Definition json_error (msg : string) : json := JObj [("error"%string, JString msg)].

(** What the client receives when the handler has returned. *)
Definition resp_status (w : ResponseWriter) : Z :=
  match bw_sent (rw_base w) with Some (s, _) => s | None => 200 end.
Definition resp_header (w : ResponseWriter) : Header :=
  match bw_sent (rw_base w) with Some (_, h) => h | None => bw_header (rw_base w) end.
Definition resp_body (w : ResponseWriter) : list Chunk := bw_body (rw_base w).

Definition not_sent (w : ResponseWriter) : Prop := bw_sent (rw_base w) = None.

(** ** Handlers *)

Definition Handler (W : Type) := Request -> ResponseWriter -> W -> ResponseWriter * W.
Definition Middleware (W : Type) := Handler W -> Handler W.

(** A component's handler, run on its part of a larger state. *)
Definition lift_handler {W S} `{Lens W S} (h : Handler S) : Handler W := fun r w st =>
  let '(w', s') := h r w (view st) in (w', put s' st).

(** ** Writers: lemmas *)

Lemma rw_base_on_base f w : rw_base (on_base f w) = f (rw_base w).
Proof. induction w; simpl; [done|done]. Qed.

Lemma rw_base_WriteHeader s w : rw_base (WriteHeader s w) = base_WriteHeader s (rw_base w).
Proof. induction w; simpl; [done|done]. Qed.

Create Rewrite HintDb http.
#[export] Hint Rewrite rw_base_on_base rw_base_WriteHeader : http.

Ltac simpl_http :=
  unfold resp_status, resp_header, resp_body, not_sent, writeJSON, NotFound, http_Error,
    set_header, add_header, del_header, Write in *;
  autorewrite with http in *; simpl in *; autorewrite with http in *.

Create Rewrite HintDb reply.

Lemma not_sent_new : not_sent new_writer.
Proof. done. Qed.

Lemma not_sent_SetCookie c w : not_sent (SetCookie c w) <-> not_sent w.
Proof.
  unfold SetCookie, not_sent. destruct (valid_cookie_name _); [|done]. by rewrite rw_base_on_base.
Qed.

Lemma not_sent_set_header k v w : not_sent (set_header k v w) <-> not_sent w.
Proof. by simpl_http. Qed.

(** A JSON reply on a writer nothing was sent on. *)
Lemma writeJSON_status s v w : not_sent w -> resp_status (writeJSON s v w) = s.
Proof. intros H. simpl_http. unfold base_WriteHeader; simpl. by rewrite H. Qed.

Lemma writeJSON_body s v w : not_sent w -> resp_body (writeJSON s v w) = resp_body w ++ [Json v].
Proof. intros H. simpl_http. unfold base_WriteHeader; simpl. by rewrite H. Qed.

Lemma writeJSON_header s v w :
  not_sent w ->
  resp_header (writeJSON s v w) = Header_Set (bw_header (rw_base w)) "Content-Type" "application/json".
Proof. intros H. simpl_http. unfold base_WriteHeader; simpl. by rewrite H. Qed.

Lemma NotFound_status w : not_sent w -> resp_status (NotFound w) = 404.
Proof. intros H. simpl_http. unfold base_WriteHeader; simpl. by rewrite H. Qed.

Lemma http_Error_status m s w : not_sent w -> resp_status (http_Error m s w) = s.
Proof. intros H. simpl_http. unfold base_WriteHeader; simpl. by rewrite H. Qed.

Lemma http_Error_body m s w :
  not_sent w ->
  resp_body (http_Error m s w) = resp_body w ++ [Bytes (m +:+ String (byte 10) EmptyString)].
Proof. intros H. simpl_http. unfold base_WriteHeader; simpl. by rewrite H. Qed.

Lemma SetCookie_cookies c w :
  valid_cookie_name (c_Name c) = true ->
  h_cookies (bw_header (rw_base (SetCookie c w))) = h_cookies (bw_header (rw_base w)) ++ [c].
Proof. intros H. unfold SetCookie. rewrite H. by rewrite rw_base_on_base. Qed.

#[export] Hint Resolve not_sent_new : core.
#[export] Hint Rewrite not_sent_SetCookie not_sent_set_header : http.
#[export] Hint Rewrite writeJSON_status writeJSON_body NotFound_status http_Error_status
  http_Error_body using (autorewrite with http; assumption) : reply.

(** Header lookups after a [Set]. *)
Lemma Header_Get_Set h k v : Header_Get (Header_Set h k v) k = v.
Proof. unfold Header_Get, Header_Set. simpl. by rewrite lookup_insert_eq. Qed.

Lemma Header_Get_Set_ne h k k' v :
  CanonicalHeaderKey k <> CanonicalHeaderKey k' ->
  Header_Get (Header_Set h k v) k' = Header_Get h k'.
Proof. intros. unfold Header_Get, Header_Set. simpl. by rewrite lookup_insert_ne. Qed.

Lemma Header_Get_Add_ne h k k' v :
  CanonicalHeaderKey k <> CanonicalHeaderKey k' ->
  Header_Get (Header_Add h k v) k' = Header_Get h k'.
Proof. intros. unfold Header_Get, Header_Add. simpl. by rewrite lookup_insert_ne. Qed.

(** Adding the value a header has already. *)
Lemma Header_Get_Add_same h k k' v :
  CanonicalHeaderKey k = CanonicalHeaderKey k' -> Header_Get h k' = v -> Header_Get (Header_Add h k v) k' = v.
Proof.
  unfold Header_Get, Header_Add. simpl. intros -> Hv. rewrite lookup_insert_eq.
  by destruct (h_fields h !! CanonicalHeaderKey k') as [[|x l]|].
Qed.

Lemma bytes_from_length f i n : String.length (bytes_from f i n) = n.
Proof. revert i. induction n; intros; simpl; congruence. Qed.

Lemma rand_Read_length n rt b rt' : rand_Read n rt = (Ok b, rt') -> String.length b = n.
Proof.
  unfold rand_Read. destruct (rand_at rt (rand_pos rt)); [|done].
  intros [= <- _]. apply bytes_from_length.
Qed.
