(* ===== verification/GoTime.v ===== *)
(** * Dates: what [time.Time] prints in JSON

    Instants are nanoseconds since the Unix epoch, in UTC: the MySQL driver gives
    its times in UTC ([parseTime=true] with no [loc]). This file has the civil
    calendar of package [time] and the format [time.RFC3339Nano] of
    [Time.MarshalJSON], with the way back. *)

From S2P Require Export GoStrings.

Open Scope Z_scope.

#[local] Ltac Zify.zify_post_hook ::= Z.to_euclidean_division_equations.

(** ** The proleptic Gregorian calendar

    Years are counted from March, in eras of 400 years (146097 days); day 0 is
    the first of January 1970. *)

Record civil := mkCivil { c_year : Z; c_month : Z; c_day : Z }.

(** The year of the era and the day of that year, from the day of the era. *)
Definition year_of_era (doe : Z) : Z := (doe - doe / 1460 + doe / 36524 - doe / 146096) / 365.
Definition year_start (yoe : Z) : Z := 365 * yoe + yoe / 4 - yoe / 100.

Definition civil_from_days (days : Z) : civil :=
  let z := days + 719468 in
  let era := z / 146097 in
  let doe := z mod 146097 in
  let yoe := year_of_era doe in
  let doy := doe - year_start yoe in
  let mp := (5 * doy + 2) / 153 in
  let m := if mp <? 10 then mp + 3 else mp - 9 in
  mkCivil (yoe + era * 400 + if m <=? 2 then 1 else 0) m (doy - (153 * mp + 2) / 5 + 1).

Definition days_from_civil (c : civil) : Z :=
  let y := c_year c - if c_month c <=? 2 then 1 else 0 in
  let mp := if c_month c <=? 2 then c_month c + 9 else c_month c - 3 in
  y / 400 * 146097 + year_start (y mod 400) + (153 * mp + 2) / 5 + c_day c - 1 - 719468.

(** ** RFC 3339 with nanoseconds *)

Definition day_ns : Z := 86400 * 1000000000.

(** [n] decimal digits. *)
Fixpoint fixed_digits (n : nat) (z : Z) : string :=
  match n with
  | O => EmptyString
  | S n' => fixed_digits n' (z / 10) +:+ String (digit (z mod 10)) EmptyString
  end.

(** The fraction: nine digits without the zeros at its end, nothing when zero. *)
Fixpoint frac_digits (n : nat) (z : Z) : string :=
  match n with
  | O => EmptyString
  | S n' => if z mod 10 =? 0 then frac_digits n' (z / 10) else fixed_digits n z
  end.
Definition fraction (ns : Z) : string :=
  if ns =? 0 then EmptyString else String "." (frac_digits 9 ns).

(** [t.MarshalJSON()] without its quotes: an error outside the years 0 to 9999. *)
Definition FormatRFC3339Nano (t : Z) : option string :=
  let c := civil_from_days (t / day_ns) in
  let ns := t mod day_ns in
  let sec := ns / 1000000000 in
  if in_range 0 9999 (c_year c) then
    Some (fixed_digits 4 (c_year c) +:+ "-" +:+ fixed_digits 2 (c_month c) +:+ "-"
          +:+ fixed_digits 2 (c_day c) +:+ "T" +:+ fixed_digits 2 (sec / 3600) +:+ ":"
          +:+ fixed_digits 2 (sec / 60 mod 60) +:+ ":" +:+ fixed_digits 2 (sec mod 60)
          +:+ fraction (ns mod 1000000000) +:+ "Z")
  else None.

(** Reading such a text back, as a client does. *)
Definition read_fixed (n : nat) (s : string) : option Z := parse_unsigned (stake n s).

Definition ReadRFC3339 (s : string) : option Z :=
  y ← read_fixed 4 s; mo ← read_fixed 2 (sdrop 5 s); d ← read_fixed 2 (sdrop 8 s);
  h ← read_fixed 2 (sdrop 11 s); mi ← read_fixed 2 (sdrop 14 s); sec ← read_fixed 2 (sdrop 17 s);
  ns ← match sdrop 19 s with
       | String "." f => let ds := TrimSuffix f "Z" in
                         v ← parse_unsigned ds; Some (v * 10 ^ (9 - slen ds))
       | _ => Some 0
       end;
  Some (days_from_civil (mkCivil y mo d) * day_ns + (h * 3600 + mi * 60 + sec) * 1000000000 + ns).

(** ** The calendar: lemmas *)

Lemma year_of_era_range doe :
  0 <= doe < 146097 ->
  0 <= year_of_era doe < 400 /\ 0 <= doe - year_start (year_of_era doe) <= 365.
Proof. unfold year_of_era, year_start. intros H. split; lia. Qed.

Lemma civil_from_days_range z :
  1 <= c_month (civil_from_days z) <= 12 /\ 1 <= c_day (civil_from_days z) <= 31.
Proof.
  unfold civil_from_days. cbn [c_month c_day].
  destruct (year_of_era_range ((z + 719468) mod 146097)) as [_ H]; [lia|].
  set (doy := _ - year_start _) in *. clearbody doy. clear z.
  destruct (Z.ltb_spec ((5 * doy + 2) / 153) 10); lia.
Qed.

(** The calendar date of a day names that day only. *)
Lemma days_from_civil_from_days z : days_from_civil (civil_from_days z) = z.
Proof.
  unfold civil_from_days, days_from_civil. cbn [c_year c_month c_day].
  destruct (year_of_era_range ((z + 719468) mod 146097)) as [Hy H]; [lia|].
  set (yoe := year_of_era _) in *. set (doy := _ - year_start yoe) in *.
  assert (0 <= (5 * doy + 2) / 153 <= 11) as Hm by (clearbody doy; lia).
  set (mp := (5 * doy + 2) / 153) in *.
  set (leap := if (if mp <? 10 then mp + 3 else mp - 9) <=? 2 then 1 else 0).
  replace (yoe + (z + 719468) / 146097 * 400 + leap - leap)
    with (yoe + (z + 719468) / 146097 * 400) by lia.
  rewrite Z.div_add, Z.mod_add, Z.div_small, Z.mod_small by lia.
  assert ((if (if mp <? 10 then mp + 3 else mp - 9) <=? 2 then (if mp <? 10 then mp + 3 else mp - 9) + 9
           else (if mp <? 10 then mp + 3 else mp - 9) - 3) = mp) as ->.
  { destruct (Z.ltb_spec mp 10); [|].
    - rewrite (proj2 (Z.leb_gt _ _)) by lia. lia.
    - rewrite (proj2 (Z.leb_le _ _)) by lia. lia. }
  subst doy. clearbody mp leap. pose proof (Z.div_mod (z + 719468) 146097). lia.
Qed.

(** ** The text: lemmas *)

Lemma fixed_digits_length n z : String.length (fixed_digits n z) = n.
Proof.
  revert z. induction n as [|n IH]; intros z; simpl; [done|]. rewrite sapp_length, IH. simpl. lia.
Qed.

Lemma fixed_digits_digits n z : sforall is_digit (fixed_digits n z) = true.
Proof.
  revert z. induction n as [|n IH]; intros z; simpl; [done|].
  rewrite sforall_app, IH. simpl. by rewrite is_digit_digit by lia.
Qed.

Lemma parse_digits_fixed n a z :
  0 <= z < 10 ^ Z.of_nat n -> parse_digits a (fixed_digits n z) = Some (a * 10 ^ Z.of_nat n + z).
Proof.
  revert z. induction n as [|n IH]; intros z Hz.
  { simpl in *. f_equal. lia. }
  rewrite Nat2Z.inj_succ, Z.pow_succ_r in * by lia. cbn [fixed_digits].
  rewrite parse_digits_app, IH by lia. cbn [mbind option_bind]. rewrite parse_digit by lia. f_equal. lia.
Qed.

Lemma read_fixed_digits n z t :
  (0 < n)%nat -> 0 <= z < 10 ^ Z.of_nat n -> read_fixed n (fixed_digits n z +:+ t) = Some z.
Proof.
  intros Hn Hz. unfold read_fixed. rewrite <-(fixed_digits_length n z) at 1. rewrite stake_app.
  pose proof (parse_digits_fixed n 0 z Hz) as H. rewrite Z.mul_0_l, Z.add_0_l in H.
  unfold parse_unsigned. pose proof (fixed_digits_length n z). destruct (fixed_digits n z); [simpl in *; lia|done].
Qed.

Lemma sdrop_sdrop n k s : sdrop (n + k) s = sdrop k (sdrop n s).
Proof. revert s. induction n as [|n IH]; intros [|a s]; simpl; try done. by destruct k. Qed.

(** The digits of a fraction are digits, and what was cut off are zeros. *)
Lemma frac_digits_spec n z :
  0 < z < 10 ^ Z.of_nat n ->
  exists k, (0 < k <= n)%nat /\ exists v, frac_digits n z = fixed_digits k v /\
    0 <= v < 10 ^ Z.of_nat k /\ v * 10 ^ Z.of_nat (n - k) = z.
Proof.
  revert z. induction n as [|n IH]; intros z Hz; [simpl in Hz; lia|].
  cbn [frac_digits]. destruct (Z.eqb_spec (z mod 10) 0) as [E|].
  - rewrite Nat2Z.inj_succ, Z.pow_succ_r in Hz by lia.
    destruct (IH (z / 10)) as (k & Hk & v & -> & Hv & Hz'); [lia|].
    exists k. split; [lia|]. exists v. split; [done|]. split; [done|].
    replace (S n - k)%nat with (S (n - k)) by lia. rewrite Nat2Z.inj_succ, Z.pow_succ_r by lia. lia.
  - exists (S n). split; [lia|]. exists z. split; [done|]. split; [lia|].
    by rewrite Nat.sub_diag, Z.mul_1_r.
Qed.

Lemma read_fraction ns :
  0 <= ns < 10 ^ 9 ->
  match fraction ns +:+ "Z" with
  | String "." f => let ds := TrimSuffix f "Z" in
                    v ← parse_unsigned ds; Some (v * 10 ^ (9 - slen ds))
  | _ => Some 0
  end = Some ns.
Proof.
  intros Hns. unfold fraction. destruct (Z.eqb_spec ns 0) as [->|]; [done|].
  destruct (frac_digits_spec 9 ns) as (k & Hk & v & -> & Hv & Hval); [lia|].
  cbn [String.append]. assert (TrimSuffix (fixed_digits k v +:+ "Z") "Z" = fixed_digits k v) as ->.
  { unfold TrimSuffix, HasSuffix. rewrite sapp_length. simpl String.length.
    rewrite (proj2 (Nat.leb_le _ _)) by lia. rewrite Nat.add_sub, sdrop_app.
    by rewrite bool_decide_eq_true_2, stake_app. }
  pose proof (read_fixed_digits k v EmptyString) as H. rewrite sapp_nil_r in H.
  unfold read_fixed in H. rewrite stake_all in H by (by rewrite fixed_digits_length).
  cbv zeta. rewrite H by lia. cbn [mbind option_bind]. unfold slen. rewrite fixed_digits_length.
  f_equal. rewrite <-Hval. do 2 f_equal. lia.
Qed.

Lemma ReadRFC3339_Format t s : FormatRFC3339Nano t = Some s -> ReadRFC3339 s = Some t.
Proof.
  pose proof (civil_from_days_range (t / day_ns)) as Hc.
  pose proof (days_from_civil_from_days (t / day_ns)) as Hd.
  unfold FormatRFC3339Nano. destruct (civil_from_days (t / day_ns)) as [y mo d].
  cbn [c_year c_month c_day] in *.
  destruct (in_range 0 9999 y) eqn:Hy; [|done]. apply in_range_spec in Hy.
  intros Hs%(inj Some). subst s.
  set (ns := t mod day_ns). assert (0 <= ns < day_ns) as Hns by (subst ns; unfold day_ns; lia).
  set (sec := ns / 1000000000). assert (0 <= sec < 86400) as Hsec by (subst sec; unfold day_ns in Hns; lia).
  assert (Hskip : forall n z c u, sdrop (S n) (fixed_digits n z +:+ String c EmptyString +:+ u) = u).
  { intros n z c u. rewrite <-sapp_assoc.
    assert (String.length (fixed_digits n z +:+ String c EmptyString) = S n) as Hl
      by (rewrite sapp_length, fixed_digits_length; simpl; lia).
    rewrite <-Hl. apply sdrop_app. }
  unfold ReadRFC3339.
  assert (Hlast : sdrop 2 (fixed_digits 2 (sec mod 60) +:+ fraction (ns mod 1000000000) +:+ "Z")
                  = fraction (ns mod 1000000000) +:+ "Z").
  { rewrite <-(fixed_digits_length 2 (sec mod 60)) at 1. by rewrite sdrop_app. }
  rewrite !(sdrop_sdrop 17 2 : forall u, sdrop 19 u = _), !(sdrop_sdrop 14 3 : forall u, sdrop 17 u = _),
    !(sdrop_sdrop 11 3 : forall u, sdrop 14 u = _), !(sdrop_sdrop 8 3 : forall u, sdrop 11 u = _),
    !(sdrop_sdrop 5 3 : forall u, sdrop 8 u = _).
  rewrite !Hskip, Hlast, !read_fixed_digits by lia.
  cbn [mbind option_bind]. rewrite read_fraction by lia. cbn [mbind option_bind]. rewrite Hd. f_equal.
  subst sec ns. unfold day_ns in *. lia.
Qed.

(** The characters of such a text need no escape. *)
Definition time_char (c : ascii) : bool := is_digit c || sexists (fun d => bool_decide (c = d)) "-T:.Z".

Lemma time_char_digits n z : sforall time_char (fixed_digits n z) = true.
Proof.
  eapply sforall_impl; [|apply fixed_digits_digits]. intros c Hc. unfold time_char. by rewrite Hc.
Qed.

Lemma time_char_frac n z : sforall time_char (frac_digits n z) = true.
Proof.
  revert z. induction n as [|n IH]; intros z; [done|]. cbn [frac_digits].
  destruct (_ =? _); [apply IH|apply time_char_digits].
Qed.

Lemma FormatRFC3339Nano_chars t s : FormatRFC3339Nano t = Some s -> sforall time_char s = true.
Proof.
  unfold FormatRFC3339Nano. destruct (in_range _ _ _); [|done]. intros Hs%(inj Some). subst s.
  assert (sforall time_char (fraction (t mod day_ns mod 1000000000)) = true) as Hf.
  { unfold fraction. destruct (_ =? _); [done|]. cbn [sforall]. by rewrite time_char_frac. }
  rewrite !sforall_app, !time_char_digits, Hf. done.
Qed.

(** Years 0 to 9999 are exactly the instants that can be printed. *)
Lemma FormatRFC3339Nano_some t :
  is_Some (FormatRFC3339Nano t) <-> 0 <= c_year (civil_from_days (t / day_ns)) <= 9999.
Proof.
  unfold FormatRFC3339Nano. rewrite <-in_range_spec. destruct (in_range _ _ _); split; by eauto.
Qed.

Example epoch_text : FormatRFC3339Nano 0 = Some "1970-01-01T00:00:00Z"%string.
Proof. vm_compute. reflexivity. Qed.

Example leap_day_text :
  FormatRFC3339Nano (1709251199 * 1000000000 + 120000000) = Some "2024-02-29T23:59:59.12Z"%string.
Proof. vm_compute. reflexivity. Qed.
