(* ===== verification/Json.v ===== *)
(** * JSON on the wire: what the server uses of [encoding/json]

    [marshal] is [json.Marshal] on the values of the replies, [Encode] what
    [json.NewEncoder(w).Encode] writes; [readValue] is the decoder that
    [json.NewDecoder(r.Body).Decode] runs on a request body, with the value it
    finds as a tree. Errors of the decoder are [None]: the server answers all of
    them alike. The theorems say that replies read back as the values they were
    made from and are safe inside HTML, and that a body that was cut off inside
    its value is never accepted. *)

From S2P Require Export Http GoTime.

Open Scope Z_scope.

Definition dquote : ascii := "034"%char.
Definition backslash : ascii := "\"%char.

(** ** Encoding *)

(** A character in a string ([appendString] with HTML escaping). *)
Definition escape_byte (c : ascii) : string :=
  let b := code c in
  if bool_decide (c = dquote) || bool_decide (c = backslash) then String backslash (String c "")
  else if b =? 8 then "\b"
  else if b =? 12 then "\f"
  else if b =? 10 then "\n"
  else if b =? 13 then "\r"
  else if b =? 9 then "\t"
  else if (b <? 32) || bool_decide (c = "<"%char) || bool_decide (c = ">"%char) || bool_decide (c = "&"%char)
  then "\u00" +:+ String (hex_digit (b / 16)) (String (hex_digit (b mod 16)) "")
  else String c "".

Definition escape_rune (x : Z * string) : string :=
  if invalid_byte x then "\ufffd"
  else if x.1 <? 0x80 then escape_byte (byte x.1)
  else if (x.1 =? 0x2028) || (x.1 =? 0x2029) then "\u202" +:+ String (hex_digit (x.1 mod 16)) ""
  else x.2.

Definition escape (s : string) : string := sconcat (map escape_rune (runes s)).

Definition quoted (s : string) : string := String dquote (s +:+ String dquote "").

(** [json.Marshal]: an error for a time it cannot print. A struct or a map is
    given with its fields in the order they are written. *)
Fixpoint marshal (v : json) : option string :=
  match v with
  | JString s => Some (quoted (escape s))
  | JBool b => Some (if b then "true" else "false")
  | JInt z => Some (FormatInt z)
  | JTime t => quoted <$> FormatRFC3339Nano t
  | JList l => es ← mapM marshal l; Some ("[" +:+ Join es "," +:+ "]")
  | JObj fs =>
      es ← mapM (fun f => e ← marshal f.2; Some (quoted (escape f.1) +:+ ":" +:+ e)) fs;
      Some ("{" +:+ Join es "," +:+ "}")
  end.

(** [json.NewEncoder(w).Encode(v)]: the value and a newline, or nothing. *)
Definition Encode (v : json) : string :=
  match marshal v with Some s => s +:+ String (byte 10) "" | None => EmptyString end.

(** The bytes of a reply's body. *)
Definition chunk_bytes (c : Chunk) : string := match c with Bytes s => s | Json v => Encode v end.
Definition wire (w : ResponseWriter) : string := sconcat (map chunk_bytes (resp_body w)).

(** ** Decoding *)

Inductive jvalue :=
  | VNull
  | VBool (b : bool)
  | VNumber (literal : string)
  | VString (s : string)
  | VArray (l : list jvalue)
  | VObject (fields : list (string * jvalue)).

Definition json_space (c : ascii) : bool :=
  (code c =? 32) || (code c =? 9) || (code c =? 10) || (code c =? 13).

Fixpoint skip_space (s : string) : string :=
  match s with
  | String c s' => if json_space c then skip_space s' else s
  | EmptyString => s
  end.

(** [getu4]: four hexadecimal digits. *)
Definition hex_value (c : ascii) : option Z :=
  if is_digit c then Some (code c - 48)
  else if in_range 97 102 (code c) then Some (code c - 87)
  else if in_range 65 70 (code c) then Some (code c - 55)
  else None.

Definition getu4 (s : string) : option Z :=
  match s with
  | String a (String b (String c (String d _))) =>
      x ← hex_value a; y ← hex_value b; z ← hex_value c; t ← hex_value d;
      Some (x * 4096 + y * 256 + z * 16 + t)
  | _ => None
  end.

(** The scanner inside a string: up to the closing quote, the escapes and the
    control characters checked. Gives the text between the quotes. *)
Definition simple_escape (c : ascii) : option ascii :=
  if bool_decide (c = dquote) || bool_decide (c = backslash) || bool_decide (c = "/"%char) then Some c
  else if bool_decide (c = "b"%char) then Some (byte 8)
  else if bool_decide (c = "f"%char) then Some (byte 12)
  else if bool_decide (c = "n"%char) then Some (byte 10)
  else if bool_decide (c = "r"%char) then Some (byte 13)
  else if bool_decide (c = "t"%char) then Some (byte 9)
  else None.

Fixpoint scan_string (s : string) : option (string * string) :=
  match s with
  | EmptyString => None
  | String c s' =>
      if bool_decide (c = dquote) then Some (EmptyString, s')
      else if bool_decide (c = backslash) then
        match s' with
        | EmptyString => None
        | String e s2 =>
            if bool_decide (e = "u"%char) then
              _ ← getu4 s2; '(t, r) ← scan_string s2; Some (String c (String e t), r)
            else
              _ ← simple_escape e; '(t, r) ← scan_string s2; Some (String c (String e t), r)
        end
      else if code c <? 32 then None
      else '(t, r) ← scan_string s'; Some (String c t, r)
  end.

(** [utf16.IsSurrogate], [utf16.DecodeRune] *)
Definition IsSurrogate (r : Z) : bool := in_range 0xD800 0xDFFF r.
Definition utf16_DecodeRune (r1 r2 : Z) : Z :=
  if in_range 0xD800 0xDBFF r1 && in_range 0xDC00 0xDFFF r2
  then (r1 - 0xD800) * 1024 + (r2 - 0xDC00) + 0x10000 else RuneError.

(** The rune at the head of a scanned string and the bytes it takes: what
    follows the backslash of an [\u] is given. A low half that is not an escape
    is [None]. *)
Definition unquote_u (s : string) : Z * nat :=
  match getu4 s with
  | None => (RuneError, 0%nat)
  | Some rr =>
      if IsSurrogate rr then
        match sdrop 4 s with
        | String b (String u s2) =>
            match (if bool_decide (b = backslash) && bool_decide (u = "u"%char) then getu4 s2 else None) with
            | Some rr1 =>
                if utf16_DecodeRune rr rr1 =? RuneError then (RuneError, 4%nat)
                else (utf16_DecodeRune rr rr1, 10%nat)
            | None => (RuneError, 4%nat)
            end
        | _ => (RuneError, 4%nat)
        end
      else (rr, 4%nat)
  end.

(** [unquote] on the text between the quotes. *)
Fixpoint unquote_fuel (n : nat) (s : string) : string :=
  match n, s with
  | S n', String c s' =>
      if bool_decide (c = backslash) then
        match s' with
        | EmptyString => EmptyString
        | String e s2 =>
            if bool_decide (e = "u"%char) then
              let '(r, w) := unquote_u s2 in EncodeRune r +:+ unquote_fuel n' (sdrop w s2)
            else match simple_escape e with
                 | Some c' => String c' (unquote_fuel n' s2)
                 | None => EmptyString
                 end
        end
      else
        let '(r, w) := DecodeRune s in EncodeRune r +:+ unquote_fuel n' (sdrop w s)
  | _, _ => EmptyString
  end.
Definition unquote (s : string) : string := unquote_fuel (String.length s) s.

(** A number literal. *)
Fixpoint span_digits (s : string) : string * string :=
  match s with
  | String c s' => if is_digit c then let '(d, r) := span_digits s' in (String c d, r) else (EmptyString, s)
  | EmptyString => (EmptyString, s)
  end.

Definition scan_digits1 (s : string) : option (string * string) :=
  match span_digits s with (EmptyString, _) => None | p => Some p end.

Definition scan_int (s : string) : option (string * string) :=
  match s with
  | String c s' => if bool_decide (c = "0"%char) then Some ("0"%string, s') else scan_digits1 s
  | EmptyString => None
  end.

Definition scan_frac (s : string) : option (string * string) :=
  match s with
  | String c s' =>
      if bool_decide (c = "."%char) then '(d, r) ← scan_digits1 s'; Some (String c d, r)
      else Some (EmptyString, s)
  | EmptyString => Some (EmptyString, s)
  end.

Definition scan_exp (s : string) : option (string * string) :=
  match s with
  | String c s' =>
      if bool_decide (c = "e"%char) || bool_decide (c = "E"%char) then
        match s' with
        | String g s2 =>
            if bool_decide (g = "+"%char) || bool_decide (g = "-"%char)
            then '(d, r) ← scan_digits1 s2; Some (String c (String g d), r)
            else '(d, r) ← scan_digits1 s'; Some (String c d, r)
        | EmptyString => None
        end
      else Some (EmptyString, s)
  | EmptyString => Some (EmptyString, s)
  end.

Definition scan_number (s : string) : option (string * string) :=
  let '(sign, s0) := match s with
                     | String c s' => if bool_decide (c = "-"%char) then (String c EmptyString, s') else (EmptyString, s)
                     | EmptyString => (EmptyString, s)
                     end in
  '(i, s1) ← scan_int s0; '(f, s2) ← scan_frac s1; '(e, s3) ← scan_exp s2;
  Some (sign +:+ i +:+ f +:+ e, s3).

(** What follows a word: the rest when [s] starts with it. *)
Definition expect (p s : string) : option string :=
  if HasPrefix s p then Some (sdrop (String.length p) s) else None.

Definition maxNestingDepth : Z := 10000.

(** The value at the head of [s] and what follows it; [d] values are open. The
    fuel bounds the calls. *)
Fixpoint parse_value (n : nat) (d : Z) (s : string) {struct n} : option (jvalue * string) :=
  match n with
  | O => None
  | S n' =>
      match skip_space s with
      | EmptyString => None
      | String c s1 as s0 =>
          if bool_decide (c = "{"%char) then
            if maxNestingDepth <=? d then None else
            match skip_space s1 with
            | EmptyString => None
            | String c2 s2 as s3 =>
                if bool_decide (c2 = "}"%char) then Some (VObject [], s2)
                else '(fs, r) ← parse_fields n' (d + 1) s3; Some (VObject fs, r)
            end
          else if bool_decide (c = "["%char) then
            if maxNestingDepth <=? d then None else
            match skip_space s1 with
            | EmptyString => None
            | String c2 s2 as s3 =>
                if bool_decide (c2 = "]"%char) then Some (VArray [], s2)
                else '(l, r) ← parse_elems n' (d + 1) s3; Some (VArray l, r)
            end
          else if bool_decide (c = dquote) then
            '(t, r) ← scan_string s1; Some (VString (unquote t), r)
          else if bool_decide (c = "-"%char) || is_digit c then
            '(l, r) ← scan_number s0; Some (VNumber l, r)
          else if bool_decide (c = "t"%char) then r ← expect "true" s0; Some (VBool true, r)
          else if bool_decide (c = "f"%char) then r ← expect "false" s0; Some (VBool false, r)
          else if bool_decide (c = "n"%char) then r ← expect "null" s0; Some (VNull, r)
          else None
      end
  end
with parse_elems (n : nat) (d : Z) (s : string) {struct n} : option (list jvalue * string) :=
  match n with
  | O => None
  | S n' =>
      '(v, r) ← parse_value n' d s;
      match skip_space r with
      | EmptyString => None
      | String c r1 =>
          if bool_decide (c = ","%char) then '(l, r2) ← parse_elems n' d r1; Some (v :: l, r2)
          else if bool_decide (c = "]"%char) then Some ([v], r1)
          else None
      end
  end
with parse_fields (n : nat) (d : Z) (s : string) {struct n} : option (list (string * jvalue) * string) :=
  match n with
  | O => None
  | S n' =>
      match skip_space s with
      | EmptyString => None
      | String q s1 =>
          if bool_decide (q = dquote) then
            '(k, r0) ← scan_string s1;
            r ← expect ":" (skip_space r0);
            '(v, r) ← parse_value n' d r;
            match skip_space r with
            | EmptyString => None
            | String c r1 =>
                if bool_decide (c = ","%char) then
                  '(fs, r2) ← parse_fields n' d r1; Some ((unquote k, v) :: fs, r2)
                else if bool_decide (c = "}"%char) then Some ([(unquote k, v)], r1)
                else None
            end
          else None
      end
  end.

(** The first value of a text. *)
Definition parse (s : string) : option (jvalue * string) :=
  parse_value (2 * String.length s + 2) 0 s.

(** [dec.readValue]: an object or an array is complete at its last byte; after any
    other value the decoder looks at one byte more, or at the end of the body. *)
Definition readValue (b : Body) : option jvalue :=
  '(v, r) ← parse (body_bytes b);
  match v with
  | VObject _ | VArray _ => Some v
  | _ => if bool_decide (r <> EmptyString) || bool_decide (body_error b = None) then Some v else None
  end.

(** ** Filling a struct of strings *)

(** [foldName]: letters in upper case; the two characters beyond ASCII that fold
    to an ASCII letter are U+017F and U+212A. *)
Definition foldRune (r : Z) : Z :=
  if in_range 97 122 r then r - 32
  else if r =? 0x17F then 83
  else if r =? 0x212A then 75
  else r.
Definition foldName (s : string) : string := Map foldRune s.

(** The field of a struct a key names: an exact match, else a folded one. *)
Definition field_of (names : list string) (key : string) : option nat :=
  match list_find (fun n => n = key) names with
  | Some (i, _) => Some i
  | None => fst <$> list_find (fun n => foldName n = foldName key) names
  end.

(** One key and its value into the fields: [null] is no change, another value
    that is no string is an error, which is reported when all is read. *)
Definition set_field (names : list string) (acc : list string * bool) (f : string * jvalue)
  : list string * bool :=
  match field_of names f.1 with
  | None => acc
  | Some i =>
      match f.2 with
      | VString v => (<[i := v]> acc.1, acc.2)
      | VNull => acc
      | _ => (acc.1, false)
      end
  end.

(** [d.unmarshal] into a struct of strings, all empty before. *)
Definition unmarshal_strings (names : list string) (v : jvalue) : option (list string) :=
  match v with
  | VNull => Some (map (fun _ => EmptyString) names)
  | VObject fs =>
      let '(vals, ok) := fold_left (set_field names) fs (map (fun _ => EmptyString) names, true) in
      if ok : bool then Some vals else None
  | _ => None
  end.

(** ** Strings: escaping and reading back *)

#[local] Ltac Zify.zify_post_hook ::= Z.to_euclidean_division_equations.

(** What a reader sees of a string: every invalid byte as U+FFFD. *)
Definition sanitize (s : string) : string := sconcat (map (fun x => EncodeRune x.1) (runes s)).

Lemma sanitize_valid s : Valid s = true -> sanitize s = s.
Proof.
  intros (rs & Hrs & ->)%Valid_spec. unfold sanitize. rewrite runes_encode_list by done.
  induction Hrs as [|r rs Hr _ IH]; cbn [map sconcat fst]; [done|].
  rewrite IH. unfold EncodeRune. by rewrite Hr.
Qed.

Lemma Valid_sanitize s : Valid (sanitize s) = true.
Proof.
  apply Valid_sconcat. apply Forall_map. induction (runes s); constructor; [|done].
  apply Valid_EncodeRune.
Qed.

(** A byte of a string that the scanner passes over. *)
Definition plain_byte (c : ascii) : bool :=
  (32 <=? code c) && bool_decide (c <> dquote) && bool_decide (c <> backslash).

Lemma scan_string_plain c t :
  plain_byte c = true ->
  scan_string (String c t) = '(u, r) ← scan_string t; Some (String c u, r).
Proof.
  unfold plain_byte. rewrite !andb_true_iff, !bool_decide_eq_true, Z.leb_le. intros [[Hc H1] H2].
  cbn [scan_string]. rewrite !bool_decide_eq_false_2 by done. by rewrite (proj2 (Z.ltb_ge _ _)).
Qed.

Lemma scan_string_plains p t :
  sforall plain_byte p = true ->
  scan_string (p +:+ t) = '(u, r) ← scan_string t; Some (p +:+ u, r).
Proof.
  induction p as [|c p IH]; simpl String.append; intros Hp.
  { by destruct (scan_string t) as [[]|]. }
  apply andb_true_iff in Hp as [Hc Hp]. rewrite scan_string_plain, IH by done.
  by destruct (scan_string t) as [[]|].
Qed.

Lemma plain_code c : 32 <= code c -> code c <> 34 -> code c <> 92 -> plain_byte c = true.
Proof.
  intros H1 H2 H3. unfold plain_byte. rewrite !andb_true_iff, !bool_decide_eq_true, Z.leb_le.
  split_and!; [done|by intros ->..].
Qed.

Lemma scan_string_simple e x t :
  e <> "u"%char -> simple_escape e = Some x ->
  scan_string (String backslash (String e t)) = '(u, r) ← scan_string t; Some (String backslash (String e u), r).
Proof.
  intros He Hx. cbn [scan_string]. rewrite (bool_decide_eq_false_2 (backslash = dquote)) by done.
  rewrite bool_decide_eq_true_2, bool_decide_eq_false_2, Hx by done. done.
Qed.

Lemma getu4_app h t r : String.length h = 4%nat -> getu4 h = Some r -> getu4 (h +:+ t) = Some r.
Proof. intros Hl. by destruct h as [|a [|b [|c [|d [|]]]]]. Qed.

Lemma scan_string_u h t r :
  String.length h = 4%nat -> getu4 h = Some r -> sforall plain_byte h = true ->
  scan_string ("\u" +:+ h +:+ t) = '(u, q) ← scan_string t; Some ("\u" +:+ h +:+ u, q).
Proof.
  intros Hl Hr Hp. change ("\u" +:+ h +:+ t) with (String backslash (String "u" (h +:+ t))).
  cbn [scan_string]. rewrite (bool_decide_eq_false_2 (backslash = dquote)) by done.
  rewrite !bool_decide_eq_true_2, (getu4_app h t r) by done. cbn [mbind option_bind].
  rewrite scan_string_plains by done. by destruct (scan_string t) as [[]|].
Qed.

(** The escape sequences the encoder writes. *)
Inductive escape_of : string -> Z -> Prop :=
  | escape_simple e c : e <> "u"%char -> simple_escape e = Some c -> code c < 0x80 ->
      escape_of (String backslash (String e "")) (code c)
  | escape_u h r : String.length h = 4%nat -> getu4 h = Some r -> sforall plain_byte h = true ->
      IsSurrogate r = false -> escape_of ("\u" +:+ h) r
  | escape_plain r : ValidRune r = true -> sforall plain_byte (encode_valid r) = true ->
      escape_of (encode_valid r) r.

Lemma hex_value_digit z : 0 <= z < 16 -> hex_value (hex_digit z) = Some z.
Proof.
  intros Hz. unfold hex_value, hex_digit, is_digit. destruct (Z.ltb_spec z 10); z_decide; f_equal; lia.
Qed.

Lemma plain_hex_digit z : 0 <= z < 16 -> plain_byte (hex_digit z) = true.
Proof.
  intros Hz. assert (48 <= code (hex_digit z) <= 57 \/ 97 <= code (hex_digit z) <= 102)
    by (unfold hex_digit; destruct (Z.ltb_spec z 10); rewrite code_byte; lia).
  apply plain_code; lia.
Qed.

Lemma escape_u00 z : 0 <= z < 0x80 ->
  escape_of ("\u00" +:+ String (hex_digit (z / 16)) (String (hex_digit (z mod 16)) "")) z.
Proof.
  intros Hz. apply (escape_u ("00" +:+ String (hex_digit (z / 16)) (String (hex_digit (z mod 16)) ""))).
  - done.
  - simpl. rewrite !hex_value_digit by lia. cbn [mbind option_bind]. f_equal. change (code "0") with 48. lia.
  - cbn [String.append sforall]. rewrite !plain_hex_digit by lia. done.
  - apply in_range_false. lia.
Qed.

(** The characters with an escape of one letter. *)
#[local] Ltac short := match goal with
  |- context [code ?c =? ?n] => destruct (Z.eqb_spec (code c) n) as [E|];
    [rewrite E; match goal with |- escape_of (String _ (String ?e _)) ?m =>
       rewrite <-(code_byte m) by lia; by (apply escape_simple; vm_compute) end|] end.

Lemma escape_byte_of c : code c < 0x80 -> escape_of (escape_byte c) (code c).
Proof.
  intros Hc. pose proof (code_range c). unfold escape_byte.
  destruct (bool_decide (c = dquote) || _) eqn:E1.
  { apply orb_true_iff in E1. rewrite !bool_decide_eq_true in E1.
    destruct E1 as [-> | ->]; by (apply escape_simple; vm_compute). }
  do 5 short.
  destruct ((code c <? 32) || _ || _ || _) eqn:E2; [apply escape_u00; lia|].
  rewrite !orb_false_iff in E1. rewrite !orb_false_iff, Z.ltb_ge in E2. rewrite !bool_decide_eq_false in E1.
  assert (String c "" = encode_valid (code c)) as ->
    by (unfold encode_valid; rewrite (proj2 (Z.ltb_lt _ _)), byte_code by lia; done).
  apply escape_plain.
  - apply ValidRune_spec. lia.
  - unfold encode_valid. rewrite (proj2 (Z.ltb_lt _ _)), byte_code by lia. simpl.
    unfold plain_byte. rewrite !bool_decide_eq_true_2 by tauto. by rewrite (proj2 (Z.leb_le _ _)) by lia.
Qed.

Lemma escape_rune_of s : Forall (fun x => escape_of (escape_rune x) x.1) (runes s).
Proof.
  eapply Forall_impl; [apply runes_elems|]. intros [r b] Hx. unfold escape_rune.
  destruct (invalid_byte (r, b)) eqn:Ei.
  { unfold invalid_byte in Ei. apply andb_true_iff in Ei as [Er%Z.eqb_eq _].
    cbn [fst] in *. subst r. by apply (escape_u "fffd"). }
  destruct Hx as [Hx|[Hv Hb]]; [congruence|]. cbn [fst snd] in *. subst b.
  destruct (Z.ltb_spec r 0x80).
  { pose proof (proj1 (ValidRune_spec r) Hv). rewrite <-(code_byte r) at 2 by lia.
    apply escape_byte_of. rewrite code_byte by lia. done. }
  destruct ((r =? 0x2028) || _) eqn:E.
  { apply orb_true_iff in E. rewrite !Z.eqb_eq in E.
    destruct E as [-> | ->]; by apply (escape_u ("202" +:+ String (hex_digit _) "")). }
  apply escape_plain; [done|]. destruct (encode_valid_high r true Hv) as [Hh _]; [done|].
  eapply sforall_impl; [|exact Hh]. intros c Hc%Z.leb_le. apply plain_code; lia.
Qed.

Lemma scan_string_escape_of e r t :
  escape_of e r -> scan_string (e +:+ t) = '(u, q) ← scan_string t; Some (e +:+ u, q).
Proof.
  destruct 1 as [e c He Hs Hc|h r Hl Hg Hp Hi|r Hv Hp].
  - by apply (scan_string_simple e c).
  - change (("\u" +:+ h) +:+ t) with ("\u" +:+ h +:+ t). by rewrite (scan_string_u h t r).
  - by apply scan_string_plains.
Qed.

Lemma scan_string_escape s t :
  scan_string (escape s +:+ String dquote t) = Some (escape s, t).
Proof.
  unfold escape. induction (escape_rune_of s) as [|x l Hx _ IH]; [done|].
  cbn [map sconcat]. rewrite sapp_assoc, (scan_string_escape_of _ x.1), IH by done. done.
Qed.

Lemma unquote_u_width s : (snd (unquote_u s) <= String.length s)%nat.
Proof.
  unfold unquote_u. destruct (getu4 s) as [rr|] eqn:E; [|simpl; lia].
  destruct s as [|a [|b [|c [|d s]]]]; try done. cbn [sdrop].
  destruct (IsSurrogate rr); [|simpl; lia]. destruct s as [|x [|y s]]; try (simpl; lia).
  destruct (bool_decide _ && _); [|simpl; lia].
  destruct (getu4 s) as [rr1|] eqn:E2; [|simpl; lia]. destruct (_ =? _); [simpl; lia|].
  destruct s as [|? [|? [|? [|? ?]]]]; try done. simpl. lia.
Qed.

Lemma unquote_fuel_enough n m s :
  (String.length s <= n)%nat -> (String.length s <= m)%nat -> unquote_fuel n s = unquote_fuel m s.
Proof.
  revert m s. induction n as [|n IH]; intros [|m] [|c s] Hn Hm; simpl in Hn, Hm; try lia; try done.
  cbn [unquote_fuel]. destruct (bool_decide _).
  - destruct s as [|e s]; [done|]. simpl in Hn, Hm. destruct (bool_decide _).
    + pose proof (unquote_u_width s). destruct (unquote_u s) as [r w]. f_equal.
      apply IH; rewrite sdrop_length; lia.
    + destruct (simple_escape e); [|done]. f_equal. apply IH; lia.
  - destruct (DecodeRune (String c s)) as [r w] eqn:E. pose proof (DecodeRune_width _ _ _ _ E).
    f_equal. apply IH; rewrite sdrop_length; simpl; lia.
Qed.

Lemma EncodeRune_code c : code c < 0x80 -> EncodeRune (code c) = String c "".
Proof.
  intros Hc. pose proof (code_range c). unfold EncodeRune. rewrite (proj2 (ValidRune_spec _)) by lia.
  unfold encode_valid. by rewrite (proj2 (Z.ltb_lt _ _)), byte_code by lia.
Qed.

Lemma unquote_fuel_escape_of e r t n :
  escape_of e r -> (String.length (e +:+ t) <= n)%nat ->
  unquote_fuel n (e +:+ t) = EncodeRune r +:+ unquote t.
Proof.
  rewrite sapp_length. destruct n as [|n].
  { destruct 1 as [| |r _ _]; simpl; try lia.
    destruct (encode_valid_nonempty r) as (c & u & ->). simpl. lia. }
  destruct 1 as [e c He Hs Hc|h r Hl Hg Hp Hi|r Hv Hp]; intros Hn.
  - rewrite EncodeRune_code by done. cbn [String.length String.append unquote_fuel] in *.
    rewrite (bool_decide_eq_true_2 (backslash = backslash)), bool_decide_eq_false_2, Hs by done.
    cbn [String.append]. f_equal. apply unquote_fuel_enough; lia.
  - cbn [String.length String.append unquote_fuel] in *.
    rewrite !bool_decide_eq_true_2 by done. unfold unquote_u. rewrite (getu4_app h t r), Hi by done.
    f_equal. replace (sdrop 4 (h +:+ t)) with t by (rewrite <-Hl; by rewrite sdrop_app).
    apply unquote_fuel_enough; lia.
  - pose proof (DecodeRune_encode r t Hv) as HD. unfold EncodeRune at 1. rewrite Hv.
    destruct (encode_valid_nonempty r) as (c & u & Hu). rewrite Hu in *.
    cbn [String.append String.length unquote_fuel sforall] in *. apply andb_true_iff in Hp as [Hp _].
    unfold plain_byte in Hp. rewrite !andb_true_iff, !bool_decide_eq_true in Hp.
    rewrite bool_decide_eq_false_2, HD by tauto. unfold EncodeRune at 1. rewrite Hv, Hu.
    cbn [String.append sdrop]. f_equal. rewrite sdrop_app. f_equal. apply unquote_fuel_enough; lia.
Qed.

Lemma unquote_escape s : unquote (escape s) = sanitize s.
Proof.
  unfold escape, sanitize. induction (escape_rune_of s) as [|x l Hx _ IH]; [done|].
  cbn [map sconcat]. unfold unquote. by rewrite (unquote_fuel_escape_of _ x.1), IH.
Qed.

Lemma unquote_plain s : sforall (fun c => plain_byte c && (code c <? 0x80)) s = true -> unquote s = s.
Proof.
  induction s as [|c s IH]; [done|]. cbn [sforall]. rewrite !andb_true_iff, Z.ltb_lt. intros [[Hp Hc] Hs].
  pose proof (code_range c). 
  pose proof (unquote_fuel_escape_of (String c "") (code c) s (String.length (String c s))) as Hu.
  rewrite EncodeRune_code, IH in Hu by done. apply Hu; [|done].
  rewrite <-(EncodeRune_code c) by done. unfold EncodeRune.
  assert (ValidRune (code c) = true) as Hv by (apply ValidRune_spec; lia). rewrite Hv.
  apply escape_plain; [done|]. unfold encode_valid. rewrite (proj2 (Z.ltb_lt _ _)), byte_code by done.
  simpl. by rewrite Hp.
Qed.

Lemma time_text_plain s :
  sforall time_char s = true -> sforall (fun c => plain_byte c && (code c <? 0x80)) s = true.
Proof.
  apply sforall_impl. intros c. unfold time_char. rewrite orb_true_iff. intros [Hd|Hd].
  - unfold is_digit in Hd. apply in_range_spec in Hd. rewrite plain_code by lia.
    apply Z.ltb_lt. lia.
  - cbn [sexists] in Hd. rewrite !orb_true_iff, !bool_decide_eq_true in Hd.
    destruct Hd as [->|[->|[->|[->|[->|]]]]]; done.
Qed.

(** ** Numbers *)

(** A byte that ends a number. *)
Definition number_stop (t : string) : bool :=
  match t with
  | EmptyString => true
  | String c _ => negb (is_digit c || bool_decide (c = "."%char) || bool_decide (c = "e"%char)
                        || bool_decide (c = "E"%char))
  end.

Lemma span_digits_app ds t :
  sforall is_digit ds = true -> number_stop t = true -> span_digits (ds +:+ t) = (ds, t).
Proof.
  induction ds as [|c ds IH]; simpl; intros Hd Ht.
  - destruct t as [|c t]; [done|]. cbn [number_stop] in Ht. apply negb_true_iff in Ht.
    rewrite !orb_false_iff in Ht. simpl. by destruct Ht as [[[-> _] _] _].
  - apply andb_true_iff in Hd as [-> Hd]. by rewrite IH.
Qed.

Lemma digits_fuel_head n z :
  0 < z < 10 ^ Z.of_nat n -> exists c u, digits_fuel n z = String c u /\ c <> "0"%char.
Proof.
  revert z. induction n as [|n IH]; intros z Hz; [simpl in Hz; lia|]. cbn [digits_fuel].
  destruct (Z.ltb_spec z 10).
  - eexists _, _. split; [done|]. intros E%(f_equal code). rewrite code_digit in E by lia.
    change (code "0") with 48 in E. lia.
  - rewrite Nat2Z.inj_succ, Z.pow_succ_r in Hz by lia.
    destruct (IH (z / 10)) as (c & u & -> & Hc); [lia|]. simpl. eauto.
Qed.

Lemma scan_int_digits z t :
  0 <= z -> number_stop t = true -> scan_int (digits z +:+ t) = Some (digits z, t).
Proof.
  intros Hz Ht. destruct (digits_spec z Hz) as (_ & Hne & Hd).
  destruct (Z.eq_dec z 0) as [->|Hz0]; [done|].
  destruct (digits_fuel_head (S (Z.to_nat (Z.log2 z))) z) as (c & u & Hc & H0).
  { split; [lia|]. by apply digits_fuel_enough. }
  fold (digits z) in Hc. pose proof (span_digits_app (digits z) t Hd Ht) as Hs.
  rewrite Hc in *. cbn [scan_int String.append]. rewrite bool_decide_eq_false_2 by done.
  unfold scan_digits1. cbn [String.append] in Hs. by rewrite Hs.
Qed.

Lemma scan_frac_exp_stop t :
  number_stop t = true -> scan_frac t = Some (EmptyString, t) /\ scan_exp t = Some (EmptyString, t).
Proof.
  destruct t as [|c t]; [done|]. cbn [number_stop]. rewrite negb_true_iff, !orb_false_iff.
  intros [[[_ H1] H2] H3]. simpl. by rewrite H1, H2, H3.
Qed.

Lemma scan_number_FormatInt z t :
  number_stop t = true -> scan_number (FormatInt z +:+ t) = Some (FormatInt z, t).
Proof.
  intros Ht. destruct (scan_frac_exp_stop t Ht) as [Hf He]. unfold scan_number, FormatInt.
  destruct (Z.ltb_spec z 0) as [Hz|Hz].
  - cbn [String.append]. rewrite bool_decide_eq_true_2, scan_int_digits by (done || lia).
    cbn [mbind option_bind]. rewrite Hf. cbn [mbind option_bind]. rewrite He. cbn [mbind option_bind].
    by rewrite !sapp_nil_r.
  - pose proof (scan_int_digits z t Hz Ht) as Hi. destruct (digits_head z Hz) as (c & u & Hd & Hc).
    rewrite Hd in *. cbn [String.append] in *. rewrite bool_decide_eq_false_2 by (intros ->; done).
    rewrite Hi. cbn [mbind option_bind]. rewrite Hf. cbn [mbind option_bind]. rewrite He.
    cbn [mbind option_bind String.append]. by rewrite !sapp_nil_r.
Qed.

(** ** Values: what is written reads back *)

(** Induction on values, through the lists in them. *)
Definition json_deep_ind (P : json -> Prop)
  (HS : forall s, P (JString s)) (HB : forall b, P (JBool b)) (HI : forall z, P (JInt z))
  (HT : forall t, P (JTime t)) (HL : forall l, Forall P l -> P (JList l))
  (HO : forall fs, Forall (fun f => P f.2) fs -> P (JObj fs)) : forall v, P v :=
  fix F v := match v with
  | JString s => HS s
  | JBool b => HB b
  | JInt z => HI z
  | JTime t => HT t
  | JList l => HL l ((fix G l : Forall P l :=
      match l with [] => List.Forall_nil _ | x :: l' => List.Forall_cons _ _ _ (F x) (G l') end) l)
  | JObj fs => HO fs ((fix G fs : Forall (fun f => P f.2) fs :=
      match fs with [] => List.Forall_nil _ | x :: l' => List.Forall_cons _ _ _ (F x.2) (G l') end) fs)
  end.

Fixpoint depth (v : json) : Z :=
  match v with
  | JList l => 1 + fold_right Z.max 0 (map depth l)
  | JObj fs => 1 + fold_right Z.max 0 (map (fun f => depth f.2) fs)
  | _ => 0
  end.

(** The value a reader finds. *)
Fixpoint denote (v : json) : jvalue :=
  match v with
  | JString s => VString (sanitize s)
  | JBool b => VBool b
  | JInt z => VNumber (FormatInt z)
  | JTime t => VString (default EmptyString (FormatRFC3339Nano t))
  | JList l => VArray (map denote l)
  | JObj fs => VObject (map (fun f => (sanitize f.1, denote f.2)) fs)
  end.

(** No value starts with white space or with a closing bracket. *)
Definition value_head (c : ascii) : bool :=
  negb (json_space c) && bool_decide (c <> "]"%char).

Lemma marshal_head v s : marshal v = Some s -> exists c u, s = String c u /\ value_head c = true.
Proof.
  destruct v as [x|b|z|t|l|fs]; simpl.
  - intros Hs%(inj Some). subst s. unfold quoted. eexists _, _. by split.
  - intros Hs%(inj Some). subst s. destruct b; eexists _, _; by split.
  - intros Hs%(inj Some). subst s. unfold FormatInt. destruct (Z.ltb_spec z 0).
    { eexists _, _; by split. }
    destruct (digits_head z) as (c & u & -> & Hc); [done|]. eexists _, _. split; [done|].
    unfold is_digit in Hc. apply in_range_spec in Hc. unfold value_head, json_space.
    rewrite andb_true_iff, bool_decide_eq_true. split; [by z_decide|].
    intros ->. change (code "]") with 93 in Hc. lia.
  - destruct (FormatRFC3339Nano t); [|done]. intros Hs%(inj Some). subst s.
    unfold quoted. eexists _, _. by split.
  - destruct (mapM _ l); [|done]. intros Hs%(inj Some). subst s. eexists _, _. by split.
  - destruct (mapM _ fs); [|done]. intros Hs%(inj Some). subst s. eexists _, _. by split.
Qed.

Lemma skip_space_head c u : json_space c = false -> skip_space (String c u) = String c u.
Proof. simpl. by intros ->. Qed.

Definition reads_back (v : json) : Prop := forall s n d t,
  marshal v = Some s -> number_stop t = true -> d + depth v <= maxNestingDepth ->
  (2 * String.length s < n)%nat -> parse_value n d (s +:+ t) = Some (denote v, t).

Lemma quoted_reads_back s u n d t :
  (forall q, scan_string (s +:+ String dquote q) = Some (s, q)) -> unquote s = u ->
  parse_value (S n) d (quoted s +:+ t) = Some (VString u, t).
Proof.
  intros Hs <-. unfold quoted. cbn [String.append parse_value].
  rewrite skip_space_head by done.
  rewrite !(bool_decide_eq_false_2 (dquote = _)), bool_decide_eq_true_2 by done.
  rewrite sapp_assoc. cbn [String.append]. by rewrite Hs.
Qed.

Definition depths {A} (f : A -> json) (l : list A) : Z := fold_right Z.max 0 (map (fun x => depth (f x)) l).

Lemma depths_cons {A} (f : A -> json) x l : depths f (x :: l) = depth (f x) `max` depths f l.
Proof. done. Qed.

Lemma parse_elems_join l es n d t :
  Forall reads_back l -> mapM marshal l = Some es -> l <> [] ->
  d + depths id l <= maxNestingDepth -> (2 * String.length (Join es ",") + 2 <= n)%nat ->
  parse_elems n d (Join es "," +:+ String "]" t) = Some (map denote l, t).
Proof.
  intros Hl. revert es n. induction Hl as [|v l Hv Hl IH]; intros es n Hes Hne Hd Hn; [done|].
  rewrite depths_cons in Hd. change (id v) with v in Hd.
  apply mapM_Some in Hes. inversion Hes as [|? e ? es' He Hes' E1 E2]; subst.
  destruct n as [|n]; [lia|]. cbn [parse_elems].
  destruct Hes' as [|w e' l es' Hw Hes'].
  - unfold Join in *. cbn [String.concat] in *. rewrite (Hv e) by (done || lia).
    cbn [mbind option_bind]. by rewrite skip_space_head.
  - rewrite Join_cons, !sapp_length in *. rewrite !sapp_assoc.
    rewrite (Hv e) by (done || lia). cbn [mbind option_bind String.append].
    rewrite skip_space_head, bool_decide_eq_true_2 by done.
    rewrite IH; [done|by apply mapM_Some; constructor|done|lia|change (String.length ",") with 1%nat in Hn; lia].
Qed.

Lemma parse_fields_join fs es n d t :
  Forall (fun f => reads_back f.2) fs ->
  mapM (fun f => e ← marshal f.2; Some (quoted (escape f.1) +:+ ":" +:+ e)) fs = Some es -> fs <> [] ->
  d + depths snd fs <= maxNestingDepth -> (2 * String.length (Join es ",") + 2 <= n)%nat ->
  parse_fields n d (Join es "," +:+ String "}" t) =
  Some (map (fun f => (sanitize f.1, denote f.2)) fs, t).
Proof.
  intros Hl. revert es n. induction Hl as [|[k v] l Hv Hl IH]; intros es n Hes Hne Hd Hn; [done|].
  rewrite depths_cons in Hd. cbn [snd] in *.
  apply mapM_Some in Hes. inversion Hes as [|? x ? es' He Hes' E1 E2]; subst.
  cbn [fst snd] in He. destruct (marshal v) as [e|] eqn:Ev; [|done].
  cbn [mbind option_bind] in He. apply (inj Some) in He. subst x.
  destruct n as [|n]; [lia|]. cbn [parse_fields].
  assert (forall u, skip_space ((quoted (escape k) +:+ ":" +:+ e) +:+ u) =
    String dquote (escape k +:+ String dquote (String ":" (e +:+ u)))) as Hk.
  { intros u. unfold quoted. cbn [String.append]. rewrite skip_space_head by done.
    by rewrite !sapp_assoc. }
  assert (forall u, expect ":" (skip_space (String ":" u)) = Some u) as Hx by (by intros u; destruct u).
  destruct Hes' as [|w e' l es' Hw Hes'].
  - unfold Join in *. cbn [String.concat] in *. rewrite Hk, bool_decide_eq_true_2, scan_string_escape by done.
    cbn [mbind option_bind]. rewrite Hx. cbn [mbind option_bind].
    rewrite !sapp_length in Hn. rewrite (Hv e) by (done || lia).
    cbn [mbind option_bind]. rewrite skip_space_head by done.
    rewrite (bool_decide_eq_false_2 ("}"%char = _)), bool_decide_eq_true_2, unquote_escape by done. done.
  - rewrite Join_cons, !sapp_length in *. rewrite (sapp_assoc (quoted (escape k) +:+ ":" +:+ e)).
    rewrite Hk, bool_decide_eq_true_2, scan_string_escape by done.
    cbn [mbind option_bind]. rewrite Hx. cbn [mbind option_bind].
    rewrite !sapp_assoc. rewrite (Hv e) by (done || lia). cbn [mbind option_bind String.append].
    rewrite skip_space_head, bool_decide_eq_true_2 by done.
    rewrite IH; [by rewrite unquote_escape|by apply mapM_Some; constructor|done|lia|change (String.length ",") with 1%nat in Hn; lia].
Qed.

Lemma depths_nonneg {A} (f : A -> json) l : 0 <= depths f l.
Proof. unfold depths. induction l; simpl; lia. Qed.

Lemma join_head {A} (p : ascii -> bool) (f : A -> option string) x l es :
  mapM f (x :: l) = Some es ->
  (forall y e, f y = Some e -> exists c u, e = String c u /\ p c = true) ->
  exists c u, Join es "," = String c u /\ p c = true.
Proof.
  intros Hes Hf. apply mapM_Some in Hes. inversion Hes as [|? e ? es' He Hes' E1 E2]; subst.
  destruct (Hf _ _ He) as (c & u & -> & Hc). exists c.
  destruct es' as [|e' es']; [by exists u|]. rewrite Join_cons. eexists. by split.
Qed.

Lemma marshal_reads_back v : reads_back v.
Proof.
  induction v as [x|b|z|tm|l IH|fs IH] using json_deep_ind; intros s n d t Hs Ht Hd Hn; cbn [marshal] in Hs;
    (destruct n as [|n]; [lia|]).
  - apply (inj Some) in Hs. subst s. apply quoted_reads_back; [by intros; apply scan_string_escape|apply unquote_escape].
  - apply (inj Some) in Hs. subst s. by destruct b, t.
  - apply (inj Some) in Hs. subst s. cbn [parse_value].
    pose proof (scan_number_FormatInt z t Ht) as Hsn.
    destruct (marshal_head (JInt z) _ eq_refl) as (c & u & E & Hc). rewrite E in *.
    cbn [String.append] in *. unfold value_head in Hc. apply andb_true_iff in Hc as [Hc _].
    apply negb_true_iff in Hc. rewrite skip_space_head by done.
    assert (is_digit c = true \/ c = "-"%char) as Hd'.
    { revert E. unfold FormatInt. destruct (Z.ltb_spec z 0); [intros [= <- _]; by right|].
      destruct (digits_head z) as (c' & u' & -> & Hc'); [done|]. intros [= <- _]. by left. }
    assert (Hne : forall c', is_digit c' = false -> c' <> "-"%char -> c <> c')
      by (intros c' H1 H2 ->; destruct Hd'; congruence).
    rewrite !bool_decide_eq_false_2 by (by apply Hne).
    assert (bool_decide (c = "-"%char) || is_digit c = true) as ->
      by (apply orb_true_iff; rewrite bool_decide_eq_true; tauto).
    rewrite Hsn. cbn [denote mbind option_bind]. by rewrite E.
  - cbn [denote]. destruct (FormatRFC3339Nano tm) as [s'|] eqn:E; [|done].
    apply (inj Some) in Hs. subst s.
    pose proof (time_text_plain _ (FormatRFC3339Nano_chars _ _ E)) as Hp.
    apply quoted_reads_back; [|by apply unquote_plain]. intros q.
    rewrite scan_string_plains; [|eapply sforall_impl; [|exact Hp]; by intros c [? _]%andb_true_iff].
    simpl. by rewrite sapp_nil_r.
  - destruct (mapM marshal l) as [es|] eqn:Ees; [|done]. apply (inj Some) in Hs. subst s.
    cbn [String.append parse_value]. rewrite skip_space_head by done.
    rewrite (bool_decide_eq_false_2 ("["%char = "{"%char)), bool_decide_eq_true_2 by done.
    change (d + (1 + depths id l) <= maxNestingDepth) in Hd. pose proof (depths_nonneg id l).
    rewrite (proj2 (Z.leb_gt _ _)) by lia. rewrite sapp_assoc. cbn [String.append].
    destruct l as [|w l].
    { simpl in Ees. apply (inj Some) in Ees. by subst es. }
    destruct (join_head value_head _ _ _ _ Ees) as (c & u & Hj & Hc); [by apply marshal_head|].
    rewrite !sapp_length in Hn. cbn [String.length plus] in Hn.
    pose proof (parse_elems_join _ es n (d + 1) t IH Ees) as Hp. rewrite Hj in *. cbn [String.append] in *.
    unfold value_head in Hc. rewrite andb_true_iff, negb_true_iff, bool_decide_eq_true in Hc.
    rewrite skip_space_head by tauto. rewrite bool_decide_eq_false_2 by tauto.
    by rewrite Hp by (done || lia).
  - destruct (mapM _ fs) as [es|] eqn:Ees; [|done]. apply (inj Some) in Hs. subst s.
    cbn [String.append parse_value]. rewrite skip_space_head by done.
    rewrite bool_decide_eq_true_2 by done.
    change (d + (1 + depths snd fs) <= maxNestingDepth) in Hd. pose proof (depths_nonneg snd fs).
    rewrite (proj2 (Z.leb_gt _ _)) by lia. rewrite sapp_assoc. cbn [String.append].
    destruct fs as [|f fs].
    { simpl in Ees. apply (inj Some) in Ees. by subst es. }
    destruct (join_head (fun c => bool_decide (c = dquote)) _ _ _ _ Ees) as (c & u & Hj & Hc).
    { intros x y Hy. destruct (marshal x.2); [|done]. apply (inj Some) in Hy. subst y.
      unfold quoted. eexists _, _. by split. }
    apply bool_decide_eq_true in Hc. subst c.
    rewrite !sapp_length in Hn. cbn [String.length plus] in Hn.
    pose proof (parse_fields_join _ es n (d + 1) t IH Ees) as Hp. rewrite Hj in *. cbn [String.append] in *.
    rewrite skip_space_head, bool_decide_eq_false_2 by done.
    by rewrite Hp by (done || lia).
Qed.

Lemma parse_marshal v s t :
  marshal v = Some s -> number_stop t = true -> depth v <= maxNestingDepth ->
  parse (s +:+ t) = Some (denote v, t).
Proof.
  intros Hs Ht Hd. apply marshal_reads_back; try done. rewrite sapp_length. lia.
Qed.

(** ** The decoder reads its value only

    More bytes after a value do not change it, unless they continue a number;
    and the fuel of [parse] is enough for every text. *)

Lemma skip_space_app s c s1 u :
  skip_space s = String c s1 ->
  skip_space (s +:+ u) = String c (s1 +:+ u) /\ (String.length s1 < String.length s)%nat.
Proof.
  induction s as [|a s IH]; [done|]. simpl. destruct (json_space a).
  - intros [H1 H2]%IH. split; [done|lia].
  - intros [= -> ->]. split; [done|lia].
Qed.

Lemma expect_spec p s r : expect p s = Some r <-> s = p +:+ r.
Proof.
  unfold expect. destruct (HasPrefix s p) eqn:E.
  - apply HasPrefix_spec in E as [t ->]. rewrite sdrop_app. split; [by intros [= ->]|].
    intros H. f_equal. by apply sapp_inj_l in H.
  - split; [done|]. intros ->. assert (HasPrefix (p +:+ r) p = true) by (apply HasPrefix_spec; eauto). congruence.
Qed.

Lemma expect_app p s r u : expect p s = Some r -> expect p (s +:+ u) = Some (r +:+ u).
Proof. rewrite !expect_spec. intros ->. by rewrite sapp_assoc. Qed.

Lemma getu4_extend s u r : getu4 s = Some r -> getu4 (s +:+ u) = Some r.
Proof. by destruct s as [|a [|b [|c [|d s]]]]. Qed.

Lemma scan_string_extend s t r u :
  scan_string s = Some (t, r) ->
  scan_string (s +:+ u) = Some (t, r +:+ u) /\ (String.length r < String.length s)%nat.
Proof.
  remember (String.length s) as n eqn:Hn. revert s Hn t r.
  induction n as [n IH] using lt_wf_ind. intros [|c s] -> t r; [done|]. cbn [scan_string String.append String.length].
  destruct (bool_decide (c = dquote)); [intros [= <- <-]; split; [done|lia]|].
  destruct (bool_decide (c = backslash)).
  - destruct s as [|e s]; [done|]. cbn [String.append String.length].
    destruct (bool_decide (e = "u"%char)).
    + destruct (getu4 s) as [g|] eqn:Eg; [|done]. rewrite (getu4_extend _ u _ Eg). cbn [mbind option_bind].
      destruct (scan_string s) as [[t' r']|] eqn:Es; [|done].
      destruct (IH (String.length s) ltac:(simpl; lia) s eq_refl _ _ Es) as [-> Hl].
      intros [= <- <-]. split; [done|lia].
    + destruct (simple_escape e); [|done]. cbn [mbind option_bind].
      destruct (scan_string s) as [[t' r']|] eqn:Es; [|done].
      destruct (IH (String.length s) ltac:(simpl; lia) s eq_refl _ _ Es) as [-> Hl].
      intros [= <- <-]. split; [done|lia].
  - destruct (code c <? 32); [done|]. destruct (scan_string s) as [[t' r']|] eqn:Es; [|done].
    destruct (IH (String.length s) ltac:(simpl; lia) s eq_refl _ _ Es) as [-> Hl].
    intros [= <- <-]. split; [done|lia].
Qed.

Lemma span_digits_extend s d r u :
  span_digits s = (d, r) -> (String.length r <= String.length s)%nat /\
  (r <> EmptyString -> span_digits (s +:+ u) = (d, r +:+ u)).
Proof.
  revert d r. induction s as [|c s IH]; simpl; intros d r.
  { intros [= <- <-]. split; [simpl; lia|done]. }
  destruct (is_digit c).
  - destruct (span_digits s) as [d' r']. intros [= <- <-]. destruct (IH _ _ eq_refl) as [Hl He].
    split; [lia|]. intros Hr. by rewrite He.
  - intros [= <- <-]. split; [simpl; lia|done].
Qed.

Lemma scan_digits1_extend s d r u :
  scan_digits1 s = Some (d, r) -> (String.length r < String.length s)%nat /\
  (r <> EmptyString -> scan_digits1 (s +:+ u) = Some (d, r +:+ u)).
Proof.
  unfold scan_digits1. destruct s as [|c s]; [done|]. cbn [span_digits String.append String.length].
  destruct (is_digit c); [|done]. destruct (span_digits s) as [d' r'] eqn:E.
  intros [= <- <-]. destruct (span_digits_extend _ _ _ u E) as [Hl He].
  split; [lia|]. intros Hr. by rewrite He.
Qed.

Lemma scan_int_extend s d r u :
  scan_int s = Some (d, r) -> (String.length r < String.length s)%nat /\
  (r <> EmptyString -> scan_int (s +:+ u) = Some (d, r +:+ u)).
Proof.
  destruct s as [|c s]; [done|]. cbn [scan_int String.append]. destruct (bool_decide _).
  - intros [= <- <-]. simpl. split; [lia|done].
  - apply (scan_digits1_extend (String c s)).
Qed.

Lemma scan_frac_extend s d r u :
  scan_frac s = Some (d, r) -> (String.length r <= String.length s)%nat /\
  (r <> EmptyString -> scan_frac (s +:+ u) = Some (d, r +:+ u)).
Proof.
  destruct s as [|c s]; cbn [scan_frac String.append]; [by intros [= <- <-]|].
  destruct (bool_decide _); [|by intros [= <- <-]].
  destruct (scan_digits1 s) as [[d' r']|] eqn:E; [|done]. intros [= <- <-].
  destruct (scan_digits1_extend _ _ _ u E) as [Hl He]. split; [simpl; lia|]. intros Hr. by rewrite He.
Qed.

Lemma scan_exp_extend s d r u :
  scan_exp s = Some (d, r) -> (String.length r <= String.length s)%nat /\
  (r <> EmptyString -> scan_exp (s +:+ u) = Some (d, r +:+ u)).
Proof.
  destruct s as [|c s]; cbn [scan_exp String.append]; [by intros [= <- <-]|].
  destruct (_ || _); [|by intros [= <- <-]]. destruct s as [|g s]; [done|]. cbn [String.append].
  destruct (_ || _).
  - destruct (scan_digits1 s) as [[d' r']|] eqn:E; [|done]. intros [= <- <-].
    destruct (scan_digits1_extend _ _ _ u E) as [Hl He]. split; [simpl; lia|]. intros Hr. by rewrite He.
  - destruct (scan_digits1 (String g s)) as [[d' r']|] eqn:E; [|done]. intros [= <- <-].
    destruct (scan_digits1_extend _ _ _ u E) as [Hl He]. split; [simpl in *; lia|]. intros Hr.
    change (String g (s +:+ u)) with (String g s +:+ u). by rewrite He.
Qed.

Lemma scan_number_extend s l r u :
  scan_number s = Some (l, r) -> (String.length r < String.length s)%nat /\
  (r <> EmptyString -> scan_number (s +:+ u) = Some (l, r +:+ u)).
Proof.
  unfold scan_number.
  set (sgn := fun s => match s with
                     | String c s' => if bool_decide (c = "-"%char) then (String c EmptyString, s') else (EmptyString, s)
                     | EmptyString => (EmptyString, s) end).
  fold (sgn s) (sgn (s +:+ u)). destruct (sgn s) as [sg s0] eqn:Es.
  assert ((String.length s0 <= String.length s)%nat /\ (s0 <> EmptyString -> sgn (s +:+ u) = (sg, s0 +:+ u))) as [Hl Hu].
  { unfold sgn in *. destruct s as [|c s]; [by injection Es as <- <-|]. cbn [String.append].
    destruct (bool_decide _); injection Es as <- <-; simpl; split; (done || lia). }
  destruct (scan_int s0) as [[i s1]|] eqn:E1; [|done]. cbn [mbind option_bind].
  destruct (scan_frac s1) as [[f s2]|] eqn:E2; [|done]. cbn [mbind option_bind].
  destruct (scan_exp s2) as [[e s3]|] eqn:E3; [|done]. cbn [mbind option_bind]. intros [= <- <-].
  destruct (scan_int_extend _ _ _ u E1) as [L1 H1]. destruct (scan_frac_extend _ _ _ u E2) as [L2 H2].
  destruct (scan_exp_extend _ _ _ u E3) as [L3 H3]. split; [lia|]. intros Hr.
  assert (Hne : forall x : string, (String.length s3 <= String.length x)%nat -> x <> EmptyString)
    by (intros [|] Hx ?; [destruct s3; simpl in Hx; [done|lia]|done]).
  rewrite Hu by (apply Hne; lia). rewrite H1 by (apply Hne; lia). cbn [mbind option_bind].
  rewrite H2 by (apply Hne; lia). cbn [mbind option_bind]. by rewrite H3.
Qed.

Definition is_number (v : jvalue) : bool := match v with VNumber _ => true | _ => false end.

Lemma nonempty_app (r u : string) : r <> EmptyString -> r +:+ u <> EmptyString.
Proof. by destruct r. Qed.

Lemma skip_space_nonempty s c s1 : skip_space s = String c s1 -> s <> EmptyString.
Proof. by destruct s. Qed.

(** One value, the elements of an array, the fields of an object: bytes after them
    change nothing, and they take at least one byte. *)
Definition value_ext (n : nat) : Prop := forall d s v r u, parse_value n d s = Some (v, r) ->
  (String.length r < String.length s)%nat /\
  (r <> EmptyString \/ is_number v = false -> parse_value n d (s +:+ u) = Some (v, r +:+ u)).
Definition elems_ext (n : nat) : Prop := forall d s l r u, parse_elems n d s = Some (l, r) ->
  (String.length r < String.length s)%nat /\ parse_elems n d (s +:+ u) = Some (l, r +:+ u).
Definition fields_ext (n : nat) : Prop := forall d s l r u, parse_fields n d s = Some (l, r) ->
  (String.length r < String.length s)%nat /\ parse_fields n d (s +:+ u) = Some (l, r +:+ u).

Lemma parse_value_ext n : elems_ext n -> fields_ext n -> value_ext (S n).
Proof.
  intros IHe IHf.
  intros d s v r u. cbn [parse_value]. destruct (skip_space s) as [|c s1] eqn:Es; [done|].
  destruct (skip_space_app _ _ _ u Es) as [-> Ls].
  destruct (bool_decide (c = "{"%char)); [destruct (_ <=? _); [done|]|
    destruct (bool_decide (c = "["%char)); [destruct (_ <=? _); [done|]|]].
  1,2: destruct (skip_space s1) as [|c2 s2] eqn:Es1; [done|];
    destruct (skip_space_app _ _ _ u Es1) as [-> Ls1]; destruct (bool_decide (c2 = _));
    [intros [= <- <-]; split; [lia|done]|].
  + destruct (parse_fields n (d + 1) (String c2 s2)) as [[fs r']|] eqn:Ef; [|done].
    destruct (IHf _ _ _ _ u Ef) as [Lf Hf]. intros [= <- <-].
    change (String c2 (s2 +:+ u)) with (String c2 s2 +:+ u). rewrite Hf. simpl in Lf. split; [lia|done].
  + destruct (parse_elems n (d + 1) (String c2 s2)) as [[fs r']|] eqn:Ef; [|done].
    destruct (IHe _ _ _ _ u Ef) as [Lf Hf]. intros [= <- <-].
    change (String c2 (s2 +:+ u)) with (String c2 s2 +:+ u). rewrite Hf. simpl in Lf. split; [lia|done].
  + destruct (bool_decide (c = dquote)).
    { destruct (scan_string s1) as [[t r']|] eqn:Et; [|done].
      destruct (scan_string_extend _ _ _ u Et) as [-> Lt]. intros [= <- <-]. split; [lia|done]. }
    change (String c (s1 +:+ u)) with (String c s1 +:+ u).
    destruct (bool_decide (c = "-"%char) || is_digit c).
    { destruct (scan_number (String c s1)) as [[t r']|] eqn:Et; [|done].
      destruct (scan_number_extend _ _ _ u Et) as [Lt Ht]. intros [= <- <-].
      simpl in Lt. split; [lia|]. intros [Hr|]; [|done]. by rewrite Ht. }
    repeat (destruct (bool_decide (c = _));
      [destruct (expect _ (String c s1)) as [r'|] eqn:Ex; [|done]; rewrite (expect_app _ _ _ u Ex);
       apply expect_spec in Ex; apply (f_equal String.length) in Ex; rewrite sapp_length in Ex; simpl in Ex;
       intros [= <- <-]; split; [lia|done]|]). done.
Qed.

Lemma parse_elems_ext n : value_ext n -> elems_ext n -> elems_ext (S n).
Proof.
  intros IHv IHe.
  intros d s l r u. cbn [parse_elems]. destruct (parse_value n d s) as [[v r']|] eqn:Ev; [|done].
  destruct (IHv _ _ _ _ u Ev) as [Lv Hv]. cbn [mbind option_bind].
  destruct (skip_space r') as [|c r1] eqn:Er; [done|].
  rewrite Hv by (left; by eapply skip_space_nonempty). cbn [mbind option_bind].
  destruct (skip_space_app _ _ _ u Er) as [-> Lr].
  destruct (bool_decide (c = ","%char)).
  + destruct (parse_elems n d r1) as [[l' r2]|] eqn:Ee; [|done].
    destruct (IHe _ _ _ _ u Ee) as [Le ->]. intros [= <- <-]. split; [lia|done].
  + destruct (bool_decide _); [|done]. intros [= <- <-]. split; [lia|done].
Qed.

Lemma parse_fields_ext n : value_ext n -> fields_ext n -> fields_ext (S n).
Proof.
  intros IHv IHf.
  intros d s l r u. cbn [parse_fields]. destruct (skip_space s) as [|q s1] eqn:Es; [done|].
  destruct (skip_space_app _ _ _ u Es) as [-> Ls]. destruct (bool_decide (q = dquote)); [|done].
  destruct (scan_string s1) as [[k r0]|] eqn:Et; [|done].
  destruct (scan_string_extend _ _ _ u Et) as [-> Lt]. cbn [mbind option_bind].
  destruct (skip_space r0) as [|c0 r0'] eqn:E0; [done|].
  destruct (skip_space_app _ _ _ u E0) as [-> L0].
  change (String c0 (r0' +:+ u)) with (String c0 r0' +:+ u).
  destruct (expect ":" (String c0 r0')) as [rx|] eqn:Ex; [|done]. rewrite (expect_app _ _ _ u Ex).
  apply expect_spec in Ex. apply (f_equal String.length) in Ex. simpl in Ex. cbn [mbind option_bind].
  destruct (parse_value n d rx) as [[v r']|] eqn:Ev; [|done].
  destruct (IHv _ _ _ _ u Ev) as [Lv Hv]. cbn [mbind option_bind].
  destruct (skip_space r') as [|c r1] eqn:Er; [done|].
  rewrite Hv by (left; by eapply skip_space_nonempty). cbn [mbind option_bind].
  destruct (skip_space_app _ _ _ u Er) as [-> Lr].
  destruct (bool_decide (c = ","%char)).
  + destruct (parse_fields n d r1) as [[l' r2]|] eqn:Ee; [|done].
    destruct (IHf _ _ _ _ u Ee) as [Le ->]. intros [= <- <-]. split; [lia|done].
  + destruct (bool_decide _); [|done]. intros [= <- <-]. split; [lia|done].
Qed.

Lemma parse_extend n : value_ext n /\ elems_ext n /\ fields_ext n.
Proof.
  induction n as [|n (IHv & IHe & IHf)]; [done|].
  split_and!; auto using parse_value_ext, parse_elems_ext, parse_fields_ext.
Qed.

(** More fuel than the text has room for changes nothing. *)
Lemma parse_fuel n :
  (forall m d s, (2 * String.length s < n)%nat -> (2 * String.length s < m)%nat ->
     parse_value n d s = parse_value m d s) /\
  (forall m d s, (2 * String.length s + 1 < n)%nat -> (2 * String.length s + 1 < m)%nat ->
     parse_elems n d s = parse_elems m d s) /\
  (forall m d s, (2 * String.length s + 1 < n)%nat -> (2 * String.length s + 1 < m)%nat ->
     parse_fields n d s = parse_fields m d s).
Proof.
  induction n as [|n (IHv & IHe & IHf)]; [split_and!; lia|].
  split_and!; intros [|m] d s Hn Hm; try lia; cbn [parse_value parse_elems parse_fields].
  - destruct (skip_space s) as [|c s1] eqn:Es; [done|]. destruct (skip_space_app _ _ _ "" Es) as [_ Ls].
    repeat case_match; try done; match goal with E : skip_space s1 = _ |- _ =>
      destruct (skip_space_app _ _ _ "" E) as [_ Ls1] end.
    + by rewrite (IHf m) by (simpl; lia).
    + by rewrite (IHe m) by (simpl; lia).
  - rewrite (IHv m) by lia. destruct (parse_value m d s) as [[v r]|] eqn:Ev; [|done].
    destruct (proj1 (parse_extend m) _ _ _ _ "" Ev) as [Lv _]. cbn [mbind option_bind].
    destruct (skip_space r) as [|c r1] eqn:Er; [done|]. destruct (skip_space_app _ _ _ "" Er) as [_ Lr].
    by rewrite (IHe m) by lia.
  - destruct (skip_space s) as [|q s1] eqn:Es; [done|]. destruct (skip_space_app _ _ _ "" Es) as [_ Ls].
    destruct (bool_decide _); [|done]. destruct (scan_string s1) as [[k r0]|] eqn:Et; [|done].
    destruct (scan_string_extend _ _ _ "" Et) as [_ Lt]. cbn [mbind option_bind].
    destruct (skip_space r0) as [|c0 r0'] eqn:E0; [done|]. destruct (skip_space_app _ _ _ "" E0) as [_ L0].
    destruct (expect _ _) as [rx|] eqn:Ex; [|done]. cbn [mbind option_bind].
    apply expect_spec in Ex. apply (f_equal String.length) in Ex. simpl in Ex.
    rewrite (IHv m) by lia. destruct (parse_value m d rx) as [[v r]|] eqn:Ev; [|done].
    destruct (proj1 (parse_extend m) _ _ _ _ "" Ev) as [Lv _]. cbn [mbind option_bind].
    destruct (skip_space r) as [|c r1] eqn:Er; [done|]. destruct (skip_space_app _ _ _ "" Er) as [_ Lr].
    by rewrite (IHf m) by lia.
Qed.

Lemma parse_app s v r u :
  parse s = Some (v, r) -> r <> EmptyString \/ is_number v = false -> parse (s +:+ u) = Some (v, r +:+ u).
Proof.
  unfold parse. intros Hp Hr. destruct (parse_fuel (2 * String.length s + 2)) as [Hf _].
  rewrite (Hf (2 * String.length (s +:+ u) + 2)%nat) in Hp by (rewrite ?sapp_length; lia).
  destruct (parse_extend (2 * String.length (s +:+ u) + 2)) as [He _].
  by apply (He _ _ _ _ u Hp).
Qed.

Lemma parse_suffix s v r : parse s = Some (v, r) -> (String.length r < String.length s)%nat.
Proof.
  unfold parse. intros Hp. destruct (parse_extend (2 * String.length s + 2)) as [He _].
  by destruct (He _ _ _ _ EmptyString Hp).
Qed.

(** The first value of a text is not the first value of the text cut inside it. *)
Lemma parse_cut s v r n :
  parse s = Some (v, r) -> (n < String.length s - String.length r)%nat ->
  forall v' r', parse (stake n s) = Some (v', r') -> r' = EmptyString /\ is_number v' = true.
Proof.
  intros Hp Hn v' r' Hp'. assert (r' <> EmptyString \/ is_number v' = false -> False) as Hno.
  { intros Hr. pose proof (parse_app _ _ _ (sdrop n s) Hp' Hr) as Ha. rewrite stake_sdrop, Hp in Ha.
    assert (String.length r = String.length (r' +:+ sdrop n s)) as Hl by congruence.
    rewrite sapp_length, sdrop_length in Hl. lia. }
  split; [destruct (decide (r' = EmptyString))|destruct (is_number v')]; tauto.
Qed.

(** ** Decoded strings are text *)

Lemma simple_escape_ascii e c : simple_escape e = Some c -> code c < 0x80.
Proof.
  unfold simple_escape. intros H. repeat case_match; simplify_eq; try (by vm_compute).
  repeat match goal with E : _ || _ = true |- _ => apply orb_true_iff in E as [E|E] end;
    case_bool_decide; subst; try done; by vm_compute.
Qed.

Lemma Valid_unquote s : Valid (unquote s) = true.
Proof.
  unfold unquote. generalize (String.length s) as n. intros n. revert s.
  induction n as [|n IH]; intros [|c s]; try done. cbn [unquote_fuel].
  destruct (bool_decide _).
  - destruct s as [|e s]; [done|]. destruct (bool_decide _).
    + destruct (unquote_u s). by apply Valid_app; [apply Valid_EncodeRune|].
    + destruct (simple_escape e) as [x|] eqn:Ee; [|done].
      change (Valid (String x "" +:+ unquote_fuel n s) = true). apply Valid_app; [|done].
      apply Valid_ascii. simpl. apply simple_escape_ascii in Ee. by rewrite (proj2 (Z.ltb_lt _ _)).
  - destruct (DecodeRune _). by apply Valid_app; [apply Valid_EncodeRune|].
Qed.

Definition field_text (f : string * jvalue) : Prop :=
  match f.2 with VString s => Valid s = true | _ => True end.

Lemma parse_value_text n d s v r k : parse_value n d s = Some (v, r) -> field_text (k, v).
Proof.
  destruct n as [|n]; [done|]. cbn [parse_value]. unfold field_text. cbn [snd].
  destruct v as [| | |x| |]; try done. destruct (skip_space s) as [|c s1]; [done|]. intros H.
  repeat (first [case_match | discriminate | progress (cbn [mbind option_bind] in H)]; simplify_eq);
    try done.
  all: repeat match goal with H : (?m ≫= _) = Some _ |- _ => destruct m as [?|] eqn:?; cbn [mbind option_bind] in H end;
    repeat case_match; simplify_eq; apply Valid_unquote.
Qed.

Lemma parse_fields_text n d s fs r : parse_fields n d s = Some (fs, r) -> Forall field_text fs.
Proof.
  revert s fs r. induction n as [|n IH]; [done|]. intros s fs r. cbn [parse_fields].
  destruct (skip_space s) as [|q s1]; [done|]. destruct (bool_decide _); [|done].
  destruct (scan_string s1) as [[k r0]|]; [|done]. cbn [mbind option_bind].
  destruct (expect _ _) as [rx|]; [|done]. cbn [mbind option_bind].
  destruct (parse_value n d rx) as [[v r']|] eqn:Ev; [|done]. cbn [mbind option_bind].
  destruct (skip_space r') as [|c r1]; [done|]. destruct (bool_decide _).
  - destruct (parse_fields n d r1) as [[l' r2]|] eqn:Ee; [|done]. intros [= <- <-].
    constructor; [by eapply parse_value_text|by eapply IH].
  - destruct (bool_decide _); [|done]. intros [= <- <-].
    constructor; [by eapply parse_value_text|done].
Qed.

Lemma readValue_text b fs : readValue b = Some (VObject fs) -> Forall field_text fs.
Proof.
  unfold readValue, parse. destruct (parse_value _ 0 _) as [[v r]|] eqn:E; [|done]. cbn [mbind option_bind].
  intros Hv. assert (v = VObject fs) as -> by (destruct v; by repeat case_match; simplify_eq).
  revert E. rewrite Nat.add_comm. cbn [plus parse_value].
  destruct (skip_space (body_bytes b)) as [|c s1]; [done|].
  destruct (bool_decide (c = "{"%char)).
  - destruct (_ <=? _); [done|]. destruct (skip_space s1) as [|c2 s2]; [done|].
    destruct (bool_decide _); [intros [= <- _]; apply List.Forall_nil|].
    destruct (parse_fields _ _ _) as [[fs' r']|] eqn:Ef; [|done].
    intros [= <- _]. by eapply parse_fields_text.
  - intros H. exfalso. revert H. repeat case_match; try done;
      match goal with |- context [?m ≫= _] => destruct m as [x|]; [|done] end;
      cbn [mbind option_bind]; by repeat case_match.
Qed.

(** ** Replies are safe inside HTML *)

(** No angle bracket, no ampersand, no control character, none of the two line
    separators of JavaScript. *)
Definition html_ok (r : Z) : bool :=
  (0x20 <=? r) && negb (existsb (Z.eqb r) [0x3C; 0x3E; 0x26; 0x2028; 0x2029]).

Lemma html_ok_spec r :
  html_ok r = true <-> 0x20 <= r /\ r <> 0x3C /\ r <> 0x3E /\ r <> 0x26 /\ r <> 0x2028 /\ r <> 0x2029.
Proof.
  unfold html_ok. cbn [existsb]. rewrite andb_true_iff, negb_true_iff, !orb_false_iff, !Z.eqb_neq, Z.leb_le. tauto.
Qed.

Definition safe_text (s : string) : Prop :=
  exists rs, Forall (fun r => ValidRune r = true /\ html_ok r = true) rs /\ s = sconcat (map encode_valid rs).

Lemma safe_text_spec s :
  safe_text s <-> Valid s = true /\ Forall (fun x => html_ok x.1 = true) (runes s).
Proof.
  split.
  - intros (rs & Hrs & ->). assert (Forall (fun r => ValidRune r = true) rs) as Hv
      by (eapply Forall_impl; [exact Hrs|by intros ? []]).
    split; [by apply Valid_spec; eauto|]. rewrite runes_encode_list by done. apply Forall_map.
    eapply Forall_impl; [exact Hrs|]. by intros ? [].
  - intros [(rs & Hrs & ->)%Valid_spec Hh]. rewrite runes_encode_list in Hh by done.
    apply Forall_map in Hh. exists rs. split; [|done]. by apply Forall_and.
Qed.

Lemma safe_text_app s t : safe_text s -> safe_text t -> safe_text (s +:+ t).
Proof.
  intros (rs & Hrs & ->) (rs' & Hrs' & ->). exists (rs ++ rs').
  split; [by apply Forall_app|]. by rewrite map_app, sconcat_app.
Qed.

Lemma safe_text_nil : safe_text EmptyString.
Proof. exists []. split; [constructor|done]. Qed.

Lemma safe_text_ascii s :
  sforall (fun c => (code c <? 0x80) && html_ok (code c)) s = true -> safe_text s.
Proof.
  induction s as [|c s IH]; [intros _; apply safe_text_nil|]. cbn [sforall].
  rewrite !andb_true_iff, Z.ltb_lt. intros [[Hc Hh] Hs].
  apply (safe_text_app (String c "")); [|by apply IH]. pose proof (code_range c).
  exists [code c]. split.
  - constructor; [|constructor]. split; [apply ValidRune_spec; lia|done].
  - simpl. unfold encode_valid. by rewrite (proj2 (Z.ltb_lt _ _)), byte_code by lia.
Qed.

Create HintDb safe.
#[export] Hint Resolve safe_text_app safe_text_nil : safe.
#[export] Hint Extern 1 (safe_text _) => (apply safe_text_ascii; vm_compute; reflexivity) : safe.

Lemma safe_text_sconcat l : Forall safe_text l -> safe_text (sconcat l).
Proof. induction 1; simpl; auto with safe. Qed.

Lemma safe_text_Join l : Forall safe_text l -> safe_text (Join l ",").
Proof.
  induction 1 as [|x l Hx Hl IH]; [apply safe_text_nil|].
  destruct l as [|y l]; [done|]. rewrite Join_cons. auto with safe.
Qed.

Lemma safe_hex_digit z : 0 <= z < 16 -> safe_text (String (hex_digit z) "").
Proof.
  intros Hz. apply safe_text_ascii. cbn [sforall].
  assert (48 <= code (hex_digit z) <= 57 \/ 97 <= code (hex_digit z) <= 102)
    by (unfold hex_digit; destruct (Z.ltb_spec z 10); rewrite code_byte; lia).
  rewrite andb_true_r, andb_true_iff, Z.ltb_lt, html_ok_spec. lia.
Qed.

Lemma safe_escape_byte c : code c < 0x80 -> safe_text (escape_byte c).
Proof.
  intros Hc. pose proof (code_range c). unfold escape_byte.
  destruct (bool_decide (c = dquote) || _) eqn:E1.
  { rewrite orb_true_iff, !bool_decide_eq_true in E1. destruct E1 as [-> | ->]; auto with safe. }
  repeat (destruct (_ =? _); [auto with safe|]).
  destruct ((code c <? 32) || _ || _ || _) eqn:E2.
  { apply safe_text_app; [auto with safe|].
    apply (safe_text_app (String _ "") (String _ "")); apply safe_hex_digit; lia. }
  rewrite !orb_false_iff, !bool_decide_eq_false, Z.ltb_ge in E2. destruct E2 as [[[H0 H1] H2] H3].
  apply safe_text_ascii. cbn [sforall]. rewrite andb_true_r, andb_true_iff, Z.ltb_lt. split; [done|].
  apply html_ok_spec. assert (Hne : forall d, c <> d -> code c <> code d)
    by (intros d Hd E; by apply code_inj in E).
  pose proof (Hne "<"%char H1). pose proof (Hne ">"%char H2). pose proof (Hne "&"%char H3).
  change (code "<") with 0x3C in *. change (code ">") with 0x3E in *. change (code "&") with 0x26 in *. lia.
Qed.

Lemma safe_escape s : safe_text (escape s).
Proof.
  unfold escape. apply safe_text_sconcat, Forall_map. eapply Forall_impl; [apply runes_elems|].
  intros [r b] Hx. simpl. unfold escape_rune. destruct (invalid_byte (r, b)) eqn:Ei; [auto with safe|].
  destruct Hx as [Hx|[Hv Hb]]; [congruence|]. cbn [fst snd] in *. subst b.
  destruct (Z.ltb_spec r 0x80).
  { pose proof (proj1 (ValidRune_spec r) Hv). apply safe_escape_byte. rewrite code_byte by lia. done. }
  destruct ((r =? 0x2028) || _) eqn:E.
  { apply safe_text_app; [auto with safe|]. apply safe_hex_digit. lia. }
  apply orb_false_iff in E as [E1%Z.eqb_neq E2%Z.eqb_neq].
  exists [r]. split; [|by simpl; rewrite sapp_nil_r]. constructor; [|constructor]. split; [done|].
  apply html_ok_spec. lia.
Qed.

Lemma safe_quoted s : safe_text s -> safe_text (quoted s).
Proof.
  intros Hs. unfold quoted. apply (safe_text_app (String dquote "")); auto with safe.
Qed.

Lemma safe_FormatInt z : safe_text (FormatInt z).
Proof.
  assert (Hd : forall z, 0 <= z -> safe_text (digits z)).
  { intros x Hx. apply safe_text_ascii. eapply sforall_impl; [|apply (digits_spec x Hx)].
    intros c Hc. unfold is_digit in Hc. apply in_range_spec in Hc.
    rewrite andb_true_iff, Z.ltb_lt, html_ok_spec. lia. }
  unfold FormatInt. destruct (Z.ltb_spec z 0); [|by apply Hd].
  apply (safe_text_app (String "-" "")); [auto with safe|]. apply Hd. lia.
Qed.

Lemma time_char_safe c : time_char c = true -> (code c <? 0x80) && html_ok (code c) = true.
Proof.
  unfold time_char. rewrite orb_true_iff. intros [Hd|Hd].
  - unfold is_digit in Hd. apply in_range_spec in Hd.
    rewrite andb_true_iff, Z.ltb_lt, html_ok_spec. lia.
  - cbn [sexists] in Hd. rewrite !orb_true_iff, !bool_decide_eq_true in Hd.
    destruct Hd as [->|[->|[->|[->|[->|]]]]]; done.
Qed.

#[export] Hint Resolve safe_quoted safe_escape safe_FormatInt safe_text_Join : safe.

Lemma safe_marshal v s : marshal v = Some s -> safe_text s.
Proof.
  revert s. induction v as [x|b|z|t|l IH|fs IH] using json_deep_ind; intros s; cbn [marshal].
  - intros [= <-]. auto with safe.
  - intros [= <-]. destruct b; auto with safe.
  - intros [= <-]. auto with safe.
  - destruct (FormatRFC3339Nano t) as [x|] eqn:E; [|done]. intros [= <-]. apply safe_quoted, safe_text_ascii.
    eapply sforall_impl; [|exact (FormatRFC3339Nano_chars _ _ E)]. apply time_char_safe.
  - destruct (mapM marshal l) as [es|] eqn:E; [|done]. intros [= <-].
    assert (Forall safe_text es); [|apply (safe_text_app (String _ "")); auto with safe]. apply mapM_Some in E.
    induction E as [|v e l es He E IHE]; [constructor|]. inversion IH; subst. constructor; auto.
  - destruct (mapM _ fs) as [es|] eqn:E; [|done]. intros [= <-].
    assert (Forall safe_text es); [|apply (safe_text_app (String _ "")); auto with safe]. apply mapM_Some in E.
    induction E as [|[k v] e l es He E IHE]; [constructor|]. inversion IH; subst. constructor; [|auto].
    cbn [fst snd] in *. destruct (marshal v) as [e'|]; [|done]. apply (inj Some) in He. subst e.
    apply safe_text_app; [auto with safe|]. apply safe_text_app; auto with safe.
Qed.

(** ** Replies *)

Lemma wire_writeJSON s v w : wire (writeJSON s v w) = wire w +:+ Encode v.
Proof.
  unfold wire. simpl_http. unfold base_Write, base_WriteHeader. simpl.
  destruct (bw_sent (rw_base w)); simpl; by rewrite map_app, sconcat_app; simpl; rewrite sapp_nil_r.
Qed.

Definition new_reply (w : ResponseWriter) : Prop := not_sent w /\ resp_body w = [].

(** A reply is text that is safe to embed in a page, whatever is in it. *)
Lemma Encode_safe v s : marshal v = Some s -> Encode v = s +:+ String (byte 10) "" /\ safe_text s.
Proof. intros Hs. unfold Encode. rewrite Hs. split; [done|by eapply safe_marshal]. Qed.


(** C19: No reply in JSON can break out of a page it is embedded in, whatever mail
    it carries: its bytes are valid UTF-8 and, up to the final newline, hold no
    angle bracket, no ampersand, no control character (below U+0020) and none of
    JavaScript's line separators. *)
Theorem json_reply_is_html_safe status v w :
  new_reply w ->
  wire (writeJSON status v w) = EmptyString \/
  exists s, wire (writeJSON status v w) = s +:+ String (byte 10) "" /\ Valid s = true /\
    Forall (fun x => html_ok x.1 = true) (runes s) /\
    sforall (fun c => html_ok (code c) || (0x80 <=? code c)) s = true.
Proof.
  intros [_ Hb]. rewrite wire_writeJSON. unfold wire. rewrite Hb. cbn [map sconcat String.append].
  destruct (marshal v) as [s|] eqn:E; [right|left; unfold Encode; by rewrite E].
  destruct (Encode_safe _ _ E) as [-> Hs]. exists s. split; [done|].
  pose proof (proj1 (safe_text_spec s) Hs) as [Hv Hr]. split_and!; [done..|].
  destruct Hs as (rs & Hrs & ->). rewrite sforall_sconcat. clear -Hrs.
  induction Hrs as [|r rs [Hv Hr] _ IH]; [done|]. cbn [map forallb]. rewrite IH, andb_true_r.
  destruct (Z.ltb_spec r 0x80).
  - pose proof (proj1 (ValidRune_spec r) Hv). unfold encode_valid. rewrite (proj2 (Z.ltb_lt _ _)) by done.
    simpl. rewrite code_byte by lia. by rewrite Hr.
  - destruct (encode_valid_high r true Hv) as [Hh _]; [done|]. eapply sforall_impl; [|exact Hh].
    intros c ->. apply orb_true_r.
Qed.

(** ** The theorems at concrete inputs *)

Module JsonDemo.
Definition value : json :=
  JObj [("subject"%string, JString "</script><b>&"); ("date"%string, JTime 0); ("ids"%string, JList [JInt (-5)])].
Definition subject : string := "\u003c/script\u003e\u003cb\u003e\u0026".
End JsonDemo.


Lemma json_reply_is_html_safe_witness :
  exists s, wire (writeJSON 200 JsonDemo.value new_writer) = s +:+ String (byte 10) "" /\
    sforall (fun c => html_ok (code c) || (0x80 <=? code c)) s = true.
Proof.
  destruct (json_reply_is_html_safe 200 JsonDemo.value new_writer) as [H|(s & H & _ & _ & Hs)].
  - by split.
  - vm_compute in H. discriminate H.
  - exists s. by split.
Defined.

Example decode_surrogates :
  unquote "\u00e9\ud83d\ude00\ud800x" = (EncodeRune 0xE9 +:+ EncodeRune 0x1F600 +:+ EncodeRune RuneError +:+ "x")%string.
Proof. vm_compute. reflexivity. Qed.
