(* ===== verification/Config.v ===== *)
(** * Configuration (internal/config/config.go) *)

From S2P Require Export Http.

Open Scope Z_scope.

Record Config := mkConfig {
  DatabaseURL : string;
  DataDir : string;
  PublicBaseURL : string;
  MaxMessageBytes : Z;
  SessionCookieName : string;
  SessionTTLHours : Z;
  NormalUserPSK : string;
  AdminPSK : string;
  WorkerIngestPSK : string;
  ServerAddr : string;
  AppEnv : string
}.

(** [&config.Config{}] *)
Definition zero_config : Config :=
  mkConfig "" "" "" 0 "" 0 "" "" "" "" "".

Section Load.
(** [os.Getenv]: the empty string when the variable is not set. *)
Variable Getenv : string -> string.

Definition getEnv (key defaultValue : string) : string :=
  let value := Getenv key in
  if bool_decide (value <> EmptyString) then value else defaultValue.

Definition getEnvInt (key : string) (defaultValue : Z) : Z :=
  let value := Getenv key in
  if bool_decide (value <> EmptyString) then
    match ParseInt value with Some i => i | None => defaultValue end
  else defaultValue.

Definition Load : Config :=
  mkConfig
    (getEnv "DATABASE_URL" "")
    (getEnv "DATA_DIR" "./data")
    (getEnv "PUBLIC_BASE_URL" "http://localhost:8080")
    (getEnvInt "MAX_MESSAGE_BYTES" 26214400)
    (getEnv "SESSION_COOKIE_NAME" "lite_mail_session")
    (getEnvInt "SESSION_TTL_HOURS" 24)
    (getEnv "NORMAL_USER_PSK" "")
    (getEnv "ADMIN_PSK" "")
    (getEnv "WORKER_INGEST_PSK" "")
    (getEnv "SERVER_ADDR" ":8080")
    (getEnv "APP_ENV" "production").
End Load.

(** [time.Duration(c.SessionTTLHours) * time.Hour], an [int64] product. *)
Definition SessionTTL (c : Config) : Z := wrap64 (SessionTTLHours c * Hour).

(** The largest number of hours whose duration fits in 64 bits. *)
Definition max_ttl_hours : Z := max_int64 / Hour.

Lemma SessionTTL_exact c :
  0 <= SessionTTLHours c <= max_ttl_hours -> SessionTTL c = SessionTTLHours c * Hour.
Proof.
  change max_ttl_hours with 2562047. unfold SessionTTL. intros H. apply wrap64_id.
  unfold in_int64, min_int64, max_int64, Hour, Minute, Second. lia.
Qed.

Lemma getEnvInt_range env k d : in_int64 d -> in_int64 (getEnvInt env k d).
Proof.
  unfold getEnvInt. case_bool_decide; [|done]. destruct (ParseInt _) eqn:E; [|done].
  intros _. by eapply ParseInt_range.
Qed.
