(* ===== verification/Session.v ===== *)
(** * Sessions (internal/auth/session.go)

    The [SessionStore] interface as a type class with the laws its clients rely
    on, the in-memory [CookieSessionStore] that implements it, and the cookies.
    The store's mutex makes each method atomic. *)

From S2P Require Export Config.

Open Scope Z_scope.

Definition ErrSessionNotFound : error := ESentinel "auth.ErrSessionNotFound" "session not found".

(** [session.Token = token] *)
Definition set_token (s : Session) (t : string) : Session :=
  mkSession (Email s) (IsAdmin s) (ExpiresAt s) t.

(** ** The interface *)

(** [Create] takes a pointer and may fill in the token: it returns the session
    the caller's pointer then refers to. *)
Class SessionStore (S : Type) := {
  Create : Session -> Runtime -> S -> result Session * Runtime * S;
  Get : string -> S -> result Session;
  Delete : string -> S -> result unit * S
}.

(** What a store promises. [store_ok] is the implementation's invariant. *)
Class SessionStoreLaws (S : Type) `{SessionStore S} := {
  store_ok : S -> Prop;
  get_empty : forall st, Get EmptyString st = Err ErrSessionNotFound;
  get_token : forall st t s, store_ok st -> Get t st = Ok s -> Token s = t;
  create_keeps_ok : forall s rt st r rt' st',
    store_ok st -> Create s rt st = (r, rt', st') -> store_ok st';
  create_ok : forall s rt st s' rt' st',
    Create s rt st = (Ok s', rt', st') ->
    Token s' <> EmptyString /\ s' = set_token s (Token s') /\
    (Token s <> EmptyString -> s' = s) /\
    Get (Token s') st' = Ok s' /\
    forall t, t <> Token s' -> Get t st' = Get t st;
  create_err : forall s rt st e rt' st', Create s rt st = (Err e, rt', st') -> st' = st;
  create_clock : forall s rt st r rt' st',
    Create s rt st = (r, rt', st') ->
    clock_at rt' = clock_at rt /\ clock_pos rt' = clock_pos rt;
  delete_keeps_ok : forall t st r st', store_ok st -> Delete t st = (r, st') -> store_ok st';
  delete_gone : forall t st r st', Delete t st = (r, st') -> Get t st' = Err ErrSessionNotFound;
  delete_other : forall t t' st r st', Delete t st = (r, st') -> t' <> t -> Get t' st' = Get t' st
}.

(** ** Tokens *)

Definition GenerateToken (rt : Runtime) : result string * Runtime :=
  let '(b, rt') := rand_Read 32 rt in
  (match b with Ok b => Ok (hex_EncodeToString b) | Err e => Err e end, rt').

(** ** The in-memory store *)

Record CookieSessionStore := mkStore {
  cookieName : string;
  sessions : gmap string Session
}.

Definition NewCookieSessionStore (name : string) : CookieSessionStore :=
  let name := if bool_decide (name = EmptyString) then "lite_mail_session"%string else name in
  mkStore name ∅.

Definition CookieName (s : CookieSessionStore) : string := cookieName s.

Definition store_Create (session : Session) (rt : Runtime) (s : CookieSessionStore)
  : result Session * Runtime * CookieSessionStore :=
  let '(r, rt') :=
    if bool_decide (Token session = EmptyString) then
      let '(tok, rt') := GenerateToken rt in
      (match tok with Ok t => Ok (set_token session t) | Err e => Err e end, rt')
    else (Ok session, rt) in
  match r with
  | Err e => (Err e, rt', s)
  | Ok session' =>
      (Ok session', rt', mkStore (cookieName s) (<[Token session' := session']> (sessions s)))
  end.

Definition store_Get (token : string) (s : CookieSessionStore) : result Session :=
  if bool_decide (token = EmptyString) then Err ErrSessionNotFound
  else match sessions s !! token with
       | Some session => Ok session
       | None => Err ErrSessionNotFound
       end.

Definition store_Delete (token : string) (s : CookieSessionStore) : result unit * CookieSessionStore :=
  (Ok tt, mkStore (cookieName s) (delete token (sessions s))).

#[export] Instance CookieSessionStore_store : SessionStore CookieSessionStore := {|
  Create := store_Create; Get := store_Get; Delete := store_Delete |}.

(** ** Cookies *)

Definition sessionCookieName (cfg : option Config) : string :=
  match cfg with
  | None => "lite_mail_session"%string
  | Some c => if bool_decide (SessionCookieName c = EmptyString) then "lite_mail_session"%string
              else SessionCookieName c
  end.

Definition sessionMaxAge (cfg : option Config) : Z :=
  match cfg with
  | None => 24 * 3600
  | Some c => if SessionTTLHours c <=? 0 then 24 * 3600 else wrap64 (SessionTTLHours c * 3600)
  end.

Definition cookieSecure (cfg : option Config) : bool :=
  match cfg with None => true | Some c => bool_decide (AppEnv c <> "development"%string) end.

Definition NewSessionCookie (cfg : option Config) (token : string) (expiresAt : Z) : Cookie :=
  mkCookie (sessionCookieName cfg) token true (cookieSecure cfg) true "/" (sessionMaxAge cfg) expiresAt.

Definition ExpiredSessionCookie (cfg : option Config) : Cookie :=
  mkCookie (sessionCookieName cfg) "" true (cookieSecure cfg) true "/" (-1) (0 * Second).

(** ** The store keeps the interface's promises *)

Lemma GenerateToken_shape rt t rt' :
  GenerateToken rt = (Ok t, rt') -> String.length t = 64%nat /\ sforall is_hex t = true.
Proof.
  unfold GenerateToken. destruct (rand_Read 32 rt) as [[b|e] rt1] eqn:E; [|done].
  intros [= <- _]. split; [|apply hex_chars].
  apply rand_Read_length in E. by rewrite hex_length, E.
Qed.

Lemma GenerateToken_nonempty rt t rt' : GenerateToken rt = (Ok t, rt') -> t <> EmptyString.
Proof. intros [H _]%GenerateToken_shape. by intros ->. Qed.

Lemma GenerateToken_clock rt r rt' :
  GenerateToken rt = (r, rt') -> clock_at rt' = clock_at rt /\ clock_pos rt' = clock_pos rt.
Proof. unfold GenerateToken, rand_Read. intros [= _ <-]. done. Qed.

(** Every session is filed under its own token. *)
Definition sessions_wf (s : CookieSessionStore) : Prop :=
  map_Forall (fun t sess => Token sess = t) (sessions s).

(** What [Create] stores, when it succeeds. *)
Lemma store_Create_inv s rt st r rt' st' :
  store_Create s rt st = (r, rt', st') ->
  (exists e, r = Err e /\ st' = st) \/
  (exists s', r = Ok s' /\ Token s' <> EmptyString /\ s' = set_token s (Token s') /\
     (Token s <> EmptyString -> s' = s) /\
     st' = mkStore (cookieName st) (<[Token s' := s']> (sessions st))).
Proof.
  unfold store_Create. case_bool_decide as Ht.
  - destruct (GenerateToken rt) as [[t|e] rt1] eqn:E; intros [= <- <- <-]; [right|left; eauto].
    exists (set_token s t). split; [done|]. apply GenerateToken_nonempty in E. naive_solver.
  - intros [= <- <- <-]. right. exists s. split; [done|]. by destruct s.
Qed.

Lemma store_Get_insert n m s :
  Token s <> EmptyString -> store_Get (Token s) (mkStore n (<[Token s := s]> m)) = Ok s.
Proof.
  intros. unfold store_Get. rewrite bool_decide_eq_false_2 by done. simpl.
  by rewrite lookup_insert_eq.
Qed.

Lemma store_Get_insert_ne n m s t :
  t <> Token s -> store_Get t (mkStore n (<[Token s := s]> m)) = store_Get t (mkStore n m).
Proof. intros. unfold store_Get. simpl. by rewrite lookup_insert_ne. Qed.

#[export] Instance CookieSessionStore_laws : SessionStoreLaws CookieSessionStore.
Proof.
  refine {| store_ok := sessions_wf |}; simpl.
  - done.
  - intros st t s Hwf. unfold store_Get. case_bool_decide; [done|].
    destruct (sessions st !! t) eqn:E; [|done]. intros [= <-]. by apply Hwf in E.
  - intros s rt st r rt' st' Hwf [(e & -> & ->)|(s' & -> & H1 & H2 & _ & ->)]%store_Create_inv; [done|].
    by apply map_Forall_insert_2.
  - intros s rt st s' rt' st' [(e & ? & ->)|(? & [= <-] & H1 & H2 & H3 & ->)]%store_Create_inv; [done|].
    split_and!; [done..| |]; [by apply store_Get_insert|].
    intros t Ht. rewrite store_Get_insert_ne by done. by destruct st.
  - intros s rt st e rt' st' [(? & ? & ->)|(? & ? & _)]%store_Create_inv; [done|done].
  - intros s rt st r rt' st'. unfold store_Create. case_bool_decide; [|naive_solver].
    destruct (GenerateToken rt) as [[t|e] rt1] eqn:E; apply GenerateToken_clock in E;
      intros [= <- <- <-]; done.
  - intros t st r st' Hwf [= <- <-]. by apply map_Forall_delete.
  - intros t st r st' [= <- <-]. unfold store_Get. simpl. rewrite lookup_delete_eq.
    by case_bool_decide.
  - intros t t' st r st' [= <- <-] Hne. unfold store_Get. simpl. by rewrite lookup_delete_ne.
Defined.
