(* ===== verification/Auth.v ===== *)
(** * Login, logout and the authentication middleware
    (internal/auth/handler.go, internal/auth/middleware.go)

    The handlers are written against the [SessionStore] interface; their state
    is the store and the runtime (clock and randomness). *)

From S2P Require Export Json Session.

Open Scope Z_scope.

Record loginRequest := mkLogin { PSK : string; ReqEmail : string }.

(** [json.NewDecoder(r.Body).Decode(&req)]. *)
Definition login_fields : list string := ["psk"; "email"]%string.

Definition decode_login (b : Body) : result loginRequest :=
  match readValue b ≫= unmarshal_strings login_fields with
  | Some [psk; email] => Ok (mkLogin psk email)
  | _ => Err (EText "json")
  end.

(** [subtle.ConstantTimeCompare([]byte(x), []byte(y)) == 1] *)
Definition ConstantTimeCompare (x y : string) : bool := bool_decide (x = y).

Definition sessionTTL (cfg : option Config) : Z :=
  match cfg with
  | None => 24 * Hour
  | Some c => if SessionTTLHours c <=? 0 then 24 * Hour else SessionTTL c
  end.

(** The [switch] of LoginHandler: the identity the credentials give. *)
Definition authenticate `{UnicodeTable} (c : Config) (req : loginRequest) : option (string * bool) :=
  if bool_decide (AdminPSK c <> EmptyString) && ConstantTimeCompare (PSK req) (AdminPSK c) then
    Some ("admin"%string, true)
  else if bool_decide (NormalUserPSK c <> EmptyString)
          && ConstantTimeCompare (PSK req) (NormalUserPSK c) then
    let email := ToLower (TrimSpace (ReqEmail req)) in
    if bool_decide (email = EmptyString) then None else Some (email, false)
  else None.

Definition loginResponse (s : Session) : json :=
  JObj [("status"%string, JString "ok"); ("is_admin"%string, JBool (IsAdmin s));
        ("email"%string, JString (Email s))].

Definition SessionFromContext (ctx : Context) : option Session :=
  match Value ctx sessionContextKey with Some (CtxSession s) => Some s | _ => None end.

Definition WithSession (ctx : Context) (s : Session) : Context :=
  WithValue ctx sessionContextKey (CtxSession s).

Definition CanAccessEmail (s : option Session) (email : string) : bool :=
  match s with
  | None => false
  | Some s => IsAdmin s || bool_decide (Email s = email)
  end.

Section handlers.
Context `{UnicodeTable} {S : Type} `{SessionStore S}.

Definition LoginHandler (config : option Config) : Handler (S * Runtime) := fun r w '(st, rt) =>
  if bool_decide (Method r <> "POST"%string) then
    (writeJSON 405 (json_error "method not allowed") w, (st, rt))
  else
  match decode_login (ReqBody r) with
  | Err _ => (writeJSON 400 (json_error "invalid json") w, (st, rt))
  | Ok req =>
      let cfg := default zero_config config in
      match authenticate cfg req with
      | None => (writeJSON 401 (json_error "invalid credentials") w, (st, rt))
      | Some (email, isAdmin) =>
          let '(now, rt) := time_Now rt in
          let session := mkSession email isAdmin (now + sessionTTL (Some cfg)) "" in
          match Create session rt st with
          | (Err _, rt, st) =>
              (writeJSON 500 (json_error "failed to create session") w, (st, rt))
          | (Ok session, rt, st) =>
              let w := SetCookie (NewSessionCookie (Some cfg) (Token session) (ExpiresAt session)) w in
              (writeJSON 200 (loginResponse session) w, (st, rt))
          end
      end
  end.

Definition LogoutHandler (config : option Config) : Handler (S * Runtime) := fun r w '(st, rt) =>
  if bool_decide (Method r <> "POST"%string) then
    (writeJSON 405 (json_error "method not allowed") w, (st, rt))
  else
    let st :=
      match Req_Cookie r (sessionCookieName config) with
      | Some value => (Delete value st).2
      | None => st
      end in
    (writeJSON 200 (JObj [("status"%string, JString "ok")])
       (SetCookie (ExpiredSessionCookie config) w), (st, rt)).

Definition auth_required : json := json_error "authentication required".

Definition RequireAuth {W} `{Lens W (S * Runtime)} (cfg : option Config) : Middleware W :=
  fun next r w world =>
    let '(st, rt) := view world in
    match Req_Cookie r (sessionCookieName cfg) with
    | None => (writeJSON 401 auth_required w, world)
    | Some value =>
        match Get value st with
        | Err e =>
            if negb (errors_Is e ErrSessionNotFound)
            then (writeJSON 401 auth_required w, world)
            else (writeJSON 401 auth_required w, world)
        | Ok session =>
            let '(now, rt) := time_Now rt in
            if After now (ExpiresAt session) then
              let '(_, st) := Delete (Token session) st in
              (writeJSON 401 auth_required (SetCookie (ExpiredSessionCookie cfg) w),
               put (st, rt) world)
            else
              next (WithContext r (WithSession (ReqCtx r) session)) w (put (st, rt) world)
        end
    end.

Definition RequireAdmin {W} : Middleware W := fun next r w world =>
  match SessionFromContext (ReqCtx r) with
  | Some session =>
      if negb (IsAdmin session)
      then (writeJSON 403 (json_error "admin access required") w, world)
      else next r w world
  | None => (writeJSON 403 (json_error "admin access required") w, world)
  end.
End handlers.

(** ** Properties *)

Section auth_facts.
Context `{UnicodeTable} {S : Type} `{SessionStoreLaws S}.

Lemma sessionCookieName_default cfg :
  sessionCookieName (Some (default zero_config cfg)) = sessionCookieName cfg.
Proof. by destruct cfg. Qed.

(** The whole effect of LoginHandler on a successful attempt. *)
Lemma LoginHandler_200 cfg r w st rt w' st' rt' :
  not_sent w -> LoginHandler cfg r w (st, rt) = (w', (st', rt')) -> resp_status w' = 200 ->
  Method r = "POST"%string /\
  exists req email adm s,
    decode_login (ReqBody r) = Ok req /\
    authenticate (default zero_config cfg) req = Some (email, adm) /\
    Create (mkSession email adm (clock_at rt (clock_pos rt)
              + sessionTTL (Some (default zero_config cfg))) "") (time_Now rt).2 st
      = (Ok s, rt', st') /\
    w' = writeJSON 200 (loginResponse s)
           (SetCookie (NewSessionCookie (Some (default zero_config cfg)) (Token s) (ExpiresAt s)) w).
Proof.
  intros Hw. unfold LoginHandler. case_bool_decide as Hm.
  { intros [= <- <- <-]. by rewrite writeJSON_status. }
  destruct (decode_login (ReqBody r)) as [req|e] eqn:Ed.
  2:{ intros [= <- <- <-]. by rewrite writeJSON_status. }
  destruct (authenticate _ req) as [[email adm]|] eqn:Ea.
  2:{ intros [= <- <- <-]. by rewrite writeJSON_status. }
  simpl. destruct (Create _ _ st) as [[[s|e] rt2] st2] eqn:Ec.
  2:{ intros [= <- <- <-]. by rewrite writeJSON_status. }
  intros [= <- <- <-] _. split; [by destruct (decide (Method r = "POST"%string))|].
  exists req, email, adm, s. done.
Qed.

(** RequireAuth when the cookie names a session that has not expired. *)
Lemma RequireAuth_live {W} `{Lens W (S * Runtime)} cfg next r w world st rt v s :
  view world = (st, rt) -> Req_Cookie r (sessionCookieName cfg) = Some v ->
  Get v st = Ok s -> clock_at rt (clock_pos rt) <= ExpiresAt s ->
  RequireAuth cfg next r w world =
  next (WithContext r (WithSession (ReqCtx r) s)) w (put (st, (time_Now rt).2) world).
Proof.
  intros Hv Hc Hg Ht. unfold RequireAuth. rewrite Hv, Hc, Hg. simpl.
  unfold After. by rewrite (proj2 (Z.ltb_ge _ _)).
Qed.

(** No session is live for the request: the cookie is absent, names no
    session, or names one that has expired. *)
Definition no_live_session (cfg : option Config) (r : Request) (st : S) (rt : Runtime) : Prop :=
  forall v s, Req_Cookie r (sessionCookieName cfg) = Some v -> Get v st = Ok s ->
    ExpiresAt s < clock_at rt (clock_pos rt).

Lemma RequireAuth_rejects {W} `{Lens W (S * Runtime)} cfg r w world st rt :
  view world = (st, rt) -> not_sent w -> no_live_session cfg r st rt ->
  exists w' world', (forall next, RequireAuth cfg next r w world = (w', world')) /\
    resp_status w' = 401 /\ resp_body w' = resp_body w ++ [Json auth_required] /\
    (forall t, Get t (view world').1 = Get t st \/ Get t (view world').1 = Err ErrSessionNotFound).
Proof.
  intros Hv Hw Hno. unfold RequireAuth. rewrite Hv.
  destruct (Req_Cookie r _) as [v|] eqn:Ec.
  2:{ eexists _, _. split; [done|]. autorewrite with reply. rewrite Hv. eauto. }
  destruct (Get v st) as [s|e] eqn:Eg.
  2:{ eexists _, _. split; [by intros; destruct (negb _)|].
      autorewrite with reply. rewrite Hv. eauto. }
  simpl. unfold After. rewrite (proj2 (Z.ltb_lt _ _)) by (by eapply Hno).
  destruct (Delete (Token s) st) as [r' st'] eqn:Ed.
  eexists _, _. split; [done|]. rewrite view_put.
  autorewrite with reply.
  split_and!; [done| |].
  - f_equal. unfold SetCookie, resp_body. destruct (valid_cookie_name _); [|done].
    by rewrite rw_base_on_base.
  - intros t. simpl. destruct (decide (t = Token s)) as [->|Hne].
    + right. by eapply delete_gone.
    + left. by eapply delete_other.
Qed.

(** The handlers keep the store's invariant. *)
Lemma LoginHandler_ok cfg r w st rt : store_ok st -> store_ok (LoginHandler cfg r w (st, rt)).2.1.
Proof.
  intros Hok. unfold LoginHandler. destruct (bool_decide _); [done|]. destruct (decode_login _) as [req|]; [|done].
  destruct (authenticate _ req) as [[email adm]|]; [|done]. destruct (time_Now rt) as [now rt1].
  destruct (Create _ rt1 st) as [[[s|e] rt2] st2] eqn:Ec; by eapply create_keeps_ok in Ec.
Qed.

Lemma Delete_ok t st : store_ok st -> store_ok (Delete t st).2.
Proof. intros Hok. destruct (Delete t st) as [r st'] eqn:E. by eapply delete_keeps_ok in E. Qed.

Lemma LogoutHandler_ok cfg r w st rt : store_ok st -> store_ok (LogoutHandler cfg r w (st, rt)).2.1.
Proof.
  intros Hok. unfold LogoutHandler. destruct (bool_decide _); [done|].
  destruct (Req_Cookie _ _); [by apply Delete_ok|done].
Qed.
End auth_facts.

(** ** The login body *)

(** What a client sends to log in. *)
Definition login_json (psk email : string) : json :=
  JObj [("psk"%string, JString psk); ("email"%string, JString email)].
Definition login_body (psk email : string) : string := default "" (marshal (login_json psk email)).

Lemma decode_login_sent psk email t e :
  decode_login (mkBody (login_body psk email +:+ t) e) = Ok (mkLogin (sanitize psk) (sanitize email)).
Proof.
  unfold decode_login, readValue, login_body.
  destruct (marshal (login_json psk email)) as [s|] eqn:E; [|done]. cbn [body_bytes].
  change (default "" (Some s)) with s.
  pose proof (parse_marshal _ _ "" E eq_refl ltac:(done)) as Hr. rewrite sapp_nil_r in Hr.
  rewrite (parse_app _ _ _ t Hr) by (by right). cbn [mbind option_bind].
  unfold unmarshal_strings. cbn [denote login_json map fst snd fold_left].
  assert (sanitize "psk" = "psk"%string /\ sanitize "email" = "email"%string) as [-> ->] by (by split; vm_compute).
  assert (field_of login_fields "psk" = Some 0%nat /\ field_of login_fields "email" = Some 1%nat) as [Hp He]
    by (by split; vm_compute).
  cbn [mbind option_bind fold_left]. unfold set_field. cbn [fst snd]. rewrite Hp, He. by cbn.
Qed.

Lemma decode_login_cut text fs rest n e :
  parse text = Some (VObject fs, rest) -> (n < String.length text - String.length rest)%nat ->
  exists err, decode_login (mkBody (stake n text) e) = Err err.
Proof.
  intros Hp Hn. unfold decode_login, readValue. cbn [body_bytes body_error].
  destruct (parse (stake n text)) as [[v r]|] eqn:E; [|by eexists].
  destruct (parse_cut _ _ _ _ Hp Hn _ _ E) as [-> Hv]. destruct v; try done.
  cbn [mbind option_bind]. destruct (_ || _); by eexists.
Qed.

Lemma set_field_text names acc f :
  field_text f -> Forall (fun s => Valid s = true) acc.1 ->
  Forall (fun s => Valid s = true) (set_field names acc f).1.
Proof.
  unfold field_text, set_field. destruct f as [k v], (field_of names k) as [i|] eqn:E;
    cbn [fst snd]; rewrite E; [|done].
  destruct v; try done. intros Hs Ha. by apply Forall_insert.
Qed.

(** Credentials are text, whatever the body. *)
Lemma decode_login_valid b req :
  decode_login b = Ok req -> Valid (PSK req) = true /\ Valid (ReqEmail req) = true.
Proof.
  unfold decode_login. destruct (readValue b) as [v|] eqn:Er; [|done]. cbn [mbind option_bind].
  destruct (unmarshal_strings login_fields v) as [vals|] eqn:Eu; [|done].
  assert (Forall (fun s => Valid s = true) vals) as Hv.
  { destruct v as [| | | | |fs]; try done; [injection Eu as <-; by repeat constructor|].
    apply readValue_text in Er. unfold unmarshal_strings in Eu.
    destruct (fold_left _ _ _) as [vals' ok] eqn:Ef. destruct ok; [|done]. injection Eu as ->.
    change vals with ((vals, true).1). rewrite <-Ef. clear Ef.
    assert (forall acc, Forall (fun s => Valid s = true) acc.1 ->
      Forall (fun s => Valid s = true) (fold_left (set_field login_fields) fs acc).1) as Hfold.
    { induction Er as [|f fs Hf _ IH]; intros acc Ha; [done|]. simpl. apply IH. by apply set_field_text. }
    apply Hfold. by repeat constructor. }
  destruct vals as [|p [|m [|? ?]]]; try done. intros [= <-].
  inversion Hv as [|? ? ? Hv']; subst. by inversion Hv'.
Qed.

Section auth_properties.
  Context `{UnicodeTable} {S : Type} `{SessionStoreLaws S}.

(** A configured key that is not valid UTF-8 is as good as none: no request
    body whatsoever authenticates with it, because every string a JSON body can
    carry is valid UTF-8. *)
Theorem key_must_be_text c b req email adm :
  decode_login b = Ok req -> authenticate c req = Some (email, adm) ->
  Valid (if adm then AdminPSK c else NormalUserPSK c) = true.
Proof.
  intros [Hv _]%decode_login_valid. unfold authenticate, ConstantTimeCompare.
  repeat case_bool_decide; simpl; intros; simplify_eq; congruence.
Qed.

(** A successful login is a working one, for any store that keeps the
    [SessionStore] promises. The 200 reply carries the session cookie; the token
    in it names, in the store the handler leaves, the session with the identity
    the credentials give and an expiry of now plus the TTL; other tokens are not
    disturbed; and until that expiry RequireAuth passes every request that
    presents the cookie to the next handler with that session in its context. *)
Theorem login_then_authenticated cfg r w st rt w' st' rt' :
  not_sent w -> valid_cookie_name (sessionCookieName cfg) = true ->
  LoginHandler cfg r w (st, rt) = (w', (st', rt')) -> resp_status w' = 200 ->
  exists req email adm token,
    let c := default zero_config cfg in
    let sess := mkSession email adm (clock_at rt (clock_pos rt) + sessionTTL (Some c)) token in
    decode_login (ReqBody r) = Ok req /\ authenticate c req = Some (email, adm) /\
    last (h_cookies (resp_header w')) = Some (NewSessionCookie cfg token (ExpiresAt sess)) /\
    Get token st' = Ok sess /\
    (forall t, t <> token -> Get t st' = Get t st) /\
    forall W (L : Lens W (S * Runtime)) next r2 w2 world rt2,
      view world = (st', rt2) ->
      Req_Cookie r2 (sessionCookieName cfg) = Some token ->
      clock_at rt2 (clock_pos rt2) <= ExpiresAt sess ->
      RequireAuth cfg next r2 w2 world =
      next (WithContext r2 (WithSession (ReqCtx r2) sess)) w2 (put (st', (time_Now rt2).2) world).
Proof.
  intros Hw Hn HL H200.
  destruct (LoginHandler_200 _ _ _ _ _ _ _ _ Hw HL H200)
    as (_ & req & email & adm & s & Hd & Ha & Hc & ->).
  destruct (create_ok _ _ _ _ _ _ Hc) as (Ht & Hs & _ & Hg & Ho).
  exists req, email, adm, (Token s). simpl. unfold set_token in Hs; simpl in Hs.
  assert (NewSessionCookie (Some (default zero_config cfg)) = NewSessionCookie cfg) as Hk.
  { by destruct cfg. }
  rewrite <-Hs. split_and!; [done..| |done|done|].
  - rewrite Hk, writeJSON_header by (by autorewrite with http). simpl.
    rewrite SetCookie_cookies, last_snoc by done. by rewrite Hs.
  - intros W L next r2 w2 world rt2 Hv Hc2 Ht2. eapply RequireAuth_live; try done.
    by rewrite Hs.
Qed.

(** Without a live session nothing behind RequireAuth runs: if the request
    has no session cookie, an unknown token or an expired session, the reply is
    401 "authentication required" whatever the protected handler is, and the
    only change to the store is that a token may have been forgotten. *)
Theorem require_auth_guards {W} `{Lens W (S * Runtime)} cfg r w world st rt :
  view world = (st, rt) -> not_sent w -> no_live_session cfg r st rt ->
  exists w' world', (forall next, RequireAuth cfg next r w world = (w', world')) /\
    resp_status w' = 401 /\ resp_body w' = resp_body w ++ [Json auth_required] /\
    (forall t, Get t (view world').1 = Get t st \/ Get t (view world').1 = Err ErrSessionNotFound).
Proof. apply RequireAuth_rejects. Qed.

(** A request with an expired session is refused, the session is deleted
    from the store, and the reply tells the browser to drop the cookie. *)
Theorem expired_session_evicted {W} `{Lens W (S * Runtime)} cfg next r w world st rt v s w' world' :
  view world = (st, rt) -> not_sent w -> store_ok st ->
  valid_cookie_name (sessionCookieName cfg) = true ->
  Req_Cookie r (sessionCookieName cfg) = Some v -> Get v st = Ok s ->
  ExpiresAt s < clock_at rt (clock_pos rt) ->
  RequireAuth cfg next r w world = (w', world') ->
  resp_status w' = 401 /\ last (h_cookies (resp_header w')) = Some (ExpiredSessionCookie cfg) /\
  Get v (view world').1 = Err ErrSessionNotFound.
Proof.
  intros Hv Hw Hok Hn Hc Hg Ht. unfold RequireAuth. rewrite Hv, Hc, Hg. simpl.
  unfold After. rewrite (proj2 (Z.ltb_lt _ _)) by done.
  rewrite (get_token _ _ _ Hok Hg). destruct (Delete v st) as [x st'] eqn:Ed.
  intros [= <- <-]. rewrite view_put. autorewrite with reply.
  rewrite writeJSON_header by (by autorewrite with http). simpl.
  rewrite SetCookie_cookies, last_snoc by done. split_and!; [done..|by eapply delete_gone].
Qed.

(** C31: Logging out revokes the session at once: after LogoutHandler, a request
    with the same cookie is refused by RequireAuth for every handler and at
    every time, while other tokens keep their sessions. *)
Theorem logout_revokes cfg r w st rt w' st' rt' v :
  Method r = "POST"%string -> Req_Cookie r (sessionCookieName cfg) = Some v ->
  LogoutHandler cfg r w (st, rt) = (w', (st', rt')) ->
  (forall t, t <> v -> Get t st' = Get t st) /\
  forall W (L : Lens W (S * Runtime)) r2 w2 world rt2,
    view world = (st', rt2) -> not_sent w2 ->
    Req_Cookie r2 (sessionCookieName cfg) = Some v ->
    exists w3 world', (forall next, RequireAuth cfg next r2 w2 world = (w3, world')) /\
      resp_status w3 = 401.
Proof.
  intros Hm Hc. unfold LogoutHandler. rewrite bool_decide_eq_false_2 by (by intros []).
  rewrite Hc. destruct (Delete v st) as [x st1] eqn:Ed. simpl. intros [= _ <- _].
  split; [intros; by eapply delete_other|].
  intros W L r2 w2 world rt2 Hv Hw Hc2.
  destruct (RequireAuth_rejects cfg r2 w2 world st1 rt2 Hv Hw) as (w3 & world' & HA & HB & _).
  - intros v' s Hv'. rewrite Hc2 in Hv'. injection Hv' as <-.
    by rewrite (delete_gone _ _ _ _ Ed).
  - eauto.
Qed.

(** What identity LoginHandler grants. Admin rights come only from the
    configured, non-empty admin key; otherwise the configured, non-empty user
    key gives a non-admin session for a non-empty address in canonical form
    (trimmed and lower-cased, a fixed point of canonicalisation); any other
    credentials give no identity. *)
Theorem authenticate_grants c req email adm :
  authenticate c req = Some (email, adm) <->
  (adm = true /\ email = "admin"%string /\ AdminPSK c <> EmptyString /\ PSK req = AdminPSK c) \/
  (adm = false /\ (AdminPSK c = EmptyString \/ PSK req <> AdminPSK c) /\
   NormalUserPSK c <> EmptyString /\ PSK req = NormalUserPSK c /\
   email = ToLower (TrimSpace (ReqEmail req)) /\ email <> EmptyString /\
   ToLower (TrimSpace email) = email).
Proof.
  unfold authenticate, ConstantTimeCompare.
  pose proof (canonical_idem (ReqEmail req)) as Hidem.
  repeat case_bool_decide; simpl; split;
    first [ intros [= <- <-]; tauto
          | intros [(-> & -> & ? & ?)|(-> & [?|?] & ? & ? & -> & ? & ?)]; congruence ].
Qed.
(** What a login as [mail] comes to: a session for that address and those rights,
    that expires a lifetime from now, is stored under a fresh token which the reply
    sets as a cookie, the other sessions are as before, and the reply is the 200
    with the identity; or the store cannot create it, the reply is 500 and no
    session changes. *)
Definition logs_in_as (cfg : option Config) (w : ResponseWriter) (st : S) (rt : Runtime)
    (mail : string) (adm : bool) (out : ResponseWriter * (S * Runtime)) : Prop :=
  let now := clock_at rt (clock_pos rt) in
  let session := mkSession mail adm (now + sessionTTL (Some (default zero_config cfg))) in
  (exists token, token <> ""%string /\
     Get token out.2.1 = Ok (session token) /\
     (forall t, t <> token -> Get t out.2.1 = Get t st) /\
     out.1 = writeJSON 200 (JObj [("status"%string, JString "ok"); ("is_admin"%string, JBool adm);
                                  ("email"%string, JString mail)])
               (SetCookie (NewSessionCookie cfg token (ExpiresAt (session token))) w)) \/
  (exists err, (Create (session ""%string) (time_Now rt).2 st).1.1 = Err err /\
     out.1 = writeJSON 500 (json_error "failed to create session") w /\ out.2.1 = st).

Lemma LoginHandler_as cfg r w st rt req mail adm :
  Method r = "POST"%string -> decode_login (ReqBody r) = Ok req ->
  authenticate (default zero_config cfg) req = Some (mail, adm) ->
  logs_in_as cfg w st rt mail adm (LoginHandler cfg r w (st, rt)).
Proof.
  intros Hm Hd Ha. unfold LoginHandler, logs_in_as. rewrite Hm, Hd, Ha. cbn.
  destruct (Create _ _ st) as [[[s|err] rt'] st'] eqn:Ec; cbn.
  - left. destruct (create_ok _ _ _ _ _ _ Ec) as (Ht & Hs & _ & Hg & Ho).
    unfold set_token in Hs; cbn in Hs. exists (Token s). split_and!; [done| |done|].
    + by rewrite <-Hs.
    + destruct cfg; by rewrite Hs.
  - right. exists err. by rewrite (create_err _ _ _ _ _ _ Ec).
Qed.

(** C13: Logging in over the wire. A POST whose body is the JSON a client makes of
    a key and an address, with any bytes after it and any error once it is read,
    is a login with that key and that address (a byte that is not UTF-8 counts as
    U+FFFD). The configured admin key opens a session for "admin" with admin
    rights, whatever the address; the configured user key, when it is another
    one, opens one without admin rights for the address trimmed and in lower case,
    unless nothing of it is left; that session is stored under the token of the
    cookie in the 200 reply, which tells the identity, or the store fails and the
    reply is 500. Every other key, the empty one included, is answered 401 and
    changes nothing. And whatever object a client sends, a body cut off anywhere
    inside it, by the size limit or a broken connection, is answered 400 and
    changes nothing. *)
Theorem login_body_is_read_whole cfg r w st rt :
  Method r = "POST"%string ->
  (forall psk email rest e, ReqBody r = mkBody (login_body psk email +:+ rest) e ->
     let c := default zero_config cfg in
     let key := sanitize psk in
     let mail := ToLower (TrimSpace (sanitize email)) in
     let out := LoginHandler cfg r w (st, rt) in
     (key <> ""%string -> key = AdminPSK c -> logs_in_as cfg w st rt "admin" true out) /\
     (key <> ""%string -> key <> AdminPSK c -> key = NormalUserPSK c -> mail <> ""%string ->
      logs_in_as cfg w st rt mail false out) /\
     (key = ""%string \/ (key <> AdminPSK c /\ (key <> NormalUserPSK c \/ mail = ""%string)) ->
      out = (writeJSON 401 (json_error "invalid credentials") w, (st, rt)))) /\
  (forall text fs rest n e, parse text = Some (VObject fs, rest) ->
     (n < String.length text - String.length rest)%nat -> ReqBody r = mkBody (stake n text) e ->
     LoginHandler cfg r w (st, rt) = (writeJSON 400 (json_error "invalid json") w, (st, rt))).
Proof.
  intros Hm. split.
  - intros psk email rest e Hb c key mail out. pose proof (decode_login_sent psk email rest e) as Hd.
    rewrite <-Hb in Hd. split_and!.
    + intros Hk Ha. eapply LoginHandler_as; try done. apply authenticate_grants. left.
      split_and!; try done. change (AdminPSK c <> ""%string). congruence.
    + intros Hk Hna Hu Hmail. eapply LoginHandler_as; try done. apply authenticate_grants. right.
      split_and!; try done; [by right| |apply canonical_idem].
      change (NormalUserPSK c <> ""%string). congruence.
    + intros Hno. unfold out, LoginHandler. rewrite Hm, Hd.
      destruct (authenticate _ _) as [[m adm]|] eqn:Ea; [|done]. exfalso.
      apply authenticate_grants in Ea. subst c key mail. cbn [PSK ReqEmail] in Ea, Hno.
      destruct Ea as [(_ & _ & ? & ?)|(_ & _ & ? & ? & -> & ? & _)], Hno as [?|[? [?|?]]]; congruence.
  - intros text fs rest n e Hp Hn Hb. destruct (decode_login_cut _ _ _ _ e Hp Hn) as [err Herr].
    unfold LoginHandler. by rewrite Hm, Hb, Herr.
Qed.
End auth_properties.

(** The session lifetime is positive and exact for every TTL up to
    [max_ttl_hours] (2562047 hours), and 24 hours when it is not set; one hour
    more overflows [time.Duration] and gives a lifetime in the past, so that
    the session a login creates has expired before it is used. *)
Theorem session_ttl_bounds c :
  SessionTTLHours c <= max_ttl_hours + 1 ->
  sessionTTL (Some c) =
  (if SessionTTLHours c <=? 0 then 24 * Hour
   else if SessionTTLHours c <=? max_ttl_hours then SessionTTLHours c * Hour
   else (max_ttl_hours + 1) * Hour - 2 ^ 64) /\
  (SessionTTLHours c <= max_ttl_hours <-> 0 < sessionTTL (Some c)).
Proof.
  intros Hmax. unfold sessionTTL. destruct (Z.leb_spec (SessionTTLHours c) 0).
  { split; [done|]. split; [by intros _|]. intros _.
    change max_ttl_hours with 2562047. lia. }
  destruct (Z.leb_spec (SessionTTLHours c) max_ttl_hours).
  - rewrite SessionTTL_exact by lia. split; [done|].
    split; [unfold Hour, Minute, Second; lia | done].
  - assert (SessionTTLHours c = max_ttl_hours + 1) as Heq by lia.
    unfold SessionTTL. rewrite Heq. split; [by vm_compute|].
    split; [lia|]. by vm_compute.
Qed.

(** ** The theorems at concrete inputs *)

Module Demo.
Definition config : Config :=
  mkConfig "" "./data" "" 100 "" 1 "user-key" "admin-key" "ingest-key" "" "production".

(** A clock that advances by a second at each reading. *)
Definition runtime (start : Z) : Runtime :=
  mkRuntime (fun n => start * Second + Z.of_nat n * Second) 0
    (fun n => Some (fun i => byte (Z.of_nat (n + i)))) 0.

Definition request (m body : string) (cookies : list (string * string)) : Request :=
  mkRequest m "/api/login" [] empty_header cookies "10.0.0.1:4000" (slen body)
    (mkBody body None) [] [].

Definition store0 : CookieSessionStore := NewCookieSessionStore "".
Definition token0 : string := hex_EncodeToString (bytes_from (fun i => byte (Z.of_nat i)) 0 32).
Definition session0 : Session := mkSession "bob@example.com" false (1000 * Second + Hour) token0.
Definition store1 : CookieSessionStore := mkStore "lite_mail_session" {[ token0 := session0 ]}.
Definition with_cookie (m : string) : Request := request m "" [("lite_mail_session"%string, token0)].

Definition login : ResponseWriter * (CookieSessionStore * Runtime) :=
  LoginHandler (Some config) (request "POST" (login_body "user-key" " Bob@Example.com ") [])
    new_writer (store0, runtime 1000).
End Demo.

Lemma login_then_authenticated_witness :
  exists token,
    Get token Demo.login.2.1 = Ok (mkSession "bob@example.com" false (1000 * Second + Hour) token) /\
    last (h_cookies (resp_header Demo.login.1)) =
      Some (NewSessionCookie (Some Demo.config) token (1000 * Second + Hour)).
Proof.
  destruct (login_then_authenticated (Some Demo.config)
    (Demo.request "POST" (login_body "user-key" " Bob@Example.com ") []) new_writer Demo.store0 (Demo.runtime 1000)
    Demo.login.1 Demo.login.2.1 Demo.login.2.2)
    as (req & email & adm & token & Hd & Ha & Hc & Hg & _).
  - done.
  - by vm_compute.
  - unfold Demo.login. by destruct (LoginHandler _ _ _ _) as [? [? ?]].
  - by vm_compute.
  - vm_compute in Hd. injection Hd as <-. vm_compute in Ha. injection Ha as <- <-.
    exists token. split; [exact Hg | exact Hc].
Defined.

Lemma require_auth_guards_witness :
  exists w' world', (forall next,
      RequireAuth (Some Demo.config) next (Demo.with_cookie "GET") new_writer
        (Demo.store1, Demo.runtime 9000) = (w', world')) /\
    resp_status w' = 401.
Proof.
  destruct (require_auth_guards (Some Demo.config) (Demo.with_cookie "GET") new_writer
    (Demo.store1, Demo.runtime 9000) Demo.store1 (Demo.runtime 9000)) as (w' & world' & H1 & H2 & _).
  - done.
  - done.
  - intros v s Hv Hg. vm_compute in Hv. injection Hv as <-. vm_compute in Hg. injection Hg as <-.
    by vm_compute.
  - exists w', world'. done.
Defined.

Lemma expired_session_evicted_witness :
  let r := RequireAuth (Some Demo.config) (fun _ w s => (w, s)) (Demo.with_cookie "GET") new_writer
             (Demo.store1, Demo.runtime 9000) in
  Get Demo.token0 r.2.1 = Err ErrSessionNotFound.
Proof.
  destruct (expired_session_evicted (Some Demo.config) (fun _ w s => (w, s))
    (Demo.with_cookie "GET") new_writer (Demo.store1, Demo.runtime 9000) Demo.store1
    (Demo.runtime 9000) Demo.token0 Demo.session0
    (RequireAuth (Some Demo.config) (fun _ w s => (w, s)) (Demo.with_cookie "GET") new_writer
             (Demo.store1, Demo.runtime 9000)).1
    (RequireAuth (Some Demo.config) (fun _ w s => (w, s)) (Demo.with_cookie "GET") new_writer
             (Demo.store1, Demo.runtime 9000)).2) as (_ & _ & H3).
  - done.
  - done.
  - apply map_Forall_singleton. done.
  - by vm_compute.
  - by vm_compute.
  - by vm_compute.
  - by vm_compute.
  - by destruct (RequireAuth _ _ _ _ _).
  - exact H3.
Defined.

Lemma logout_revokes_witness :
  let r := LogoutHandler (Some Demo.config) (Demo.with_cookie "POST") new_writer
             (Demo.store1, Demo.runtime 1000) in
  exists w3 world',
    (forall next, RequireAuth (Some Demo.config) next (Demo.with_cookie "GET") new_writer
       (r.2.1, Demo.runtime 1001) = (w3, world')) /\ resp_status w3 = 401.
Proof.
  destruct (logout_revokes (Some Demo.config) (Demo.with_cookie "POST") new_writer Demo.store1
    (Demo.runtime 1000)
    (LogoutHandler (Some Demo.config) (Demo.with_cookie "POST") new_writer
             (Demo.store1, Demo.runtime 1000)).1
    (LogoutHandler (Some Demo.config) (Demo.with_cookie "POST") new_writer
             (Demo.store1, Demo.runtime 1000)).2.1
    (LogoutHandler (Some Demo.config) (Demo.with_cookie "POST") new_writer
             (Demo.store1, Demo.runtime 1000)).2.2 Demo.token0) as [_ H].
  - done.
  - by vm_compute.
  - by destruct (LogoutHandler _ _ _ _) as [? [? ?]].
  - apply (H _ _ (Demo.with_cookie "GET") new_writer _ (Demo.runtime 1001)); [done|done|by vm_compute].
Defined.

Lemma session_ttl_bounds_witness : 0 < sessionTTL (Some Demo.config).
Proof. apply (session_ttl_bounds Demo.config); by vm_compute. Defined.

(** Double quotes for the single ones of a text. *)
Definition quotes (s : string) : string :=
  sconcat (map (fun c => String (if bool_decide (c = "'"%char) then dquote else c) "") (String.list_ascii_of_string s)).

(** The bytes a client sends, with more behind them and cut off after twenty: the
    first are a login as bob, the second are refused. *)
Lemma login_body_is_read_whole_witness :
  let bytes := quotes "{'psk':'user-key','email':' Bob@Example.com '} and more" in
  let send b := LoginHandler (Some Demo.config) (with_body (Demo.request "POST" "" []) b) new_writer
                  (Demo.store0, Demo.runtime 1000) in
  (exists token,
     Get token (send (mkBody bytes None)).2.1 = Ok (mkSession "bob@example.com" false (1000 * Second + Hour) token) /\
     resp_status (send (mkBody bytes None)).1 = 200) /\
  send (MaxBytesReader (mkBody bytes None) 20) =
    (writeJSON 400 (json_error "invalid json") new_writer, (Demo.store0, Demo.runtime 1000)).
Proof.
  intros bytes send. split.
  - destruct (login_body_is_read_whole (Some Demo.config) (with_body (Demo.request "POST" "" []) (mkBody bytes None))
      new_writer Demo.store0 (Demo.runtime 1000)) as [H _]; [done|].
    destruct (H "user-key"%string " Bob@Example.com "%string " and more"%string None) as (_ & H2 & _);
      [by vm_compute|].
    destruct H2 as [(token & _ & Hg & _ & Hw)|(err & He & _)]; [vm_compute; discriminate|vm_compute; discriminate
      |vm_compute; reflexivity|vm_compute; discriminate| |vm_compute in He; discriminate He].
    exists token. split; [exact Hg|]. unfold send. rewrite Hw. by vm_compute.
  - destruct (login_body_is_read_whole (Some Demo.config)
      (with_body (Demo.request "POST" "" []) (MaxBytesReader (mkBody bytes None) 20))
      new_writer Demo.store0 (Demo.runtime 1000)) as [_ H]; [done|].
    refine (H (login_body "user-key" " Bob@Example.com ")
      [("psk"%string, VString "user-key"); ("email"%string, VString " Bob@Example.com ")] "" 20%nat
      (Some ErrBodyTooLarge) _ _ _).
    + vm_compute. reflexivity.
    + apply (bool_decide_unpack _). vm_compute. exact I.
    + vm_compute. reflexivity.
Defined.

Lemma key_must_be_text_witness : Valid (NormalUserPSK Demo.config) = true.
Proof.
  apply (key_must_be_text Demo.config (mkBody (login_body "user-key" "bob@example.com") None)
    (mkLogin "user-key" "bob@example.com") "bob@example.com" false); by vm_compute.
Defined.

(** Keys in any case, the last of two, unknown fields ignored; a number is refused. *)
Example decode_login_folded :
  decode_login (mkBody (quotes " {'psk':'a','PSK':'b','email':null,'x':[1,{}]} trailing") None) = Ok (mkLogin "b" "").
Proof. vm_compute. reflexivity. Qed.

Example decode_login_number :
  decode_login (mkBody (quotes "{'psk':1,'email':'a'}") None) = Err (EText "json").
Proof. vm_compute. reflexivity. Qed.
