(* ===== verification/Float64.v ===== *)
(** * Go's [float64] arithmetic

    A finite float is the rational it denotes, and each operation is the exact
    operation followed by rounding to 53 significant bits, ties to even
    (IEEE 754 binary64). The exponent range is not bounded: the values the
    server computes with lie between 1e-9 and 1e14, far from the limits. *)

From S2P Require Export Prelude.
From Stdlib Require Export QArith.
From Stdlib Require Import Lqa.

Open Scope Z_scope.

(** The integer nearest to [n / d], ties to even. *)
Definition half_even (n d : Z) : Z :=
  let q := n / d in
  let r := n mod d in
  if 2 * r <? d then q else if d <? 2 * r then q + 1 else if Z.even q then q else q + 1.

(** [2^52 * 2^e <= n / d] *)
Definition scaled_ge (n d e : Z) : bool :=
  if 0 <=? e then d * 2 ^ e * 2 ^ 52 <=? n else d * 2 ^ 52 <=? n * 2 ^ (- e).

(** The exponent that leaves 53 bits before the point. *)
Definition float_exp (n d : Z) : Z :=
  let e := Z.log2 n - Z.log2 d - 52 in if scaled_ge n d e then e else e - 1.

Definition round_pos (n : Z) (d : positive) : Q :=
  let e := float_exp n (Zpos d) in
  if 0 <=? e then inject_Z (half_even n (Zpos d * 2 ^ e) * 2 ^ e)
  else half_even (n * 2 ^ (- e)) (Zpos d) # Z.to_pos (2 ^ (- e)).

(** Round a rational to a float. *)
Definition round64 (q : Q) : Q :=
  match Qnum q with
  | Z0 => 0%Q
  | Zpos _ => round_pos (Qnum q) (Qden q)
  | Zneg _ => (- round_pos (- Qnum q) (Qden q))%Q
  end.

Definition float_of_int (z : Z) : Q := round64 (inject_Z z).
Definition fadd (x y : Q) : Q := round64 (x + y).
Definition fmul (x y : Q) : Q := round64 (x * y).
Definition fdiv (x y : Q) : Q := round64 (x / y).

(** [int(x)]: truncation toward zero. *)
Definition int_of_float (x : Q) : Z := Z.quot (Qnum x) (Zpos (Qden x)).

(** ** Rounding error *)

#[local] Ltac Zify.zify_post_hook ::= Z.to_euclidean_division_equations.

Lemma half_even_error n d : 0 < d -> 2 * Z.abs (half_even n d * d - n) <= d.
Proof.
  intros Hd. unfold half_even.
  pose proof (Z.div_mod n d) as Hdm. pose proof (Z.mod_pos_bound n d Hd) as Hm.
  set (q := n / d) in *. set (r := n mod d) in *.
  destruct (Z.ltb_spec (2 * r) d); [|destruct (Z.ltb_spec d (2 * r)); [|destruct (Z.even q)]]; nia.
Qed.

Lemma half_even_exact n d q : 0 < d -> n = q * d -> half_even n d = q.
Proof.
  intros Hd ->. unfold half_even. rewrite Z.div_mul, Z.mod_mul by lia.
  by rewrite (proj2 (Z.ltb_lt _ _)) by lia.
Qed.

Lemma scaled_ge_spec n d e :
  scaled_ge n d e = true ->
  (0 <= e -> d * 2 ^ e * 2 ^ 52 <= n) /\ (e < 0 -> d * 2 ^ 52 <= n * 2 ^ (- e)).
Proof. unfold scaled_ge. destruct (Z.leb_spec 0 e); intros ?%Z.leb_le; split; lia. Qed.

(** The significand has at least 53 bits. *)
Lemma float_exp_ge n d :
  0 < n -> 0 < d -> scaled_ge n d (float_exp n d) = true.
Proof.
  intros Hn Hd. unfold float_exp. set (e := Z.log2 n - Z.log2 d - 52).
  destruct (scaled_ge n d e) eqn:E; [done|].
  destruct (Z.log2_spec n Hn) as [Hn1 _]. destruct (Z.log2_spec d Hd) as [_ Hd2].
  pose proof (Z.log2_nonneg n). pose proof (Z.log2_nonneg d).
  unfold scaled_ge. destruct (Z.leb_spec 0 (e - 1)) as [He|He]; apply Z.leb_le.
  - transitivity (2 ^ Z.log2 n); [|done].
    assert (2 ^ Z.log2 n = 2 ^ Z.succ (Z.log2 d) * 2 ^ (e - 1) * 2 ^ 52) as ->.
    { rewrite <-!Z.pow_add_r by lia. f_equal. lia. }
    apply Z.mul_le_mono_nonneg_r; [lia|]. apply Z.mul_le_mono_nonneg_r; lia.
  - transitivity (2 ^ Z.succ (Z.log2 d) * 2 ^ 52); [lia|].
    transitivity (2 ^ Z.log2 n * 2 ^ (- (e - 1))); [|apply Z.mul_le_mono_nonneg_r; lia].
    rewrite <-!Z.pow_add_r by lia. apply Z.pow_le_mono_r; lia.
Qed.

Definition eps : Q := 1 # 9007199254740992.

Lemma round_pos_error n d :
  0 < n ->
  ((n # d) * (1 - eps) <= round_pos n d <= (n # d) * (1 + eps))%Q.
Proof.
  intros Hn. unfold round_pos.
  pose proof (float_exp_ge n (Zpos d) Hn ltac:(lia)) as Hs%scaled_ge_spec.
  set (e := float_exp n (Zpos d)) in *. destruct (Z.leb_spec 0 e) as [He|He].
  - destruct Hs as [Hs _]. specialize (Hs He).
    pose proof (half_even_error n (Zpos d * 2 ^ e) ltac:(lia)) as Herr.
    set (m := half_even _ _) in *. set (p := 2 ^ e) in *.
    unfold Qle, eps. simpl. rewrite !Pos2Z.inj_mul. split; lia.
  - destruct Hs as [_ Hs]. specialize (Hs He).
    pose proof (half_even_error (n * 2 ^ (- e)) (Zpos d) ltac:(lia)) as Herr.
    assert (0 < 2 ^ (- e)) as Hp by lia.
    set (m := half_even _ _) in *. set (p := 2 ^ (- e)) in *.
    unfold Qle, eps. simpl. rewrite !Pos2Z.inj_mul, !Z2Pos.id by done. split; nia.
Qed.

Lemma round64_pos n d : 0 < n -> round64 (n # d) = round_pos n d.
Proof. unfold round64. simpl. by destruct n. Qed.

Lemma Qnum_pos q : (0 < q)%Q -> 0 < Qnum q.
Proof. unfold Qlt. simpl. lia. Qed.

Lemma round64_error q :
  (0 <= q)%Q -> (q * (1 - eps) <= round64 q <= q * (1 + eps))%Q.
Proof.
  destruct q as [n d]. intros Hn. unfold Qle in Hn. simpl in Hn.
  destruct (Z.eq_dec n 0) as [->|Hne]; [unfold Qle, eps; simpl; lia|].
  rewrite round64_pos by lia. apply round_pos_error. lia.
Qed.

Lemma round64_nonneg q : (0 <= q)%Q -> (0 <= round64 q)%Q.
Proof. intros H. pose proof (round64_error q H). unfold eps in *. nra. Qed.

Lemma round64_nonpos q : (q <= 0)%Q -> (round64 q <= 0)%Q.
Proof.
  destruct q as [n d]. intros Hn. unfold Qle in Hn. simpl in Hn.
  destruct n as [|n|n]; [done|lia|].
  pose proof (round_pos_error (Zpos n) d ltac:(lia)) as [H _].
  change (round64 (Z.neg n # d)) with (- round_pos (Zpos n) d)%Q.
  assert (0 <= Zpos n # d)%Q by (unfold Qle; simpl; lia). unfold eps in *. nra.
Qed.

(** Integers of at most 53 bits are not rounded. *)
Lemma round64_int q z :
  0 <= z < 2 ^ 53 -> (q == inject_Z z)%Q -> (round64 q == inject_Z z)%Q.
Proof.
  destruct q as [n d]. intros Hz Hq. unfold Qeq in Hq. simpl in Hq. rewrite Z.mul_1_r in Hq.
  destruct (Z.eq_dec z 0) as [->|Hne]; [by replace n with 0 by lia|].
  rewrite round64_pos by lia. unfold round_pos.
  pose proof (float_exp_ge n (Zpos d) ltac:(lia) ltac:(lia)) as [H1 H2]%scaled_ge_spec.
  set (e := float_exp n (Zpos d)) in *. destruct (Z.leb_spec 0 e) as [He|He].
  - assert (e = 0) as ->.
    { specialize (H1 He). destruct (Z.eq_dec e 0) as [|He']; [done|].
      assert (2 ^ 1 <= 2 ^ e) by (apply Z.pow_le_mono_r; lia). nia. }
    rewrite (half_even_exact _ _ z) by lia. unfold Qeq. simpl. lia.
  - assert (0 < 2 ^ (- e)) by lia. rewrite (half_even_exact _ _ (z * 2 ^ (- e))) by lia.
    unfold Qeq, inject_Z. simpl Qnum. simpl Qden. rewrite Z2Pos.id by done. lia.
Qed.

(** ** Truncation *)

Lemma int_of_float_spec x z :
  (inject_Z z <= x)%Q -> (x < inject_Z (z + 1))%Q -> 0 <= z -> int_of_float x = z.
Proof.
  destruct x as [n d]. unfold Qle, Qlt, int_of_float. simpl. intros. nia.
Qed.

Lemma int_of_float_ge x z : (inject_Z z <= x)%Q -> 0 <= z -> z <= int_of_float x.
Proof. destruct x as [n d]. unfold Qle, int_of_float. simpl. intros. nia. Qed.

Lemma int_of_float_nonpos x : (x <= 0)%Q -> int_of_float x <= 0.
Proof. destruct x as [n d]. unfold Qle, int_of_float. simpl. intros. nia. Qed.
