(* ===== verification/RateLimit.v ===== *)
(** * The rate limiter (internal/middleware/ratelimit.go)

    The [sync.Map] holds pointers, so the model has a store of entries and a
    map from client address to location: an entry that the cleanup removes from
    the map can still be held by a request in progress. [LoadOrStore], the body
    of [Allow] under the entry's mutex and the visit of one entry by the cleanup
    are the atomic steps. *)

From S2P Require Export Float64 Http.
From Stdlib Require Import Lqa.

Open Scope Z_scope.

Record rateLimitEntry := mkEntry { tokens : Z; lastUpdate : Z }.

Record rateLimiter := mkLimiter {
  requestsPerMinute : Z;
  window : Z;
  entries : gmap string nat;
  heap : gmap nat rateLimitEntry;
  next_loc : nat
}.

Definition newRateLimiter (rpm : Z) : rateLimiter := mkLimiter rpm Minute ∅ ∅ 0.

(** [time.Duration.Seconds]: whole seconds plus the fraction, as floats. *)
Definition Seconds (d : Z) : Q :=
  fadd (float_of_int (Z.quot d Second))
       (fdiv (float_of_int (Z.rem d Second)) (inject_Z 1000000000)).

(** [int(elapsed.Seconds() * float64(rl.requestsPerMinute) / rl.window.Seconds())] *)
Definition recovered (rpm win elapsed : Z) : Z :=
  int_of_float (fdiv (fmul (Seconds elapsed) (float_of_int rpm)) (Seconds win)).

(** ** Allow *)

(** [rl.entries.LoadOrStore(ip, &rateLimitEntry{...})] *)
Definition load_or_store (ip : string) (now : Z) (rl : rateLimiter) : nat * rateLimiter :=
  match entries rl !! ip with
  | Some l => (l, rl)
  | None =>
      let l := next_loc rl in
      (l, mkLimiter (requestsPerMinute rl) (window rl) (<[ip := l]> (entries rl))
            (<[l := mkEntry (requestsPerMinute rl) now]> (heap rl)) (S l))
  end.

(** The critical section on one entry: what it returns and the entry it leaves. *)
Definition take_token (rpm win now : Z) (e : rateLimitEntry) : bool * Z * rateLimitEntry :=
  let elapsed := Sub now (lastUpdate e) in
  let rec := recovered rpm win elapsed in
  let toks :=
    if 0 <? rec then
      let t := tokens e + rec in if rpm <? t then rpm else t
    else tokens e in
  let remaining := if toks - 1 <? 0 then 0 else toks - 1 in
  if toks <=? 0 then (false, 0, mkEntry toks now)
  else (true, remaining, mkEntry (toks - 1) now).

Definition locked_step (l : nat) (now : Z) (rl : rateLimiter) : bool * Z * rateLimiter :=
  match heap rl !! l with
  | Some e =>
      let '(ok, remaining, e') := take_token (requestsPerMinute rl) (window rl) now e in
      (ok, remaining, mkLimiter (requestsPerMinute rl) (window rl) (entries rl)
                        (<[l := e']> (heap rl)) (next_loc rl))
  | None => (false, 0, rl)
  end.

(** [rl.Allow(ip)] with the clock reading [now], when nothing interleaves. *)
Definition Allow (ip : string) (now : Z) (rl : rateLimiter) : (bool * Z * Z) * rateLimiter :=
  let resetAt := Unix (now + window rl) in
  let '(l, rl) := load_or_store ip now rl in
  let '(ok, remaining, rl) := locked_step l now rl in
  ((ok, remaining, resetAt), rl).

(** ** cleanup *)

Definition stale (win now : Z) (e : rateLimitEntry) : bool := win <? Sub now (lastUpdate e).

(** One visit of [rl.entries.Range]: the key and the entry it had. *)
Definition cleanup_visit (key : string) (l : nat) (now : Z) (rl : rateLimiter) : rateLimiter :=
  match heap rl !! l with
  | Some e =>
      if stale (window rl) now e then
        mkLimiter (requestsPerMinute rl) (window rl) (delete key (entries rl)) (heap rl) (next_loc rl)
      else rl
  | None => rl
  end.

(** [rl.cleanup()] with the clock reading [now], when nothing interleaves. *)
Definition cleanup (now : Z) (rl : rateLimiter) : rateLimiter :=
  foldr (fun kl rl => cleanup_visit kl.1 kl.2 now rl) rl (map_to_list (entries rl)).

(** [rl.cleanupLoop()] on what its channels deliver: a tick, with the time at
    which cleanup then reads the clock, or [None] for a closed [stopCleanup]
    (which nothing in the program closes). *)
Fixpoint cleanupLoop (events : list (option Z)) (rl : rateLimiter) : rateLimiter :=
  match events with
  | [] => rl
  | Some now :: events' => cleanupLoop events' (cleanup now rl)
  | None :: _ => rl
  end.

(** ** The middleware *)

Definition getClientIP (r : Request) : string :=
  let xff := Header_Get (ReqHeader r) "X-Forwarded-For" in
  if bool_decide (xff <> EmptyString) then
    TrimSpace (default EmptyString (head (Split xff ",")))
  else RemoteAddr r.

(** [RateLimit]'s treatment of its arguments. [burst] is computed and unused. *)
Definition rate_limit_rpm (rpm : Z) : Z := if rpm <=? 0 then 60 else rpm.
Definition rate_limit_burst (rpm burst : Z) : Z :=
  if burst <=? 0 then rate_limit_rpm rpm else burst.
Definition rate_limit_state (rpm burst : Z) : rateLimiter := newRateLimiter (rate_limit_rpm rpm).

Definition rate_limit_body : string :=
  "{" +:+ String (byte 34) ("error" +:+ String (byte 34) (":" +:+
  String (byte 34) ("rate limit exceeded" +:+ String (byte 34) "}"))).

Definition RateLimit {W} `{Lens W (rateLimiter * Runtime)} (rpm burst : Z) : Middleware W :=
  fun next r w world =>
    let '(rl, rt) := view world in
    let ip := getClientIP r in
    let '(now, rt) := time_Now rt in
    let '((allowed, remaining, resetAt), rl) := Allow ip now rl in
    let world := put (rl, rt) world in
    let w := set_header "X-RateLimit-Limit" (FormatInt (rate_limit_rpm rpm)) w in
    let w := set_header "X-RateLimit-Remaining" (FormatInt remaining) w in
    let w := set_header "X-RateLimit-Reset" (FormatInt resetAt) w in
    if negb allowed then
      let w := set_header "Content-Type" "application/json" w in
      let w := WriteHeader 429 w in
      (Write (Bytes rate_limit_body) w, world)
    else next r w world.

(** ** The float computation is the exact integer one *)

#[local] Ltac Zify.zify_post_hook ::= Z.to_euclidean_division_equations.

(** Multiplying the bounds of two successive roundings. *)
Lemma round64_bounds q x k l :
  (0 <= q)%Q -> (0 <= x)%Q -> (0 <= l)%Q -> (x * l <= q <= x * k)%Q ->
  (x * (l * (1 - eps)) <= round64 q <= x * (k * (1 + eps)))%Q.
Proof.
  intros Hq Hx Hl [H1 H2]. destruct (round64_error q Hq) as [H3 H4]. unfold eps in *.
  split; nra.
Qed.

Lemma Qdiv_1e9 x : (x / inject_Z 1000000000 == x * (1 # 1000000000))%Q.
Proof. reflexivity. Qed.

Lemma Seconds_bounds d :
  0 <= d < 2 ^ 63 ->
  ((d # 1000000000) * ((1 - eps) * (1 - eps)) <= Seconds d
   <= (d # 1000000000) * ((1 + eps) * (1 + eps)))%Q.
Proof.
  intros Hd. unfold Seconds, fadd, fdiv.
  rewrite Z.quot_div_nonneg, Z.rem_mod_nonneg by (unfold Second; lia).
  set (s := d / Second). set (n := d mod Second).
  assert (0 <= s < 2 ^ 53 /\ 0 <= n < 1000000000 /\ d = s * 1000000000 + n) as (Hs & Hn & Hsn).
  { unfold s, n, Second. lia. }
  pose proof (round64_int _ s Hs (Qeq_refl _)) as Es. fold (float_of_int s) in Es.
  pose proof (round64_int _ n ltac:(lia) (Qeq_refl _)) as En. fold (float_of_int n) in En.
  assert (0 <= inject_Z s)%Q as Hs0 by (unfold Qle; simpl; lia).
  assert (0 <= inject_Z n)%Q as Hn0 by (unfold Qle; simpl; lia).
  assert ((d # 1000000000) == inject_Z s + inject_Z n * (1 # 1000000000))%Q as Ed.
  { unfold Qeq. simpl. lia. }
  pose proof (Qdiv_1e9 (float_of_int n)) as Eq.
  destruct (round64_error (float_of_int n / inject_Z 1000000000)) as [Hf1 Hf2].
  { rewrite Eq. nra. }
  set (f := round64 (float_of_int n / inject_Z 1000000000)) in *.
  rewrite Eq in Hf1, Hf2. unfold eps in *.
  apply round64_bounds; unfold eps; try nra.
  all: rewrite Ed; try split; nra.
Qed.

Definition minute_ns : Z := 60000000000.

Definition recovered_float (rpm elapsed : Z) : Q :=
  fdiv (fmul (Seconds elapsed) (float_of_int rpm)) (Seconds Minute).

Lemma Seconds_Minute : (Seconds Minute == 60)%Q.
Proof. vm_compute. reflexivity. Qed.

Lemma recovered_float_bounds rpm d :
  0 <= d < 2 ^ 63 -> 0 <= rpm < 2 ^ 53 ->
  ((d * rpm # 60000000000) * (1 - 5 * eps) <= recovered_float rpm d
   <= (d * rpm # 60000000000) * (1 + 5 * eps))%Q.
Proof.
  intros Hd Hr. unfold recovered_float, fdiv, fmul.
  destruct (Seconds_bounds d Hd) as [H1 H2].
  pose proof (round64_int _ rpm Hr (Qeq_refl _)) as Er. fold (float_of_int rpm) in Er.
  assert (0 <= (d # 1000000000))%Q as Hx by (unfold Qle; simpl; lia).
  assert (0 <= inject_Z rpm)%Q as Hr0 by (unfold Qle; simpl; lia).
  assert ((d * rpm # 60000000000) == (d # 1000000000) * inject_Z rpm * (1 # 60))%Q as Ev.
  { unfold Qeq. simpl. lia. }
  set (x := (d # 1000000000)%Q) in *. set (R := inject_Z rpm) in *.
  assert (0 <= Seconds d)%Q as Hs0 by (unfold eps in *; nra).
  assert (0 <= x * R)%Q as HxR by nra.
  destruct (round64_bounds (Seconds d * float_of_int rpm) (x * R)
    ((1 + eps) * (1 + eps)) ((1 - eps) * (1 - eps))) as [H3 H4];
    [rewrite Er; nra|done|unfold eps; nra|rewrite Er; split; nra|].
  set (p := round64 (Seconds d * float_of_int rpm)) in *.
  assert (p / Seconds Minute == p * (1 # 60))%Q as Ep by (rewrite Seconds_Minute; reflexivity).
  assert (0 <= p)%Q as Hp0 by (unfold eps in *; nra).
  destruct (round64_bounds (p / Seconds Minute) (x * R * (1 # 60))
    ((1 + eps) * (1 + eps) * (1 + eps)) ((1 - eps) * (1 - eps) * (1 - eps))) as [H5 H6];
    [rewrite Ep; nra|nra|unfold eps; nra|rewrite Ep; split; nra|].
  assert (0 <= x * R * (1 # 60))%Q as Hv0 by nra.
  rewrite Ev. split.
  - eapply Qle_trans; [|exact H5]. unfold eps in *. nra.
  - eapply Qle_trans; [exact H6|]. unfold eps in *. nra.
Qed.

(** When a whole number of tokens is due exactly, no step rounds. *)
Lemma recovered_float_integer rpm k q :
  0 <= k < 2 ^ 40 -> 0 < rpm -> rpm * k = 60 * q -> 0 <= q < 2 ^ 40 ->
  (recovered_float rpm (k * Second) == inject_Z q)%Q.
Proof.
  intros Hk Hr Hq Hq'. unfold recovered_float, Seconds, fdiv, fmul, fadd.
  rewrite Z.quot_mul, Z.rem_mul by done.
  assert (round64 (float_of_int 0 / inject_Z 1000000000) == inject_Z 0)%Q as E0.
  { apply round64_int; [lia|]. reflexivity. }
  assert (float_of_int k == inject_Z k)%Q as Ek by (apply round64_int; [lia|reflexivity]).
  assert (round64 (float_of_int k + round64 (float_of_int 0 / inject_Z 1000000000)) == inject_Z k)%Q as Es.
  { apply round64_int; [lia|]. rewrite E0, Ek. unfold Qeq; simpl; lia. }
  destruct (Z.eq_dec k 0) as [->|Hk0].
  { assert (q = 0) as -> by lia. apply round64_int; [lia|].
    assert (round64 (round64 (float_of_int 0 + round64 (float_of_int 0 / inject_Z 1000000000))
              * float_of_int rpm) == inject_Z 0)%Q as ->; [|reflexivity].
    apply round64_int; [lia|]. rewrite Es. unfold Qeq; simpl; lia. }
  assert (float_of_int rpm == inject_Z rpm)%Q as Er by (apply round64_int; [nia|reflexivity]).
  apply round64_int; [lia|].
  change (round64 (float_of_int (Z.quot Minute Second) +
     round64 (float_of_int (Z.rem Minute Second) / inject_Z 1000000000))) with (Seconds Minute).
  rewrite Seconds_Minute.
  assert (round64 (round64 (float_of_int k + round64 (float_of_int 0 / inject_Z 1000000000))
            * float_of_int rpm) == inject_Z (60 * q))%Q as ->.
  { apply round64_int; [lia|]. rewrite Es, Er. unfold Qeq; simpl; lia. }
  rewrite inject_Z_mult. field.
Qed.

(** For the rates that divide 60 (the server uses 10 and 60), the tokens that
    the float expression gives back are exactly [elapsed * rpm / 60s], rounded
    down, as long as at most 30000 tokens are due. *)
Lemma recovered_exact rpm d :
  (rpm | 60) -> 0 < rpm -> 0 <= d -> d * rpm <= 30000 * minute_ns ->
  recovered rpm Minute d = d * rpm / minute_ns.
Proof.
  intros Hdiv Hr Hd Hmax. pose proof (Z.divide_pos_le rpm 60 ltac:(lia) Hdiv) as Hr60.
  destruct Hdiv as [k Hk]. assert (d * 1 <= d * rpm) as Hdr by (apply Z.mul_le_mono_nonneg_l; lia).
  unfold minute_ns in *. change (recovered rpm Minute d) with
    (int_of_float (recovered_float rpm d)).
  set (q := d * rpm / 60000000000) in *.
  destruct (Z.eq_dec (d * rpm) (q * 60000000000)) as [He|Hne].
  - assert (d = (q * k) * Second) as Hdk by (unfold Second; nia).
    assert ((recovered_float rpm d) == inject_Z q)%Q as Heq.
    { rewrite Hdk. apply recovered_float_integer; nia. }
    apply int_of_float_spec; rewrite ?Heq; unfold Qle, Qlt; simpl; lia.
  - destruct (recovered_float_bounds rpm d) as [H1 H2]; [lia|lia|].
    assert (q * 60000000000 + 1 <= d * rpm <= q * 60000000000 + 59999999999) as Hb by (unfold q; lia).
    assert (0 <= q) by (unfold q; lia).
    assert (inject_Z q + (1 # 60000000000) <= (d * rpm # 60000000000))%Q as Hl.
    { unfold Qle; simpl; lia. }
    assert ((d * rpm # 60000000000) <= inject_Z (q + 1) - (1 # 60000000000))%Q as Hu.
    { unfold Qle; simpl; lia. }
    assert ((d * rpm # 60000000000) <= 30000)%Q as Hm by (unfold Qle; simpl; lia).
    assert (0 <= (d * rpm # 60000000000))%Q as H0 by (unfold Qle; simpl; lia).
    apply int_of_float_spec; [unfold eps in *; lra|unfold eps in *; lra|done].
Qed.

(** Whatever the elapsed time, a minute or more gives back at least [rpm]. *)
Lemma recovered_large rpm d :
  (rpm | 60) -> 0 < rpm -> 30000 * minute_ns < d * rpm -> d < 2 ^ 63 -> 29999 <= recovered rpm Minute d.
Proof.
  intros Hdiv Hr Hd Hmax. pose proof (Z.divide_pos_le rpm 60 ltac:(lia) Hdiv) as Hr60.
  assert (0 < d) as Hd0 by (unfold minute_ns in *; nia). unfold minute_ns in *.
  destruct (recovered_float_bounds rpm d) as [H1 _]; [lia|lia|].
  apply int_of_float_ge; [|lia]. eapply Qle_trans; [|exact H1].
  assert (30000 <= (d * rpm # 60000000000))%Q by (unfold Qle; simpl; lia).
  unfold eps. change (inject_Z 29999) with 29999%Q. nra.
Qed.

(** ** The specification: an exact token bucket per address, never cleaned *)

Module Spec.
Definition level (rpm now : Z) (b : option rateLimitEntry) : Z :=
  match b with
  | None => rpm
  | Some e => Z.min rpm (tokens e + (now - lastUpdate e) * rpm / minute_ns)
  end.

Definition allow (rpm : Z) (ip : string) (now : Z) (m : gmap string rateLimitEntry)
  : (bool * Z * Z) * gmap string rateLimitEntry :=
  let k := level rpm now (m !! ip) in
  if k <=? 0 then ((false, 0, Unix (now + Minute)), <[ip := mkEntry k now]> m)
  else ((true, k - 1, Unix (now + Minute)), <[ip := mkEntry (k - 1) now]> m).
End Spec.

(** What happens to a limiter, with the clock reading of each operation. *)
Inductive op := OpAllow (ip : string) | OpCleanup.

Fixpoint run (rl : rateLimiter) (tr : list (Z * op)) : list (bool * Z * Z) * rateLimiter :=
  match tr with
  | [] => ([], rl)
  | (now, OpAllow ip) :: tr' =>
      let '(o, rl) := Allow ip now rl in let '(os, rl) := run rl tr' in (o :: os, rl)
  | (now, OpCleanup) :: tr' => run (cleanup now rl) tr'
  end.

Fixpoint spec_run (rpm : Z) (m : gmap string rateLimitEntry) (tr : list (Z * op))
  : list (bool * Z * Z) * gmap string rateLimitEntry :=
  match tr with
  | [] => ([], m)
  | (now, OpAllow ip) :: tr' =>
      let '(o, m) := Spec.allow rpm ip now m in let '(os, m) := spec_run rpm m tr' in (o :: os, m)
  | (now, OpCleanup) :: tr' => spec_run rpm m tr'
  end.

Lemma cleanupLoop_run ticks rl :
  cleanupLoop (map Some ticks) rl = (run rl (map (fun now => (now, OpCleanup)) ticks)).2.
Proof. revert rl. induction ticks as [|now ticks IH]; intros rl; simpl; [done|]. by rewrite IH. Qed.

Lemma run_app tr1 tr2 rl :
  run rl (tr1 ++ tr2) =
  ((run rl tr1).1 ++ (run (run rl tr1).2 tr2).1, (run (run rl tr1).2 tr2).2).
Proof.
  revert rl. induction tr1 as [|[now [ip|]] tr1 IH]; intros rl; simpl; [by destruct (run rl tr2)| |apply IH].
  destruct (Allow ip now rl) as [o rl1]. rewrite IH. destruct (run rl1 tr1) as [os rl2]. simpl.
  by destruct (run rl2 tr2).
Qed.

(** The clock readings of a run do not go backwards from [c]. *)
Fixpoint clock_from (c : Z) (tr : list (Z * op)) : Prop :=
  match tr with [] => True | (now, _) :: tr' => c <= now /\ clock_from now tr' end.

(** ** The limiter implements the specification *)

Definition rl_entry (rl : rateLimiter) (ip : string) : option rateLimitEntry :=
  entries rl !! ip ≫= fun l => heap rl !! l.

Section refinement.
Variable rpm : Z.
Hypothesis rpm_pos : 0 < rpm.
Hypothesis rpm_div : (rpm | 60).

Lemma rpm_le_60 : rpm <= 60.
Proof using rpm_pos rpm_div. apply Z.divide_pos_le; [lia|done]. Qed.

(** Refilling an entry: the float expression, its guard and its cap. *)
Lemma take_token_exact now e :
  0 <= tokens e <= rpm -> lastUpdate e <= now ->
  take_token rpm Minute now e =
  let k := Spec.level rpm now (Some e) in
  if k <=? 0 then (false, 0, mkEntry k now) else (true, k - 1, mkEntry (k - 1) now).
Proof using rpm_pos rpm_div.
  intros Ht Hl. unfold take_token, Spec.level, Sub, max_int64, min_int64.
  pose proof rpm_le_60. set (d := now - lastUpdate e).
  assert (0 <= d) by lia. set (d' := Z.max _ _).
  assert (0 <= d' < 2 ^ 63 /\ (d' = d \/ d' = 2 ^ 63 - 1 /\ 2 ^ 63 <= d)) as [Hd' Hdd] by lia.
  assert ((if 0 <? recovered rpm Minute d'
           then if rpm <? tokens e + recovered rpm Minute d'
                then rpm else tokens e + recovered rpm Minute d'
           else tokens e) = Z.min rpm (tokens e + d * rpm / minute_ns)) as ->.
  { destruct (Z.le_gt_cases (d' * rpm) (30000 * minute_ns)) as [Hs|Hb].
    - rewrite recovered_exact by (done || lia).
      destruct Hdd as [->|[-> ?]]; [|unfold minute_ns in *; lia].
      assert (0 <= d * rpm / minute_ns) by (apply Z.div_pos; unfold minute_ns; lia).
      destruct (Z.ltb_spec 0 (d * rpm / minute_ns)), (Z.ltb_spec rpm (tokens e + d * rpm / minute_ns)); lia.
    - pose proof (recovered_large rpm d' rpm_div rpm_pos Hb ltac:(lia)).
      assert (29999 <= d * rpm / minute_ns).
      { apply Z.div_le_lower_bound; [done|]. unfold minute_ns in *. nia. }
      destruct (Z.ltb_spec 0 (recovered rpm Minute d')); [|lia].
      destruct (Z.ltb_spec rpm (tokens e + recovered rpm Minute d')); lia. }
  set (k := Z.min _ _). cbv zeta.
  destruct (Z.leb_spec k 0); [done|]. destruct (Z.ltb_spec (k - 1) 0); [lia|done].
Qed.

(** The shape the operations maintain. *)
Record limiter_wf (rl : rateLimiter) : Prop := {
  wf_rpm : requestsPerMinute rl = rpm;
  wf_window : window rl = Minute;
  wf_inj : forall ip ip' l, entries rl !! ip = Some l -> entries rl !! ip' = Some l -> ip = ip';
  wf_alloc : forall ip l, entries rl !! ip = Some l -> (l < next_loc rl)%nat /\ is_Some (heap rl !! l)
}.

(** An address has the same bucket on both sides, or has been forgotten after
    its bucket had had time to fill. *)
Definition same_bucket (c : Z) (o s : option rateLimitEntry) : Prop :=
  match o, s with
  | Some e, Some e' => e = e' /\ 0 <= tokens e <= rpm /\ lastUpdate e <= c
  | Some _, None => False
  | None, None => True
  | None, Some e => 0 <= tokens e <= rpm /\ minute_ns < c - lastUpdate e
  end.

Definition sim (c : Z) (rl : rateLimiter) (m : gmap string rateLimitEntry) : Prop :=
  limiter_wf rl /\ forall ip, same_bucket c (rl_entry rl ip) (m !! ip).

Lemma same_bucket_later c c' o s : c <= c' -> same_bucket c o s -> same_bucket c' o s.
Proof using. clear rpm_pos rpm_div. destruct o, s; simpl; intuition lia. Qed.

Lemma sim_later c c' rl m : c <= c' -> sim c rl m -> sim c' rl m.
Proof using. intros Hc [? H]. split; [done|]. intros ip. by eapply same_bucket_later. Qed.

Lemma level_range now o s c :
  c <= now -> same_bucket c o s -> 0 <= Spec.level rpm now s <= rpm.
Proof using rpm_pos.
  clear rpm_div. intros Hc Hb. unfold Spec.level. destruct s as [e|]; [|lia].
  assert (0 <= (now - lastUpdate e) * rpm / minute_ns).
  { apply Z.div_pos; [|done]. apply Z.mul_nonneg_nonneg; [|lia].
    destruct o as [e'|]; simpl in Hb; [destruct Hb as (-> & ? & ?)|unfold minute_ns in *]; lia. }
  destruct o as [e'|]; simpl in Hb; [destruct Hb as (-> & ? & ?)|]; lia.
Qed.

(** A forgotten bucket is a full one. *)
Lemma level_forgotten now c s : c <= now -> same_bucket c None s -> Spec.level rpm now s = rpm.
Proof using rpm_pos.
  clear rpm_div. intros Hc. destruct s as [e|]; simpl; [|done]. intros [Ht Hl].
  assert (rpm <= (now - lastUpdate e) * rpm / minute_ns); [|lia].
  apply Z.div_le_lower_bound; [done|]. unfold minute_ns in *. nia.
Qed.

(** One critical section on an entry that the two sides share. *)
Lemma locked_step_exact l e now rl :
  heap rl !! l = Some e -> requestsPerMinute rl = rpm -> window rl = Minute ->
  0 <= tokens e <= rpm -> lastUpdate e <= now ->
  locked_step l now rl =
  let k := Spec.level rpm now (Some e) in
  let upd e' := mkLimiter rpm Minute (entries rl) (<[l := e']> (heap rl)) (next_loc rl) in
  if k <=? 0 then (false, 0, upd (mkEntry k now)) else (true, k - 1, upd (mkEntry (k - 1) now)).
Proof using rpm_pos rpm_div.
  intros Hl Hr Hw Ht Hu. unfold locked_step. rewrite Hl, Hr, Hw, take_token_exact by done.
  cbv zeta. by destruct (_ <=? 0).
Qed.

(** Writing one entry changes the bucket of one address. *)
Lemma rl_entry_update rl ip l e :
  limiter_wf rl -> entries rl !! ip = Some l ->
  let rl' := mkLimiter rpm Minute (entries rl) (<[l := e]> (heap rl)) (next_loc rl) in
  limiter_wf rl' /\ rl_entry rl' ip = Some e /\
  forall ip', ip' <> ip -> rl_entry rl' ip' = rl_entry rl ip'.
Proof using.
  clear rpm_pos rpm_div. intros Hwf Hip rl'. split; [|split].
  - split; simpl; [done|done|exact (wf_inj _ Hwf)|].
    intros ip' l' H'. split; [by eapply wf_alloc|].
    rewrite lookup_insert. case_decide; [done|]. by eapply wf_alloc.
  - unfold rl_entry. simpl. rewrite Hip. simpl. by rewrite lookup_insert_eq.
  - intros ip' Hne. unfold rl_entry. simpl.
    destruct (entries rl !! ip') as [l'|] eqn:E; [|done]. simpl.
    rewrite lookup_insert_ne; [done|]. intros <-. apply Hne. by eapply wf_inj.
Qed.

(** The entry [Allow] works on, after [LoadOrStore]. *)
Lemma load_or_store_sim c now rl m ip :
  sim c rl m -> c <= now ->
  exists l e rl1, load_or_store ip now rl = (l, rl1) /\ limiter_wf rl1 /\
    entries rl1 !! ip = Some l /\ heap rl1 !! l = Some e /\
    0 <= tokens e <= rpm /\ lastUpdate e <= now /\
    Spec.level rpm now (Some e) = Spec.level rpm now (m !! ip) /\
    forall ip', ip' <> ip -> rl_entry rl1 ip' = rl_entry rl ip'.
Proof using rpm_pos.
  clear rpm_div. intros [Hwf Hs] Hc. specialize (Hs ip). unfold rl_entry in Hs.
  unfold load_or_store. destruct (entries rl !! ip) as [l|] eqn:E.
  - destruct (wf_alloc _ Hwf _ _ E) as [_ [e He]]. simpl in Hs. rewrite He in Hs.
    exists l, e, rl. destruct (m !! ip) as [e'|]; simpl in Hs; [|done].
    destruct Hs as (-> & ? & ?). split_and!; done || lia.
  - simpl in Hs. rewrite (wf_rpm _ Hwf), (wf_window _ Hwf).
    eexists _, (mkEntry rpm now), _. split; [done|]. split.
    { split; simpl; [done|done| |].
      - intros i i' l. rewrite !lookup_insert. repeat case_decide; subst; try done.
        + intros [= <-] Hl. apply (wf_alloc _ Hwf) in Hl as [??]. lia.
        + intros Hl [= <-]. apply (wf_alloc _ Hwf) in Hl as [??]. lia.
        + by apply wf_inj.
      - intros i l. rewrite !lookup_insert. case_decide; subst.
        + intros [= <-]. split; [lia|]. by rewrite decide_True.
        + intros Hl. apply (wf_alloc _ Hwf) in Hl as [??]. split; [lia|]. by case_decide. }
    simpl. rewrite !lookup_insert_eq. split_and!; [done|done|lia|lia|lia| |].
    + rewrite (level_forgotten now c (m !! ip)) by done. unfold Spec.level. simpl.
      rewrite Z.sub_diag. change (0 * rpm / minute_ns) with 0. lia.
    + intros ip' Hne. unfold rl_entry. simpl. rewrite lookup_insert_ne by done.
      destruct (entries rl !! ip') as [l'|] eqn:E'; [|done]. simpl.
      apply (wf_alloc _ Hwf) in E' as [??]. rewrite lookup_insert_ne by lia. done.
Qed.
Lemma Allow_sim c now rl m ip :
  sim c rl m -> c <= now ->
  (Allow ip now rl).1 = (Spec.allow rpm ip now m).1 /\
  sim now (Allow ip now rl).2 (Spec.allow rpm ip now m).2.
Proof using rpm_pos rpm_div.
  intros Hsim Hc. pose proof Hsim as [Hwf Hs].
  destruct (load_or_store_sim c now rl m ip Hsim Hc)
    as (l & e & rl1 & Hlos & Hwf1 & Hip & Hl & Ht & Hu & Hlev & Hother).
  unfold Allow, Spec.allow. rewrite Hlos, (wf_window _ Hwf).
  rewrite (locked_step_exact l e now rl1 Hl (wf_rpm _ Hwf1) (wf_window _ Hwf1) Ht Hu). cbv zeta.
  pose proof (level_range now _ _ c Hc (Hs ip)) as Hk. rewrite <-Hlev in *.
  set (k := Spec.level rpm now (Some e)) in *.
  assert (forall e', 0 <= tokens e' <= rpm -> lastUpdate e' = now ->
    sim now (mkLimiter rpm Minute (entries rl1) (<[l := e']> (heap rl1)) (next_loc rl1))
      (<[ip := e']> m)) as Hupd.
  { intros e' Ht' Hu'. destruct (rl_entry_update rl1 ip l e' Hwf1 Hip) as (Hw' & He' & Ho').
    split; [done|]. intros ip'. destruct (decide (ip' = ip)) as [->|Hne].
    - rewrite He', lookup_insert_eq. simpl. split_and!; done || lia.
    - rewrite Ho', Hother, lookup_insert_ne by done.
      eapply same_bucket_later; [exact Hc | apply Hs]. }
  destruct (Z.leb_spec k 0); simpl; (split; [done|]; apply Hupd; simpl; lia).
Qed.

(** *** The cleanup *)

Definition stale_at (rl : rateLimiter) (now : Z) (l : nat) : bool :=
  match heap rl !! l with Some e => stale (window rl) now e | None => false end.

Lemma cleanup_visits rl now kls :
  let rl' := foldr (fun kl rl => cleanup_visit kl.1 kl.2 now rl) rl kls in
  heap rl' = heap rl /\ window rl' = window rl /\ next_loc rl' = next_loc rl /\
  requestsPerMinute rl' = requestsPerMinute rl /\
  forall ip, (exists l, (ip, l) ∈ kls /\ stale_at rl now l = true) /\ entries rl' !! ip = None \/
             ~ (exists l, (ip, l) ∈ kls /\ stale_at rl now l = true) /\ entries rl' !! ip = entries rl !! ip.
Proof using.
  clear rpm_pos rpm_div. induction kls as [|[key l] kls IH]; simpl.
  - split_and!; try done. intros ip. right. split; [|done]. by intros (? & ?%not_elem_of_nil & _).
  - destruct IH as (Hh & Hw & Hn & Hr & IH). set (rl1 := foldr _ rl kls) in *.
    assert (forall ip, (exists l', (ip, l') ∈ (key, l) :: kls /\ stale_at rl now l' = true) <->
      (ip = key /\ stale_at rl now l = true) \/ exists l', (ip, l') ∈ kls /\ stale_at rl now l' = true) as Hex.
    { intros ip. setoid_rewrite elem_of_cons. split.
      - intros (l' & [[= -> ->]|?] & ?); eauto.
      - intros [[-> ?]|(l' & ? & ?)]; eauto. }
    unfold cleanup_visit. rewrite Hh, Hw. unfold stale_at in Hex at 2.
    destruct (heap rl !! l) as [e|] eqn:El.
    + destruct (stale (window rl) now e) eqn:Es; simpl; split_and!; try done.
      * intros ip. rewrite Hex. destruct (decide (ip = key)) as [->|Hne].
        { left. rewrite lookup_delete_eq. auto. }
        rewrite lookup_delete_ne by done. destruct (IH ip) as [[? ?]|[? ?]]; [by auto|].
        right. split; [|done]. intros [[? _]|?]; done.
      * intros ip. rewrite Hex. destruct (IH ip) as [[? ?]|[? ?]]; [by auto|].
        right. split; [|done]. intros [[_ ?]|?]; done.
    + split_and!; try done. intros ip. rewrite Hex. destruct (IH ip) as [[? ?]|[? ?]]; [by auto|].
      right. split; [|done]. intros [[_ ?]|?]; done.
Qed.

Lemma cleanup_entry rl now :
  let rl' := cleanup now rl in
  heap rl' = heap rl /\ window rl' = window rl /\ next_loc rl' = next_loc rl /\
  requestsPerMinute rl' = requestsPerMinute rl /\
  forall ip, entries rl' !! ip =
    match entries rl !! ip with
    | Some l => if stale_at rl now l then None else Some l
    | None => None
    end.
Proof using.
  clear rpm_pos rpm_div.
  destruct (cleanup_visits rl now (map_to_list (entries rl))) as (H1 & H2 & H3 & H4 & H5).
  split_and!; try done. intros ip. unfold cleanup.
  destruct (H5 ip) as [[(l & Hl%elem_of_map_to_list & Hst) ->]|[Hno ->]].
  - by rewrite Hl, Hst.
  - destruct (entries rl !! ip) as [l|] eqn:E; [|done].
    destruct (stale_at rl now l) eqn:Es; [|done]. destruct Hno. exists l.
    by rewrite elem_of_map_to_list.
Qed.
Lemma stale_spec e now : stale Minute now e = true <-> minute_ns < now - lastUpdate e.
Proof using.
  clear rpm_pos rpm_div. unfold stale, Sub, minute_ns, Minute, Second, min_int64, max_int64.
  rewrite Z.ltb_lt. lia.
Qed.

Lemma cleanup_sim c now rl m : sim c rl m -> c <= now -> sim now (cleanup now rl) m.
Proof using rpm_pos.
  clear rpm_div. intros [Hwf Hs] Hc. destruct (cleanup_entry rl now) as (Hh & Hw & Hn & Hr & He).
  assert (forall ip l, entries (cleanup now rl) !! ip = Some l -> entries rl !! ip = Some l) as Hsub.
  { intros ip l. rewrite He. by repeat case_match. }
  split.
  - split.
    + rewrite Hr. apply Hwf.
    + rewrite Hw. apply Hwf.
    + intros ip ip' l H1%Hsub H2%Hsub. by eapply wf_inj.
    + intros ip l H1%Hsub. rewrite Hn, Hh. by eapply wf_alloc.
  - intros ip. specialize (Hs ip). unfold rl_entry in *. rewrite He, Hh.
    destruct (entries rl !! ip) as [l|] eqn:E; simpl in *.
    + destruct (wf_alloc _ Hwf _ _ E) as [_ [e Hl]]. rewrite Hl in Hs.
      destruct (m !! ip) as [e'|]; simpl in Hs; [|done]. destruct Hs as (-> & Ht & Hu).
      unfold stale_at. rewrite Hl, (wf_window _ Hwf).
      destruct (stale Minute now e') eqn:Est; simpl.
      * apply stale_spec in Est. done.
      * rewrite Hl. simpl. split_and!; done || lia.
    + by eapply (same_bucket_later _ _ None).
Qed.

Lemma run_sim tr c rl m :
  sim c rl m -> clock_from c tr ->
  (run rl tr).1 = (spec_run rpm m tr).1 /\
  exists c', (forall tr', clock_from c (tr ++ tr') -> clock_from c' tr') /\
    sim c' (run rl tr).2 (spec_run rpm m tr).2.
Proof using rpm_pos rpm_div.
  revert c rl m. induction tr as [|[now [ip|]] tr IH]; intros c rl m Hs Hc; simpl in *.
  - split; [done|]. by exists c.
  - destruct Hc as [Hc Htr]. destruct (Allow_sim c now rl m ip Hs Hc) as [Ho Hs'].
    destruct (Allow ip now rl) as [o rl1], (Spec.allow rpm ip now m) as [o' m1]. simpl in *.
    destruct (IH now rl1 m1 Hs' Htr) as (Hos & c' & Hc' & Hs'').
    destruct (run rl1 tr), (spec_run rpm m1 tr). simpl in *. subst. split; [done|].
    exists c'. split; [|done]. intros tr' [_ ?]. auto.
  - destruct Hc as [Hc Htr]. apply (cleanup_sim c now) in Hs; [|done].
    destruct (IH now _ m Hs Htr) as (Hos & c' & Hc' & Hs'').
    split; [done|]. exists c'. split; [|done]. intros tr' [_ ?]. auto.
Qed.

Lemma sim_new c : sim c (newRateLimiter rpm) ∅.
Proof using.
  clear rpm_pos rpm_div. split; [split; simpl; intros; set_solver|].
  intros ip. unfold rl_entry. simpl. by rewrite lookup_empty.
Qed.

(** *** Counting grants *)

Fixpoint grants (ip : string) (tr : list (Z * op)) (os : list (bool * Z * Z)) : Z :=
  match tr, os with
  | (_, OpAllow ip') :: tr', (ok, _, _) :: os' =>
      (if ok && bool_decide (ip' = ip) then 1 else 0) + grants ip tr' os'
  | (_, OpCleanup) :: tr', _ => grants ip tr' os
  | _, _ => 0
  end.

(** Tokens that become due in a time span. *)
Definition due (d : Z) : Z := d * rpm / minute_ns.

Lemma due_add a b : 0 <= a -> 0 <= b -> due a + due b <= due (a + b).
Proof using rpm_pos.
  clear rpm_div. unfold due, minute_ns. intros. rewrite Z.mul_add_distr_r.
  generalize (a * rpm) (b * rpm). intros. lia.
Qed.

Lemma due_nonneg a : 0 <= a -> 0 <= due a.
Proof using rpm_pos. clear rpm_div. intros. apply Z.div_pos; [nia|done]. Qed.

Lemma spec_grants ip T tr c m :
  clock_from c tr -> Forall (fun x => x.1 <= T) tr -> c <= T ->
  (forall e, m !! ip = Some e -> 0 <= tokens e <= rpm /\ lastUpdate e <= c) ->
  let n := grants ip tr (spec_run rpm m tr).1 in
  n <= rpm + due (T - c) /\
  forall e, m !! ip = Some e -> n <= tokens e + due (T - lastUpdate e).
Proof using rpm_pos.
  clear rpm_div. revert c m. induction tr as [|[now [ip'|]] tr IH]; intros c m Hc HT HcT Hm; simpl.
  - pose proof (due_nonneg (T - c)). split; [lia|]. intros e He. destruct (Hm e He).
    pose proof (due_nonneg (T - lastUpdate e)). lia.
  - destruct Hc as [Hc Htr]. apply Forall_cons in HT as [HT1 HT]. simpl in HT1.
    pose proof (due_add (now - c) (T - now) ltac:(lia) ltac:(lia)) as Hdue.
    replace (now - c + (T - now)) with (T - c) in Hdue by lia.
    pose proof (due_nonneg (now - c) ltac:(lia)).
    unfold Spec.allow. destruct (decide (ip' = ip)) as [->|Hne].
    + set (k := Spec.level rpm now (m !! ip)) in *.
      assert (0 <= k <= rpm /\ forall e, m !! ip = Some e -> k <= tokens e + due (now - lastUpdate e)) as [Hk Hke].
      { unfold k, Spec.level. destruct (m !! ip) as [e|] eqn:E; [|split; [lia|done]].
        destruct (Hm e eq_refl). pose proof (due_nonneg (now - lastUpdate e) ltac:(lia)).
        fold (due (now - lastUpdate e)). split; [lia|]. intros e' [= <-]. lia. }
      assert (forall k', 0 <= k' <= rpm ->
        grants ip tr (spec_run rpm (<[ip:=mkEntry k' now]> m) tr).1 <= k' + due (T - now)) as Hrec.
      { intros k' Hk'. destruct (IH now (<[ip:=mkEntry k' now]> m) Htr HT HT1) as [_ IH2].
        - intros e. rewrite lookup_insert_eq. intros [= <-]. simpl. lia.
        - apply (IH2 (mkEntry k' now)). by rewrite lookup_insert_eq. }
      assert (forall e, m !! ip = Some e -> k + due (T - now) <= tokens e + due (T - lastUpdate e)) as Htot.
      { intros e He. specialize (Hke e He). destruct (Hm e He).
        pose proof (due_add (now - lastUpdate e) (T - now) ltac:(lia) ltac:(lia)) as Hd.
        replace (now - lastUpdate e + (T - now)) with (T - lastUpdate e) in Hd by lia. lia. }
      destruct (Z.leb_spec k 0).
      * specialize (Hrec k ltac:(lia)). destruct (spec_run rpm _ tr). simpl in *.
        split; [lia|]. intros e He. specialize (Htot e He). lia.
      * specialize (Hrec (k - 1) ltac:(lia)). destruct (spec_run rpm _ tr). simpl in *.
        rewrite bool_decide_eq_true_2 by done.
        split; [lia|]. intros e He. specialize (Htot e He). lia.
    + assert (forall e', let n := grants ip tr (spec_run rpm (<[ip':=e']> m) tr).1 in
        n <= rpm + due (T - c) /\ forall e, m !! ip = Some e -> n <= tokens e + due (T - lastUpdate e)) as Hrec.
      { intros e'. destruct (IH now (<[ip':=e']> m) Htr HT HT1) as [IH1 IH2].
        - intros e. rewrite lookup_insert_ne by done. intros He. destruct (Hm e He). lia.
        - rewrite lookup_insert_ne in IH2 by done. split; [lia|done]. }
      destruct (_ <=? 0); match goal with |- context [<[ip':=?e']> m] => specialize (Hrec e') end;
        destruct (spec_run rpm _ tr); simpl in *; rewrite ?bool_decide_eq_false_2 by done;
        rewrite ?andb_false_r; exact Hrec.
  - destruct Hc as [Hc Htr]. apply Forall_cons in HT as [HT1 HT]. simpl in HT1.
    destruct (IH now m Htr HT HT1) as [IH1 IH2]; [intros e He; destruct (Hm e He); lia|].
    pose proof (due_add (now - c) (T - now) ltac:(lia) ltac:(lia)) as Hdue.
    replace (now - c + (T - now)) with (T - c) in Hdue by lia.
    pose proof (due_nonneg (now - c) ltac:(lia)). split; [lia|done].
Qed.
End refinement.

(** ** Interleavings

    Each request is a goroutine that has read the clock, then looks the entry
    up, then works on it under its mutex; the cleanup gets a pair from [Range]
    and visits it later. The clock readings are arbitrary: goroutines can reach
    the mutex in another order than the one they read the clock in. *)

Inductive thread :=
  | TCalled (ip : string) (now : Z)
  | THolds (ip : string) (l : nat) (now : Z)
  | TDone (ip : string) (ok : bool) (remaining : Z)
  | TVisit (key : string) (l : nat) (now : Z)
  | TIdle.

Record system := mkSystem { limiter : rateLimiter; threads : gmap nat thread }.

(** The clock readings of a system's goroutines satisfy [P]. *)
Inductive sys_step (P : Z -> Prop) : system -> system -> Prop :=
  | step_call rl ts g ip now :
      ts !! g = None -> P now ->
      sys_step P (mkSystem rl ts) (mkSystem rl (<[g := TCalled ip now]> ts))
  | step_load rl ts g ip now l rl' :
      ts !! g = Some (TCalled ip now) -> load_or_store ip now rl = (l, rl') ->
      sys_step P (mkSystem rl ts) (mkSystem rl' (<[g := THolds ip l now]> ts))
  | step_lock rl ts g ip l now ok remaining rl' :
      ts !! g = Some (THolds ip l now) -> locked_step l now rl = (ok, remaining, rl') ->
      sys_step P (mkSystem rl ts) (mkSystem rl' (<[g := TDone ip ok remaining]> ts))
  | step_range rl ts g key l now :
      ts !! g = None -> P now -> entries rl !! key = Some l ->
      sys_step P (mkSystem rl ts) (mkSystem rl (<[g := TVisit key l now]> ts))
  | step_visit rl ts g key l now :
      ts !! g = Some (TVisit key l now) ->
      sys_step P (mkSystem rl ts) (mkSystem (cleanup_visit key l now rl) (<[g := TIdle]> ts)).

Definition system_new (rpm : Z) : system := mkSystem (newRateLimiter rpm) ∅.

#[local] Opaque recovered.

Lemma take_token_bounds rpm win now e :
  0 < rpm -> 0 <= tokens e <= rpm ->
  let r := take_token rpm win now e in 0 <= tokens r.2 <= rpm /\ 0 <= r.1.2 < rpm.
Proof.
  intros Hr Ht. unfold take_token. generalize (recovered rpm win (Sub now (lastUpdate e))).
  intros rec. cbv zeta. break_Z; simpl; lia.
Qed.

(** The heap is only ever extended or updated in place. *)
Lemma load_or_store_heap ip now rl l rl' :
  load_or_store ip now rl = (l, rl') ->
  (forall ip l, entries rl !! ip = Some l -> is_Some (heap rl !! l)) ->
  requestsPerMinute rl' = requestsPerMinute rl /\ is_Some (heap rl' !! l) /\
  (forall l0, is_Some (heap rl !! l0) -> is_Some (heap rl' !! l0)) /\
  (forall l0 e, heap rl' !! l0 = Some e ->
     heap rl !! l0 = Some e \/ e = mkEntry (requestsPerMinute rl) now) /\
  (forall ip0 l0, entries rl' !! ip0 = Some l0 -> is_Some (heap rl' !! l0)).
Proof.
  unfold load_or_store. intros H Hd. destruct (entries rl !! ip) as [l0|] eqn:E; injection H as <- <-.
  - split_and!; eauto.
  - cbn [heap entries requestsPerMinute].
    assert (forall l0 e, is_Some (heap rl !! l0) -> is_Some (<[next_loc rl := e]> (heap rl) !! l0)) as Hm.
    { intros l0 e Hl. rewrite lookup_insert. case_decide; [by eexists|exact Hl]. }
    split_and!; [reflexivity|rewrite lookup_insert_eq; by eexists| | |].
    + intros l0. apply Hm.
    + intros l0 e. rewrite lookup_insert. case_decide; [intros [= <-]; by right|intros ?; by left].
    + intros ip0 l0. rewrite (lookup_insert (entries rl)). case_decide.
      * intros [= <-]. rewrite lookup_insert_eq. by eexists.
      * intros Hl%Hd. by apply Hm.
Qed.

Lemma locked_step_heap l now rl ok n rl' :
  locked_step l now rl = (ok, n, rl') -> is_Some (heap rl !! l) ->
  exists e, heap rl !! l = Some e /\
    (ok, n) = (take_token (requestsPerMinute rl) (window rl) now e).1 /\
    rl' = mkLimiter (requestsPerMinute rl) (window rl) (entries rl)
      (<[l := (take_token (requestsPerMinute rl) (window rl) now e).2]> (heap rl)) (next_loc rl).
Proof.
  unfold locked_step. intros H [e He]. rewrite He in H.
  destruct (take_token _ _ now e) as [[ok' n'] e'] eqn:E. simplify_eq/=. exists e.
  by rewrite E.
Qed.

Lemma cleanup_visit_fields key l now rl :
  let rl' := cleanup_visit key l now rl in
  heap rl' = heap rl /\ requestsPerMinute rl' = requestsPerMinute rl /\
  window rl' = window rl /\ next_loc rl' = next_loc rl /\
  forall ip l0, entries rl' !! ip = Some l0 -> entries rl !! ip = Some l0.
Proof.
  unfold cleanup_visit. repeat case_match; simpl; split_and!; try done.
  intros ip l0. rewrite lookup_delete. by case_decide.
Qed.

(** Replacing one goroutine keeps what is known of the goroutines. *)
Lemma threads_update (ts : gmap nat thread) (Q : thread -> Prop) g t :
  (forall g' t', ts !! g' = Some t' -> Q t') -> Q t ->
  forall g' t', <[g := t]> ts !! g' = Some t' -> Q t'.
Proof.
  intros Hts Ht g' t'. rewrite lookup_insert. case_decide; [by intros [= <-]|apply Hts].
Qed.

Definition thread_ok (rpm : Z) (h : gmap nat rateLimitEntry) (t : thread) : Prop :=
  match t with
  | THolds _ l _ | TVisit _ l _ => is_Some (h !! l)
  | TDone _ _ n => 0 <= n < rpm
  | _ => True
  end.

(** What holds at every moment: bounds on every entry, including those that the
    cleanup removed from the map, and no dangling pointer. *)
Record sys_ok (rpm : Z) (s : system) : Prop := {
  so_rpm : requestsPerMinute (limiter s) = rpm;
  so_tokens : forall l e, heap (limiter s) !! l = Some e -> 0 <= tokens e <= rpm;
  so_entries : forall ip l, entries (limiter s) !! ip = Some l -> is_Some (heap (limiter s) !! l);
  so_threads : forall g t, threads s !! g = Some t -> thread_ok rpm (heap (limiter s)) t
}.

Lemma thread_ok_mono rpm h h' t :
  (forall l, is_Some (h !! l) -> is_Some (h' !! l)) -> thread_ok rpm h t -> thread_ok rpm h' t.
Proof. intros Hm. destruct t; simpl; auto. Qed.

Lemma sys_step_ok P rpm s s' : 0 < rpm -> sys_step P s s' -> sys_ok rpm s -> sys_ok rpm s'.
Proof.
  intros Hr Hst [H1 H2 H3 H4]. destruct Hst; simpl in *.
  - split; simpl; [done..|]. by apply threads_update.
  - destruct (load_or_store_heap _ _ _ _ _ H0 H3) as (Hq & Hl & Hm & Hn & He).
    split; simpl; [congruence| |done|].
    + intros l0 e [?| ->]%Hn; [by eapply H2|]. simpl. lia.
    + apply threads_update; [|done]. intros g' t' Ht'%H4. by eapply thread_ok_mono.
  - destruct (locked_step_heap _ _ _ _ _ _ H0 (H4 _ _ H)) as (e & He & Ho & ->).
    pose proof (take_token_bounds rpm (window rl) now e Hr (H2 _ _ He)) as [Hb1 Hb2].
    rewrite H1 in *. rewrite <-Ho in Hb2. simpl in Hb2.
    assert (forall l0 e', is_Some (heap rl !! l0) -> is_Some (<[l := e']> (heap rl) !! l0)) as Hm.
    { intros l0 e' ?. rewrite lookup_insert. by case_decide. }
    split; simpl; [done| | |].
    + intros l0 e0. rewrite lookup_insert. case_decide; [by intros [= <-]|apply H2].
    + intros ip0 l0 Hl0%H3. by apply Hm.
    + apply threads_update; [|done]. intros g' t' Ht'%H4.
      eapply thread_ok_mono; [|done]. intros. by apply Hm.
  - split; simpl; [done..|]. apply threads_update; [done|]. by eapply H3.
  - destruct (cleanup_visit_fields key l now rl) as (Hh & Hq & _ & _ & He).
    split; simpl; rewrite ?Hh, ?Hq; [done|done| |].
    + intros ip l0 Hl0%He. by eapply H3.
    + by apply threads_update.
Qed.

Lemma reachable_ok P rpm s : 0 < rpm -> rtc (sys_step P) (system_new rpm) s -> sys_ok rpm s.
Proof.
  intros Hr. apply rtc_ind_r.
  - split; simpl; set_solver.
  - intros s1 s2 _ Hst Hok. by eapply sys_step_ok.
Qed.

(** *** A burst: every goroutine read the same time *)

Definition is_grant (ip : string) (t : thread) : bool :=
  match t with TDone ip' ok _ => ok && bool_decide (ip' = ip) | _ => false end.

(** How many goroutines have been let through for [ip]. *)
Definition granted (ip : string) (ts : gmap nat thread) : Z :=
  Z.of_nat (size (filter (fun x => is_grant ip x.2 = true) ts)).

Lemma granted_update ip ts g t :
  (forall t', ts !! g = Some t' -> is_grant ip t' = false) ->
  granted ip (<[g := t]> ts) = granted ip ts + (if is_grant ip t then 1 else 0).
Proof.
  intros Hold. unfold granted.
  assert (filter (fun x => is_grant ip x.2 = true) ts !! g = None) as Hn.
  { apply map_lookup_filter_None. right. intros t' Ht'. simpl. by rewrite (Hold t' Ht'). }
  destruct (is_grant ip t) eqn:E.
  - rewrite map_filter_insert_True by done. rewrite map_size_insert_None by done. lia.
  - rewrite map_filter_insert_False by (simpl; by rewrite E).
    rewrite map_filter_delete, delete_id by done. lia.
Qed.

Section burst.
Variables rpm T : Z.
Hypothesis rpm_pos : 0 < rpm.
Hypothesis rpm_div : (rpm | 60).

(** Nothing is recovered at the instant of the last update. *)
Lemma take_token_same e :
  0 <= tokens e <= rpm -> lastUpdate e = T ->
  take_token rpm Minute T e =
  if tokens e <=? 0 then (false, 0, e) else (true, tokens e - 1, mkEntry (tokens e - 1) T).
Proof using rpm_pos rpm_div.
  intros Ht Hu. rewrite take_token_exact by (done || lia). destruct e as [k u]; simpl in *. subst u.
  rewrite Z.sub_diag. change (0 * rpm / minute_ns) with 0. rewrite Z.min_r by lia.
  rewrite Z.add_0_r. break_Z; done.
Qed.

Definition thread_at (rl : rateLimiter) (ts : gmap nat thread) (t : thread) : Prop :=
  match t with
  | TCalled _ now => now = T
  | THolds ip l now => now = T /\ entries rl !! ip = Some l
  | TDone ip ok _ => ok = false -> granted ip ts = rpm
  | TVisit _ l now => now = T /\ is_Some (heap rl !! l)
  | TIdle => True
  end.

(** The tokens an address has left and those it was granted add up. *)
Record burst_ok (s : system) : Prop := {
  bo_wf : limiter_wf rpm (limiter s);
  bo_time : forall l e, heap (limiter s) !! l = Some e -> lastUpdate e = T;
  bo_some : forall ip l e, entries (limiter s) !! ip = Some l -> heap (limiter s) !! l = Some e ->
    0 <= tokens e /\ tokens e + granted ip (threads s) = rpm;
  bo_none : forall ip, entries (limiter s) !! ip = None -> granted ip (threads s) = 0;
  bo_threads : forall g t, threads s !! g = Some t -> thread_at (limiter s) (threads s) t
}.

(** A goroutine that moves without finishing changes no count. *)
Lemma granted_move ts g t t' :
  ts !! g = None \/ ts !! g = Some t -> (forall ip, is_grant ip t = false) ->
  (forall ip, is_grant ip t' = false) ->
  forall ip, granted ip (<[g := t']> ts) = granted ip ts.
Proof using.
  clear rpm_pos rpm_div. intros Hg Ht Ht' ip. rewrite granted_update, Ht'; [lia|].
  intros t0 Ht0. destruct Hg as [Hg|Hg]; congruence.
Qed.

Lemma thread_at_ext rl ts rl' ts' t :
  (forall ip, granted ip ts' = granted ip ts) ->
  (forall ip l, entries rl !! ip = Some l -> entries rl' !! ip = Some l) ->
  (forall l, is_Some (heap rl !! l) -> is_Some (heap rl' !! l)) ->
  thread_at rl ts t -> thread_at rl' ts' t.
Proof using.
  clear rpm_pos rpm_div. intros Hg He Hh. destruct t; simpl; auto; rewrite ?Hg; intuition auto.
Qed.

(** Steps that leave the limiter alone. *)
Lemma burst_move rl ts g t t' :
  ts !! g = None \/ ts !! g = Some t -> (forall ip, is_grant ip t = false) ->
  (forall ip, is_grant ip t' = false) -> thread_at rl ts t' ->
  burst_ok (mkSystem rl ts) -> burst_ok (mkSystem rl (<[g := t']> ts)).
Proof using.
  clear rpm_pos rpm_div. intros Hg Ht Ht' Hat [H1 H2 H3 H4 H5]. simpl in *.
  pose proof (granted_move ts g t t' Hg Ht Ht') as Hgr.
  split; simpl; [done|done|intros ip l e; rewrite Hgr; apply H3|intros ip; rewrite Hgr; apply H4|].
  apply threads_update.
  - intros g' t0 Ht0%H5. by eapply thread_at_ext.
  - by eapply thread_at_ext.
Qed.

Lemma burst_load rl ts g ip :
  ts !! g = Some (TCalled ip T) -> burst_ok (mkSystem rl ts) ->
  burst_ok (mkSystem (load_or_store ip T rl).2
    (<[g := THolds ip (load_or_store ip T rl).1 T]> ts)).
Proof using rpm_pos.
  clear rpm_div. intros Hg Hok. pose proof Hok as [H1 H2 H3 H4 H5]. simpl in *.
  unfold load_or_store. destruct (entries rl !! ip) as [l|] eqn:E; simpl.
  { eapply burst_move; [by right| | |done|done]; done. }
  assert (forall l, is_Some (heap rl !! l) -> is_Some (<[next_loc rl := mkEntry rpm T]> (heap rl) !! l)) as Hm.
  { intros l ?. rewrite lookup_insert. by case_decide. }
  pose proof (granted_move ts g _ (THolds ip (next_loc rl) T) (or_intror Hg)
    (fun _ => eq_refl) (fun _ => eq_refl)) as Hgr.
  rewrite (wf_rpm _ _ H1), (wf_window _ _ H1).
  split; simpl.
  - split; simpl; [done|done| |].
    + intros i i' l. rewrite !lookup_insert. repeat case_decide; subst; try done.
      * intros [= <-] Hl. apply (wf_alloc _ _ H1) in Hl as [??]. lia.
      * intros Hl [= <-]. apply (wf_alloc _ _ H1) in Hl as [??]. lia.
      * by apply (wf_inj _ _ H1).
    + intros i l. rewrite (lookup_insert (entries rl)). case_decide.
      * intros [= <-]. split; [lia|]. rewrite lookup_insert_eq. by eexists.
      * intros [Hl ?]%(wf_alloc _ _ H1). split; [lia|]. by apply Hm.
  - intros l e. rewrite lookup_insert. case_decide; [by intros [= <-]|apply H2].
  - intros i l e. rewrite Hgr, (lookup_insert (entries rl)). case_decide as Hi.
    + subst i. intros [= <-]. rewrite lookup_insert_eq, (H4 ip E). intros [= <-]. simpl. lia.
    + intros Hl. rewrite lookup_insert_ne; [by apply H3|].
      intros Heq. apply (wf_alloc _ _ H1) in Hl as [??]. lia.
  - intros i. rewrite Hgr, lookup_insert. case_decide; [done|apply H4].
  - apply threads_update.
    + intros g' t0 Ht0%H5. eapply thread_at_ext; [exact Hgr| |exact Hm|exact Ht0].
      intros i l Hl. simpl. rewrite lookup_insert_ne; [done|]. intros ->. congruence.
    + simpl. by rewrite lookup_insert_eq.
Qed.

(** The critical section: a token moves from the entry to the count. *)
Lemma burst_lock rl ts g ip l e ok n e' :
  ts !! g = Some (THolds ip l T) -> burst_ok (mkSystem rl ts) ->
  heap rl !! l = Some e -> take_token rpm Minute T e = (ok, n, e') ->
  burst_ok (mkSystem (mkLimiter rpm Minute (entries rl) (<[l := e']> (heap rl)) (next_loc rl))
    (<[g := TDone ip ok n]> ts)).
Proof using rpm_pos rpm_div.
  intros Hg [H1 H2 H3 H4 H5] Hl Htk. simpl in *.
  destruct (H5 _ _ Hg) as [_ Hip]. destruct (H3 _ _ _ Hip Hl) as [Hpos Hsum].
  assert (0 <= granted ip ts) by (unfold granted; lia).
  rewrite take_token_same in Htk by (lia || by eapply H2).
  assert (forall i, granted i (<[g := TDone ip ok n]> ts) =
    granted i ts + (if ok && bool_decide (ip = i) then 1 else 0)) as Hgr.
  { intros i. rewrite granted_update; [done|]. rewrite Hg. by intros t' [= <-]. }
  assert (lastUpdate e' = T /\ 0 <= tokens e' /\
    tokens e' = tokens e - (if ok then 1 else 0) /\ (ok = false -> tokens e = 0)) as (Hu & Hp & Hk & Hd).
  { destruct (Z.leb_spec (tokens e) 0); injection Htk as <- <- <-; simpl;
      split_and!; try lia; try done. by eapply H2. }
  destruct (rl_entry_update rpm rl ip l e' H1 Hip) as (Hwf & _ & _).
  split; simpl; [done| | | |].
  - intros l0 e0. rewrite lookup_insert. case_decide; [by intros [= <-]|apply H2].
  - intros i l0 e0 Hi. rewrite Hgr, lookup_insert. case_decide as Hc.
    + subst l0. intros [= <-]. rewrite (wf_inj _ _ H1 i ip l Hi Hip).
      rewrite bool_decide_eq_true_2 by done. destruct ok; simpl; lia.
    + intros He0. rewrite bool_decide_eq_false_2, andb_false_r by congruence.
      destruct (H3 _ _ _ Hi He0). lia.
  - intros i Hi. rewrite Hgr, bool_decide_eq_false_2, andb_false_r by congruence.
    rewrite (H4 i Hi). lia.
  - apply threads_update.
    + intros g' t0 Ht0%H5. destruct t0 as [| |ip0 ok0 n0|key l0 now|]; simpl in *; try done.
      * intros Ho. specialize (Ht0 Ho). rewrite Hgr. case_bool_decide; [|rewrite andb_false_r; lia].
        subst ip0. destruct ok; simpl; [|lia].
        destruct (Z.leb_spec (tokens e) 0); [done|]. lia.
      * destruct Ht0 as [-> ?]. split; [done|]. rewrite lookup_insert. by case_decide.
    + simpl. intros Ho. rewrite Hgr, Ho. simpl. specialize (Hd Ho). lia.
Qed.

(** The cleanup finds nothing stale. *)
Lemma burst_visit rl ts key l : burst_ok (mkSystem rl ts) -> cleanup_visit key l T rl = rl.
Proof using.
  clear rpm_pos rpm_div. intros [H1 H2 _ _ _]. unfold cleanup_visit. simpl in *.
  destruct (heap rl !! l) as [e|] eqn:E; [|done]. unfold stale. rewrite (H2 _ _ E).
  rewrite (wf_window _ _ H1). unfold Sub. by rewrite Z.sub_diag.
Qed.

Lemma burst_step s s' : sys_step (eq T) s s' -> burst_ok s -> burst_ok s'.
Proof using rpm_pos rpm_div.
  intros Hst Hok. destruct Hst as [rl ts g ip now Hg <-|rl ts g ip now l rl' Hg Hl
    |rl ts g ip l now ok n rl' Hg Hl|rl ts g key l now Hg <- Hk|rl ts g key l now Hg].
  - eapply (burst_move _ _ _ TIdle); [by left|done|done|done|done].
  - pose proof (bo_threads _ Hok _ _ Hg) as Hn. simpl in Hn. subst now.
    pose proof (burst_load rl ts g ip Hg Hok) as Hb. by rewrite Hl in Hb.
  - destruct (bo_threads _ Hok _ _ Hg) as [-> Hip]. simpl in *.
    pose proof (bo_wf _ Hok) as Hwf. destruct (wf_alloc _ _ Hwf _ _ Hip) as [_ [e He]].
    destruct (locked_step_heap _ _ _ _ _ _ Hl (mk_is_Some _ _ He)) as (e0 & He0 & Ho & ->).
    simpl in *. rewrite (wf_rpm _ _ Hwf), (wf_window _ _ Hwf) in *.
    destruct (take_token rpm Minute T e0) as [[ok' n'] e'] eqn:E. injection Ho as -> ->.
    by eapply burst_lock.
  - eapply (burst_move _ _ _ TIdle); [by left|done|done| |done]. split; [done|].
    by apply (wf_alloc _ _ (bo_wf _ Hok) _ _ Hk).
  - destruct (bo_threads _ Hok _ _ Hg) as [-> Hip].
    rewrite (burst_visit _ _ _ _ Hok). by eapply burst_move; [right; exact Hg|..].
Qed.

Lemma burst_reachable s : rtc (sys_step (eq T)) (system_new rpm) s -> burst_ok s.
Proof using rpm_pos rpm_div.
  apply rtc_ind_r; [|intros ? ? _ ? ?; by eapply burst_step].
  split; simpl; [apply (sim_new rpm 0)|done|done|done|done].
Qed.

Lemma burst_granted s ip : burst_ok s -> granted ip (threads s) <= rpm.
Proof using rpm_pos.
  clear rpm_div. intros Hok. destruct (entries (limiter s) !! ip) as [l|] eqn:E.
  - destruct (wf_alloc _ _ (bo_wf _ Hok) _ _ E) as [_ [e He]].
    destruct (bo_some _ Hok _ _ _ E He). lia.
  - rewrite (bo_none _ Hok _ E). lia.
Qed.
End burst.

(** ** Properties *)

(** C15: The limiter is an exact token bucket per client. For the rates the
    server uses (divisors of 60) and a clock that does not go backwards, any
    sequence of requests and cleanups gets from the implementation, with its
    floating-point refill, its store of shared entries and the entries the
    cleanup forgets, the answers of a specification that keeps one bucket per
    address for ever and refills it with [rpm * elapsed / 60s] rounded down. *)
Theorem limiter_refines_token_bucket rpm c tr :
  0 < rpm -> (rpm | 60) -> clock_from c tr ->
  (run (newRateLimiter rpm) tr).1 = (spec_run rpm ∅ tr).1.
Proof. intros Hr Hd Hc. by apply (run_sim rpm Hr Hd tr c _ _ (sim_new rpm c)). Qed.

(** A stretch of operations between [t0] and [T], after any others. *)
Lemma window_grants rpm c tr1 tr2 t0 T ip :
  0 < rpm -> (rpm | 60) -> clock_from c (tr1 ++ tr2) -> t0 <= T -> Forall (fun x => t0 <= x.1 <= T) tr2 ->
  let rl := (run (newRateLimiter rpm) tr1).2 in
  grants ip tr2 (run rl tr2).1 <= rpm + (T - t0) * rpm / minute_ns.
Proof.
  intros Hr Hd Hc HtT HT. cbv zeta.
  assert (clock_from c tr1) as Hc1.
  { clear HT. revert c Hc. induction tr1 as [|[n x] tr1 IH]; intros c; simpl; [done|].
    intros [? ?]. eauto. }
  destruct (run_sim rpm Hr Hd tr1 c _ _ (sim_new rpm c) Hc1) as (_ & c' & Hc' & Hsim). specialize (Hc' _ Hc).
  pose proof (due_nonneg rpm Hr (T - t0) ltac:(lia)) as Hdue. unfold due in Hdue.
  destruct tr2 as [|[t o] tr2]; [simpl; lia|].
  pose proof HT as [Ht HT2]%Forall_cons. simpl in Ht, Hc'. destruct Hc' as [Hct Hc2].
  apply (sim_later rpm c' t) in Hsim; [|done].
  assert (clock_from t ((t, o) :: tr2)) as Hctr by (simpl; split; [lia|done]).
  destruct (run_sim rpm Hr Hd _ t _ _ Hsim Hctr) as [-> _].
  destruct (spec_grants rpm Hr ip T _ t (spec_run rpm ∅ tr1).2 Hctr) as [Hn _].
  - eapply Forall_impl; [exact HT|]. simpl. lia.
  - lia.
  - intros e He. destruct Hsim as [_ Hb]. specialize (Hb ip). rewrite He in Hb.
    unfold same_bucket in Hb. destruct (rl_entry _ ip) as [e'|].
    + destruct Hb as (-> & ? & ?). done.
    + unfold minute_ns in Hb. lia.
  - unfold due in Hn. assert ((T - t) * rpm / minute_ns <= (T - t0) * rpm / minute_ns); [|lia].
    apply Z.div_le_mono; [done|nia].
Qed.

(** No client gets more than the rate allows: whatever happened before, in
    any stretch of operations between times [t0] and [T] the requests of one
    address that are let through number at most the rate plus the tokens due in
    that stretch; in a minute, at most twice the rate. *)
Theorem rate_window_bound rpm c tr1 t0 o tr2 T ip :
  0 < rpm -> (rpm | 60) -> clock_from c (tr1 ++ (t0, o) :: tr2) ->
  Forall (fun x => x.1 <= T) ((t0, o) :: tr2) ->
  let rl := (run (newRateLimiter rpm) tr1).2 in
  grants ip ((t0, o) :: tr2) (run rl ((t0, o) :: tr2)).1 <= rpm + (T - t0) * rpm / minute_ns.
Proof.
  intros Hr Hd Hc HT. apply (window_grants rpm c); try done.
  - by apply Forall_cons in HT as [? _].
  - assert (clock_from t0 tr2) as Htr.
    { clear HT. revert c Hc. induction tr1 as [|[n x] tr1 IH]; intros c; simpl; [tauto|]. intros [_ ?]. eauto. }
    apply Forall_cons in HT as [HT1 HT]. constructor; [simpl in *; lia|].
    clear -Htr HT. revert t0 Htr. induction HT as [|[n x] tr2 Hx HT IH]; intros t0; simpl; [constructor|].
    intros [? Ht]. constructor; [simpl in *; lia|]. eapply Forall_impl; [by apply (IH n)|]. simpl. lia.
Qed.

(** Denied requests that come faster than one token's time never succeed. *)
Fixpoint paced (rpm c : Z) (ts : list Z) : Prop :=
  match ts with [] => True | t :: ts' => 0 <= t - c /\ (t - c) * rpm < minute_ns /\ paced rpm t ts' end.

Lemma spec_starved rpm ip ts c m :
  0 < rpm -> m !! ip = Some (mkEntry 0 c) -> paced rpm c ts ->
  Forall (fun o => o.1.1 = false) (spec_run rpm m (map (fun t => (t, OpAllow ip)) ts)).1.
Proof.
  intros Hr. revert c m. induction ts as [|t ts IH]; intros c m Hm; simpl; [constructor|].
  intros (H0 & Hlt & Hp). unfold Spec.allow. rewrite Hm. simpl.
  rewrite Z.div_small by nia. rewrite Z.add_0_l, Z.min_r by lia. simpl.
  specialize (IH t (<[ip:=mkEntry 0 t]> m)). rewrite lookup_insert_eq in IH.
  specialize (IH eq_refl Hp). destruct (spec_run _ _ _). simpl in *. by constructor.
Qed.

(** Emptying a bucket of [k] tokens at one instant. *)
Lemma spec_drain rpm ip t k m tr :
  0 < rpm -> Z.of_nat k <= rpm -> m !! ip = Some (mkEntry (Z.of_nat k) t) ->
  exists m', m' !! ip = Some (mkEntry 0 t) /\
    drop k (spec_run rpm m (repeat (t, OpAllow ip) k ++ tr)).1 = (spec_run rpm m' tr).1.
Proof.
  intros Hr. revert m. induction k as [|k IH]; intros m Hk Hm; simpl.
  - exists m. by rewrite drop_0.
  - unfold Spec.allow. rewrite Hm. unfold Spec.level. cbn [tokens lastUpdate].
    rewrite Z.sub_diag. change (0 * rpm / minute_ns) with 0. rewrite Z.add_0_r, Z.min_r by lia.
    destruct (Z.leb_spec (Z.of_nat (S k)) 0); [lia|].
    replace (Z.of_nat (S k) - 1) with (Z.of_nat k) by lia.
    destruct (IH (<[ip:=mkEntry (Z.of_nat k) t]> m)) as (m' & Hm' & Hd); [lia|by rewrite lookup_insert_eq|].
    exists m'. split; [done|]. destruct (spec_run rpm _ (repeat _ _ ++ tr)). simpl in *. done.
Qed.

Lemma paced_clock rpm ip c ts : 0 < rpm -> paced rpm c ts -> clock_from c (map (fun t => (t, OpAllow ip)) ts).
Proof.
  intros Hr. revert c. induction ts as [|t ts IH]; intros c; simpl; [done|].
  intros (? & ? & ?). split; [lia|]. by apply IH.
Qed.

(** C33: A client that keeps polling is locked out for ever. [Allow] records
    every request as the time of the last refill although it drops the
    fraction of a token that was due, so once a client has used its tokens,
    requests that each come less than [60s / rpm] after the one before are all
    refused, however many they are and however long they go on, while a bucket
    that kept the fraction would let [rpm] of them through every minute. *)
Theorem limiter_starves_paced_client rpm ip t0 ts :
  0 < rpm -> (rpm | 60) -> paced rpm t0 ts ->
  let tr := repeat (t0, OpAllow ip) (Z.to_nat rpm) ++ map (fun t => (t, OpAllow ip)) ts in
  Forall (fun o => o.1.1 = false) (drop (Z.to_nat rpm) (run (newRateLimiter rpm) tr).1).
Proof.
  intros Hr Hd Hp tr. assert (clock_from t0 tr) as Hc.
  { unfold tr. induction (Z.to_nat rpm); simpl; [by eapply paced_clock|]. split; [lia|done]. }
  destruct (run_sim rpm Hr Hd tr t0 _ _ (sim_new rpm t0) Hc) as [-> _]. unfold tr.
  replace rpm with (Z.of_nat (S (Z.to_nat (rpm - 1)))) at 1 3 by lia. rewrite !Nat2Z.id.
  simpl. unfold Spec.allow. rewrite lookup_empty. unfold Spec.level.
  destruct (Z.leb_spec rpm 0); [lia|].
  destruct (spec_drain rpm ip t0 (Z.to_nat (rpm - 1)) (<[ip:=mkEntry (rpm - 1) t0]> ∅)
    (map (fun t => (t, OpAllow ip)) ts)) as (m' & Hm' & Hdr);
    [done|lia|rewrite lookup_insert_eq, Z2Nat.id by lia; done|].
  pose proof (spec_starved rpm ip ts t0 m' Hr Hm' Hp) as Hst. rewrite <-Hdr in Hst.
  destruct (spec_run rpm _ _). done.
Qed.

(** The bucket of an address that was not seen before is full. *)
Lemma Allow_fresh ip now rl :
  0 < requestsPerMinute rl -> entries rl !! ip = None ->
  (Allow ip now rl).1.1.1 = true /\ requestsPerMinute (Allow ip now rl).2 = requestsPerMinute rl /\
  forall ip', ip' <> ip -> entries (Allow ip now rl).2 !! ip' = entries rl !! ip'.
Proof.
  intros Hr Hn. unfold Allow, load_or_store, locked_step. rewrite Hn. simpl. rewrite lookup_insert_eq.
  unfold take_token. generalize (recovered (requestsPerMinute rl) (window rl) (Sub now now)).
  intros rec. cbn [tokens lastUpdate requestsPerMinute window entries heap next_loc]. cbv zeta.
  break_Z; simpl; split_and!; try done; try lia; intros; by rewrite lookup_insert_ne.
Qed.

Definition with_xff (r : Request) (v : string) : Request :=
  mkRequest (Method r) (URLPath r) (Query r) (Header_Set (ReqHeader r) "X-Forwarded-For" v)
    (ReqCookies r) (RemoteAddr r) (ContentLength r) (ReqBody r) (ReqCtx r) (URLParams r).

(** The first element of the header, as the client sent it. *)
Lemma getClientIP_xff r ip rest :
  ip <> EmptyString -> no_char "," ip = true -> TrimSpace ip = ip ->
  getClientIP (with_xff r (ip +:+ String "," rest)) = ip.
Proof.
  intros Hne Hnc Htr. unfold getClientIP, with_xff. simpl. rewrite Header_Get_Set.
  rewrite bool_decide_eq_true_2 by (by destruct ip).
  rewrite Split_app, (Split_no_char ip ",") by done. done.
Qed.

(** The limit does not bind a client that varies its X-Forwarded-For
    header. The address is the first element of the header as the client sent
    it, so requests of one client (the same request, the same remote address)
    whose header names pairwise different addresses are all let through, at any
    times and in any number, whatever follows the first comma. *)
Theorem forwarded_for_evades_limit rpm r (reqs : list (Z * string * string)) :
  0 < rpm ->
  Forall (fun x => x.1.2 <> EmptyString /\ no_char "," x.1.2 = true /\ TrimSpace x.1.2 = x.1.2) reqs ->
  NoDup (map (fun x => x.1.2) reqs) ->
  let tr := map (fun x => (x.1.1, OpAllow (getClientIP (with_xff r (x.1.2 +:+ "," +:+ x.2))))) reqs in
  Forall (fun o => o.1.1 = true) (run (newRateLimiter rpm) tr).1.
Proof.
  intros Hr Hs Hnd.
  assert (forall rl, 0 < requestsPerMinute rl -> Forall (fun x => entries rl !! x.1.2 = None) reqs ->
    Forall (fun o => o.1.1 = true) (run rl (map (fun x => (x.1.1,
      OpAllow (getClientIP (with_xff r (x.1.2 +:+ "," +:+ x.2))))) reqs)).1) as Hgen.
  2:{ apply Hgen; [done|]. by apply Forall_true. }
  clear Hr. induction reqs as [|[[now ip] rest] reqs IH]; intros rl Hr Hfresh; simpl; [constructor|].
  apply Forall_cons in Hs as [(Hne & Hnc & Htr) Hs]. apply NoDup_cons in Hnd as [Hnin Hnd].
  apply Forall_cons in Hfresh as [Hf Hfresh]. cbn [fst snd] in *.
  rewrite getClientIP_xff by done.
  destruct (Allow_fresh ip now rl Hr Hf) as (Hok & Hrpm & Hother).
  destruct (Allow ip now rl) as [o rl1]. simpl in *.
  specialize (IH Hs Hnd rl1). rewrite Hrpm in IH. specialize (IH Hr).
  destruct (run rl1 _) as [os rl2]. simpl in *. constructor; [done|]. apply IH.
  clear - Hfresh Hnin Hother. induction Hfresh as [|x l Hx Hl IHl]; constructor.
  - rewrite Hother; [done|]. intros Hxe. apply Hnin. rewrite <-Hxe. by constructor.
  - apply IHl. intros Hin. apply Hnin. by constructor.
Qed.

(** Under every interleaving of requests and cleanup visits, with clock
    readings in any order, every entry that exists, whether or not the cleanup
    has dropped it from the map, holds between 0 and [rpm] tokens, no goroutine
    holds a pointer to an entry that does not exist, and every answer reports
    between 0 and [rpm - 1] remaining requests. *)
Theorem limiter_interleaving_safe rpm s :
  0 < rpm -> rtc (sys_step (fun _ => True)) (system_new rpm) s ->
  (forall l e, heap (limiter s) !! l = Some e -> 0 <= tokens e <= rpm) /\
  (forall g ip l now, threads s !! g = Some (THolds ip l now) -> is_Some (heap (limiter s) !! l)) /\
  (forall g ip ok n, threads s !! g = Some (TDone ip ok n) -> 0 <= n < rpm).
Proof.
  intros Hr Hs. destruct (reachable_ok _ _ _ Hr Hs) as [_ Ht _ Hth].
  split_and!; [done|intros g ip l now Hg; exact (Hth _ _ Hg)|intros g ip ok n Hg; exact (Hth _ _ Hg)].
Qed.

(** C32: A burst is limited exactly, however its goroutines interleave: if all
    requests read the same time, at most [rpm] of one address are let through,
    and when one of them has been refused exactly [rpm] have been. *)
Theorem concurrent_burst_exact rpm T s ip :
  0 < rpm -> (rpm | 60) -> rtc (sys_step (eq T)) (system_new rpm) s ->
  granted ip (threads s) <= rpm /\
  ((exists g n, threads s !! g = Some (TDone ip false n)) -> granted ip (threads s) = rpm).
Proof.
  intros Hr Hd Hs. pose proof (burst_reachable rpm T Hr Hd s Hs) as Hok.
  split; [by eapply burst_granted|]. intros (g & n & Hg). by apply (bo_threads _ _ _ Hok _ _ Hg).
Qed.

Section middleware.
Context {W : Type} `{Lens W (rateLimiter * Runtime)}.

(** What [Allow] answers to a request on a world. *)
Definition verdict (r : Request) (world : W) : (bool * Z * Z) * rateLimiter :=
  Allow (getClientIP r) (clock_at (view world).2 (clock_pos (view world).2)) (view world).1.

(** The response writer with the three headers of an answer. *)
Definition limit_headers (rpm : Z) (v : bool * Z * Z) (w : ResponseWriter) : ResponseWriter :=
  set_header "X-RateLimit-Reset" (FormatInt v.2)
    (set_header "X-RateLimit-Remaining" (FormatInt v.1.2)
      (set_header "X-RateLimit-Limit" (FormatInt (rate_limit_rpm rpm)) w)).

Lemma RateLimit_eq rpm burst next r w world :
  let v := verdict r world in
  let world' := put (v.2, (time_Now (view world).2).2) world in
  RateLimit rpm burst next r w world =
  if v.1.1.1 then next r (limit_headers rpm v.1 w) world'
  else (Write (Bytes rate_limit_body)
          (WriteHeader 429 (set_header "Content-Type" "application/json" (limit_headers rpm v.1 w))), world').
Proof.
  unfold RateLimit, verdict. destruct (view world) as [rl rt]. simpl.
  destruct (Allow _ _ rl) as [[[ok n] t] rl']. simpl. by destruct ok.
Qed.
End middleware.

Lemma Allow_denied ip now rl : (Allow ip now rl).1.1.1 = false -> (Allow ip now rl).1.1.2 = 0.
Proof.
  unfold Allow, locked_step, take_token. destruct (load_or_store ip now rl) as [l rl1].
  destruct (heap rl1 !! l) as [e|]; [|done].
  generalize (recovered (requestsPerMinute rl1) (window rl1) (Sub now (lastUpdate e))).
  intros rec. cbv zeta. by destruct (_ <=? 0).
Qed.

(** A refused request never reaches the handlers behind the limiter: the
    reply is 429 with the limiter's JSON body and [X-RateLimit-Remaining: 0],
    the same whatever the next handler is, and only the limiter's state and the
    clock have moved. An admitted one is passed on with the three rate headers
    set and the limiter already updated. *)
Theorem rate_limit_gate {W} `{Lens W (rateLimiter * Runtime)} rpm burst r w world :
  not_sent w ->
  let v := verdict r world in
  let world' := put (v.2, (time_Now (view world).2).2) world in
  (v.1.1.1 = true ->
   forall next, RateLimit rpm burst next r w world = next r (limit_headers rpm v.1 w) world') /\
  (v.1.1.1 = false -> exists w',
   (forall next, RateLimit rpm burst next r w world = (w', world')) /\
   resp_status w' = 429 /\ resp_body w' = resp_body w ++ [Bytes rate_limit_body] /\
   Header_Get (resp_header w') "X-RateLimit-Remaining" = "0"%string).
Proof.
  intros Hw v world'. pose proof (Allow_denied _ _ _ : v.1.1.1 = false -> v.1.1.2 = 0) as H0. split; intros Hv.
  - intros next. rewrite RateLimit_eq. fold v world'. by rewrite Hv.
  - eexists. split; [intros next; rewrite RateLimit_eq; fold v world'; by rewrite Hv|].
    unfold limit_headers. clearbody v. simpl_http. unfold base_WriteHeader; simpl. rewrite Hw. simpl.
    rewrite ?rw_base_on_base, ?rw_base_WriteHeader. unfold base_WriteHeader; simpl. rewrite ?Hw.
    split_and!; [done|done|].
    rewrite !Header_Get_Set_ne by done. rewrite Header_Get_Set. by rewrite H0.
Qed.

(** ** The theorems at concrete inputs *)

Module Demo.
Definition ten_divides : (10 | 60) := ex_intro _ 6 eq_refl.

(** Twelve requests of one address half a second apart, a visit of another,
    and a cleanup two minutes later. *)
Definition trace : list (Z * op) :=
  map (fun i => (Z.of_nat i * 500000000, OpAllow "10.0.0.1")) (seq 0 12)
  ++ [(7 * Second, OpAllow "10.0.0.2"); (127 * Second, OpCleanup); (128 * Second, OpAllow "10.0.0.1")].

Definition request (xff : string) : Request :=
  with_xff (mkRequest "POST" "/api/auth/login" [] empty_header [] "192.0.2.7:5000" 0
    (mkBody EmptyString None) [] []) xff.

Definition frozen : Runtime := mkRuntime (fun _ => 5 * Second) 0 (fun _ => None) 0.
(** A limiter in which the client of [request] has used its ten tokens. *)
Definition drained : rateLimiter :=
  (run (newRateLimiter 10) (repeat (5 * Second, OpAllow "192.0.2.9") 10)).2.

(** One goroutine has called, looked its entry up and finished. *)
Definition loaded : rateLimiter := (load_or_store "10.0.0.1" 5 (newRateLimiter 10)).2.
Definition taken : rateLimiter := (locked_step 0 5 loaded).2.
Definition after_one : system := mkSystem taken {[ 0%nat := TDone "10.0.0.1" true 9 ]}.

Lemma reach_one (P : Z -> Prop) : P 5 -> rtc (sys_step P) (system_new 10) after_one.
Proof.
  intros H5. eapply rtc_l; [by apply (step_call P _ ∅ 0%nat "10.0.0.1" 5)|].
  eapply rtc_l; [apply (step_load P _ _ 0%nat "10.0.0.1" 5 0%nat loaded); by vm_compute|].
  apply rtc_once. unfold after_one. rewrite insert_insert_eq.
  replace ({[0%nat := TDone "10.0.0.1" true 9]} : gmap nat thread)
    with (<[0%nat := TDone "10.0.0.1" true 9]>
            (<[0%nat := THolds "10.0.0.1" 0 5]> (∅ : gmap nat thread))) by (by rewrite insert_insert_eq).
  by apply (step_lock P loaded _ 0%nat "10.0.0.1" 0%nat 5 true 9 taken); vm_compute.
Qed.
End Demo.

Lemma limiter_refines_token_bucket_witness :
  map (fun o => o.1.1) (run (newRateLimiter 10) Demo.trace).1 =
  repeat true 10 ++ [false; false; true; true].
Proof.
  rewrite (limiter_refines_token_bucket 10 0 Demo.trace); [by vm_compute|lia|exact Demo.ten_divides|].
  unfold Demo.trace. simpl. unfold Second. lia.
Defined.

Lemma rate_window_bound_witness :
  grants "10.0.0.1" [(5 * Second, OpAllow "10.0.0.1"); (65 * Second, OpAllow "10.0.0.1")]
    (run (run (newRateLimiter 10) (repeat (0, OpAllow "10.0.0.1") 9)).2
       [(5 * Second, OpAllow "10.0.0.1"); (65 * Second, OpAllow "10.0.0.1")]).1 <= 20.
Proof.
  apply (rate_window_bound 10 0 (repeat (0, OpAllow "10.0.0.1") 9) (5 * Second) (OpAllow "10.0.0.1")
    [(65 * Second, OpAllow "10.0.0.1")] (65 * Second)).
  - lia.
  - exact Demo.ten_divides.
  - simpl. unfold Second. lia.
  - repeat constructor; simpl; unfold Second; lia.
Defined.

Lemma limiter_starves_paced_client_witness :
  Forall (fun o => o.1.1 = false)
    (drop 10 (run (newRateLimiter 10) (repeat (0, OpAllow "10.0.0.1") 10 ++
       map (fun t => (t, OpAllow "10.0.0.1")) [5 * Second; 10 * Second; 15 * Second; 20 * Second])).1).
Proof.
  apply (limiter_starves_paced_client 10 "10.0.0.1" 0 [5 * Second; 10 * Second; 15 * Second; 20 * Second]).
  - lia.
  - exact Demo.ten_divides.
  - simpl. unfold minute_ns, Second. lia.
Defined.

Lemma forwarded_for_evades_limit_witness :
  Forall (fun o => o.1.1 = true) (run (newRateLimiter 1)
    (map (fun x => (x.1.1, OpAllow (getClientIP (with_xff (Demo.request "") (x.1.2 +:+ "," +:+ x.2)))))
      [(0, "1.1.1.1", " 192.0.2.7"); (0, "1.1.1.2", " 192.0.2.7"); (0, "1.1.1.3", " 192.0.2.7")]%string)).1.
Proof.
  apply (forwarded_for_evades_limit 1 (Demo.request "")).
  - lia.
  - repeat constructor; simpl; by vm_compute.
  - simpl. apply (bool_decide_unpack _). by vm_compute.
Defined.

Lemma limiter_interleaving_safe_witness :
  threads Demo.after_one !! 0%nat = Some (TDone "10.0.0.1" true 9) /\
  forall l e, heap (limiter Demo.after_one) !! l = Some e -> 0 <= tokens e <= 10.
Proof.
  split; [by vm_compute|].
  by apply (limiter_interleaving_safe 10 Demo.after_one ltac:(lia) (Demo.reach_one _ I)).
Defined.

Lemma concurrent_burst_exact_witness :
  granted "10.0.0.1" (threads Demo.after_one) = 1 /\ granted "10.0.0.1" (threads Demo.after_one) <= 10.
Proof.
  split; [by vm_compute|].
  by apply (concurrent_burst_exact 10 5 Demo.after_one "10.0.0.1" ltac:(lia) Demo.ten_divides
    (Demo.reach_one _ eq_refl)).
Defined.

Lemma rate_limit_gate_witness :
  exists w', (forall next, RateLimit 10 0 next (Demo.request "192.0.2.9") new_writer (Demo.drained, Demo.frozen)
    = (w', ((verdict (Demo.request "192.0.2.9") (Demo.drained, Demo.frozen)).2, (time_Now Demo.frozen).2))) /\
    resp_status w' = 429.
Proof.
  destruct (rate_limit_gate 10 0 (Demo.request "192.0.2.9") new_writer (Demo.drained, Demo.frozen) eq_refl)
    as [_ H].
  destruct H as (w' & H1 & H2 & _); [by vm_compute|]. exists w'. split; [exact H1|exact H2].
Defined.
