(* ===== verification/Middleware.v ===== *)
(** * The other middleware (internal/middleware) and the API error helpers
    (internal/api/errors.go)

    A handler's use of its response writer is also described here by the list of
    writer operations it performs ([rw_op]): what the middleware promises for
    every response is proved for any handler that is such a program, and the
    components show that theirs are. *)

From S2P Require Export Http.

Open Scope Z_scope.

(** ** requestid.go *)

(** [b[i] = f(b[i])] *)
Fixpoint update_byte (i : nat) (f : Z -> Z) (s : string) : string :=
  match i, s with
  | O, String c s' => String (byte (f (code c))) s'
  | S i', String c s' => String c (update_byte i' f s')
  | _, EmptyString => EmptyString
  end.

(** [s[i:j]] *)
Definition slice (i j : nat) (s : string) : string := stake (j - i) (sdrop i s).

Definition zero_bytes (n : nat) : string := bytes_from (fun _ => byte 0) 0 n.

Definition uuid_of_bytes (b : string) : string :=
  let b := update_byte 6 (fun x => Z.lor (Z.land x 15) 64) b in
  let b := update_byte 8 (fun x => Z.lor (Z.land x 63) 128) b in
  let hexStr := hex_EncodeToString b in
  slice 0 8 hexStr +:+ "-" +:+ slice 8 12 hexStr +:+ "-" +:+ slice 12 16 hexStr +:+ "-"
  +:+ slice 16 20 hexStr +:+ "-" +:+ slice 20 32 hexStr.

Definition generateUUIDv4 (rt : Runtime) : string * Runtime :=
  let '(b, rt) := rand_Read 16 rt in
  (uuid_of_bytes (match b with Ok b => b | Err _ => zero_bytes 16 end), rt).

Definition RequestID {W} `{Lens W Runtime} (headerName : string) : Middleware W :=
  fun next r w world =>
    let rt := view world in
    let requestID := Header_Get (ReqHeader r) headerName in
    let '(requestID, rt) :=
      if bool_decide (requestID = EmptyString) then generateUUIDv4 rt else (requestID, rt) in
    let world := put rt world in
    let w := set_header "X-Request-ID" requestID w in
    let ctx := WithValue (ReqCtx r) contextKeyRequestID (CtxString requestID) in
    next (WithContext r ctx) w world.

Definition GetRequestIDFromContext (ctx : Context) : string :=
  match Value ctx contextKeyRequestID with Some (CtxString s) => s | _ => EmptyString end.

(** ** security.go *)

Definition strictTransportSecurity : string := "max-age=63072000; includeSubDomains; preload".
Definition contentSecurityPolicy : string :=
  "default-src 'self'; script-src 'self'; style-src 'self' 'unsafe-inline'; img-src 'self' data:; frame-src 'self'".

Definition SecurityHeaders {W} : Middleware W := fun next r w world =>
  let w := set_header "Strict-Transport-Security" strictTransportSecurity w in
  let w := set_header "X-Content-Type-Options" "nosniff" w in
  let w := set_header "Referrer-Policy" "no-referrer" w in
  let w := set_header "Content-Security-Policy" contentSecurityPolicy w in
  let w := set_header "X-Frame-Options" "DENY" w in
  next r w world.

(** ** cors.go *)

Definition CORS {W} (allowedOrigin : string) : Middleware W := fun next r w world =>
  let origin := Header_Get (ReqHeader r) "Origin" in
  let w :=
    if bool_decide (origin <> EmptyString) && bool_decide (origin = allowedOrigin) then
      let w := set_header "Access-Control-Allow-Origin" allowedOrigin w in
      let w := set_header "Vary" "Origin" w in
      let w := set_header "Access-Control-Allow-Methods" "GET, POST, OPTIONS" w in
      let w := set_header "Access-Control-Allow-Headers"
                 "Content-Type, Authorization, X-Lite-Mail-Ingest-PSK" w in
      set_header "Access-Control-Max-Age" "300" w
    else w in
  if bool_decide (Method r = "OPTIONS"%string) then (WriteHeader 204 w, world)
  else next r w world.

(** ** logging.go *)

(** One [logger.Info("http request", ...)]. *)
Record LogRecord := mkLog {
  log_method : string; log_path : string; log_status : Z; log_duration : Z; log_remote_addr : string
}.

Definition recorder_inner (w : ResponseWriter) : ResponseWriter :=
  match w with RWRecorder inner _ => inner | _ => w end.
Definition recorder_status (w : ResponseWriter) : Z :=
  match w with RWRecorder _ s => s | _ => 200 end.

Definition RequestLogging {W} `{Lens W (list LogRecord * Runtime)} : Middleware W :=
  fun next r w world =>
    let '(log, rt) := view world in
    let '(start, rt) := time_Now rt in
    let recorder := RWRecorder w 200 in
    let '(recorder, world) := next r recorder (put (log, rt) world) in
    let '(log, rt) := view world in
    let '(now, rt) := time_Now rt in
    let record := mkLog (Method r) (URLPath r) (recorder_status recorder) (Sub now start) (RemoteAddr r) in
    (recorder_inner recorder, put (log ++ [record], rt) world).

(** ** maxbody.go *)

Definition max_body_default (maxBytes : Z) : Z := if maxBytes <=? 0 then 1048576 else maxBytes.

Definition max_body_text : string :=
  "{" +:+ String (byte 34) ("error" +:+ String (byte 34) (":" +:+
  String (byte 34) ("request body too large" +:+ String (byte 34) "}"))).

Definition MaxBodySize {W} (maxBytes : Z) : Middleware W := fun next r w world =>
  let maxBytes := max_body_default maxBytes in
  if maxBytes <? ContentLength r then
    let w := set_header "Content-Type" "application/json" w in
    let w := WriteHeader 413 w in
    (Write (Bytes max_body_text) w, world)
  else next (with_body r (MaxBytesReader (ReqBody r) maxBytes)) w world.

(** ** internal/api/errors.go *)

Record ErrorResponse := mkErrorResponse { er_Error : string; er_RequestID : string }.

(** The JSON of an [ErrorResponse]: [request_id] is [omitempty]. *)
Definition ErrorResponse_json (e : ErrorResponse) : json :=
  JObj (("error"%string, JString (er_Error e)) ::
        (if bool_decide (er_RequestID e = EmptyString) then []
         else [("request_id"%string, JString (er_RequestID e))])).

Definition WriteError (status : Z) (message requestID : string) (w : ResponseWriter) : ResponseWriter :=
  let w := set_header "Content-Type" "application/json" w in
  let w := WriteHeader status w in
  let resp := mkErrorResponse message EmptyString in
  let resp := if bool_decide (requestID <> EmptyString)
              then mkErrorResponse (er_Error resp) requestID else resp in
  Write (Json (ErrorResponse_json resp)) w.

Definition WithRequestID (ctx : Context) (requestID : string) : Context :=
  WithValue ctx requestIDKey (CtxString requestID).

Definition RequestIDFromContext (ctx : Context) : string :=
  match Value ctx requestIDKey with Some (CtxString s) => s | _ => EmptyString end.

(** ** What handlers do to their response writer *)

Definition security_headers : list (string * string) :=
  [("Strict-Transport-Security", strictTransportSecurity); ("X-Content-Type-Options", "nosniff");
   ("Referrer-Policy", "no-referrer"); ("Content-Security-Policy", contentSecurityPolicy);
   ("X-Frame-Options", "DENY")]%string.

(** Setting [k] to [v] (or, for [None], deleting [k]) edits none of [fixed] and
    does not weaken a security header. *)
Definition edit_allowed (fixed : list string) (k : string) (v : option string) : bool :=
  negb (existsb (fun f => bool_decide (CanonicalHeaderKey k = f)) fixed) &&
  forallb (fun kv => negb (bool_decide (CanonicalHeaderKey k = CanonicalHeaderKey kv.1))
                     || bool_decide (v = Some kv.2)) security_headers.

(** What the handlers may edit, and what they may with CORS around them. *)
Definition inner_edit := edit_allowed ["X-Request-Id"; "Access-Control-Allow-Origin"].
Definition outer_edit := edit_allowed ["X-Request-Id"].

(** [acts E w sent w']: [w'] comes from [w] by header edits that [E] allows,
    cookies, at most one [WriteHeader] before anything is written, and writes;
    [sent] says whether a status or a body was sent. *)
Inductive acts (E : string -> option string -> bool) (w : ResponseWriter)
  : bool -> ResponseWriter -> Prop :=
  | acts_refl : acts E w false w
  | acts_set b w' k v : E k (Some v) = true -> acts E w b w' -> acts E w b (set_header k v w')
  | acts_add b w' k v : E k (Some v) = true -> acts E w b w' -> acts E w b (add_header k v w')
  | acts_del b w' k : E k None = true -> acts E w b w' -> acts E w b (del_header k w')
  | acts_cookie b w' c : acts E w b w' -> acts E w b (SetCookie c w')
  | acts_status w' s : acts E w false w' -> acts E w true (WriteHeader s w')
  | acts_write b w' c : acts E w b w' -> acts E w true (Write c w').

(** What a component promises of its handlers, to the middleware around them. *)
Class WellBehaved {W} (h : Handler W) :=
  well_behaved : forall r w st, exists b, acts inner_edit w b (h r w st).1.

Lemma acts_mono (E E' : string -> option string -> bool) w b w' :
  (forall k v, E k v = true -> E' k v = true) -> acts E w b w' -> acts E' w b w'.
Proof. intros HE H. induction H; [apply acts_refl|..]; econstructor; eauto. Qed.

Lemma inner_outer k v : inner_edit k v = true -> outer_edit k v = true.
Proof.
  unfold inner_edit, outer_edit, edit_allowed. cbn [existsb].
  rewrite !andb_true_iff, !negb_true_iff, !orb_false_iff. tauto.
Qed.

Lemma acts_trans E w w1 w2 b : acts E w false w1 -> acts E w1 b w2 -> acts E w b w2.
Proof. intros H1 H2. induction H2; [done|..]; econstructor; eauto. Qed.

Lemma acts_writeJSON w w1 s v :
  acts inner_edit w false w1 -> acts inner_edit w true (writeJSON s v w1).
Proof. intros H. eapply acts_write, acts_status, acts_set; [by vm_compute|done]. Qed.

Lemma acts_http_Error w w1 m s :
  acts inner_edit w false w1 -> acts inner_edit w true (http_Error m s w1).
Proof.
  intros H. unfold http_Error. eapply acts_write, acts_status.
  apply acts_set; [by vm_compute|]. apply acts_set; [by vm_compute|]. by apply acts_del; [vm_compute|].
Qed.

Lemma acts_NotFound w w1 : acts inner_edit w false w1 -> acts inner_edit w true (NotFound w1).
Proof. apply acts_http_Error. Qed.

Create HintDb acts.
#[export] Hint Resolve acts_refl acts_cookie acts_status acts_write acts_writeJSON acts_http_Error
  acts_NotFound : acts.
#[export] Hint Extern 1 (acts _ _ _ (set_header _ _ _)) => (apply acts_set; [by vm_compute|]) : acts.
#[export] Hint Extern 1 (acts _ _ _ (del_header _ _)) => (apply acts_del; [by vm_compute|]) : acts.
Ltac solve_acts := eexists; solve [eauto 20 with acts].

(** *** Headers *)

(** The header [k] has the value [v], and had it when the reply was sent. *)
Definition has_header (k v : string) (b : BaseWriter) : Prop :=
  Header_Get (bw_header b) k = v /\
  match bw_sent b with Some (_, h) => Header_Get h k = v | None => True end.

Lemma has_header_resp k v w : has_header k v (rw_base w) -> Header_Get (resp_header w) k = v.
Proof. unfold has_header, resp_header. intros [H1 H2]. by destruct (bw_sent _) as [[? ?]|]. Qed.

Lemma Header_Get_Del_ne h k k' :
  CanonicalHeaderKey k <> CanonicalHeaderKey k' -> Header_Get (Header_Del h k) k' = Header_Get h k'.
Proof. intros. unfold Header_Get, Header_Del. simpl. by rewrite lookup_delete_ne. Qed.

(** No edit that [E] allows changes the header [k] from [v]. *)
Definition protected (E : string -> option string -> bool) (k v : string) : Prop :=
  forall k' v', E k' v' = true ->
    CanonicalHeaderKey k' <> CanonicalHeaderKey k \/
    v' = Some v /\ CanonicalHeaderKey k' = CanonicalHeaderKey k.

Lemma protected_fixed fixed k v :
  CanonicalHeaderKey k ∈ fixed -> protected (edit_allowed fixed) k v.
Proof.
  unfold edit_allowed. intros Hin k' v'. rewrite andb_true_iff, negb_true_iff. intros [He _].
  left. intros Heq. assert (existsb (fun f => bool_decide (CanonicalHeaderKey k' = f)) fixed = true) as Ht.
  { apply existsb_exists. exists (CanonicalHeaderKey k). split; [by apply list_elem_of_In|].
    by apply bool_decide_eq_true. }
  congruence.
Qed.

Lemma protected_security fixed k v :
  (k, v) ∈ security_headers -> protected (edit_allowed fixed) k v.
Proof.
  unfold edit_allowed. intros Hin k' v'. rewrite andb_true_iff, forallb_Forall. intros [_ Hf].
  rewrite Forall_forall in Hf. specialize (Hf _ Hin). simpl in Hf.
  rewrite orb_true_iff, negb_true_iff, bool_decide_eq_false, bool_decide_eq_true in Hf.
  destruct (decide (CanonicalHeaderKey k' = CanonicalHeaderKey k)); tauto.
Qed.

Lemma acts_has_header E w b w' k v :
  acts E w b w' -> protected E k v -> has_header k v (rw_base w) -> has_header k v (rw_base w').
Proof.
  intros Ha Hp Hw. induction Ha as [|b w' k' v' He Ha IH|b w' k' v' He Ha IH|b w' k' He Ha IH|b w' c Ha IH|w' s Ha IH|b w' c Ha IH];
    [done|..]; unfold has_header, set_header, add_header, del_header, SetCookie, Write in *;
    rewrite ?rw_base_on_base, ?rw_base_WriteHeader; simpl in *.
  - destruct IH as [IH ?]. split; [|done]. destruct (Hp _ _ He) as [Hne|[[= <-] Heq]].
    + by rewrite Header_Get_Set_ne.
    + unfold Header_Get. rewrite <-Heq. apply Header_Get_Set.
  - destruct IH as [IH ?]. split; [|done]. destruct (Hp _ _ He) as [Hne|[[= <-] Heq]].
    + by rewrite Header_Get_Add_ne.
    + by apply Header_Get_Add_same.
  - destruct IH as [IH ?]. split; [|done].
    destruct (Hp _ _ He) as [Hne|[? _]]; [|done]. by rewrite Header_Get_Del_ne.
  - destruct (valid_cookie_name _); [|done]. by rewrite rw_base_on_base.
  - unfold base_WriteHeader. destruct IH as [IH1 IH2].
    by destruct (bw_sent (rw_base w')) as [[? ?]|] eqn:E'; simpl; rewrite ?E'.
  - unfold base_Write, base_WriteHeader. destruct IH as [IH1 IH2].
    by destruct (bw_sent (rw_base w')) as [[? ?]|] eqn:E'; simpl; rewrite ?E'.
Qed.

(** *** The recorder *)

(** A handler that runs on a recorder does the same to the writer inside; what
    the recorder has noted is what was sent. *)
Lemma acts_recorder E w b w' :
  not_sent w -> acts E (RWRecorder w 200) b w' ->
  exists w1 s, w' = RWRecorder w1 s /\ acts E w b w1 /\
    (if b then resp_status w1 = s /\ ~ not_sent w1 else s = 200 /\ not_sent w1).
Proof.
  intros Hw Ha. induction Ha as [|b w' k' v' He Ha IH|b w' k' v' He Ha IH|b w' k' He Ha IH|b w' c Ha IH|w' s Ha IH|b w' c Ha IH].
  - exists w, 200. split; [done|]. split; [apply acts_refl|done].
  - destruct IH as (w1 & s & -> & H1 & H2). exists (set_header k' v' w1), s.
    split_and!; [done|by apply acts_set|]. by destruct b; simpl_http.
  - destruct IH as (w1 & s & -> & H1 & H2). exists (add_header k' v' w1), s.
    split_and!; [done|by apply acts_add|]. by destruct b; simpl_http.
  - destruct IH as (w1 & s & -> & H1 & H2). exists (del_header k' w1), s.
    split_and!; [done|by apply acts_del|]. by destruct b; simpl_http.
  - destruct IH as (w1 & s & -> & H1 & H2). exists (SetCookie c w1), s.
    split_and!; [|by apply acts_cookie|].
    + unfold SetCookie. by destruct (valid_cookie_name _).
    + unfold SetCookie. destruct (valid_cookie_name _); [|done]. by destruct b; simpl_http.
  - destruct IH as (w1 & s0 & -> & H1 & -> & H2). exists (WriteHeader s w1), s.
    split_and!; [done|by apply acts_status| |].
    + simpl_http. unfold base_WriteHeader. by rewrite H2.
    + simpl_http. unfold base_WriteHeader. by rewrite H2.
  - destruct IH as (w1 & s & -> & H1 & H2). exists (Write c w1), s.
    split; [done|]. split; [by eapply acts_write|]. simpl_http. unfold base_Write, base_WriteHeader.
    destruct b; destruct H2 as [H2 H3].
    + destruct (bw_sent (rw_base w1)) as [[? ?]|] eqn:E'; simpl; rewrite ?E'; naive_solver.
    + rewrite H3. naive_solver.
Qed.

(** ** The middleware is well-behaved around well-behaved handlers *)

#[export] Instance SecurityHeaders_well_behaved {W} (next : Handler W) :
  WellBehaved next -> WellBehaved (SecurityHeaders next).
Proof.
  intros Hn r w st. destruct (Hn r (set_header "X-Frame-Options" "DENY"
    (set_header "Content-Security-Policy" contentSecurityPolicy
      (set_header "Referrer-Policy" "no-referrer" (set_header "X-Content-Type-Options" "nosniff"
        (set_header "Strict-Transport-Security" strictTransportSecurity w))))) st) as [b Hb].
  exists b. eapply acts_trans; [|exact Hb]. auto 20 with acts.
Qed.

#[export] Instance MaxBodySize_well_behaved {W} n (next : Handler W) :
  WellBehaved next -> WellBehaved (MaxBodySize n next).
Proof.
  intros Hn r w st. unfold MaxBodySize. destruct (_ <? _); [solve_acts|]. apply Hn.
Qed.

(** The writer CORS passes on. *)
Definition cors_headers (allowedOrigin : string) (r : Request) (w : ResponseWriter) : ResponseWriter :=
  let origin := Header_Get (ReqHeader r) "Origin" in
  if bool_decide (origin <> EmptyString) && bool_decide (origin = allowedOrigin) then
    set_header "Access-Control-Max-Age" "300" (set_header "Access-Control-Allow-Headers"
      "Content-Type, Authorization, X-Lite-Mail-Ingest-PSK" (set_header "Access-Control-Allow-Methods"
      "GET, POST, OPTIONS" (set_header "Vary" "Origin"
      (set_header "Access-Control-Allow-Origin" allowedOrigin w))))
  else w.

Lemma CORS_eq {W} o (next : Handler W) r w st :
  CORS o next r w st =
  if bool_decide (Method r = "OPTIONS"%string) then (WriteHeader 204 (cors_headers o r w), st)
  else next r (cors_headers o r w) st.
Proof. done. Qed.

Lemma acts_cors o r w : acts outer_edit w false (cors_headers o r w).
Proof. unfold cors_headers. destruct (_ && _); auto 20 with acts. Qed.

Lemma CORS_acts {W} o (next : Handler W) `{!WellBehaved next} r w st :
  exists b, acts outer_edit w b (CORS o next r w st).1 /\
    acts inner_edit (cors_headers o r w) b (CORS o next r w st).1.
Proof.
  rewrite CORS_eq. case_bool_decide; simpl.
  - exists true. split; [apply acts_status, acts_cors|apply acts_status, acts_refl].
  - destruct (well_behaved (h := next) r (cors_headers o r w) st) as [b Hb]. exists b. split; [|done].
    eapply acts_trans; [apply acts_cors|]. eapply acts_mono; [|done]. apply inner_outer.
Qed.

(** The header that decides whether another origin may read the reply. *)
Lemma cors_allow_origin o r w :
  Header_Get (bw_header (rw_base w)) "Access-Control-Allow-Origin" = EmptyString ->
  Header_Get (bw_header (rw_base (cors_headers o r w))) "Access-Control-Allow-Origin" =
  (if bool_decide (Header_Get (ReqHeader r) "Origin" <> EmptyString)
      && bool_decide (Header_Get (ReqHeader r) "Origin" = o) then o else EmptyString).
Proof.
  intros Hw. unfold cors_headers. destruct (_ && _); [|done]. simpl_http.
  rewrite !Header_Get_Set_ne by done. by rewrite Header_Get_Set.
Qed.

(** RequestLogging is transparent to the client, and records what it got. *)
Lemma RequestLogging_spec {W} `{Lens W (list LogRecord * Runtime)} E (next : Handler W) r w st :
  not_sent w -> (forall st, exists b, acts E (RWRecorder w 200) b (next r (RWRecorder w 200) st).1) ->
  let out := RequestLogging next r w st in
  let res := next r (RWRecorder w 200) (put ((view st).1, (time_Now (view st).2).2) st) in
  out.1 = recorder_inner res.1 /\ (exists b, acts E w b out.1) /\
  exists d, (view out.2).1 =
    (view res.2).1 ++ [mkLog (Method r) (URLPath r) (resp_status out.1) d (RemoteAddr r)].
Proof.
  intros Hw Hn. unfold RequestLogging. destruct (view st) as [log rt] eqn:Ev. simpl.
  destruct (Hn (put (log, (time_Now rt).2) st)) as [b Hb]. simpl in *.
  destruct (next r _ _) as [rec st1] eqn:En. simpl in *.
  destruct (acts_recorder E w b rec Hw Hb) as (w1 & s & -> & H1 & H2).
  destruct (view st1) as [log1 rt1] eqn:Ev1. simpl. rewrite view_put. simpl.
  split; [done|]. split; [by exists b|]. eexists.
  do 3 f_equal. destruct b; [by destruct H2 as [-> _]|].
  destruct H2 as [-> H2]. unfold resp_status. by rewrite H2.
Qed.

(** RequestID: the header the client gets, and what the next handler sees. *)
Lemma RequestID_spec {W} `{Lens W Runtime} h (next : Handler W) r w st :
  exists rid st1, RequestID h next r w st =
    next (WithContext r (WithValue (ReqCtx r) contextKeyRequestID (CtxString rid)))
      (set_header "X-Request-ID" rid w) st1 /\
    (rid, st1) =
      (if bool_decide (Header_Get (ReqHeader r) h = EmptyString)
       then let '(u, rt) := generateUUIDv4 (view st) in (u, put rt st)
       else (Header_Get (ReqHeader r) h, put (view st) st)).
Proof.
  unfold RequestID. case_bool_decide.
  - destruct (generateUUIDv4 (view st)) as [u rt]. by exists u, (put rt st).
  - by eexists _, (put (view st) st).
Qed.

(** ** Properties *)

(** The five groups of a UUID, and the digits that fix its version and variant. *)
Definition uuid_shape (s : string) : Prop :=
  exists g1 g2 g3 g4 g5 v,
    s = g1 +:+ "-" +:+ g2 +:+ "-" +:+ "4" +:+ g3 +:+ "-" +:+ String v (g4 +:+ "-" +:+ g5) /\
    String.length g1 = 8%nat /\ String.length g2 = 4%nat /\ String.length g3 = 3%nat /\
    String.length g4 = 3%nat /\ String.length g5 = 12%nat /\
    v ∈ ["8"; "9"; "a"; "b"]%char /\
    sforall is_hex (g1 +:+ g2 +:+ g3 +:+ g4 +:+ g5) = true.

Lemma version_digit c : hex_digit (code (byte (Z.lor (Z.land (code c) 15) 64)) / 16) = "4"%char.
Proof. by destruct c as [[] [] [] [] [] [] [] []]; vm_compute. Qed.

Lemma variant_digit c :
  hex_digit (code (byte (Z.lor (Z.land (code c) 63) 128)) / 16) ∈ ["8"; "9"; "a"; "b"]%char.
Proof.
  apply (bool_decide_unpack _). by destruct c as [[] [] [] [] [] [] [] []]; vm_compute.
Qed.

#[local] Ltac Zify.zify_post_hook ::= Z.to_euclidean_division_equations.

Lemma uuid_of_bytes_shape b : String.length b = 16%nat -> uuid_shape (uuid_of_bytes b).
Proof.
  intros Hl. do 16 (destruct b as [|? b]; [done|]). destruct b; [|done]. clear Hl.
  assert (forall c, is_hex (hex_digit (code c / 16)) = true) as H1.
  { intros c. pose proof (code_range c). apply hex_digit_hex. lia. }
  assert (forall c, is_hex (hex_digit (code c mod 16)) = true) as H2.
  { intros c. apply hex_digit_hex. lia. }
  unfold uuid_of_bytes, slice.
  cbn [update_byte hex_EncodeToString stake sdrop Nat.sub String.append].
  rewrite version_digit.
  eexists (String _ (String _ (String _ (String _ (String _ (String _ (String _ (String _ (EmptyString))))))))).
  eexists (String _ (String _ (String _ (String _ (EmptyString))))).
  eexists (String _ (String _ (String _ (EmptyString)))).
  eexists (String _ (String _ (String _ (EmptyString)))).
  eexists (String _ (String _ (String _ (String _ (String _ (String _ (String _ (String _ (String _ (String _ (String _ (String _ (EmptyString))))))))))))).
  eexists _.
  split; [cbn [String.append]; reflexivity|]. cbn [String.length String.append sforall].
  split_and!; try reflexivity; [apply variant_digit|]. by rewrite !H1, !H2.
Qed.

Lemma generateUUIDv4_shape rt : uuid_shape (generateUUIDv4 rt).1.
Proof.
  unfold generateUUIDv4. destruct (rand_Read 16 rt) as [[b|e] rt'] eqn:E; simpl; apply uuid_of_bytes_shape.
  - by eapply rand_Read_length.
  - done.
Qed.

(** A request id made by the server is a version 4 UUID: 36 characters in
    the groups 8-4-4-4-12, hexadecimal, with the version digit 4 and a variant
    digit among 8, 9, a and b, for every 16 random bytes. *)
Theorem generated_request_id_is_uuid_v4 rt : uuid_shape (generateUUIDv4 rt).1.
Proof. apply generateUUIDv4_shape. Qed.

(** CORS lets exactly the configured origin in. The writer that reaches the
    next handler allows the origin of the request when it is the configured one
    and is not empty, and is untouched otherwise, so that with no configured
    origin no cross-origin reply is readable; and a preflight request
    ([OPTIONS]) is answered 204 without running the next handler. *)
Theorem cors_only_configured_origin {W} o r w (st : W) :
  not_sent w -> Header_Get (bw_header (rw_base w)) "Access-Control-Allow-Origin" = EmptyString ->
  (Method r <> "OPTIONS"%string -> exists w1,
    (forall next, CORS o next r w st = next r w1 st) /\
    ((Header_Get (ReqHeader r) "Origin" = o /\ o <> EmptyString /\
      Header_Get (bw_header (rw_base w1)) "Access-Control-Allow-Origin" = o /\
      Header_Get (bw_header (rw_base w1)) "Vary" = "Origin"%string) \/
     ((Header_Get (ReqHeader r) "Origin" <> o \/ o = EmptyString) /\ w1 = w))) /\
  (Method r = "OPTIONS"%string -> exists w1,
    (forall next, CORS o next r w st = (w1, st)) /\ resp_status w1 = 204 /\ resp_body w1 = resp_body w).
Proof.
  intros Hw Ha. split; intros Hm.
  - exists (cors_headers o r w). split.
    { intros next. rewrite CORS_eq. by rewrite bool_decide_eq_false_2. }
    pose proof (cors_allow_origin o r w Ha) as Hc. unfold cors_headers in *.
    destruct (decide (Header_Get (ReqHeader r) "Origin" = o)) as [Heq|Hne].
    + destruct (decide (o = EmptyString)) as [He|He].
      * right. split; [by right|]. by rewrite Heq, He.
      * left. rewrite Heq in *. rewrite !bool_decide_eq_true_2 in * by done. simpl in *.
        split_and!; [done..|]. simpl_http. rewrite !Header_Get_Set_ne by done. by rewrite Header_Get_Set.
    + right. split; [by left|]. by rewrite (bool_decide_eq_false_2 (_ = o)), andb_false_r.
  - exists (WriteHeader 204 (cors_headers o r w)).
    split; [intros next; rewrite CORS_eq; by rewrite bool_decide_eq_true_2|].
    unfold cors_headers. destruct (_ && _); simpl_http; unfold base_WriteHeader; simpl; by rewrite ?Hw.
Qed.

(** No handler behind MaxBodySize reads more than the limit (1 MiB when it
    is not positive): a declared length above it is refused with 413 whatever
    the handler is; otherwise the handler gets the first [limit] bytes of the
    body, followed by an error when the client sends more than that, so that a
    false or missing Content-Length does not help. *)
Theorem max_body_size_bounds {W} n r w (st : W) :
  not_sent w -> let limit := max_body_default n in
  0 < limit /\
  (limit < ContentLength r -> exists w',
     (forall next, MaxBodySize n next r w st = (w', st)) /\ resp_status w' = 413 /\
     resp_body w' = resp_body w ++ [Bytes max_body_text]) /\
  (ContentLength r <= limit -> exists b,
     (forall next, MaxBodySize n next r w st = next (with_body r b) w st) /\
     slen (body_bytes b) <= limit /\
     body_bytes b = stake (Z.to_nat limit) (body_bytes (ReqBody r)) /\
     (limit < slen (body_bytes (ReqBody r)) -> body_error b = Some ErrBodyTooLarge) /\
     (slen (body_bytes (ReqBody r)) <= limit -> b = ReqBody r)).
Proof.
  intros Hw limit. assert (0 < limit) as Hpos by (unfold limit, max_body_default; destruct (Z.leb_spec n 0); lia).
  split; [done|]. unfold MaxBodySize. fold limit. split; intros Hc.
  - eexists. split; [intros next; by rewrite (proj2 (Z.ltb_lt _ _))|].
    simpl_http. unfold base_WriteHeader; simpl. by rewrite Hw.
  - exists (MaxBytesReader (ReqBody r) limit).
    split; [intros next; by rewrite (proj2 (Z.ltb_ge _ _))|].
    unfold MaxBytesReader. destruct (Z.ltb_spec limit (slen (body_bytes (ReqBody r)))); simpl.
    + split_and!; [|done|done|lia]. unfold slen in *. rewrite stake_length; lia.
    + split_and!; [lia| |lia|done]. symmetry. apply stake_all. unfold slen in *. lia.
Qed.

(** The request id that the middleware stores is invisible to the API's own
    accessor: [api.RequestIDFromContext] looks under another key, so after
    RequestID the next handler finds the id with [GetRequestIDFromContext], and
    the empty string with [api.RequestIDFromContext] unless someone else had
    stored one. *)
Theorem request_id_accessors_disagree {W} `{Lens W Runtime} h r w (st : W) :
  exists rid ctx w1 st1, rid <> EmptyString /\
    (forall next, RequestID h next r w st = next (WithContext r ctx) w1 st1) /\
    GetRequestIDFromContext ctx = rid /\ RequestIDFromContext ctx = RequestIDFromContext (ReqCtx r) /\
    Header_Get (bw_header (rw_base w1)) "X-Request-ID" = rid /\
    (Header_Get (ReqHeader r) h <> EmptyString -> rid = Header_Get (ReqHeader r) h).
Proof.
  unfold RequestID. case_bool_decide as Hh.
  - destruct (generateUUIDv4 (view st)) as [u rt] eqn:E. exists u. eexists _, _, _.
    split; [|split; [done|]].
    + pose proof (generateUUIDv4_shape (view st)) as (g1 & ? & ? & ? & ? & ? & Hu & Hl & _).
      rewrite E in Hu. simpl in Hu. rewrite Hu. by destruct g1.
    + unfold GetRequestIDFromContext, RequestIDFromContext. simpl_http. rewrite Header_Get_Set.
      by repeat split.
  - exists (Header_Get (ReqHeader r) h). eexists _, _, _. split; [done|]. split; [done|].
    unfold GetRequestIDFromContext, RequestIDFromContext. simpl_http. by rewrite Header_Get_Set.
Qed.

(** ** The theorems at concrete inputs *)

Module Demo.
Definition from_origin (m o : string) (len : Z) : Request :=
  mkRequest m "/api/messages" [] (Header_Set empty_header "origin" o) [] "10.0.0.1:4000" len
    (mkBody "0123456789" None) [] [].
End Demo.

Lemma cors_only_configured_origin_witness :
  exists w1, (forall next, CORS "https://mail.example.com" next
      (Demo.from_origin "GET" "https://mail.example.com" 0) new_writer tt
      = next (Demo.from_origin "GET" "https://mail.example.com" 0) w1 tt) /\
    Header_Get (bw_header (rw_base w1)) "Access-Control-Allow-Origin" = "https://mail.example.com"%string.
Proof.
  destruct (cors_only_configured_origin "https://mail.example.com"
    (Demo.from_origin "GET" "https://mail.example.com" 0) new_writer tt) as [H _]; [done|by vm_compute|].
  destruct H as (w1 & H1 & [(_ & _ & H2 & _)|([H2|H2] & _)]); [done|eauto|..].
  - exfalso. apply H2. by vm_compute.
  - done.
Defined.

Lemma max_body_size_bounds_witness :
  exists b, (forall next, MaxBodySize 4 next (Demo.from_origin "POST" "" 0) new_writer tt
      = next (with_body (Demo.from_origin "POST" "" 0) b) new_writer tt) /\
    body_bytes b = "0123"%string.
Proof.
  destruct (max_body_size_bounds 4 (Demo.from_origin "POST" "" 0) new_writer tt eq_refl) as (_ & _ & H).
  destruct H as (b & H1 & _ & H2 & _); [done|]. exists b. split; [exact H1|]. rewrite H2. by vm_compute.
Defined.
