(* ===== verification/Storage.v ===== *)
(** * Blob storage (internal/storage/storage.go)

    The operating system's files are an interface, [FileSystem], with the
    documented behaviour of [os.MkdirAll], [os.Stat], [os.WriteFile] and
    [os.ReadFile], failures included; [MemFS] implements it. Paths are those
    [filepath] computes, as strings: links and other processes are not modelled. *)

From S2P Require Export GoStrings.

Open Scope Z_scope.

(** ** The file system *)

Definition ErrNotExist : error := ESentinel "fs.ErrNotExist" "file does not exist".
Definition os_IsNotExist (e : error) : bool := errors_Is e ErrNotExist.

Class FileSystem (F : Type) := {
  os_MkdirAll : string -> F -> result unit * F;
  os_Stat : string -> F -> result unit;
  os_WriteFile : string -> string -> F -> result unit * F;
  os_ReadFile : string -> F -> result string
}.

(** [q] is [p] or a directory above it. *)
Definition above (q p : string) : Prop := q = p \/ HasPrefix p (q +:+ "/") = true.

(** [WriteFile] truncates: when it fails, what it managed to write stays. *)
Class FileSystemLaws (F : Type) `{FileSystem F} := {
  file : F -> string -> option string;
  is_dir : F -> string -> Prop;
  mkdir_files : forall p f r f' q, os_MkdirAll p f = (r, f') -> file f' q = file f q;
  mkdir_dirs : forall p f r f' q, os_MkdirAll p f = (r, f') -> is_dir f' q -> is_dir f q \/ above q p;
  stat_ok : forall p f, os_Stat p f = Ok tt -> is_Some (file f p) \/ is_dir f p;
  stat_missing : forall p f e, os_Stat p f = Err e -> os_IsNotExist e = true -> file f p = None;
  write_ok : forall p d f f', os_WriteFile p d f = (Ok tt, f') -> file f' p = Some d;
  write_err : forall p d f e f', os_WriteFile p d f = (Err e, f') ->
    file f' p = file f p \/ exists n, file f' p = Some (stake n d);
  write_other : forall p d f r f' q, os_WriteFile p d f = (r, f') -> q <> p -> file f' q = file f q;
  write_dirs : forall p d f r f' q, os_WriteFile p d f = (r, f') -> is_dir f' q -> is_dir f q;
  read_file : forall p f d, os_ReadFile p f = Ok d <-> file f p = Some d
}.

(** ** storage.go *)

Record Storage := mkStorage { baseDir : string }.

(** [fmt.Errorf(s)] *)
Definition invalid_key : error := EText "invalid storage key".

Definition validateKey (key : string) : option error :=
  if bool_decide (key = EmptyString) || negb (bool_decide (Base key = key))
     || ContainsAny key "/\"
  then Some invalid_key else None.

Section operations.
Context {F : Type} `{FileSystem F}.

Definition NewStorage (base : string) (f : F) : result Storage * F :=
  if bool_decide (TrimSpace base = EmptyString)
  then (Err (EText "storage base directory is required"), f)
  else
    match os_MkdirAll (path_Join [base; "raw"%string]) f with
    | (Err e, f) => (Err (EWrap "create raw storage directory" e), f)
    | (Ok _, f) =>
        match os_MkdirAll (path_Join [base; "attachments"%string]) f with
        | (Err e, f) => (Err (EWrap "create attachment storage directory" e), f)
        | (Ok _, f) => (Ok (mkStorage base), f)
        end
    end.

Definition SaveRawMIME (s : Storage) (contentHash data : string) (f : F) : result unit * F :=
  match validateKey contentHash with
  | Some e => (Err e, f)
  | None =>
      let path := path_Join [baseDir s; "raw"%string; contentHash] in
      match os_Stat path f with
      | Ok _ => (Ok tt, f)
      | Err e =>
          if negb (os_IsNotExist e) then (Err (EWrap "stat raw MIME" e), f)
          else
            match os_MkdirAll (Dir path) f with
            | (Err e, f) => (Err (EWrap "create raw MIME directory" e), f)
            | (Ok _, f) =>
                match os_WriteFile path data f with
                | (Err e, f) => (Err (EWrap "write raw MIME" e), f)
                | (Ok _, f) => (Ok tt, f)
                end
            end
      end
  end.

Definition ReadRawMIME (s : Storage) (contentHash : string) (f : F) : result string :=
  match validateKey contentHash with
  | Some e => Err e
  | None =>
      match os_ReadFile (path_Join [baseDir s; "raw"%string; contentHash]) f with
      | Err e => Err (EWrap "read raw MIME" e)
      | Ok data => Ok data
      end
  end.

Definition SaveAttachment (s : Storage) (messageID : Z) (safeKey data : string) (f : F)
  : result unit * F :=
  if messageID <=? 0 then (Err (EText "message ID must be positive"), f)
  else
  match validateKey safeKey with
  | Some e => (Err e, f)
  | None =>
      let dir := path_Join [baseDir s; "attachments"%string; FormatInt messageID] in
      match os_MkdirAll dir f with
      | (Err e, f) => (Err (EWrap "create attachment directory" e), f)
      | (Ok _, f) =>
          match os_WriteFile (path_Join [dir; safeKey]) data f with
          | (Err e, f) => (Err (EWrap "write attachment" e), f)
          | (Ok _, f) => (Ok tt, f)
          end
      end
  end.

Definition ReadAttachment (s : Storage) (messageID : Z) (safeKey : string) (f : F) : result string :=
  if messageID <=? 0 then Err (EText "message ID must be positive")
  else
  match validateKey safeKey with
  | Some e => Err e
  | None =>
      match os_ReadFile (path_Join [baseDir s; "attachments"%string; FormatInt messageID; safeKey]) f with
      | Err e => Err (EWrap "read attachment" e)
      | Ok data => Ok data
      end
  end.
End operations.

(** ** An in-memory file system with injected failures *)

(** The [n]-th operation that changes anything fails when [faults n] is given:
    a write then leaves that many bytes. *)
Record MemFS := mkMemFS {
  mem_files : gmap string string;
  mem_dirs : gset string;
  mem_ops : nat;
  faults : nat -> option nat
}.

Definition mem_new (faults : nat -> option nat) : MemFS := mkMemFS ∅ ∅ 0 faults.

(** [p] and the directories above it. *)
Fixpoint dirs_of (acc p : string) : list string :=
  match p with
  | EmptyString => [acc]
  | String c p' =>
      (if bool_decide (c = slash) then [acc] else []) ++ dirs_of (acc +:+ String c EmptyString) p'
  end.

Definition ErrInjected : error := EText "no space left on device".

#[export] Instance MemFS_fs : FileSystem MemFS := {|
  os_MkdirAll p f :=
    match faults f (mem_ops f) with
    | Some _ => (Err ErrInjected, mkMemFS (mem_files f) (mem_dirs f) (S (mem_ops f)) (faults f))
    | None => (Ok tt, mkMemFS (mem_files f) (list_to_set (dirs_of EmptyString p) ∪ mem_dirs f)
                        (S (mem_ops f)) (faults f))
    end;
  os_Stat p f :=
    if bool_decide (is_Some (mem_files f !! p)) || bool_decide (p ∈ mem_dirs f)
    then Ok tt else Err (EWrap ("stat " +:+ p) ErrNotExist);
  os_WriteFile p d f :=
    if bool_decide (p ∈ mem_dirs f) then
      (Err (EText "is a directory"), mkMemFS (mem_files f) (mem_dirs f) (S (mem_ops f)) (faults f))
    else
    match faults f (mem_ops f) with
    | Some n => (Err ErrInjected, mkMemFS (<[p := stake n d]> (mem_files f)) (mem_dirs f)
                                    (S (mem_ops f)) (faults f))
    | None => (Ok tt, mkMemFS (<[p := d]> (mem_files f)) (mem_dirs f) (S (mem_ops f)) (faults f))
    end;
  os_ReadFile p f :=
    match mem_files f !! p with
    | Some d => Ok d
    | None => Err (EWrap ("open " +:+ p) ErrNotExist)
    end
|}.

Lemma dirs_of_above acc p q : q ∈ dirs_of acc p -> above q (acc +:+ p).
Proof.
  revert acc. induction p as [|c p IH]; intros acc; simpl.
  - rewrite list_elem_of_singleton, sapp_nil_r. by left.
  - rewrite elem_of_app. intros [Hq|Hq].
    + case_bool_decide as Hc; [|set_solver]. apply list_elem_of_singleton in Hq. subst.
      right. apply HasPrefix_spec. exists p. by rewrite sapp_assoc.
    + apply IH in Hq. by rewrite sapp_assoc in Hq.
Qed.

#[export] Instance MemFS_laws : FileSystemLaws MemFS.
Proof.
  refine {| file f p := mem_files f !! p; is_dir f p := p ∈ mem_dirs f |}; simpl.
  - intros p f r f' q. by destruct (faults f (mem_ops f)); intros [= <- <-].
  - intros p f r f' q. destruct (faults f (mem_ops f)); intros [= <- <-]; simpl; [by left|].
    rewrite elem_of_union, elem_of_list_to_set. intros [Hq|Hq]; [right|by left].
    by apply dirs_of_above in Hq.
  - intros p f Hs. destruct (bool_decide (is_Some _)) eqn:E1; [apply bool_decide_eq_true in E1; by left|].
    right. by case_bool_decide.
  - intros p f e. destruct (bool_decide (is_Some _)) eqn:E1; [done|].
    intros _ _. apply bool_decide_eq_false in E1. by apply eq_None_not_Some.
  - intros p d f f'. case_bool_decide; [done|]. destruct (faults f (mem_ops f)); [done|].
    intros [= <-]. simpl. by rewrite lookup_insert_eq.
  - intros p d f e f'. case_bool_decide; [intros [= <- <-]; by left|].
    destruct (faults f (mem_ops f)) as [n|]; [|done]. intros [= <- <-]. right. exists n. simpl.
    by rewrite lookup_insert_eq.
  - intros p d f r f' q. case_bool_decide; [by intros [= <- <-]|].
    destruct (faults f (mem_ops f)); intros [= <- <-] Hq; simpl; by rewrite lookup_insert_ne.
  - intros p d f r f' q. case_bool_decide; [by intros [= <- <-]|].
    by destruct (faults f (mem_ops f)); intros [= <- <-].
  - intros p f d. destruct (mem_files f !! p); split; congruence.
Defined.

(** ** Keys and paths *)

Lemma sforall_not_sexists p s : sexists p s = false <-> sforall (fun a => negb (p a)) s = true.
Proof. induction s as [|a s IH]; simpl; [done|]. destruct (p a); simpl; [done|exact IH]. Qed.

Lemma ContainsAny_separators k :
  ContainsAny k "/\" = false <-> no_char slash k = true /\ no_char "\" k = true.
Proof.
  unfold ContainsAny. rewrite sforall_not_sexists. unfold no_char.
  induction k as [|a k IH]; simpl; [done|]. rewrite !andb_true_iff, IH, !negb_true_iff, orb_false_r.
  rewrite orb_false_iff. unfold slash. tauto.
Qed.

Lemma Base_plain k : k <> EmptyString -> no_char slash k = true -> Base k = k.
Proof.
  intros Hne Hk. unfold Base. destruct k as [|a k]; [done|]. by rewrite Split_no_char.
Qed.

Lemma validateKey_accepts k :
  validateKey k = None <-> k <> EmptyString /\ no_char slash k = true /\ no_char "\" k = true.
Proof.
  unfold validateKey. rewrite <-ContainsAny_separators. split.
  - destruct (bool_decide (k = EmptyString)) eqn:E1, (bool_decide (Base k = k)), (ContainsAny k "/\"); try done.
    apply bool_decide_eq_false in E1. done.
  - intros [Hne Hk]. rewrite bool_decide_eq_false_2 by done. simpl.
    rewrite bool_decide_eq_true_2; [by rewrite Hk|]. apply Base_plain; [done|].
    by apply ContainsAny_separators.
Qed.

(** A key that names a file of its directory. *)
Definition plain_key (k : string) : Prop := plain_elem k /\ no_char "\" k = true.

Lemma plain_key_valid k : plain_key k -> validateKey k = None.
Proof. intros [(? & _ & _ & ?) ?]. by apply validateKey_accepts. Qed.

(** What the store keeps: raw messages by hash, attachments by message and key. *)
Inductive blob := Raw (hash : string) | Att (messageID : Z) (key : string).
#[export] Instance blob_eq_dec : EqDecision blob.
Proof. solve_decision. Defined.

Definition blob_ok (b : blob) : Prop :=
  match b with Raw h => plain_key h | Att id k => 0 < id /\ in_int64 id /\ plain_key k end.
Definition blob_elems (b : blob) : list string :=
  match b with
  | Raw h => ["raw"; h]
  | Att id k => ["attachments"; FormatInt id; k]
  end%string.
Definition blob_path (s : Storage) (b : blob) : string := path_Join (baseDir s :: blob_elems b).

Lemma plain_FormatInt id : 0 < id -> plain_elem (FormatInt id).
Proof.
  intros. unfold FormatInt. destruct (Z.ltb_spec id 0); [lia|]. apply plain_digits. lia.
Qed.

Lemma plain_names : plain_elem "raw" /\ plain_elem "attachments".
Proof. split; by vm_compute. Qed.

Ltac forall_plain :=
  repeat (apply Forall_cons_2; [first [assumption | by apply plain_FormatInt]|]); apply Forall_nil_2.

Lemma blob_elems_plain b : blob_ok b -> Forall plain_elem (blob_elems b).
Proof.
  destruct plain_names. destruct b as [h|id k]; simpl.
  - intros [? _]. forall_plain.
  - intros (? & _ & [? _]). forall_plain.
Qed.

Lemma blob_path_eq s b :
  baseDir s <> EmptyString -> blob_ok b -> blob_path s b = dir_prefix (baseDir s) +:+ Join (blob_elems b) "/".
Proof.
  intros Hb Hok. apply path_Join_plain; [done|by destruct b|by apply blob_elems_plain].
Qed.

Lemma blob_path_inj s b b' :
  baseDir s <> EmptyString -> blob_ok b -> blob_ok b' -> blob_path s b = blob_path s b' -> b = b'.
Proof.
  intros Hb Hok Hok'. rewrite !blob_path_eq by done. intros H%sapp_inj_l.
  assert (Split (Join (blob_elems b) "/") slash = Split (Join (blob_elems b') "/") slash) as Hs by (by rewrite H).
  assert (forall b0, blob_ok b0 -> Split (Join (blob_elems b0) "/") slash = blob_elems b0) as Hsp.
  { intros b0 H0. apply Split_Join; [by destruct b0|].
    eapply Forall_impl; [by apply blob_elems_plain|]. by intros x (_ & _ & _ & ?). }
  rewrite !Hsp in Hs by done. destruct b as [h|id k], b' as [h'|id' k']; simpl in Hs; try done.
  - by injection Hs as ->.
  - injection Hs as Hi ->. destruct Hok as (_ & ? & _), Hok' as (_ & ? & _). by rewrite (FormatInt_inj id id').
Qed.

(** The directories the operations create are not the path of a blob. *)
Definition store_dir (d : string) (s : Storage) : Prop :=
  d = path_Join [baseDir s; "raw"%string] \/ d = path_Join [baseDir s; "attachments"%string] \/
  exists id, 0 < id /\ d = path_Join [baseDir s; "attachments"%string; FormatInt id].

Lemma blob_not_above s b d :
  baseDir s <> EmptyString -> blob_ok b -> store_dir d s -> ~ above (blob_path s b) d.
Proof.
  intros Hb Hok Hd. destruct plain_names as [Hp1 Hp2].
  assert (exists cs, d = dir_prefix (baseDir s) +:+ Join cs "/" /\ Forall plain_elem cs /\
    (cs = ["raw"] \/ cs = ["attachments"] \/ exists i, cs = ["attachments"; i])%string /\ cs <> []) as (cs & -> & Hcs & Hsh & Hne).
  { destruct Hd as [->|[->|(id & Hid & ->)]]; rewrite path_Join_plain by (done || forall_plain).
    - exists ["raw"%string]. split_and!; [done|forall_plain|by left|done].
    - exists ["attachments"%string]. split_and!; [done|forall_plain|right; by left|done].
    - exists ["attachments"%string; FormatInt id]. split_and!; [done|forall_plain|right; right; eauto|done]. }
  rewrite blob_path_eq by done.
  assert (Split (Join cs "/") slash = cs) as Hscs.
  { apply Split_Join; [done|]. eapply Forall_impl; [exact Hcs|]. by intros x (_ & _ & _ & ?). }
  assert (Split (Join (blob_elems b) "/") slash = blob_elems b) as Hsb.
  { apply Split_Join; [by destruct b|].
    eapply Forall_impl; [by apply blob_elems_plain|]. by intros x (_ & _ & _ & ?). }
  intros [H|H].
  - apply sapp_inj_l in H. rewrite <-H, Hsb in Hscs. rewrite <-Hscs in Hsh.
    destruct b; simpl in Hsh; destruct Hsh as [?|[?|[? ?]]]; try done; by destruct Hne.
  - apply HasPrefix_spec in H as [t H]. rewrite !sapp_assoc in H. apply sapp_inj_l in H.
    assert (cs = blob_elems b ++ Split t slash) as Hc.
    { rewrite <-Hscs, H. change ("/" +:+ t) with (String slash t). by rewrite Split_app, Hsb. }
    pose proof (Split_nonempty t slash). destruct (Split t slash) as [|x l] eqn:E; [done|].
    rewrite Hc in Hsh. destruct b; simpl in Hsh; destruct Hsh as [?|[?|[? ?]]]; done.
Qed.

(** ** The store as a map from blobs to contents *)

Section blob_map.
Context {F : Type} `{FileSystemLaws F} (s : Storage) (base_ne : baseDir s <> EmptyString).

Definition blob_get (f : F) (b : blob) : option string := file f (blob_path s b).

(** No blob's path is taken by a directory. *)
Definition no_blob_dirs (f : F) : Prop := forall b, blob_ok b -> ~ is_dir f (blob_path s b).

(** [f'] differs from [f] at most at [b]. *)
Definition only_at (b : blob) (f f' : F) : Prop :=
  (forall b', blob_ok b' -> b' <> b -> blob_get f' b' = blob_get f b') /\
  (no_blob_dirs f -> no_blob_dirs f').

Lemma mkdir_only_at b p f r f' :
  store_dir p s -> os_MkdirAll p f = (r, f') ->
  only_at b f f' /\ forall b', blob_get f' b' = blob_get f b'.
Proof using base_ne.
  intros Hp Hm. split; [split|].
  - intros b' _ _. by eapply mkdir_files.
  - intros Hn b' Hb' Hd. destruct (mkdir_dirs _ _ _ _ _ Hm Hd) as [?|Ha]; [by eapply Hn|].
    by eapply (blob_not_above s b').
  - intros b'. by eapply mkdir_files.
Qed.

Lemma write_only_at b d f r f' :
  blob_ok b -> os_WriteFile (blob_path s b) d f = (r, f') -> only_at b f f'.
Proof using base_ne.
  intros Hb Hw. split.
  - intros b' Hb' Hne. eapply write_other; [done|]. intros He. by apply blob_path_inj in He.
  - intros Hn b' Hb' Hd. eapply Hn; [done|]. by eapply write_dirs.
Qed.

Lemma only_at_refl b f : only_at b f f.
Proof using. done. Qed.

Lemma only_at_trans b f1 f2 f3 : only_at b f1 f2 -> only_at b f2 f3 -> only_at b f1 f3.
Proof using. intros [H1 H2] [H3 H4]. split; [|tauto]. intros. rewrite H3; auto. Qed.

(** Writing a blob: the whole content, or what a failed write leaves. *)
Definition written (r : result unit) (d : string) (old new : option string) : Prop :=
  match r with
  | Ok _ => new = Some d
  | Err _ => new = old \/ exists n, new = Some (stake n d)
  end.

Lemma write_written b d f r f' :
  os_WriteFile (blob_path s b) d f = (r, f') -> written r d (blob_get f b) (blob_get f' b).
Proof using. intros Hw. destruct r as [[]|e]; simpl; [by eapply write_ok|by eapply write_err]. Qed.

Lemma store_dir_raw : store_dir (path_Join [baseDir s; "raw"%string]) s.
Proof using. by left. Qed.

(** The paths that the operations build are those of the blobs. *)
Lemma Dir_raw_path h : plain_key h -> Dir (blob_path s (Raw h)) = path_Join [baseDir s; "raw"%string].
Proof using base_ne.
  intros [? _]. destruct plain_names. apply (Dir_path_Join _ ["raw"%string]); [done|done|forall_plain|done].
Qed.

Lemma attachment_path id k :
  blob_ok (Att id k) ->
  path_Join [path_Join [baseDir s; "attachments"%string; FormatInt id]; k] = blob_path s (Att id k).
Proof using base_ne.
  intros (Hid & _ & [? _]). destruct plain_names. apply (path_Join_nested _ ["attachments"; FormatInt id]%string);
    [done|done|forall_plain|done].
Qed.

Lemma SaveRawMIME_spec h d f r f' :
  plain_key h -> no_blob_dirs f -> SaveRawMIME s h d f = (r, f') ->
  only_at (Raw h) f f' /\
  match blob_get f (Raw h) with
  | Some old => blob_get f' (Raw h) = Some old
  | None => written r d None (blob_get f' (Raw h))
  end.
Proof using base_ne.
  intros Hh Hn. unfold SaveRawMIME. rewrite plain_key_valid by done.
  change (path_Join [baseDir s; "raw"%string; h]) with (blob_path s (Raw h)).
  destruct (os_Stat _ f) as [[]|e] eqn:Es.
  { intros [= <- <-]. split; [done|]. destruct (stat_ok _ _ Es) as [[old Ho]|Hd].
    - unfold blob_get. by rewrite Ho.
    - by destruct (Hn (Raw h) Hh). }
  destruct (os_IsNotExist e) eqn:Ee; simpl.
  2:{ intros [= <- <-]. split; [done|]. destruct (blob_get f (Raw h)) eqn:E; [done|by left]. }
  assert (blob_get f (Raw h) = None) as Hnone by (by eapply stat_missing).
  rewrite Hnone.
  rewrite Dir_raw_path by done.
  destruct (os_MkdirAll _ f) as [[[]|e1] f1] eqn:Em;
    destruct (mkdir_only_at (Raw h) _ _ _ _ store_dir_raw Em) as [Hm1 Hm2].
  2:{ intros [= <- <-]. split; [done|]. left. by rewrite Hm2. }
  destruct (os_WriteFile _ d f1) as [[[]|e2] f2] eqn:Ew;
    pose proof (write_only_at (Raw h) _ _ _ _ Hh Ew) as H3;
    pose proof (write_written (Raw h) _ _ _ _ Ew) as H4; simpl in H4;
    intros [= <- <-]; (split; [by eapply only_at_trans|]); [done|].
  by rewrite Hm2, Hnone in H4.
Qed.

Lemma SaveAttachment_spec id k d f r f' :
  blob_ok (Att id k) -> SaveAttachment s id k d f = (r, f') ->
  only_at (Att id k) f f' /\ written r d (blob_get f (Att id k)) (blob_get f' (Att id k)).
Proof using base_ne.
  intros Hb. pose proof Hb as (Hid & Hint & Hk). unfold SaveAttachment.
  destruct (Z.leb_spec id 0); [lia|]. rewrite plain_key_valid by done.
  rewrite attachment_path by done.
  assert (store_dir (path_Join [baseDir s; "attachments"%string; FormatInt id]) s) as Hd
    by (right; right; eauto).
  destruct (os_MkdirAll _ f) as [[[]|e1] f1] eqn:Em;
    destruct (mkdir_only_at (Att id k) _ _ _ _ Hd Em) as [Hm1 Hm2].
  2:{ intros [= <- <-]. split; [done|]. left. by rewrite Hm2. }
  destruct (os_WriteFile _ d f1) as [[[]|e2] f2] eqn:Ew;
    pose proof (write_only_at (Att id k) _ _ _ _ Hb Ew) as H3;
    pose proof (write_written (Att id k) _ _ _ _ Ew) as H4; simpl in H4;
    intros [= <- <-]; (split; [by eapply only_at_trans|]); [done|].
  by rewrite Hm2 in H4.
Qed.

Lemma ReadRawMIME_spec h f d : plain_key h -> ReadRawMIME s h f = Ok d <-> blob_get f (Raw h) = Some d.
Proof using.
  intros Hh. unfold ReadRawMIME. rewrite plain_key_valid by done.
  change (path_Join [baseDir s; "raw"%string; h]) with (blob_path s (Raw h)).
  unfold blob_get. rewrite <-read_file. by destruct (os_ReadFile _ f).
Qed.

Lemma ReadAttachment_spec id k f d :
  blob_ok (Att id k) -> ReadAttachment s id k f = Ok d <-> blob_get f (Att id k) = Some d.
Proof using.
  intros (Hid & _ & Hk). unfold ReadAttachment. destruct (Z.leb_spec id 0); [lia|].
  rewrite plain_key_valid by done. unfold blob_get. rewrite <-read_file.
  change (path_Join [baseDir s; "attachments"%string; FormatInt id; k]) with (blob_path s (Att id k)).
  by destruct (os_ReadFile _ f).
Qed.
End blob_map.

(** [NewStorage] creates directories only, none of them in the place of a blob. *)
Lemma NewStorage_spec {F} `{FileSystemLaws F} base (f : F) s f' :
  NewStorage base f = (Ok s, f') ->
  s = mkStorage base /\ base <> EmptyString /\ (forall b, blob_get s f' b = blob_get s f b) /\
  (no_blob_dirs s f -> no_blob_dirs s f').
Proof.
  unfold NewStorage. case_bool_decide as Hb; [done|]. assert (base <> EmptyString) as Hne by (by intros ->).
  destruct (os_MkdirAll _ f) as [[[]|e] f1] eqn:E1; [|done].
  destruct (os_MkdirAll _ f1) as [[[]|e] f2] eqn:E2; [|done]. intros [= <- <-].
  apply (mkdir_only_at (mkStorage base) Hne (Raw "x")) in E1 as [[_ Hd1] Hg1]; [|by left].
  apply (mkdir_only_at (mkStorage base) Hne (Raw "x")) in E2 as [[_ Hd2] Hg2]; [|right; by left].
  split_and!; [done|done| |auto]. intros b. by rewrite Hg2, Hg1.
Qed.

(** ** Properties *)

(** A storage key is accepted exactly when it is not empty and contains
    neither a slash nor a backslash. (The keys [.] and [..] are accepted.) *)
Theorem validateKey_spec k :
  validateKey k = None <-> k <> EmptyString /\ no_char slash k = true /\ no_char "\" k = true.
Proof. apply validateKey_accepts. Qed.

(** Blobs cannot escape the data directory or each other: the path of every
    blob is the cleaned data directory followed by [raw/] or [attachments/] and
    its elements, and two blobs (raw messages by hash, attachments by message id
    and key) have the same path only if they are the same blob. *)
Theorem blob_paths_contained_and_distinct s b b' :
  baseDir s <> EmptyString -> blob_ok b -> blob_ok b' ->
  blob_path s b = dir_prefix (baseDir s) +:+ Join (blob_elems b) "/" /\
  (blob_path s b = blob_path s b' -> b = b').
Proof. intros Hb Hok Hok'. split; [by apply blob_path_eq|by apply blob_path_inj]. Qed.

(** C14: The store is a map from blobs to contents, over any file system with the
    documented behaviour. A successful SaveRawMIME binds the hash to the data
    unless it was bound already, and then leaves the first content; a successful
    SaveAttachment binds the blob to the data; no operation, successful or not,
    changes any other blob; and the reads are lookups. *)
Theorem storage_is_a_blob_map {F} `{FileSystemLaws F} s :
  baseDir s <> EmptyString ->
  (forall h d f r f', plain_key h -> no_blob_dirs s f -> SaveRawMIME s h d f = (r, f') ->
     only_at s (Raw h) f f' /\
     (r = Ok tt -> blob_get s f' (Raw h) = Some (default d (blob_get s f (Raw h))))) /\
  (forall id k d f r f', blob_ok (Att id k) -> SaveAttachment s id k d f = (r, f') ->
     only_at s (Att id k) f f' /\ (r = Ok tt -> blob_get s f' (Att id k) = Some d)) /\
  (forall h f d, plain_key h -> ReadRawMIME s h f = Ok d <-> blob_get s f (Raw h) = Some d) /\
  (forall id k f d, blob_ok (Att id k) ->
     ReadAttachment s id k f = Ok d <-> blob_get s f (Att id k) = Some d).
Proof.
  intros Hb. split_and!.
  - intros h d f r f' Hh Hn Hs. destruct (SaveRawMIME_spec s Hb _ _ _ _ _ Hh Hn Hs) as [Ho Hw].
    split; [done|]. intros ->. by destruct (blob_get s f (Raw h)).
  - intros id k d f r f' Hok Hs. destruct (SaveAttachment_spec s Hb _ _ _ _ _ _ Hok Hs) as [Ho Hw].
    split; [done|]. by intros ->.
  - intros. by apply ReadRawMIME_spec.
  - intros. by apply ReadAttachment_spec.
Qed.

(** A raw message whose write failed half way is never repaired. If
    SaveRawMIME fails on a new hash and leaves a partial file, the file holds a
    prefix of the message, and every later SaveRawMIME of the same message that
    reports success has changed nothing: reading the message back still gives
    the truncated content. *)
Theorem torn_raw_message_stays {F} `{FileSystemLaws F} s h d f e f1 t f2 :
  baseDir s <> EmptyString -> plain_key h -> no_blob_dirs s f -> blob_get s f (Raw h) = None ->
  SaveRawMIME s h d f = (Err e, f1) -> blob_get s f1 (Raw h) = Some t ->
  SaveRawMIME s h d f1 = (Ok tt, f2) ->
  (exists n, t = stake n d) /\ ReadRawMIME s h f2 = Ok t.
Proof.
  intros Hb Hh Hn Hnone Hs1 Ht Hs2.
  destruct (SaveRawMIME_spec s Hb _ _ _ _ _ Hh Hn Hs1) as [Ho Hw]. rewrite Hnone in Hw. simpl in Hw.
  assert (no_blob_dirs s f1) as Hn1 by (by apply Ho).
  destruct (SaveRawMIME_spec s Hb _ _ _ _ _ Hh Hn1 Hs2) as [_ Hr]. rewrite Ht in Hr.
  split; [|by apply ReadRawMIME_spec]. rewrite Ht in Hw. destruct Hw as [?|[n Hw]]; [done|].
  exists n. congruence.
Qed.

(** ** The theorems at concrete inputs *)

Module Demo.
Definition store : Storage := mkStorage "./data".
Definition h : string := "0a1b".
(** The disk is full at the second change: two bytes are written. *)
Definition fs0 : MemFS := mem_new (fun n => if bool_decide (n = 1%nat) then Some 2%nat else None).
Definition fs1 : MemFS := (SaveRawMIME store h "From: a" fs0).2.

Lemma h_plain : plain_key h.
Proof. split; [split_and!|]; by vm_compute. Qed.

Lemma fs0_ok : no_blob_dirs store fs0.
Proof. intros b _. simpl. set_solver. Qed.
End Demo.

Lemma blob_paths_contained_and_distinct_witness :
  blob_path Demo.store (Raw Demo.h) = "data/raw/0a1b"%string /\
  blob_path Demo.store (Raw Demo.h) <> blob_path Demo.store (Att 7 Demo.h).
Proof.
  destruct (blob_paths_contained_and_distinct Demo.store (Raw Demo.h) (Att 7 Demo.h)) as [H1 H2].
  - done.
  - exact Demo.h_plain.
  - split; [lia|]. split; [by vm_compute|exact Demo.h_plain].
  - split; [rewrite H1; by vm_compute|]. intros H. discriminate (H2 H).
Defined.

Lemma storage_is_a_blob_map_witness :
  ReadRawMIME Demo.store Demo.h (SaveRawMIME Demo.store Demo.h "From: a" (mem_new (fun _ => None))).2
  = Ok "From: a"%string.
Proof.
  destruct (storage_is_a_blob_map (F := MemFS) Demo.store) as (H1 & _ & H3 & _); [done|].
  apply (H3 _ _ _ Demo.h_plain).
  destruct (H1 Demo.h "From: a"%string (mem_new (fun _ => None)) (Ok tt)
    (SaveRawMIME Demo.store Demo.h "From: a" (mem_new (fun _ => None))).2 Demo.h_plain) as [_ H].
  - intros b _. simpl. set_solver.
  - reflexivity.
  - rewrite (H eq_refl). reflexivity.
Defined.

Lemma torn_raw_message_stays_witness :
  ReadRawMIME Demo.store Demo.h (SaveRawMIME Demo.store Demo.h "From: a" Demo.fs1).2 = Ok "Fr"%string.
Proof.
  apply (torn_raw_message_stays Demo.store Demo.h "From: a" Demo.fs0 (EWrap "write raw MIME" ErrInjected) Demo.fs1 "Fr").
  - done.
  - exact Demo.h_plain.
  - exact Demo.fs0_ok.
  - by vm_compute.
  - unfold Demo.fs1. reflexivity.
  - by vm_compute.
  - reflexivity.
Defined.
