(* ===== verification/Sha256.v ===== *)
(** * SHA-256 and content hashes ([HashBytes] of internal/ingest/parser.go)

    [crypto/sha256] as FIPS 180-4 defines it, on 32-bit words, checked against
    the standard's test vectors. *)

From S2P Require Export GoStrings.

Open Scope Z_scope.

Module Sha.
Definition w32 (z : Z) : Z := Z.land z 4294967295.
Definition rotr (n x : Z) : Z := Z.lor (Z.shiftr x n) (w32 (Z.shiftl x (32 - n))).
Definition not32 (x : Z) : Z := Z.lxor x 4294967295.

Definition Ch (x y z : Z) : Z := Z.lxor (Z.land x y) (Z.land (not32 x) z).
Definition Maj (x y z : Z) : Z := Z.lxor (Z.lxor (Z.land x y) (Z.land x z)) (Z.land y z).
Definition Sigma0 (x : Z) : Z := Z.lxor (Z.lxor (rotr 2 x) (rotr 13 x)) (rotr 22 x).
Definition Sigma1 (x : Z) : Z := Z.lxor (Z.lxor (rotr 6 x) (rotr 11 x)) (rotr 25 x).
Definition sigma0 (x : Z) : Z := Z.lxor (Z.lxor (rotr 7 x) (rotr 18 x)) (Z.shiftr x 3).
Definition sigma1 (x : Z) : Z := Z.lxor (Z.lxor (rotr 17 x) (rotr 19 x)) (Z.shiftr x 10).

Definition K : list Z :=
  [1116352408; 1899447441; 3049323471; 3921009573; 961987163; 1508970993; 2453635748; 2870763221;
   3624381080; 310598401; 607225278; 1426881987; 1925078388; 2162078206; 2614888103; 3248222580;
   3835390401; 4022224774; 264347078; 604807628; 770255983; 1249150122; 1555081692; 1996064986;
   2554220882; 2821834349; 2952996808; 3210313671; 3336571891; 3584528711; 113926993; 338241895;
   666307205; 773529912; 1294757372; 1396182291; 1695183700; 1986661051; 2177026350; 2456956037;
   2730485921; 2820302411; 3259730800; 3345764771; 3516065817; 3600352804; 4094571909; 275423344;
   430227734; 506948616; 659060556; 883997877; 958139571; 1322822218; 1537002063; 1747873779;
   1955562222; 2024104815; 2227730452; 2361852424; 2428436474; 2756734187; 3204031479; 3329325298].

Record state := mkState { sa : Z; sb : Z; sc : Z; sd : Z; se : Z; sf : Z; sg : Z; sh : Z }.

Definition init : state :=
  mkState 1779033703 3144134277 1013904242 2773480762 1359893119 2600822924 528734635 1541459225.

(** The message schedule, most recent word first: [n] more words. *)
Fixpoint schedule (n : nat) (ws : list Z) : list Z :=
  match n with
  | O => ws
  | S n' =>
      let w := w32 (sigma1 (nth 1 ws 0) + nth 6 ws 0 + sigma0 (nth 14 ws 0) + nth 15 ws 0) in
      schedule n' (w :: ws)
  end.

Definition round (s : state) (kw : Z * Z) : state :=
  let '(k, w) := kw in
  let t1 := sh s + Sigma1 (se s) + Ch (se s) (sf s) (sg s) + k + w in
  let t2 := Sigma0 (sa s) + Maj (sa s) (sb s) (sc s) in
  mkState (w32 (t1 + t2)) (sa s) (sb s) (sc s) (w32 (sd s + t1)) (se s) (sf s) (sg s).

(** One block of sixteen words. *)
Definition compress (s : state) (block : list Z) : state :=
  let r := fold_left round (combine K (rev (schedule 48 (rev block)))) s in
  mkState (w32 (sa s + sa r)) (w32 (sb s + sb r)) (w32 (sc s + sc r)) (w32 (sd s + sd r))
    (w32 (se s + se r)) (w32 (sf s + sf r)) (w32 (sg s + sg r)) (w32 (sh s + sh r)).

(** ** Padding and parsing *)

Definition be_bytes (n : nat) (z : Z) : list Z :=
  map (fun i => Z.land (Z.shiftr z (8 * Z.of_nat i)) 255) (rev (seq 0 n)).

Fixpoint bytes_of (s : string) : list Z :=
  match s with EmptyString => [] | String c s' => code c :: bytes_of s' end.

Definition pad (data : list Z) : list Z :=
  let n := Z.of_nat (length data) in
  data ++ 128 :: repeat 0 (Z.to_nat ((55 - n) mod 64)) ++ be_bytes 8 (8 * n).

Fixpoint words (fuel : nat) (bs : list Z) : list Z :=
  match fuel, bs with
  | S fuel', a :: b :: c :: d :: bs' =>
      Z.lor (Z.shiftl a 24) (Z.lor (Z.shiftl b 16) (Z.lor (Z.shiftl c 8) d)) :: words fuel' bs'
  | _, _ => []
  end.

Fixpoint blocks (fuel : nat) (s : state) (ws : list Z) : state :=
  match fuel, ws with
  | S fuel', _ :: _ => blocks fuel' (compress s (firstn 16 ws)) (skipn 16 ws)
  | _, _ => s
  end.

Fixpoint string_of (bs : list Z) : string :=
  match bs with [] => EmptyString | b :: bs' => String (byte b) (string_of bs') end.

(** [sha256.Sum256(data)]: 32 bytes. *)
Definition Sum256 (data : string) : string :=
  let ws := pad (bytes_of data) in
  let ws := words (length ws) ws in
  let s := blocks (length ws) init ws in
  string_of (be_bytes 4 (sa s) ++ be_bytes 4 (sb s) ++ be_bytes 4 (sc s) ++ be_bytes 4 (sd s)
             ++ be_bytes 4 (se s) ++ be_bytes 4 (sf s) ++ be_bytes 4 (sg s) ++ be_bytes 4 (sh s)).
End Sha.

Definition HashBytes (data : string) : string := hex_EncodeToString (Sha.Sum256 data).

Example sha256_abc :
  HashBytes "abc" = "ba7816bf8f01cfea414140de5dae2223b00361a396177a9cb410ff61f20015ad"%string.
Proof. by vm_compute. Qed.

Example sha256_empty :
  HashBytes "" = "e3b0c44298fc1c149afbf4c8996fb92427ae41e4649b934ca495991b7852b855"%string.
Proof. by vm_compute. Qed.

Example sha256_two_blocks :
  HashBytes "abcdbcdecdefdefgefghfghighijhijkijkljklmklmnlmnomnopnopq" =
  "248d6a61d20638b8e5c026930c3e6039a33ce45964ff2167f6ecedd419db06c1"%string.
Proof. by vm_compute. Qed.

(** ** The padding fills whole blocks, so no byte of the message is left out *)

Lemma be_bytes_length n z : length (Sha.be_bytes n z) = n.
Proof. unfold Sha.be_bytes. by rewrite length_map, length_rev, length_seq. Qed.

#[local] Ltac Zify.zify_post_hook ::= Z.to_euclidean_division_equations.

Lemma pad_length bs : exists k, length (Sha.pad bs) = (64 * k)%nat.
Proof.
  unfold Sha.pad. rewrite length_app. simpl. rewrite length_app, repeat_length, be_bytes_length.
  set (n := length bs). exists (Z.to_nat ((Z.of_nat n + 1 + (55 - Z.of_nat n) mod 64 + 8) / 64)). lia.
Qed.

Lemma string_of_length bs : String.length (Sha.string_of bs) = length bs.
Proof. induction bs; simpl; congruence. Qed.

Lemma Sum256_length data : String.length (Sha.Sum256 data) = 32%nat.
Proof. unfold Sha.Sum256. by rewrite string_of_length, !length_app, !be_bytes_length. Qed.

Lemma HashBytes_shape data :
  String.length (HashBytes data) = 64%nat /\ sforall is_hex (HashBytes data) = true.
Proof.
  unfold HashBytes. split; [|apply hex_chars]. by rewrite hex_length, Sum256_length.
Qed.

(** Proofs never look inside the hash; evaluation still does. *)
#[global] Opaque HashBytes.
