(* ===== verification/Sql.v ===== *)
(** * database/sql and the tables (internal/db/migrations/001)

    The code talks to MariaDB through statement texts with placeholders. The
    driver is an interface at that level, [SQLDriver]; what the server promises
    for the texts the code sends is [SQLDriverLaws], stated over the rows of the
    four tables of migration 001. How the server compares strings (its
    collation), what it matches in a full-text search and how it rounds a
    DATETIME are parameters. [MemDB] implements the interface. *)

From S2P Require Export Http.
From stdpp Require Export sorting.

Open Scope Z_scope.

(** ** Values, rows and scanning *)

Inductive sqlval := VNull | VInt (z : Z) | VStr (s : string) | VTime (t : Z).

#[export] Instance sqlval_eq_dec : EqDecision sqlval.
Proof. solve_decision. Defined.

Definition ErrNoRows : error := ESentinel "sql.ErrNoRows" "sql: no rows in result set".
Definition ErrScan : error := EText "sql: Scan error".

(** [*sql.Rows]: the rows [Next] delivers, and [Err] after the last one. *)
Record Rows := mkRows { rows : list (list sqlval); rows_Err : option error }.

(** Scanning a column into a [string], an [int64] and a [time.Time]. *)
Definition scan_string (v : sqlval) : result string :=
  match v with VStr s => Ok s | VInt z => Ok (FormatInt z) | _ => Err ErrScan end.
Definition scan_int (v : sqlval) : result Z :=
  match v with
  | VInt z => Ok z
  | VStr s => match ParseInt s with Some z => Ok z | None => Err ErrScan end
  | _ => Err ErrScan
  end.
Definition scan_time (v : sqlval) : result Z :=
  match v with VTime t => Ok t | _ => Err ErrScan end.

(** ** The interface *)

(** [T] is the state of an open transaction. A transaction that is not committed
    is rolled back. *)
Class SQLDriver (D T : Type) := {
  db_Query : string -> list sqlval -> D -> result Rows;
  db_Exec : string -> list sqlval -> D -> result Z * D;
  db_Begin : D -> result T;
  tx_Exec : string -> list sqlval -> T -> result Z * T;
  tx_Commit : T -> D -> result unit * D
}.

(** [db.QueryRow(q, args...).Scan(...)] *)
Definition QueryRow {D T A} `{SQLDriver D T} (scan : list sqlval -> result A)
  (q : string) (args : list sqlval) (d : D) : result A :=
  match db_Query q args d with
  | Err e => Err e
  | Ok rs =>
      match rows rs with
      | [] => match rows_Err rs with Some e => Err e | None => Err ErrNoRows end
      | row :: _ => scan row
      end
  end.

(** [for rows.Next() { rows.Scan(...) ... }; rows.Err()] *)
Fixpoint scan_rows {A} (scan : list sqlval -> result A) (rs : list (list sqlval)) : result (list A) :=
  match rs with
  | [] => Ok []
  | row :: rs' => a ← scan row; l ← scan_rows scan rs'; Ok (a :: l)
  end.

(** ** The tables *)

Record MessageRow := mkMessage {
  m_id : Z; m_cloudflare_message_id : string; m_content_hash : string; m_sender : string;
  m_subject : option string; m_message_date : Z; m_received_at : Z;
  m_text_body : option string; m_html_body : option string; m_raw_mime_path : string;
  m_parser_status : string; m_parser_error : option string
}.
Record RecipientRow := mkRecipientRow {
  r_id : Z; r_message_id : Z; r_recipient_email : string; r_recipient_type : string; r_received_at : Z
}.
Record AttachmentRow := mkAttachmentRow {
  a_id : Z; a_message_id : Z; a_storage_key : string; a_original_filename : option string;
  a_mime_type : string; a_size_bytes : Z; a_content_hash : string
}.
Record EventRow := mkEvent {
  e_id : Z; e_cloudflare_message_id : string; e_content_hash : string; e_status : string
}.
Record Tables := mkTables {
  messages : list MessageRow;
  message_recipients : list RecipientRow;
  attachments : list AttachmentRow;
  ingest_events : list EventRow
}.

Definition no_tables : Tables := mkTables [] [] [] [].

Definition add_message (m : MessageRow) (t : Tables) : Tables :=
  mkTables (messages t ++ [m]) (message_recipients t) (attachments t) (ingest_events t).
Definition add_recipient (r : RecipientRow) (t : Tables) : Tables :=
  mkTables (messages t) (message_recipients t ++ [r]) (attachments t) (ingest_events t).
Definition add_attachment (a : AttachmentRow) (t : Tables) : Tables :=
  mkTables (messages t) (message_recipients t) (attachments t ++ [a]) (ingest_events t).
Definition add_event (e : EventRow) (t : Tables) : Tables :=
  mkTables (messages t) (message_recipients t) (attachments t) (ingest_events t ++ [e]).

Definition nullable (o : option string) : sqlval := match o with Some s => VStr s | None => VNull end.
(** [COALESCE(column, '')] *)
Definition coalesce (o : option string) : sqlval := VStr (default EmptyString o).

(** ** Statements *)

Definition sql_duplicate : string := "SELECT id FROM ingest_events WHERE content_hash = ? LIMIT 1".
Definition sql_insert_message : string :=
  "INSERT INTO messages (cloudflare_message_id, content_hash, sender, subject, message_date, received_at, text_body, html_body, raw_mime_path, parser_status, parser_error) VALUES (?, ?, ?, ?, ?, ?, ?, ?, ?, ?, ?)".
Definition sql_insert_recipient : string :=
  "INSERT INTO message_recipients (message_id, recipient_email, recipient_type, received_at) VALUES (?, ?, ?, ?)".
Definition sql_insert_attachment : string :=
  "INSERT INTO attachments (message_id, storage_key, original_filename, mime_type, size_bytes, content_hash) VALUES (?, ?, ?, ?, ?, ?)".
Definition sql_insert_event : string :=
  "INSERT INTO ingest_events (cloudflare_message_id, content_hash, status) VALUES (?, ?, 'accepted')".

Definition sql_raw_admin : string := "SELECT content_hash FROM messages WHERE id = ?".
Definition sql_raw_user : string :=
  "SELECT m.content_hash FROM messages m WHERE m.id = ? AND EXISTS (SELECT 1 FROM message_recipients mr WHERE mr.message_id = m.id AND mr.recipient_email = ?)".
Definition sql_message_admin : string :=
  "SELECT id, sender, COALESCE(subject,''), message_date, received_at, COALESCE(text_body,''), COALESCE(html_body,''), parser_status FROM messages WHERE id = ?".
Definition sql_message_user : string :=
  "SELECT m.id, m.sender, COALESCE(m.subject,''), m.message_date, m.received_at, COALESCE(m.text_body,''), COALESCE(m.html_body,''), m.parser_status FROM messages m WHERE m.id = ? AND EXISTS (SELECT 1 FROM message_recipients mr WHERE mr.message_id = m.id AND mr.recipient_email = ?)".
Definition sql_recipients : string :=
  "SELECT recipient_email, recipient_type FROM message_recipients WHERE message_id = ? ORDER BY id".
Definition sql_attachments : string :=
  "SELECT id, COALESCE(original_filename,''), mime_type, size_bytes FROM attachments WHERE message_id = ? ORDER BY id".

Definition newline : string := String (byte 10) EmptyString.

Definition sql_attachment_base : string :=
  "SELECT a.storage_key, COALESCE(a.original_filename,''), a.mime_type, a.size_bytes" +:+ newline +:+
  "FROM attachments a JOIN messages m ON m.id = a.message_id" +:+ newline +:+
  "WHERE a.message_id = ?".
Definition sql_attachment_order : string := " ORDER BY a.id LIMIT 1 OFFSET ?".
Definition sql_attachment_admin : string := sql_attachment_base +:+ sql_attachment_order.
Definition sql_attachment_user : string :=
  sql_attachment_base +:+
  " AND EXISTS (SELECT 1 FROM message_recipients mr WHERE mr.message_id = m.id AND mr.recipient_email = ?)"
  +:+ sql_attachment_order.

(** The [WHERE] clauses of the message list: by recipient, by text, both. *)
Record ListFilter := mkFilter { f_email : option string; f_query : option string }.

Definition sql_visible : string :=
  "EXISTS (SELECT 1 FROM message_recipients mr WHERE mr.message_id = m.id AND mr.recipient_email = ?)".
Definition sql_match : string := "MATCH(m.sender, m.subject, m.text_body) AGAINST (? IN BOOLEAN MODE)".
Definition filter_sql (f : ListFilter) : string :=
  match f_email f, f_query f with
  | None, None => EmptyString
  | Some _, None => "WHERE " +:+ sql_visible
  | None, Some _ => "WHERE " +:+ sql_match
  | Some _, Some _ => "WHERE " +:+ sql_visible +:+ " AND " +:+ sql_match
  end.
Definition filter_args (f : ListFilter) : list sqlval :=
  match f_email f with Some e => [VStr e] | None => [] end ++
  match f_query f with Some q => [VStr q] | None => [] end.

Definition sql_count (f : ListFilter) : string :=
  "SELECT COUNT(DISTINCT m.id) FROM messages m " +:+ filter_sql f.
Definition sql_list (f : ListFilter) : string :=
  "SELECT DISTINCT m.id, m.sender, COALESCE(m.subject,''), m.message_date, m.received_at, COALESCE(m.text_body,''), COALESCE(m.html_body,'')"
  +:+ newline +:+ "FROM messages m " +:+ filter_sql f
  +:+ " ORDER BY m.received_at DESC LIMIT ? OFFSET ?".

(** ** What the statements mean *)

Section meaning.
Variable eq : string -> string -> bool.            (** equality of strings in the database *)
Variable ft : string -> MessageRow -> bool.        (** the full-text match of a message *)

Definition visible (email : string) (t : Tables) (m : MessageRow) : bool :=
  existsb (fun r => (r_message_id r =? m_id m) && eq (r_recipient_email r) email) (message_recipients t).

(** The messages with an id, restricted to those addressed to [email]. *)
Definition may_see (email : option string) (t : Tables) (m : MessageRow) : bool :=
  match email with None => true | Some e => visible e t m end.
Definition by_id (id : Z) (email : option string) (t : Tables) : list MessageRow :=
  List.filter (fun m => (m_id m =? id) && may_see email t m) (messages t).

Definition raw_row (m : MessageRow) : list sqlval := [VStr (m_content_hash m)].
Definition list_row (m : MessageRow) : list sqlval :=
  [VInt (m_id m); VStr (m_sender m); coalesce (m_subject m); VTime (m_message_date m);
   VTime (m_received_at m); coalesce (m_text_body m); coalesce (m_html_body m)].
Definition message_row (m : MessageRow) : list sqlval := list_row m ++ [VStr (m_parser_status m)].
Definition recipient_row (r : RecipientRow) : list sqlval :=
  [VStr (r_recipient_email r); VStr (r_recipient_type r)].
Definition attachment_row (a : AttachmentRow) : list sqlval :=
  [VInt (a_id a); coalesce (a_original_filename a); VStr (a_mime_type a); VInt (a_size_bytes a)].
Definition attachment_file_row (a : AttachmentRow) : list sqlval :=
  [VStr (a_storage_key a); coalesce (a_original_filename a); VStr (a_mime_type a); VInt (a_size_bytes a)].

Definition recipients_of (id : Z) (t : Tables) : list RecipientRow :=
  List.filter (fun r => r_message_id r =? id) (message_recipients t).
Definition attachments_of (id : Z) (t : Tables) : list AttachmentRow :=
  List.filter (fun a => a_message_id a =? id) (attachments t).

(** [LIMIT 1 OFFSET idx] of a message's attachments, joined with the message. *)
Definition attachment_at (id idx : Z) (email : option string) (t : Tables) : list AttachmentRow :=
  match by_id id email t with
  | [] => []
  | _ => take 1 (drop (Z.to_nat idx) (attachments_of id t))
  end.

Definition listed (f : ListFilter) (t : Tables) : list MessageRow :=
  List.filter (fun m => may_see (f_email f) t m &&
    match f_query f with Some q => ft q m | None => true end) (messages t).

Definition newest_first (a b : MessageRow) : Prop := m_received_at b <= m_received_at a.
#[export] Instance newest_first_dec : RelDecision newest_first.
Proof. intros a b. unfold newest_first. apply _. Defined.

(** A page of the list: messages received at the same time come in any order. *)
Definition page_of (f : ListFilter) (limit offset : Z) (t : Tables) (rs : list (list sqlval)) : Prop :=
  exists l, Permutation l (listed f t) /\ Sorted newest_first l /\
    rs = map list_row (take (Z.to_nat limit) (drop (Z.to_nat offset) l)).

Definition event_ids (hash : string) (t : Tables) : list (list sqlval) :=
  map (fun e => [VInt (e_id e)]) (List.filter (fun e => eq (e_content_hash e) hash) (ingest_events t)).
End meaning.

(** The rows of an answer are the wanted ones, or, when the connection breaks
    while they are read, the first of them. *)
Definition delivers (rs : Rows) (want : list (list sqlval) -> Prop) : Prop :=
  exists full, want full /\ rows rs `prefix_of` full /\ (rows_Err rs = None -> rows rs = full).

(** Tables are kept in the order of their AUTO_INCREMENT keys. *)
Class SQLDriverLaws (D T : Type) `{SQLDriver D T} := {
  tables : D -> Tables;
  tx_tables : T -> Tables;
  sql_eq : string -> string -> bool;
  fulltext : string -> MessageRow -> bool;
  stored_time : Z -> Z;

  sql_eq_refl : forall s, sql_eq s s = true;
  sql_eq_sym : forall s t, sql_eq s t = sql_eq t s;
  sql_eq_trans : forall s t u, sql_eq s t = true -> sql_eq t u = true -> sql_eq s u = true;
  sql_eq_hex : forall s t, sforall is_hex s = true -> sforall is_hex t = true -> sql_eq s t = true -> s = t;

  query_no_rows : forall q args d e, db_Query q args d = Err e -> errors_Is e ErrNoRows = false;
  rows_no_rows : forall q args d rs e,
    db_Query q args d = Ok rs -> rows_Err rs = Some e -> errors_Is e ErrNoRows = false;
  query_duplicate : forall h d rs, db_Query sql_duplicate [VStr h] d = Ok rs ->
    delivers rs (fun full => full = take 1 (event_ids sql_eq h (tables d)));
  query_raw_admin : forall id d rs, db_Query sql_raw_admin [VInt id] d = Ok rs ->
    delivers rs (fun full => full = map raw_row (by_id sql_eq id None (tables d)));
  query_raw_user : forall id e d rs, db_Query sql_raw_user [VInt id; VStr e] d = Ok rs ->
    delivers rs (fun full => full = map raw_row (by_id sql_eq id (Some e) (tables d)));
  query_message_admin : forall id d rs, db_Query sql_message_admin [VInt id] d = Ok rs ->
    delivers rs (fun full => full = map message_row (by_id sql_eq id None (tables d)));
  query_message_user : forall id e d rs, db_Query sql_message_user [VInt id; VStr e] d = Ok rs ->
    delivers rs (fun full => full = map message_row (by_id sql_eq id (Some e) (tables d)));
  query_recipients : forall id d rs, db_Query sql_recipients [VInt id] d = Ok rs ->
    delivers rs (fun full => full = map recipient_row (recipients_of id (tables d)));
  query_attachments : forall id d rs, db_Query sql_attachments [VInt id] d = Ok rs ->
    delivers rs (fun full => full = map attachment_row (attachments_of id (tables d)));
  query_attachment_admin : forall id idx d rs,
    0 <= idx -> db_Query sql_attachment_admin [VInt id; VInt idx] d = Ok rs ->
    delivers rs (fun full => full = map attachment_file_row (attachment_at sql_eq id idx None (tables d)));
  query_attachment_user : forall id e idx d rs,
    0 <= idx -> db_Query sql_attachment_user [VInt id; VStr e; VInt idx] d = Ok rs ->
    delivers rs (fun full => full = map attachment_file_row (attachment_at sql_eq id idx (Some e) (tables d)));
  query_count : forall f d rs, db_Query (sql_count f) (filter_args f) d = Ok rs ->
    delivers rs (fun full => full = [[VInt (Z.of_nat (length (listed sql_eq fulltext f (tables d))))]]);
  query_list : forall f limit offset d rs,
    db_Query (sql_list f) (filter_args f ++ [VInt limit; VInt offset]) d = Ok rs ->
    0 <= limit /\ 0 <= offset /\
    delivers rs (fun full => page_of sql_eq fulltext f limit offset (tables d) full);

  begin_tables : forall d t, db_Begin d = Ok t -> tx_tables t = tables d;
  exec_message : forall cf h sender subject date received text html path status perr t id t',
    tx_Exec sql_insert_message [VStr cf; VStr h; VStr sender; VStr subject; VTime date; VTime received;
      VStr text; VStr html; VStr path; VStr status; nullable perr] t = (Ok id, t') ->
    0 < id /\ in_int64 id /\ Forall (fun m => m_id m < id) (messages (tx_tables t)) /\
    Forall (fun r => r_message_id r < id) (message_recipients (tx_tables t)) /\
    Forall (fun a => a_message_id a < id) (attachments (tx_tables t)) /\
    tx_tables t' = add_message (mkMessage id cf h sender (Some subject) (stored_time date)
      (stored_time received) (Some text) (Some html) path status perr) (tx_tables t);
  exec_recipient : forall mid email type received t id t',
    tx_Exec sql_insert_recipient [VInt mid; VStr email; VStr type; VTime received] t = (Ok id, t') ->
    tx_tables t' = add_recipient (mkRecipientRow id mid email type (stored_time received)) (tx_tables t);
  exec_attachment : forall mid key name mime size h t id t',
    tx_Exec sql_insert_attachment [VInt mid; VStr key; nullable name; VStr mime; VInt size; VStr h] t
      = (Ok id, t') ->
    Forall (fun a => sql_eq (a_storage_key a) key = false) (attachments (tx_tables t)) /\
    tx_tables t' = add_attachment (mkAttachmentRow id mid key name mime size h) (tx_tables t);
  exec_event : forall cf h t id t',
    tx_Exec sql_insert_event [VStr cf; VStr h] t = (Ok id, t') ->
    Forall (fun e => sql_eq (e_cloudflare_message_id e) cf && sql_eq (e_content_hash e) h = false)
      (ingest_events (tx_tables t)) /\
    tx_tables t' = add_event (mkEvent id cf h "accepted") (tx_tables t);
  commit_ok : forall t d d', tx_Commit t d = (Ok tt, d') -> tables d' = tx_tables t;
  commit_err : forall t d e d', tx_Commit t d = (Err e, d') ->
    tables d' = tables d \/ tables d' = tx_tables t
}.

(** ** An in-memory database with injected failures *)

(** [fails q] makes a statement (or [BEGIN], [COMMIT]) fail; a failing commit
    has taken effect when [lost_reply] is set. *)
Record MemDB := mkMemDB { mem_tables : Tables; fails : string -> bool; lost_reply : bool }.

Definition ErrDriver : error := EText "invalid connection".
Definition ErrSyntax : error := EText "You have an error in your SQL syntax".
Definition ErrDup : error := EText "Duplicate entry for key".

Definition lower_ascii (c : ascii) : ascii :=
  if in_range 65 90 (code c) then byte (code c + 32) else c.
Fixpoint slower (s : string) : string :=
  match s with EmptyString => EmptyString | String c s' => String (lower_ascii c) (slower s') end.
Definition mem_eq (s t : string) : bool := bool_decide (slower s = slower t).

Fixpoint contains (s p : string) : bool :=
  HasPrefix s p || match s with EmptyString => false | String _ s' => contains s' p end.
Definition mem_match (q : string) (m : MessageRow) : bool :=
  contains (m_sender m) q || contains (default EmptyString (m_subject m)) q
  || contains (default EmptyString (m_text_body m)) q.

Definition seconds_only (t : Z) : Z := t / Second * Second.

(** The four forms of the list's clauses, and the arguments each takes. *)
Definition shapes : list (bool * bool) := [(false, false); (true, false); (false, true); (true, true)].
Definition shape_filter (sh : bool * bool) : ListFilter :=
  mkFilter (if sh.1 then Some EmptyString else None) (if sh.2 then Some EmptyString else None).
Definition take_filter (sh : bool * bool) (args : list sqlval) : option (ListFilter * list sqlval) :=
  match sh, args with
  | (false, false), _ => Some (mkFilter None None, args)
  | (true, false), VStr e :: args' => Some (mkFilter (Some e) None, args')
  | (false, true), VStr q :: args' => Some (mkFilter None (Some q), args')
  | (true, true), VStr e :: VStr q :: args' => Some (mkFilter (Some e) (Some q), args')
  | _, _ => None
  end.
Definition shape_of (text : ListFilter -> string) (q : string) : option (bool * bool) :=
  find (fun sh => bool_decide (q = text (shape_filter sh))) shapes.

Definition mem_list (q : string) (args : list sqlval) (t : Tables) : option (list (list sqlval)) :=
  match shape_of sql_count q with
  | Some sh =>
      match take_filter sh args with
      | Some (f, []) => Some [[VInt (Z.of_nat (length (listed mem_eq mem_match f t)))]]
      | _ => None
      end
  | None =>
      match shape_of sql_list q with
      | Some sh =>
          match take_filter sh args with
          | Some (f, [VInt limit; VInt offset]) =>
              if (0 <=? limit) && (0 <=? offset) then
                Some (map list_row (take (Z.to_nat limit) (drop (Z.to_nat offset)
                  (merge_sort newest_first (listed mem_eq mem_match f t)))))
              else None
          | _ => None
          end
      | None => None
      end
  end.

Definition mem_answer (q : string) (args : list sqlval) (t : Tables) : option (list (list sqlval)) :=
  match args with
  | [VStr h] =>
      if bool_decide (q = sql_duplicate) then Some (take 1 (event_ids mem_eq h t)) else mem_list q args t
  | [VInt id] =>
      if bool_decide (q = sql_raw_admin) then Some (map raw_row (by_id mem_eq id None t))
      else if bool_decide (q = sql_message_admin) then Some (map message_row (by_id mem_eq id None t))
      else if bool_decide (q = sql_recipients) then Some (map recipient_row (recipients_of id t))
      else if bool_decide (q = sql_attachments) then Some (map attachment_row (attachments_of id t))
      else mem_list q args t
  | [VInt id; VStr e] =>
      if bool_decide (q = sql_raw_user) then Some (map raw_row (by_id mem_eq id (Some e) t))
      else if bool_decide (q = sql_message_user) then Some (map message_row (by_id mem_eq id (Some e) t))
      else mem_list q args t
  | [VInt id; VInt idx] =>
      if bool_decide (q = sql_attachment_admin)
      then Some (map attachment_file_row (attachment_at mem_eq id idx None t)) else mem_list q args t
  | [VInt id; VStr e; VInt idx] =>
      if bool_decide (q = sql_attachment_user)
      then Some (map attachment_file_row (attachment_at mem_eq id idx (Some e) t)) else mem_list q args t
  | _ => mem_list q args t
  end.

Definition mem_query (q : string) (args : list sqlval) (d : MemDB) : result Rows :=
  if fails d q then Err ErrDriver
  else match mem_answer q args (mem_tables d) with
       | Some rs => Ok (mkRows rs None)
       | None => Err ErrSyntax
       end.

(** The next AUTO_INCREMENT value. *)
Definition fresh_id (ids : list Z) : Z := 1 + foldr Z.max 0 ids.
Definition fresh_message_id (t : Tables) : Z :=
  fresh_id (map m_id (messages t) ++ map r_message_id (message_recipients t) ++ map a_message_id (attachments t)).

Definition null_string (v : sqlval) : option (option string) :=
  match v with VNull => Some None | VStr s => Some (Some s) | _ => None end.

Definition mem_insert (q : string) (args : list sqlval) (t : Tables) : result (Z * Tables) :=
  match args with
  | [VStr cf; VStr h; VStr sender; VStr subject; VTime date; VTime received; VStr text; VStr html;
     VStr path; VStr status; perr] =>
      let id := fresh_message_id t in
      match null_string perr with
      | Some perr =>
          if bool_decide (q = sql_insert_message) && (id <=? max_int64) then
            Ok (id, add_message (mkMessage id cf h sender (Some subject) (seconds_only date)
                      (seconds_only received) (Some text) (Some html) path status perr) t)
          else Err ErrSyntax
      | None => Err ErrSyntax
      end
  | [VInt mid; VStr email; VStr type; VTime received] =>
      let id := fresh_id (map r_id (message_recipients t)) in
      if bool_decide (q = sql_insert_recipient) then
        Ok (id, add_recipient (mkRecipientRow id mid email type (seconds_only received)) t)
      else Err ErrSyntax
  | [VInt mid; VStr key; name; VStr mime; VInt size; VStr h] =>
      let id := fresh_id (map a_id (attachments t)) in
      match null_string name with
      | Some name =>
          if negb (bool_decide (q = sql_insert_attachment)) then Err ErrSyntax
          else if existsb (fun a => mem_eq (a_storage_key a) key) (attachments t) then Err ErrDup
          else Ok (id, add_attachment (mkAttachmentRow id mid key name mime size h) t)
      | None => Err ErrSyntax
      end
  | [VStr cf; VStr h] =>
      let id := fresh_id (map e_id (ingest_events t)) in
      if negb (bool_decide (q = sql_insert_event)) then Err ErrSyntax
      else if existsb (fun e => mem_eq (e_cloudflare_message_id e) cf && mem_eq (e_content_hash e) h)
                (ingest_events t) then Err ErrDup
      else Ok (id, add_event (mkEvent id cf h "accepted") t)
  | _ => Err ErrSyntax
  end.

Definition mem_exec (q : string) (args : list sqlval) (d : MemDB) : result Z * MemDB :=
  if fails d q then (Err ErrDriver, d)
  else match mem_insert q args (mem_tables d) with
       | Ok (id, t) => (Ok id, mkMemDB t (fails d) (lost_reply d))
       | Err e => (Err e, d)
       end.

#[export] Instance MemDB_driver : SQLDriver MemDB MemDB := {|
  db_Query := mem_query;
  db_Exec := mem_exec;
  db_Begin d := if fails d "BEGIN" then Err ErrDriver else Ok d;
  tx_Exec := mem_exec;
  tx_Commit t d :=
    if fails t "COMMIT"
    then (Err ErrDriver, if lost_reply t then mkMemDB (mem_tables t) (fails d) (lost_reply d) else d)
    else (Ok tt, mkMemDB (mem_tables t) (fails d) (lost_reply d))
|}.

Lemma fresh_id_above ids : Forall (fun i => i < fresh_id ids) ids /\ 0 < fresh_id ids.
Proof.
  unfold fresh_id. induction ids as [|i ids [IH1 IH2]]; simpl; [split; [constructor|lia]|].
  split; [|lia]. constructor; [lia|]. eapply Forall_impl; [exact IH1|]. simpl. intros. lia.
Qed.

Lemma lower_hex c : is_hex c = true -> lower_ascii c = c.
Proof. destruct c as [[] [] [] [] [] [] [] []]; vm_compute; intros H; (reflexivity || discriminate H). Qed.

Lemma slower_hex s : sforall is_hex s = true -> slower s = s.
Proof.
  induction s as [|c s IH]; simpl; [done|]. rewrite andb_true_iff. intros [Hc Hs].
  by rewrite lower_hex, IH.
Qed.

Lemma mem_query_delivers q args d rs (want : list (list sqlval) -> Prop) :
  mem_query q args d = Ok rs -> (forall l, mem_answer q args (mem_tables d) = Some l -> want l) ->
  delivers rs want.
Proof.
  unfold mem_query. destruct (fails d q); [done|].
  destruct (mem_answer _ _ _) as [l|]; [|done]. intros [= <-] Hw.
  exists l. split; [by apply Hw|]. simpl. by split.
Qed.

(** A list statement takes the clauses that were put in it. *)
Lemma shape_of_filter text f :
  (text = sql_count \/ text = sql_list) ->
  exists sh, shape_of text (text f) = Some sh /\
    forall rest, take_filter sh (filter_args f ++ rest) = Some (f, rest).
Proof.
  intros Ht. destruct f as [[e|] [q|]].
  - exists (true, true). split; [|done]. by destruct Ht as [->| ->]; vm_compute.
  - exists (true, false). split; [|done]. by destruct Ht as [->| ->]; vm_compute.
  - exists (false, true). split; [|done]. by destruct Ht as [->| ->]; vm_compute.
  - exists (false, false). split; [|done]. by destruct Ht as [->| ->]; vm_compute.
Qed.

Lemma list_not_count f : shape_of sql_count (sql_list f) = None.
Proof. by destruct f as [[e|] [q|]]; vm_compute. Qed.

Lemma mem_answer_count f t :
  mem_answer (sql_count f) (filter_args f) t =
  Some [[VInt (Z.of_nat (length (listed mem_eq mem_match f t)))]].
Proof.
  assert (mem_list (sql_count f) (filter_args f) t =
    Some [[VInt (Z.of_nat (length (listed mem_eq mem_match f t)))]]) as Hl.
  { unfold mem_list. destruct (shape_of_filter sql_count f (or_introl eq_refl)) as (sh & -> & Hf).
    specialize (Hf []). rewrite app_nil_r in Hf. by rewrite Hf. }
  rewrite <-Hl. by destruct f as [[e|] [q|]].
Qed.

Lemma mem_answer_list f limit offset t :
  mem_answer (sql_list f) (filter_args f ++ [VInt limit; VInt offset]) t =
  if (0 <=? limit) && (0 <=? offset) then
    Some (map list_row (take (Z.to_nat limit) (drop (Z.to_nat offset)
      (merge_sort newest_first (listed mem_eq mem_match f t)))))
  else None.
Proof.
  assert (mem_list (sql_list f) (filter_args f ++ [VInt limit; VInt offset]) t =
    if (0 <=? limit) && (0 <=? offset) then
      Some (map list_row (take (Z.to_nat limit) (drop (Z.to_nat offset)
        (merge_sort newest_first (listed mem_eq mem_match f t)))))
    else None) as Hl.
  { unfold mem_list. rewrite list_not_count.
    destruct (shape_of_filter sql_list f (or_intror eq_refl)) as (sh & -> & Hf). by rewrite Hf. }
  rewrite <-Hl. by destruct f as [[e|] [q|]].
Qed.

#[export] Instance newest_first_total : Total newest_first.
Proof. intros a b. unfold newest_first. lia. Qed.

Lemma mem_exec_ok q args d id d' :
  mem_exec q args d = (Ok id, d') -> mem_insert q args (mem_tables d) = Ok (id, mem_tables d').
Proof.
  unfold mem_exec. destruct (fails d q); [done|].
  destruct (mem_insert _ _ _) as [[i t]|e]; [|done]. by intros [= <- <-].
Qed.

Lemma null_string_nullable o : null_string (nullable o) = Some o.
Proof. by destruct o. Qed.

Lemma existsb_false_Forall {A} (p : A -> bool) l :
  existsb p l = false <-> Forall (fun x => p x = false) l.
Proof.
  induction l as [|x l IH]; simpl; [by split|]. by rewrite orb_false_iff, IH, Forall_cons.
Qed.

#[export] Instance MemDB_laws : SQLDriverLaws MemDB MemDB.
Proof.
  refine {| tables := mem_tables; tx_tables := mem_tables; sql_eq := mem_eq; fulltext := mem_match;
            stored_time := seconds_only |}.
  - intros s. by apply bool_decide_eq_true.
  - intros s t. apply bool_decide_ext. by split.
  - intros s t u. unfold mem_eq. rewrite !bool_decide_eq_true. congruence.
  - intros s t Hs Ht. unfold mem_eq. rewrite bool_decide_eq_true, !slower_hex by done. done.
  - intros q args d e. simpl. unfold mem_query. destruct (fails d q); [by intros [= <-]|].
    destruct (mem_answer _ _ _); by intros [= <-].
  - intros q args d rs e. simpl. unfold mem_query. destruct (fails d q); [done|].
    destruct (mem_answer _ _ _); by intros [= <-].
  - intros h d rs Hq. eapply mem_query_delivers; [exact Hq|]. by intros l [= <-].
  - intros id d rs Hq. eapply mem_query_delivers; [exact Hq|]. by intros l [= <-].
  - intros id e d rs Hq. eapply mem_query_delivers; [exact Hq|]. by intros l [= <-].
  - intros id d rs Hq. eapply mem_query_delivers; [exact Hq|]. by intros l [= <-].
  - intros id e d rs Hq. eapply mem_query_delivers; [exact Hq|]. by intros l [= <-].
  - intros id d rs Hq. eapply mem_query_delivers; [exact Hq|]. by intros l [= <-].
  - intros id d rs Hq. eapply mem_query_delivers; [exact Hq|]. by intros l [= <-].
  - intros id idx d rs _ Hq. eapply mem_query_delivers; [exact Hq|]. by intros l [= <-].
  - intros id e idx d rs _ Hq. eapply mem_query_delivers; [exact Hq|]. by intros l [= <-].
  - intros f d rs Hq. eapply mem_query_delivers; [exact Hq|]. rewrite mem_answer_count.
    by intros l [= <-].
  - intros f limit offset d rs Hq. pose proof Hq as Hq2. simpl in Hq2. unfold mem_query in Hq2.
    rewrite mem_answer_list in Hq2.
    destruct (fails d (sql_list f)); [done|].
    destruct (Z.leb_spec 0 limit), (Z.leb_spec 0 offset); simpl in Hq2; try done.
    split_and!; [done|done|]. eapply mem_query_delivers; [exact Hq|]. rewrite mem_answer_list.
    rewrite !(proj2 (Z.leb_le _ _)) by done. simpl. intros l [= <-].
    eexists. split; [apply (merge_sort_Permutation newest_first)|]. split; [|done].
    apply (Sorted_merge_sort newest_first).
  - intros d t. simpl. destruct (fails d "BEGIN"); [done|]. by intros [= <-].
  - intros cf h sender subject date received text html path status perr t id t' Hx%mem_exec_ok.
    revert Hx. unfold mem_insert. rewrite null_string_nullable. rewrite bool_decide_eq_true_2 by done.
    cbn [andb]. destruct (Z.leb_spec (fresh_message_id (mem_tables t)) max_int64); [|done].
    intros [= <- <-]. unfold fresh_message_id in *.
    destruct (fresh_id_above (map m_id (messages (mem_tables t)) ++
      map r_message_id (message_recipients (mem_tables t)) ++
      map a_message_id (attachments (mem_tables t)))) as [Hf Hp].
    rewrite !Forall_app in Hf. destruct Hf as (Hf1 & Hf2 & Hf3). rewrite !Forall_map in *.
    split_and!; try done. unfold in_int64, min_int64. lia.
  - intros mid email type received t id t' Hx%mem_exec_ok. revert Hx. unfold mem_insert.
    rewrite bool_decide_eq_true_2 by done. by intros [= <- <-].
  - intros mid key name mime size h t id t' Hx%mem_exec_ok. revert Hx. unfold mem_insert.
    destruct name; cbn [nullable null_string]; rewrite bool_decide_eq_true_2 by done; cbn [negb];
      (destruct (existsb _ _) eqn:E; [done|]); apply existsb_false_Forall in E; by intros [= <- <-].
  - intros cf h t id t' Hx%mem_exec_ok. revert Hx. unfold mem_insert.
    rewrite bool_decide_eq_true_2 by done. cbn [negb].
    destruct (existsb _ _) eqn:E; [done|]. apply existsb_false_Forall in E. by intros [= <- <-].
  - intros t d d'. simpl. destruct (fails t "COMMIT"); [by destruct (lost_reply t)|]. by intros [= <-].
  - intros t d e d'. simpl. destruct (fails t "COMMIT"); [|done].
    destruct (lost_reply t); intros [= <- <-]; simpl; auto.
Defined.
