(* ===== verification/Api.v ===== *)
(** * The message API (internal/api/messages.go, internal/api/attachments.go)

    The handlers read the database through [SQLDriver] and the blobs through
    [FileSystem]; their state, which they do not change, is the pair of both. *)

From S2P Require Export Auth Storage Sql Middleware.

Open Scope Z_scope.

(** ** Data transfer objects *)

Record recipientDTO := mkRecipientDTO { rd_Email : string; rd_Type : string }.
Record attachmentDTO := mkAttachmentDTO {
  ad_ID : Z; ad_OriginalFilename : string; ad_MimeType : string; ad_SizeBytes : Z
}.
Record messageDTO := mkMessageDTO {
  md_ID : Z; md_Sender : string; md_Subject : string; md_MessageDate : Z; md_ReceivedAt : Z;
  md_TextBody : string; md_HTMLBody : string; md_ParserStatus : string;
  md_Recipients : list recipientDTO; md_Attachments : list attachmentDTO
}.

(** A field tagged [omitempty]. *)
Definition omitempty (name value : string) : list (string * json) :=
  if bool_decide (value = EmptyString) then [] else [(name, JString value)].
Definition omitempty_list {A} (name : string) (f : A -> json) (l : list A) : list (string * json) :=
  match l with [] => [] | _ => [(name, JList (map f l))] end.

Definition recipientDTO_json (r : recipientDTO) : json :=
  JObj [("email"%string, JString (rd_Email r)); ("type"%string, JString (rd_Type r))].
Definition attachmentDTO_json (a : attachmentDTO) : json :=
  JObj [("id"%string, JInt (ad_ID a)); ("original_filename"%string, JString (ad_OriginalFilename a));
        ("mime_type"%string, JString (ad_MimeType a)); ("size_bytes"%string, JInt (ad_SizeBytes a))].
Definition messageDTO_json (m : messageDTO) : json :=
  JObj ([("id"%string, JInt (md_ID m)); ("sender"%string, JString (md_Sender m));
         ("subject"%string, JString (md_Subject m)); ("message_date"%string, JTime (md_MessageDate m));
         ("received_at"%string, JTime (md_ReceivedAt m))]
        ++ omitempty "text_body" (md_TextBody m) ++ omitempty "html_body" (md_HTMLBody m)
        ++ [("parser_status"%string, JString (md_ParserStatus m))]
        ++ omitempty_list "recipients" recipientDTO_json (md_Recipients m)
        ++ omitempty_list "attachments" attachmentDTO_json (md_Attachments m)).

(** ** Parameters *)

(** The value, whether it is good, and the writer: a 404 is written when not. *)
Definition numericURLParam (w : ResponseWriter) (r : Request) (name : string)
  : Z * bool * ResponseWriter :=
  let value := URLParam r name in
  if bool_decide (value = EmptyString) then (0, false, NotFound w)
  else
    match ParseInt value with
    | None => (0, false, NotFound w)
    | Some parsed =>
        if (parsed <=? 0) || negb (bool_decide (FormatInt parsed = value))
        then (0, false, NotFound w) else (parsed, true, w)
    end.

Definition numericURLParamAllowZero (w : ResponseWriter) (r : Request) (name : string)
  : Z * bool * ResponseWriter :=
  let value := URLParam r name in
  if bool_decide (value = EmptyString) then (0, false, NotFound w)
  else
    match ParseInt value with
    | None => (0, false, NotFound w)
    | Some parsed =>
        if (parsed <? 0) || negb (bool_decide (FormatInt parsed = value))
        then (0, false, NotFound w) else (parsed, true, w)
    end.

Definition parsePositiveInt (value : string) (fallback : Z) : Z :=
  match Atoi value with
  | Some parsed => if parsed <=? 0 then fallback else parsed
  | None => fallback
  end.

(** ASCII letters and digits. *)
Definition ascii_alnum (r : Z) : bool := in_range 97 122 r || in_range 65 90 r || in_range 48 57 r.

Definition isSearchQueryUsable (q : string) : bool :=
  let trimmed := TrimSpace q in
  if bool_decide (trimmed = EmptyString) then false
  else existsb (fun x => ascii_alnum x.1) (runes trimmed).

(** The characters that [sanitizeFilename] drops. *)
Definition dropped_rune (r : Z) : bool :=
  existsb (fun x => r =? x) [34; 39; 13; 10; 47; 92].

Definition sanitizeFilename (filename : string) : string :=
  TrimSpace (Map (fun r => if dropped_rune r then -1 else r) filename).

(** ** Queries *)

Definition rawMessageAuthQuery (session : Session) (messageID : Z) : string * list sqlval :=
  if IsAdmin session then ("SELECT content_hash FROM messages WHERE id = ?"%string, [VInt messageID])
  else ("SELECT m.content_hash FROM messages m WHERE m.id = ? AND EXISTS (SELECT 1 FROM message_recipients mr WHERE mr.message_id = m.id AND mr.recipient_email = ?)"%string,
        [VInt messageID; VStr (Email session)]).

Definition messageAuthQuery (session : Session) (messageID : Z) : string * list sqlval :=
  if IsAdmin session then ("SELECT id, sender, COALESCE(subject,''), message_date, received_at, COALESCE(text_body,''), COALESCE(html_body,''), parser_status FROM messages WHERE id = ?"%string, [VInt messageID])
  else ("SELECT m.id, m.sender, COALESCE(m.subject,''), m.message_date, m.received_at, COALESCE(m.text_body,''), COALESCE(m.html_body,''), m.parser_status FROM messages m WHERE m.id = ? AND EXISTS (SELECT 1 FROM message_recipients mr WHERE mr.message_id = m.id AND mr.recipient_email = ?)"%string,
        [VInt messageID; VStr (Email session)]).

Definition attachmentAuthQuery (session : Session) (messageID idx : Z) : string * list sqlval :=
  let base := "SELECT a.storage_key, COALESCE(a.original_filename,''), a.mime_type, a.size_bytes" +:+ newline
    +:+ "FROM attachments a JOIN messages m ON m.id = a.message_id" +:+ newline
    +:+ "WHERE a.message_id = ?" in
  let args := [VInt messageID] in
  let '(base, args) :=
    if negb (IsAdmin session) then
      (base +:+ " AND EXISTS (SELECT 1 FROM message_recipients mr WHERE mr.message_id = m.id AND mr.recipient_email = ?)",
       args ++ [VStr (Email session)])
    else (base, args) in
  let args := args ++ [VInt idx] in
  (base +:+ " ORDER BY a.id LIMIT 1 OFFSET ?", args).

Definition listWhere (session : Session) (q : string) : string * list sqlval :=
  let '(clauses, args) :=
    if negb (IsAdmin session) then
      (["EXISTS (SELECT 1 FROM message_recipients mr WHERE mr.message_id = m.id AND mr.recipient_email = ?)"%string],
       [VStr (Email session)])
    else ([], []) in
  let '(clauses, args) :=
    if isSearchQueryUsable q then
      (clauses ++ ["MATCH(m.sender, m.subject, m.text_body) AGAINST (? IN BOOLEAN MODE)"%string],
       args ++ [VStr q])
    else (clauses, args) in
  match clauses with
  | [] => (EmptyString, args)
  | _ => ("WHERE " +:+ Join clauses " AND ", args)
  end.

(** ** Scanning *)

Definition scan_hash (row : list sqlval) : result string :=
  match row with [h] => scan_string h | _ => Err ErrScan end.
Definition scan_total (row : list sqlval) : result Z :=
  match row with [n] => scan_int n | _ => Err ErrScan end.

(** [rows.Scan(&msg.ID, ..., &msg.HTMLBody)]: the status stays empty. *)
Definition scan_listed (row : list sqlval) : result messageDTO :=
  match row with
  | [id; sender; subject; date; received; text; html] =>
      id ← scan_int id; sender ← scan_string sender; subject ← scan_string subject;
      date ← scan_time date; received ← scan_time received;
      text ← scan_string text; html ← scan_string html;
      Ok (mkMessageDTO id sender subject date received text html EmptyString [] [])
  | _ => Err ErrScan
  end.
Definition scan_message (row : list sqlval) : result messageDTO :=
  match row with
  | [id; sender; subject; date; received; text; html; status] =>
      m ← scan_listed [id; sender; subject; date; received; text; html];
      status ← scan_string status;
      Ok (mkMessageDTO (md_ID m) (md_Sender m) (md_Subject m) (md_MessageDate m) (md_ReceivedAt m)
            (md_TextBody m) (md_HTMLBody m) status [] [])
  | _ => Err ErrScan
  end.
Definition scan_recipient (row : list sqlval) : result recipientDTO :=
  match row with
  | [email; type] => email ← scan_string email; type ← scan_string type; Ok (mkRecipientDTO email type)
  | _ => Err ErrScan
  end.
Definition scan_attachment (row : list sqlval) : result attachmentDTO :=
  match row with
  | [id; name; mime; size] =>
      id ← scan_int id; name ← scan_string name; mime ← scan_string mime; size ← scan_int size;
      Ok (mkAttachmentDTO id name mime size)
  | _ => Err ErrScan
  end.
Definition scan_attachment_file (row : list sqlval) : result (string * string * string * Z) :=
  match row with
  | [key; name; mime; size] =>
      key ← scan_string key; name ← scan_string name; mime ← scan_string mime; size ← scan_int size;
      Ok (key, name, mime, size)
  | _ => Err ErrScan
  end.

(** ** Handlers *)

Definition internal_error (w : ResponseWriter) : ResponseWriter :=
  http_Error "Internal Server Error" 500 w.

Definition quote : string := String (byte 34) EmptyString.

Section handlers.
Context {D T F : Type} `{SQLDriver D T} `{FileSystem F}.
Variable storage : Storage.

Definition GetRawMIME : Handler (D * F) := fun r w '(db, fs) =>
  match numericURLParam w r "id" with
  | (_, false, w) => (w, (db, fs))
  | (messageID, true, w) =>
      match SessionFromContext (ReqCtx r) with
      | None => (NotFound w, (db, fs))
      | Some session =>
          let '(rawQuery, rawArgs) := rawMessageAuthQuery session messageID in
          match QueryRow scan_hash rawQuery rawArgs db with
          | Err e =>
              if errors_Is e ErrNoRows then (NotFound w, (db, fs)) else (internal_error w, (db, fs))
          | Ok contentHash =>
              match ReadRawMIME storage contentHash fs with
              | Err _ => (NotFound w, (db, fs))
              | Ok data =>
                  let w := set_header "Content-Type" "message/rfc822" w in
                  let w := set_header "Content-Disposition"
                             ("attachment; filename=" +:+ quote +:+ "message-" +:+ FormatInt messageID
                              +:+ ".eml" +:+ quote) w in
                  let w := set_header "Content-Length" (FormatInt (slen data)) w in
                  (Write (Bytes data) w, (db, fs))
              end
          end
      end
  end.

(** [h.recipients] and [h.attachments]: every row, or the error. *)
Definition query_rows {A} (scan : list sqlval -> result A) (q : string) (args : list sqlval) (db : D)
  : result (list A) :=
  match db_Query q args db with
  | Err e => Err e
  | Ok rs =>
      match scan_rows scan (rows rs) with
      | Err e => Err e
      | Ok l => match rows_Err rs with Some e => Err e | None => Ok l end
      end
  end.

Definition recipients (messageID : Z) (db : D) : result (list recipientDTO) :=
  query_rows scan_recipient
    "SELECT recipient_email, recipient_type FROM message_recipients WHERE message_id = ? ORDER BY id"
    [VInt messageID] db.
Definition attachments (messageID : Z) (db : D) : result (list attachmentDTO) :=
  query_rows scan_attachment
    "SELECT id, COALESCE(original_filename,''), mime_type, size_bytes FROM attachments WHERE message_id = ? ORDER BY id"
    [VInt messageID] db.

Definition getMessage (messageID : Z) (session : Session) (db : D) : result messageDTO :=
  let '(query, args) := messageAuthQuery session messageID in
  msg ← QueryRow scan_message query args db;
  rs ← recipients messageID db;
  ats ← attachments messageID db;
  Ok (mkMessageDTO (md_ID msg) (md_Sender msg) (md_Subject msg) (md_MessageDate msg) (md_ReceivedAt msg)
        (md_TextBody msg) (md_HTMLBody msg) (md_ParserStatus msg) rs ats).

Definition GetMessage : Handler (D * F) := fun r w '(db, fs) =>
  match numericURLParam w r "id" with
  | (_, false, w) => (w, (db, fs))
  | (messageID, true, w) =>
      match SessionFromContext (ReqCtx r) with
      | None => (NotFound w, (db, fs))
      | Some session =>
          match getMessage messageID session db with
          | Err e =>
              if errors_Is e ErrNoRows then (NotFound w, (db, fs)) else (internal_error w, (db, fs))
          | Ok msg => (writeJSON 200 (messageDTO_json msg) w, (db, fs))
          end
      end
  end.

(** The page of a request: number, size (at most 100) and offset, in [int]. *)
Definition page_params (r : Request) : Z * Z * Z :=
  let page := parsePositiveInt (Query_Get r "page") 1 in
  let perPage := parsePositiveInt (Query_Get r "per_page") 50 in
  let perPage := if 100 <? perPage then 100 else perPage in
  let offset := wrap64 (wrap64 (page - 1) * perPage) in
  (page, perPage, offset).

Definition list_json (messages : list messageDTO) (total page perPage : Z) : json :=
  JObj [("messages"%string, JList (map messageDTO_json messages)); ("page"%string, JInt page);
        ("per_page"%string, JInt perPage); ("total"%string, JInt total)].

Definition ListMessages : Handler (D * F) := fun r w '(db, fs) =>
  match SessionFromContext (ReqCtx r) with
  | None => (NotFound w, (db, fs))
  | Some session =>
      let '(page, perPage, offset) := page_params r in
      let q := TrimSpace (Query_Get r "q") in
      let '(where_, args) := listWhere session q in
      match QueryRow scan_total ("SELECT COUNT(DISTINCT m.id) FROM messages m " +:+ where_) args db with
      | Err _ => (internal_error w, (db, fs))
      | Ok total =>
          let args := args ++ [VInt perPage; VInt offset] in
          let query := "SELECT DISTINCT m.id, m.sender, COALESCE(m.subject,''), m.message_date, m.received_at, COALESCE(m.text_body,''), COALESCE(m.html_body,'')"
            +:+ newline +:+ "FROM messages m " +:+ where_ +:+ " ORDER BY m.received_at DESC LIMIT ? OFFSET ?" in
          match query_rows scan_listed query args db with
          | Err _ => (internal_error w, (db, fs))
          | Ok messages => (writeJSON 200 (list_json messages total page perPage) w, (db, fs))
          end
      end
  end.

Definition GetAttachment : Handler (D * F) := fun r w '(db, fs) =>
  match numericURLParam w r "id" with
  | (_, false, w) => (w, (db, fs))
  | (messageID, true, w) =>
      match numericURLParamAllowZero w r "idx" with
      | (_, false, w) => (w, (db, fs))
      | (idx, true, w) =>
          match SessionFromContext (ReqCtx r) with
          | None => (NotFound w, (db, fs))
          | Some session =>
              let '(query, args) := attachmentAuthQuery session messageID idx in
              match QueryRow scan_attachment_file query args db with
              | Err e =>
                  if errors_Is e ErrNoRows then (NotFound w, (db, fs)) else (internal_error w, (db, fs))
              | Ok (storageKey, originalFilename, mimeType, sizeBytes) =>
                  match ReadAttachment storage messageID storageKey fs with
                  | Err _ => (NotFound w, (db, fs))
                  | Ok data =>
                      let filename := sanitizeFilename originalFilename in
                      let filename := if bool_decide (filename = EmptyString)
                                      then "attachment"%string else filename in
                      let w := set_header "Content-Type" mimeType w in
                      let w := set_header "Content-Disposition"
                                 ("attachment; filename=" +:+ quote +:+ filename +:+ quote) w in
                      let w := set_header "Content-Length" (FormatInt sizeBytes) w in
                      (Write (Bytes data) w, (db, fs))
                  end
              end
          end
      end
  end.
End handlers.

(** ** Parameters: lemmas *)

(** A parameter is good when it is the decimal form of a value in range. *)
Definition canonical (low : Z) (value : string) (z : Z) : Prop :=
  low <= z /\ in_int64 z /\ value = FormatInt z.

Lemma FormatInt_nonempty z : FormatInt z <> EmptyString.
Proof.
  unfold FormatInt. destruct (Z.ltb_spec z 0); [done|].
  destruct (digits_head z) as (c & t & -> & _); [lia|done].
Qed.

Lemma numericURLParam_cases w r name :
  (exists z, canonical 1 (URLParam r name) z /\ numericURLParam w r name = (z, true, w)) \/
  ((forall z, ~ canonical 1 (URLParam r name) z) /\ numericURLParam w r name = (0, false, NotFound w)).
Proof.
  unfold numericURLParam, canonical. case_bool_decide as He.
  { right. split; [|done]. intros z (_ & _ & Hz). rewrite He in Hz. by destruct (FormatInt_nonempty z). }
  destruct (ParseInt (URLParam r name)) as [z|] eqn:E.
  - pose proof (ParseInt_range _ _ E). destruct (Z.leb_spec z 0); simpl.
    + right. split; [|done]. intros z' (? & Hr & Hz). rewrite Hz, ParseInt_FormatInt in E by done.
      injection E as ->. lia.
    + case_bool_decide as Hf; simpl.
      * left. exists z. split_and!; (done || lia).
      * right. split; [|done]. intros z' (? & Hr & Hz). rewrite Hz, ParseInt_FormatInt in E by done.
        injection E as ->. congruence.
  - right. split; [|done]. intros z (? & Hr & Hz). by rewrite Hz, ParseInt_FormatInt in E.
Qed.

Lemma numericURLParamAllowZero_cases w r name :
  (exists z, canonical 0 (URLParam r name) z /\ numericURLParamAllowZero w r name = (z, true, w)) \/
  ((forall z, ~ canonical 0 (URLParam r name) z) /\
   numericURLParamAllowZero w r name = (0, false, NotFound w)).
Proof.
  unfold numericURLParamAllowZero, canonical. case_bool_decide as He.
  { right. split; [|done]. intros z (_ & _ & Hz). rewrite He in Hz. by destruct (FormatInt_nonempty z). }
  destruct (ParseInt (URLParam r name)) as [z|] eqn:E.
  - pose proof (ParseInt_range _ _ E). destruct (Z.ltb_spec z 0); simpl.
    + right. split; [|done]. intros z' (? & Hr & Hz). rewrite Hz, ParseInt_FormatInt in E by done.
      injection E as ->. lia.
    + case_bool_decide as Hf; simpl.
      * left. exists z. split_and!; (done || lia).
      * right. split; [|done]. intros z' (? & Hr & Hz). rewrite Hz, ParseInt_FormatInt in E by done.
        injection E as ->. congruence.
  - right. split; [|done]. intros z (? & Hr & Hz). by rewrite Hz, ParseInt_FormatInt in E.
Qed.

Lemma canonical_unique low low' v z z' : canonical low v z -> canonical low' v z' -> z = z'.
Proof. intros (_ & H1 & ->) (_ & H2 & H). by apply FormatInt_inj. Qed.

(** ** Rows: lemmas *)

Section rows.
Context {D T : Type} `{SQLDriverLaws D T}.

(** What a single-row query returns when the statement's answer is [want]. *)
Lemma QueryRow_cases {A} (scan : list sqlval -> result A) q args d want :
  (forall rs, db_Query q args d = Ok rs -> delivers rs want) ->
  (forall row e, scan row = Err e -> errors_Is e ErrNoRows = false) ->
  match QueryRow scan q args d with
  | Ok a => exists row rest, want (row :: rest) /\ scan row = Ok a
  | Err e => if errors_Is e ErrNoRows then want [] else True
  end.
Proof using All.
  intros Hq Hs. unfold QueryRow. destruct (db_Query q args d) as [rs|e] eqn:E.
  - destruct (Hq rs eq_refl) as (full & Hw & [k Hp] & Hn). destruct (rows rs) as [|row l] eqn:Er.
    + destruct (rows_Err rs) as [e|] eqn:Ee.
      * by rewrite (rows_no_rows _ _ _ _ _ E Ee).
      * rewrite <-(Hn eq_refl) in Hw. by case_match.
    + destruct (scan row) as [a|e] eqn:Es; [|by rewrite (Hs _ _ Es)].
      exists row, (l ++ k). by rewrite Hp in Hw.
  - by rewrite (query_no_rows _ _ _ _ E).
Qed.

Lemma query_rows_ok {A} (scan : list sqlval -> result A) q args d l want :
  (forall rs, db_Query q args d = Ok rs -> delivers rs want) ->
  query_rows scan q args d = Ok l -> exists full, want full /\ scan_rows scan full = Ok l.
Proof using All.
  intros Hq. unfold query_rows. destruct (db_Query q args d) as [rs|e] eqn:E; [|done].
  destruct (Hq rs eq_refl) as (full & Hw & _ & Hn).
  destruct (scan_rows scan (rows rs)) as [l'|e] eqn:Es; [|done].
  destruct (rows_Err rs); [done|]. intros [= <-]. exists full. split; [done|]. by rewrite <-(Hn eq_refl).
Qed.
End rows.

Lemma scan_rows_map {A B} (scan : list sqlval -> result A) (f : B -> list sqlval) (g : B -> A) l :
  (forall x, scan (f x) = Ok (g x)) -> scan_rows scan (map f l) = Ok (map g l).
Proof. intros Hs. induction l as [|x l IH]; simpl; [done|]. rewrite Hs. simpl. by rewrite IH. Qed.

(** *** What the scans make of the rows *)

Definition recipient_dto (r : RecipientRow) : recipientDTO :=
  mkRecipientDTO (r_recipient_email r) (r_recipient_type r).
Definition attachment_dto (a : AttachmentRow) : attachmentDTO :=
  mkAttachmentDTO (a_id a) (default EmptyString (a_original_filename a)) (a_mime_type a) (a_size_bytes a).
Definition listed_dto (m : MessageRow) : messageDTO :=
  mkMessageDTO (m_id m) (m_sender m) (default EmptyString (m_subject m)) (m_message_date m)
    (m_received_at m) (default EmptyString (m_text_body m)) (default EmptyString (m_html_body m))
    EmptyString [] [].
Definition message_dto (t : Tables) (m : MessageRow) : messageDTO :=
  mkMessageDTO (m_id m) (m_sender m) (default EmptyString (m_subject m)) (m_message_date m)
    (m_received_at m) (default EmptyString (m_text_body m)) (default EmptyString (m_html_body m))
    (m_parser_status m) (map recipient_dto (recipients_of (m_id m) t))
    (map attachment_dto (attachments_of (m_id m) t)).

Lemma scan_int_err v e : scan_int v = Err e -> e = ErrScan.
Proof. unfold scan_int. repeat case_match; by intros [= <-]. Qed.
Lemma scan_string_err v e : scan_string v = Err e -> e = ErrScan.
Proof. unfold scan_string. repeat case_match; by intros [= <-]. Qed.
Lemma scan_time_err v e : scan_time v = Err e -> e = ErrScan.
Proof. unfold scan_time. repeat case_match; by intros [= <-]. Qed.

Lemma result_bind_Err {A B} (f : A -> result B) (m : result A) e :
  (m ≫= f) = Err e -> m = Err e \/ exists a, m = Ok a /\ f a = Err e.
Proof. destruct m; simpl; intros Hf; [right; eauto|left; congruence]. Qed.

(** A scan fails with [ErrScan] or not at all. *)
Ltac scan_errs :=
  let Hs := fresh in intros Hs;
  repeat (apply result_bind_Err in Hs as [Hs|(? & _ & Hs)];
    [first [apply scan_int_err in Hs | apply scan_string_err in Hs | apply scan_time_err in Hs]; by subst|]);
  first [discriminate Hs | by injection Hs as <-].

Lemma scan_hash_err row e : scan_hash row = Err e -> errors_Is e ErrNoRows = false.
Proof. unfold scan_hash. repeat case_match; try (by intros [= <-]). by intros ->%scan_string_err. Qed.
Lemma scan_total_err row e : scan_total row = Err e -> errors_Is e ErrNoRows = false.
Proof. unfold scan_total. repeat case_match; try (by intros [= <-]). by intros ->%scan_int_err. Qed.
Lemma scan_listed_err row e : scan_listed row = Err e -> errors_Is e ErrNoRows = false.
Proof. unfold scan_listed. repeat case_match; try (by intros [= <-]). scan_errs. Qed.
Lemma scan_message_err row e : scan_message row = Err e -> errors_Is e ErrNoRows = false.
Proof.
  unfold scan_message. do 9 (case_match; try (by intros [= <-])).
  intros [Hs|(m & _ & Hs)]%result_bind_Err; [by eapply scan_listed_err|]. revert Hs. scan_errs.
Qed.
Lemma scan_attachment_file_err row e : scan_attachment_file row = Err e -> errors_Is e ErrNoRows = false.
Proof. unfold scan_attachment_file. repeat case_match; try (by intros [= <-]). scan_errs. Qed.

(** ** Handlers: every outcome *)

(** The restriction a session puts on what may be read: none for an admin. *)
Definition viewer (s : Session) : option string := if IsAdmin s then None else Some (Email s).

(** The replies of a successful download. *)
Definition raw_reply (id : Z) (data : string) (w : ResponseWriter) : ResponseWriter :=
  Write (Bytes data) (set_header "Content-Length" (FormatInt (slen data))
    (set_header "Content-Disposition"
       ("attachment; filename=" +:+ quote +:+ "message-" +:+ FormatInt id +:+ ".eml" +:+ quote)
      (set_header "Content-Type" "message/rfc822" w))).

Definition attachment_name (a : AttachmentRow) : string :=
  let filename := sanitizeFilename (default EmptyString (a_original_filename a)) in
  if bool_decide (filename = EmptyString) then "attachment"%string else filename.
Definition attachment_reply (a : AttachmentRow) (data : string) (w : ResponseWriter) : ResponseWriter :=
  Write (Bytes data) (set_header "Content-Length" (FormatInt (a_size_bytes a))
    (set_header "Content-Disposition"
       ("attachment; filename=" +:+ quote +:+ attachment_name a +:+ quote)
      (set_header "Content-Type" (a_mime_type a) w))).

Lemma by_id_cons eq id email t m rest :
  by_id eq id email t = m :: rest -> m ∈ messages t /\ m_id m = id /\ may_see eq email t m = true.
Proof.
  intros Hb. assert (In m (by_id eq id email t)) as Hin by (rewrite Hb; by left).
  apply filter_In in Hin as [Hm [Hid Hs]%andb_true_iff].
  split_and!; [by apply list_elem_of_In|by apply Z.eqb_eq|done].
Qed.

Section outcomes.
Context {D T F : Type} `{SQLDriverLaws D T} `{FileSystem F}.
Variable storage : Storage.

Lemma raw_query s id d :
  match QueryRow scan_hash (rawMessageAuthQuery s id).1 (rawMessageAuthQuery s id).2 d with
  | Ok h => exists m rest, by_id sql_eq id (viewer s) (tables d) = m :: rest /\ h = m_content_hash m
  | Err e => if errors_Is e ErrNoRows then by_id sql_eq id (viewer s) (tables d) = [] else True
  end.
Proof using All.
  pose proof (QueryRow_cases scan_hash (rawMessageAuthQuery s id).1 (rawMessageAuthQuery s id).2 d
    (fun full => full = map raw_row (by_id sql_eq id (viewer s) (tables d)))) as HQ.
  destruct (QueryRow _ _ _ d) as [h|e].
  - destruct HQ as (row & rest & Hw & Hs); [|apply scan_hash_err|].
    + unfold rawMessageAuthQuery, viewer. intros rs.
      destruct (IsAdmin s); [apply query_raw_admin|apply query_raw_user].
    + destruct (by_id _ _ _ _) as [|m l]; [done|]. injection Hw as -> ->.
      injection Hs as <-. eauto.
  - destruct (errors_Is e ErrNoRows); [|done].
    enough ([] = map raw_row (by_id sql_eq id (viewer s) (tables d))) as Hm by (by destruct (by_id _ _ _ _)).
    apply HQ; [|apply scan_hash_err]. unfold rawMessageAuthQuery, viewer. intros rs.
    destruct (IsAdmin s); [apply query_raw_admin|apply query_raw_user].
Qed.

Lemma message_query s id d :
  match QueryRow scan_message (messageAuthQuery s id).1 (messageAuthQuery s id).2 d with
  | Ok dto => exists m rest, by_id sql_eq id (viewer s) (tables d) = m :: rest /\
      scan_message (message_row m) = Ok dto
  | Err e => if errors_Is e ErrNoRows then by_id sql_eq id (viewer s) (tables d) = [] else True
  end.
Proof using All.
  assert (forall rs, db_Query (messageAuthQuery s id).1 (messageAuthQuery s id).2 d = Ok rs ->
    delivers rs (fun full => full = map message_row (by_id sql_eq id (viewer s) (tables d)))) as Hq.
  { unfold messageAuthQuery, viewer. intros rs.
    destruct (IsAdmin s); [apply query_message_admin|apply query_message_user]. }
  pose proof (QueryRow_cases scan_message _ _ d _ Hq scan_message_err) as HQ.
  destruct (QueryRow _ _ _ d) as [h|e].
  - destruct HQ as (row & rest & Hw & Hs). destruct (by_id _ _ _ _) as [|m l]; [done|].
    injection Hw as -> ->. eauto.
  - destruct (errors_Is e ErrNoRows); [|done]. by destruct (by_id _ _ _ _).
Qed.

Lemma attachment_query s id idx d :
  0 <= idx ->
  match QueryRow scan_attachment_file (attachmentAuthQuery s id idx).1 (attachmentAuthQuery s id idx).2 d with
  | Ok x => exists a m rest, by_id sql_eq id (viewer s) (tables d) = m :: rest /\
      attachments_of id (tables d) !! Z.to_nat idx = Some a /\
      x = (a_storage_key a, default EmptyString (a_original_filename a), a_mime_type a, a_size_bytes a)
  | Err e => if errors_Is e ErrNoRows then attachment_at sql_eq id idx (viewer s) (tables d) = [] else True
  end.
Proof using All.
  intros Hidx.
  assert (forall rs, db_Query (attachmentAuthQuery s id idx).1 (attachmentAuthQuery s id idx).2 d = Ok rs ->
    delivers rs (fun full => full = map attachment_file_row
      (attachment_at sql_eq id idx (viewer s) (tables d)))) as Hq.
  { unfold attachmentAuthQuery, viewer. intros rs.
    destruct (IsAdmin s); [by apply query_attachment_admin|by apply query_attachment_user]. }
  pose proof (QueryRow_cases scan_attachment_file _ _ d _ Hq scan_attachment_file_err) as HQ.
  destruct (QueryRow _ _ _ d) as [x|e].
  - destruct HQ as (row & rest & Hw & Hs).
    unfold attachment_at in Hw. destruct (by_id _ _ _ _) as [|m l] eqn:Eb; [done|].
    destruct (drop _ _) as [|a k] eqn:Ed; [done|]. simpl in Hw. injection Hw as -> _.
    exists a, m, l. split_and!; [done| |].
    + rewrite <-(Nat.add_0_r (Z.to_nat idx)), <-lookup_drop, Ed. done.
    + injection Hs as <-. done.
  - destruct (errors_Is e ErrNoRows); [|done]. by destruct (attachment_at _ _ _ _ _).
Qed.

Lemma getMessage_cases s id d :
  match getMessage id s d with
  | Ok dto => exists m rest, by_id sql_eq id (viewer s) (tables d) = m :: rest /\ dto = message_dto (tables d) m
  | Err e => True
  end.
Proof using All.
  unfold getMessage. pose proof (message_query s id d) as HQ.
  destruct (messageAuthQuery s id) as [q args]. simpl in HQ.
  destruct (QueryRow scan_message q args d) as [dto|e]; [|done]. simpl.
  destruct HQ as (m & rest & Hb & Hs). pose proof (by_id_cons _ _ _ _ _ _ Hb) as (_ & Hid & _).
  injection Hs as <-.
  destruct (recipients id d) as [rs|e] eqn:Er; [|done]. simpl.
  destruct (attachments id d) as [ats|e] eqn:Ea; [|done]. simpl.
  exists m, rest. split; [done|]. unfold message_dto. rewrite Hid.
  apply (query_rows_ok _ _ _ _ _ _ (query_recipients id d)) in Er as (full & -> & Er).
  apply (query_rows_ok _ _ _ _ _ _ (query_attachments id d)) in Ea as (full & -> & Ea).
  rewrite (scan_rows_map _ _ recipient_dto) in Er by done. injection Er as <-.
  rewrite (scan_rows_map _ _ attachment_dto) in Ea by done. by injection Ea as <-.
Qed.

(** The replies that tell nothing. *)
Definition refusal (w w' : ResponseWriter) : Prop := w' = NotFound w \/ w' = internal_error w.

Lemma refusal_status w w' : not_sent w -> refusal w w' -> resp_status w' = 404 \/ resp_status w' = 500.
Proof using.
  intros Hw [->| ->]; [left; by apply NotFound_status|right; by apply http_Error_status].
Qed.

(** Each handler refuses, or answers about a message the session may see. *)
Lemma GetRawMIME_cases r w db fs :
  let out := GetRawMIME storage r w (db, fs) in
  out.2 = (db, fs) /\
  (refusal w out.1 \/ exists s id m rest data,
     SessionFromContext (ReqCtx r) = Some s /\ canonical 1 (URLParam r "id") id /\
     by_id sql_eq id (viewer s) (tables db) = m :: rest /\
     ReadRawMIME storage (m_content_hash m) fs = Ok data /\ out.1 = raw_reply id data w).
Proof using All.
  unfold GetRawMIME.
  destruct (numericURLParam_cases w r "id") as [(id & Hid & ->)|[_ ->]]; [|by split; [|left; left]].
  destruct (SessionFromContext (ReqCtx r)) as [s|]; [|by split; [|left; left]].
  pose proof (raw_query s id db) as HQ. destruct (rawMessageAuthQuery s id) as [q args]. simpl in HQ.
  destruct (QueryRow scan_hash q args db) as [h|e].
  - destruct HQ as (m & rest & Hb & ->).
    destruct (ReadRawMIME storage (m_content_hash m) fs) as [data|e] eqn:Er; [|by split; [|left; left]].
    split; [done|]. right. exists s, id, m, rest, data. done.
  - destruct (errors_Is e ErrNoRows); (split; [done|]); left; [by left|by right].
Qed.

Lemma GetAttachment_cases r w db fs :
  let out := GetAttachment storage r w (db, fs) in
  out.2 = (db, fs) /\
  (refusal w out.1 \/ exists s id idx m rest a data,
     SessionFromContext (ReqCtx r) = Some s /\ canonical 1 (URLParam r "id") id /\
     canonical 0 (URLParam r "idx") idx /\
     by_id sql_eq id (viewer s) (tables db) = m :: rest /\
     attachments_of id (tables db) !! Z.to_nat idx = Some a /\
     ReadAttachment storage id (a_storage_key a) fs = Ok data /\ out.1 = attachment_reply a data w).
Proof using All.
  unfold GetAttachment.
  destruct (numericURLParam_cases w r "id") as [(id & Hid & ->)|[_ ->]]; [|by split; [|left; left]].
  destruct (numericURLParamAllowZero_cases w r "idx") as [(idx & Hidx & ->)|[_ ->]]; [|by split; [|left; left]].
  destruct (SessionFromContext (ReqCtx r)) as [s|]; [|by split; [|left; left]].
  pose proof (attachment_query s id idx db (proj1 Hidx)) as HQ.
  destruct (attachmentAuthQuery s id idx) as [q args]. simpl in HQ.
  destruct (QueryRow scan_attachment_file q args db) as [[[[key name] mime] size]|e].
  - destruct HQ as (a & m & rest & Hb & Ha & Hx). simplify_eq/=.
    destruct (ReadAttachment storage id (a_storage_key a) fs) as [data|e] eqn:Er; [|by split; [|left; left]].
    split; [done|]. right. by exists s, id, idx, m, rest, a, data.
  - destruct (errors_Is e ErrNoRows); (split; [done|]); left; [by left|by right].
Qed.

Lemma GetMessage_cases r w db (fs : F) :
  let out := GetMessage r w (db, fs) in
  out.2 = (db, fs) /\
  (refusal w out.1 \/ exists s id m rest,
     SessionFromContext (ReqCtx r) = Some s /\ canonical 1 (URLParam r "id") id /\
     by_id sql_eq id (viewer s) (tables db) = m :: rest /\
     out.1 = writeJSON 200 (messageDTO_json (message_dto (tables db) m)) w).
Proof using All.
  unfold GetMessage.
  destruct (numericURLParam_cases w r "id") as [(id & Hid & ->)|[_ ->]]; [|by split; [|left; left]].
  destruct (SessionFromContext (ReqCtx r)) as [s|]; [|by split; [|left; left]].
  pose proof (getMessage_cases s id db) as HQ. destruct (getMessage id s db) as [dto|e].
  - destruct HQ as (m & rest & Hb & ->). split; [done|]. right. by exists s, id, m, rest.
  - destruct (errors_Is e ErrNoRows); (split; [done|]); left; [by left|by right].
Qed.
(** *** Answers about a message that the session may see *)

Lemma scan_recipient_err row e : scan_recipient row = Err e -> errors_Is e ErrNoRows = false.
Proof using. unfold scan_recipient. repeat case_match; try (by intros [= <-]). scan_errs. Qed.
Lemma scan_attachment_err row e : scan_attachment row = Err e -> errors_Is e ErrNoRows = false.
Proof using. unfold scan_attachment. repeat case_match; try (by intros [= <-]). scan_errs. Qed.

Lemma query_rows_err {A} (scan : list sqlval -> result A) q args (d : D) e :
  (forall row e, scan row = Err e -> errors_Is e ErrNoRows = false) ->
  query_rows scan q args d = Err e -> errors_Is e ErrNoRows = false.
Proof using All.
  intros Hs. unfold query_rows. destruct (db_Query q args d) as [rs|e'] eqn:Eq.
  2:{ intros [= <-]. by eapply query_no_rows. }
  destruct (scan_rows scan (rows rs)) as [l|e'] eqn:Es.
  - destruct (rows_Err rs) as [e'|] eqn:Ee; [|done]. intros [= <-]. by eapply rows_no_rows.
  - intros [= <-]. clear -Hs Es. revert e' Es. induction (rows rs) as [|row l IH]; intros e' Es; [done|].
    simpl in Es. destruct (scan row) as [a|e2] eqn:E2; [|injection Es as <-; by eapply Hs].
    simpl in Es. destruct (scan_rows scan l) as [l'|e3]; [done|]. injection Es as <-. by apply IH.
Qed.

Lemma getMessage_err s id d e m rest :
  by_id sql_eq id (viewer s) (tables d) = m :: rest -> getMessage id s d = Err e -> errors_Is e ErrNoRows = false.
Proof using All.
  intros Hb. unfold getMessage. pose proof (message_query s id d) as HQ.
  destruct (messageAuthQuery s id) as [q args]. simpl in HQ.
  destruct (QueryRow scan_message q args d) as [dto|e'].
  2:{ intros [= <-]. destruct (errors_Is e' ErrNoRows); [|done]. by rewrite Hb in HQ. }
  intros [Hr|(msg & _ & [Hr|(rs & _ & [Hr|(ats & _ & Hr)]%result_bind_Err)]%result_bind_Err)]%result_bind_Err; [done|..|done].
  - eapply query_rows_err, Hr. apply scan_recipient_err.
  - eapply query_rows_err, Hr. apply scan_attachment_err.
Qed.

Section visible.
Variables (r : Request) (w : ResponseWriter) (db : D) (fs : F) (s : Session) (id : Z) (m : MessageRow) (rest : list MessageRow).
Hypothesis session : SessionFromContext (ReqCtx r) = Some s.
Hypothesis param : canonical 1 (URLParam r "id") id.
Hypothesis found : by_id sql_eq id (viewer s) (tables db) = m :: rest.

Lemma id_param : numericURLParam w r "id" = (id, true, w).
Proof using param.
  destruct (numericURLParam_cases w r "id") as [(id' & Hid & ->)|[Hno _]]; [|by destruct (Hno id)].
  by rewrite (canonical_unique _ _ _ _ _ Hid param).
Qed.

Lemma GetRawMIME_visible data :
  ReadRawMIME storage (m_content_hash m) fs = Ok data ->
  let out := GetRawMIME storage r w (db, fs) in out.1 = internal_error w \/ out.1 = raw_reply id data w.
Proof using All.
  intros Hd. unfold GetRawMIME. rewrite id_param, session.
  pose proof (raw_query s id db) as HQ. destruct (rawMessageAuthQuery s id) as [q args]. simpl in HQ.
  destruct (QueryRow scan_hash q args db) as [h|e].
  - destruct HQ as (m' & rest' & Hb & ->). rewrite found in Hb. injection Hb as <- <-. rewrite Hd. by right.
  - destruct (errors_Is e ErrNoRows); [by rewrite found in HQ|by left].
Qed.

Lemma GetMessage_visible :
  let out := GetMessage r w (db, fs) in
  out.1 = internal_error w \/ out.1 = writeJSON 200 (messageDTO_json (message_dto (tables db) m)) w.
Proof using All.
  unfold GetMessage. rewrite id_param, session. pose proof (getMessage_cases s id db) as HQ.
  destruct (getMessage id s db) as [dto|e] eqn:E.
  - destruct HQ as (m' & rest' & Hb & ->). rewrite found in Hb. injection Hb as <- <-. by right.
  - rewrite (getMessage_err _ _ _ _ _ _ found E). by left.
Qed.

Lemma GetAttachment_visible idx a data :
  canonical 0 (URLParam r "idx") idx -> attachments_of id (tables db) !! Z.to_nat idx = Some a ->
  ReadAttachment storage id (a_storage_key a) fs = Ok data ->
  let out := GetAttachment storage r w (db, fs) in out.1 = internal_error w \/ out.1 = attachment_reply a data w.
Proof using All.
  intros Hidx Ha Hd. unfold GetAttachment. rewrite id_param.
  destruct (numericURLParamAllowZero_cases w r "idx") as [(idx' & Hidx' & ->)|[Hno _]]; [|by destruct (Hno idx)].
  rewrite (canonical_unique _ _ _ _ _ Hidx' Hidx), session.
  pose proof (attachment_query s id idx db (proj1 Hidx)) as HQ.
  destruct (attachmentAuthQuery s id idx) as [q args]. simpl in HQ.
  destruct (QueryRow scan_attachment_file q args db) as [[[[key name] mime] size]|e].
  - destruct HQ as (a' & m' & rest' & _ & Ha' & Hx). rewrite Ha in Ha'. injection Ha' as <-.
    simplify_eq/=. rewrite Hd. by right.
  - destruct (errors_Is e ErrNoRows); [|by left]. exfalso. unfold attachment_at in HQ. rewrite found in HQ.
    apply list_elem_of_split_length in Ha as (l1 & l2 & El & Hl).
    rewrite El, Hl, drop_app_length in HQ. done.
Qed.
End visible.

(** A message that the session may not see: every handler refuses. *)
Lemma unseen_refused r w db s id :
  SessionFromContext (ReqCtx r) = Some s -> canonical 1 (URLParam r "id") id ->
  by_id sql_eq id (viewer s) (tables db) = [] ->
  (forall fs : F, refusal w (GetRawMIME storage r w (db, fs)).1) /\
  (forall fs : F, refusal w (GetMessage r w (db, fs)).1) /\
  (forall fs : F, refusal w (GetAttachment storage r w (db, fs)).1).
Proof using All.
  intros Hs Hid Hnone. split_and!; intros fs.
  - destruct (GetRawMIME_cases r w db fs) as [_ [Hr|(s' & id' & m & rest & data & K2 & K3 & K4 & _)]]; [done|].
    rewrite Hs in K2. injection K2 as <-. rewrite (canonical_unique _ _ _ _ _ K3 Hid), Hnone in K4. done.
  - destruct (GetMessage_cases r w db fs) as [_ [Hr|(s' & id' & m & rest & K2 & K3 & K4 & _)]]; [done|].
    rewrite Hs in K2. injection K2 as <-. rewrite (canonical_unique _ _ _ _ _ K3 Hid), Hnone in K4. done.
  - destruct (GetAttachment_cases r w db fs)
      as [_ [Hr|(s' & id' & idx & m & rest & a & data & K2 & K3 & _ & K4 & _)]]; [done|].
    rewrite Hs in K2. injection K2 as <-. rewrite (canonical_unique _ _ _ _ _ K3 Hid), Hnone in K4. done.
Qed.
End outcomes.

(** ** The list *)

Lemma listWhere_eq s q :
  listWhere s q =
  let f := mkFilter (viewer s) (if isSearchQueryUsable q then Some q else None) in
  (filter_sql f, filter_args f).
Proof. unfold listWhere, viewer. by destruct (IsAdmin s), (isSearchQueryUsable q). Qed.

Lemma parsePositiveInt_range v d : 0 < d -> in_int64 d -> 0 < parsePositiveInt v d /\ in_int64 (parsePositiveInt v d).
Proof.
  intros Hd Hi. unfold parsePositiveInt, Atoi. destruct (ParseInt v) as [z|] eqn:E; [|done].
  apply ParseInt_range in E. destruct (Z.leb_spec z 0); done.
Qed.

Definition page_number (r : Request) : Z := parsePositiveInt (Query_Get r "page") 1.
Definition page_size (r : Request) : Z := Z.min 100 (parsePositiveInt (Query_Get r "per_page") 50).

Lemma page_params_eq r :
  page_params r = (page_number r, page_size r, wrap64 ((page_number r - 1) * page_size r)) /\
  1 <= page_number r <= max_int64 /\ 1 <= page_size r <= 100.
Proof.
  unfold page_params, page_number, page_size.
  destruct (parsePositiveInt_range (Query_Get r "page") 1) as [H1 H2]; [done|done|].
  destruct (parsePositiveInt_range (Query_Get r "per_page") 50) as [H3 H4]; [done|done|].
  set (page := parsePositiveInt (Query_Get r "page") 1) in *.
  set (per := parsePositiveInt (Query_Get r "per_page") 50) in *.
  assert ((if 100 <? per then 100 else per) = Z.min 100 per) as -> by (destruct (Z.ltb_spec 100 per); lia).
  unfold in_int64, max_int64, min_int64 in *.
  rewrite (wrap64_id (page - 1)) by (unfold in_int64, max_int64, min_int64; lia).
  split; [done|]. lia.
Qed.

Section list_outcomes.
Context {D T F : Type} `{SQLDriverLaws D T}.

Definition list_filter (r : Request) (s : Session) : ListFilter :=
  let q := TrimSpace (Query_Get r "q") in
  mkFilter (viewer s) (if isSearchQueryUsable q then Some q else None).

Lemma ListMessages_cases r w db (fs : F) :
  let out := ListMessages r w (db, fs) in
  out.2 = (db, fs) /\
  (refusal w out.1 \/ exists s l,
     SessionFromContext (ReqCtx r) = Some s /\
     Permutation l (listed sql_eq fulltext (list_filter r s) (tables db)) /\ Sorted newest_first l /\
     0 <= wrap64 ((page_number r - 1) * page_size r) /\
     out.1 = writeJSON 200 (list_json
       (map listed_dto (take (Z.to_nat (page_size r))
          (drop (Z.to_nat (wrap64 ((page_number r - 1) * page_size r))) l)))
       (Z.of_nat (length l)) (page_number r) (page_size r)) w).
Proof using All.
  unfold ListMessages. destruct (SessionFromContext (ReqCtx r)) as [s|]; [|by split; [|left; left]].
  destruct (page_params_eq r) as (-> & _ & _). rewrite listWhere_eq. fold (list_filter r s).
  cbv beta iota zeta. set (f := list_filter r s).
  pose proof (QueryRow_cases scan_total (sql_count f) (filter_args f) db _
    (query_count f db) scan_total_err) as HQ.
  change ("SELECT COUNT(DISTINCT m.id) FROM messages m " +:+ filter_sql f) with (sql_count f).
  destruct (QueryRow scan_total (sql_count f) (filter_args f) db) as [total|e]; [|by split; [|left; right]].
  destruct HQ as (row & rest & [= -> ->] & Ht). injection Ht as <-.
  match goal with |- context [query_rows scan_listed ?q ?a db] =>
    change q with (sql_list f); destruct (query_rows scan_listed (sql_list f) a db) as [ms|e] eqn:El
  end; [|by split; [|left; right]].
  set (off := wrap64 _) in *.
  assert (forall rs, db_Query (sql_list f) (filter_args f ++ [VInt (page_size r); VInt off]) db = Ok rs ->
    delivers rs (fun full => 0 <= off /\ page_of sql_eq fulltext f (page_size r) off (tables db) full)) as Hq.
  { intros rs (_ & Ho & full & Hp & Hr)%query_list. exists full. done. }
  apply (query_rows_ok _ _ _ _ _ _ Hq) in El as (full & (Ho & l & Hp & Hs & ->) & El).
  rewrite (scan_rows_map _ _ listed_dto) in El by done. injection El as <-.
  split; [done|]. right. exists s, l. split_and!; [done..|]. by rewrite (Permutation_length Hp).
Qed.
End list_outcomes.

(** ** Properties *)

(** A [?] placeholder of a statement text. *)
Fixpoint placeholders (s : string) : nat :=
  match s with
  | EmptyString => 0
  | String c s' => (if bool_decide (c = "?"%char) then 1 else 0) + placeholders s'
  end.

Lemma filter_sql_placeholders f : placeholders (filter_sql f) = length (filter_args f).
Proof. by destruct f as [[e|] [q|]]; vm_compute. Qed.

(** The file name offered to the browser. *)
Definition header_safe (s : string) : Prop := sforall (fun c => negb (dropped_rune (code c))) s = true.

Lemma dropped_rune_high z : 0x80 <= z -> dropped_rune z = false.
Proof.
  intros Hz. unfold dropped_rune. simpl. repeat (rewrite (proj2 (Z.eqb_neq z _)) by lia). done.
Qed.

Lemma sanitizeFilename_safe f : header_safe (sanitizeFilename f).
Proof.
  unfold header_safe, sanitizeFilename. apply sforall_TrimSpace. unfold Map.
  rewrite sforall_sconcat, forallb_Forall, Forall_map. apply Forall_forall. intros x _. simpl.
  destruct (dropped_rune x.1) eqn:Ed; [done|].
  destruct (Z.ltb_spec x.1 0); [done|].
  assert (forall r, ValidRune r = true -> dropped_rune r = false ->
    sforall (fun c => negb (dropped_rune (code c))) (encode_valid r) = true) as Henc.
  { intros r Hv Hr. destruct (Z.lt_ge_cases r 0x80) as [Hlow|Hhigh].
    - unfold encode_valid. rewrite (proj2 (Z.ltb_lt _ _) Hlow). simpl.
      apply ValidRune_spec in Hv. rewrite code_byte by lia. by rewrite Hr.
    - destruct (encode_valid_high r false Hv Hhigh) as [_ Hs].
      eapply sforall_impl; [|exact (Hs dropped_rune dropped_rune_high)].
      intros c Hc%bool_decide_eq_true. by rewrite Hc. }
  unfold EncodeRune. destruct (ValidRune x.1) eqn:Ev; [by apply Henc|by vm_compute].
Qed.

Section api_properties.
  Context {D T F : Type} `{SQLDriverLaws D T} `{FileSystem F}.
  Variable storage : Storage.

(** No download without the right to it. When a raw message or an attachment
    is served with status 200, the request carries a session, the ids are in
    canonical decimal form, the message exists under that id and the session is
    an admin's or has an address among its recipients, and the body is exactly
    the stored blob of that message (for an attachment, of the message's
    attachment at that index). Nothing is modified. *)
Theorem downloads_are_authorised r w db (fs : F) :
  not_sent w ->
  (let out := GetRawMIME storage r w (db, fs) in
   out.2 = (db, fs) /\
   (resp_status out.1 = 200 -> exists s id m data,
     SessionFromContext (ReqCtx r) = Some s /\ canonical 1 (URLParam r "id") id /\
     m ∈ messages (tables db) /\ m_id m = id /\ may_see sql_eq (viewer s) (tables db) m = true /\
     ReadRawMIME storage (m_content_hash m) fs = Ok data /\
     resp_body out.1 = resp_body w ++ [Bytes data])) /\
  (let out := GetAttachment storage r w (db, fs) in
   out.2 = (db, fs) /\
   (resp_status out.1 = 200 -> exists s id idx m a data,
     SessionFromContext (ReqCtx r) = Some s /\ canonical 1 (URLParam r "id") id /\
     canonical 0 (URLParam r "idx") idx /\
     m ∈ messages (tables db) /\ m_id m = id /\ may_see sql_eq (viewer s) (tables db) m = true /\
     attachments_of id (tables db) !! Z.to_nat idx = Some a /\
     ReadAttachment storage id (a_storage_key a) fs = Ok data /\
     resp_body out.1 = resp_body w ++ [Bytes data])).
Proof.
  intros Hw. split.
  - destruct (GetRawMIME_cases storage r w db fs) as [K1 [Hr|(s & id & m & rest & data & K2 & K3 & K4 & K5 & Ho)]];
      (split; [exact K1|]).
    + intros H200. destruct (refusal_status _ _ Hw Hr); congruence.
    + intros _. apply by_id_cons in K4 as (Hm & Hid & Hs). exists s, id, m, data.
      split_and!; [done..|]. rewrite Ho. unfold raw_reply. simpl_http. unfold base_Write, base_WriteHeader.
      simpl. by rewrite Hw.
  - destruct (GetAttachment_cases storage r w db fs)
      as [K1 [Hr|(s & id & idx & m & rest & a & data & K2 & K3 & K4 & K5 & K6 & K7 & Ho)]]; (split; [exact K1|]).
    + intros H200. destruct (refusal_status _ _ Hw Hr); congruence.
    + intros _. apply by_id_cons in K5 as (Hm & Hid & Hs). exists s, id, idx, m, a, data.
      split_and!; [done..|]. rewrite Ho. unfold attachment_reply. simpl_http.
      unfold base_Write, base_WriteHeader. simpl. by rewrite Hw.
Qed.

(** C27: A message the session may not see looks like one that does not exist:
    when no message with the id is visible to the session, all three handlers
    answer exactly the plain 404, or the plain 500 of a database failure, and
    read no blob (the answer is the same for every file system). *)
Theorem foreign_message_looks_absent r w db s id :
  SessionFromContext (ReqCtx r) = Some s -> canonical 1 (URLParam r "id") id ->
  by_id sql_eq id (viewer s) (tables db) = [] ->
  (forall fs : F, refusal w (GetRawMIME storage r w (db, fs)).1) /\
  (forall fs : F, refusal w (GetMessage r w (db, fs)).1) /\
  (forall fs : F, refusal w (GetAttachment storage r w (db, fs)).1).
Proof. apply unseen_refused. Qed.

(** The message view is exact: status 200 means that the message is visible
    to the session and the JSON has its columns (NULL texts as empty), all its
    recipients and all its attachments, in the order of their ids. *)
Theorem message_view_exact r w db (fs : F) :
  not_sent w ->
  let out := GetMessage r w (db, fs) in
  resp_status out.1 = 200 -> exists s id m,
    SessionFromContext (ReqCtx r) = Some s /\ canonical 1 (URLParam r "id") id /\
    m ∈ messages (tables db) /\ m_id m = id /\ may_see sql_eq (viewer s) (tables db) m = true /\
    resp_body out.1 = resp_body w ++ [Json (messageDTO_json (message_dto (tables db) m))].
Proof.
  intros Hw out H200. destruct (GetMessage_cases storage r w db fs) as [_ [Hr|(s & id & m & rest & K2 & K3 & K4 & Ho)]].
  - destruct (refusal_status _ _ Hw Hr); unfold out in *; congruence.
  - apply by_id_cons in K4 as (Hm & Hid & Hs). exists s, id, m. split_and!; [done..|].
    unfold out. rewrite Ho. by autorewrite with reply.
Qed.

(** The list is exact: when the offset does not overflow and the reply is
    200, it holds the requested page of the messages the session may see (and
    that match the search, if it is usable), newest first, each of them visible
    to the session, with the number of all such messages as total, and never
    more than 100. *)
Theorem list_page_exact r w db (fs : F) :
  not_sent w -> (page_number r - 1) * page_size r <= max_int64 ->
  let out := ListMessages r w (db, fs) in
  resp_status out.1 = 200 -> exists s l,
    let shown := take (Z.to_nat (page_size r)) (drop (Z.to_nat ((page_number r - 1) * page_size r)) l) in
    SessionFromContext (ReqCtx r) = Some s /\
    Permutation l (listed sql_eq fulltext (list_filter r s) (tables db)) /\ Sorted newest_first l /\
    Forall (fun m => may_see sql_eq (viewer s) (tables db) m = true) shown /\ (length shown <= 100)%nat /\
    resp_body out.1 = resp_body w ++
      [Json (list_json (map listed_dto shown) (Z.of_nat (length l)) (page_number r) (page_size r))].
Proof.
  intros Hw Hmax out H200. destruct (ListMessages_cases r w db fs) as [_ [Hr|(s & l & K2 & K3 & K4 & K5 & Ho)]].
  - destruct (refusal_status _ _ Hw Hr); unfold out in *; congruence.
  - destruct (page_params_eq r) as (_ & Hp & Hs).
    rewrite wrap64_id in Ho by (unfold in_int64, min_int64; lia).
    exists s, l. split_and!; [done..| | |].
    + apply Forall_take, Forall_drop. rewrite K3. unfold listed. apply Forall_forall.
      intros m Hm%list_elem_of_In%filter_In. destruct Hm as [_ [Hm _]%andb_true_iff]. exact Hm.
    + rewrite length_take. lia.
    + unfold out. rewrite Ho. by autorewrite with reply.
Qed.

(** A page number out of range wraps around. With 64 messages per page, page
    2^58 + 1 has an offset of 2^64, which is 0 in Go's [int]: instead of an
    empty page the reply shows the first 64 messages under that page number. *)
Theorem page_offset_overflows r w db (fs : F) :
  not_sent w -> page_number r = 2 ^ 58 + 1 -> page_size r = 64 ->
  let out := ListMessages r w (db, fs) in
  resp_status out.1 = 200 -> exists s l,
    SessionFromContext (ReqCtx r) = Some s /\
    Permutation l (listed sql_eq fulltext (list_filter r s) (tables db)) /\ Sorted newest_first l /\
    resp_body out.1 = resp_body w ++
      [Json (list_json (map listed_dto (take 64 l)) (Z.of_nat (length l)) (2 ^ 58 + 1) 64)].
Proof.
  intros Hw Hp Hsz out H200. destruct (ListMessages_cases r w db fs) as [_ [Hr|(s & l & K2 & K3 & K4 & K5 & Ho)]].
  - destruct (refusal_status _ _ Hw Hr); unfold out in *; congruence.
  - rewrite Hp, Hsz in Ho. change (wrap64 ((2 ^ 58 + 1 - 1) * 64)) with 0 in Ho.
    exists s, l. split_and!; [done..|]. unfold out. rewrite Ho. by autorewrite with reply.
Qed.
End api_properties.

(** An id in the path is accepted exactly when it is the canonical decimal
    form of an integer between 1 (0 for an attachment index) and 2^63 - 1: no
    sign, no leading zeros, no other spelling reaches the database; anything
    else is answered 404. *)
Theorem url_ids_are_canonical w r name z w' :
  (numericURLParam w r name = (z, true, w') <->
   1 <= z <= max_int64 /\ URLParam r name = FormatInt z /\ w' = w) /\
  (numericURLParamAllowZero w r name = (z, true, w') <->
   0 <= z <= max_int64 /\ URLParam r name = FormatInt z /\ w' = w) /\
  (forall ok, numericURLParam w r name = (z, ok, w') -> ok = false -> w' = NotFound w).
Proof.
  assert (forall low, 0 <= low -> canonical low (URLParam r name) z <->
    low <= z <= max_int64 /\ URLParam r name = FormatInt z) as Hc.
  { intros low Hl. unfold canonical, in_int64, min_int64. intuition lia. }
  split_and!.
  - transitivity (canonical 1 (URLParam r name) z /\ w' = w); [|rewrite Hc by lia; tauto].
    destruct (numericURLParam_cases w r name) as [(z' & Hz & ->)|[Hno ->]].
    + split; [intros [= <- <-]; done|]. intros [Hz' ->]. by rewrite (canonical_unique _ _ _ _ _ Hz Hz').
    + split; [done|]. intros [Hz _]. by destruct (Hno z).
  - transitivity (canonical 0 (URLParam r name) z /\ w' = w); [|rewrite Hc by lia; tauto].
    destruct (numericURLParamAllowZero_cases w r name) as [(z' & Hz & ->)|[Hno ->]].
    + split; [intros [= <- <-]; done|]. intros [Hz' ->]. by rewrite (canonical_unique _ _ _ _ _ Hz Hz').
    + split; [done|]. intros [Hz _]. by destruct (Hno z).
  - intros ok Hn ->. destruct (numericURLParam_cases w r name) as [(z' & _ & Hz)|[_ Hz]]; congruence.
Qed.

(** No user data in a statement. The text of every query the API sends
    depends only on whether the session is an admin's (and, for the list, on
    whether the search is usable), never on the address, the search text or the
    ids; those travel as arguments, one for each placeholder of the text. *)
Theorem queries_are_parameterised s s' id id' idx idx' q q' :
  IsAdmin s = IsAdmin s' -> isSearchQueryUsable q = isSearchQueryUsable q' ->
  ((rawMessageAuthQuery s id).1 = (rawMessageAuthQuery s' id').1 /\
   placeholders (rawMessageAuthQuery s id).1 = length (rawMessageAuthQuery s id).2) /\
  ((messageAuthQuery s id).1 = (messageAuthQuery s' id').1 /\
   placeholders (messageAuthQuery s id).1 = length (messageAuthQuery s id).2) /\
  ((attachmentAuthQuery s id idx).1 = (attachmentAuthQuery s' id' idx').1 /\
   placeholders (attachmentAuthQuery s id idx).1 = length (attachmentAuthQuery s id idx).2) /\
  ((listWhere s q).1 = (listWhere s' q').1 /\ placeholders (listWhere s q).1 = length (listWhere s q).2).
Proof.
  intros Ha Hq. split_and!.
  - unfold rawMessageAuthQuery. rewrite <-Ha. by destruct (IsAdmin s).
  - unfold rawMessageAuthQuery. by destruct (IsAdmin s); vm_compute.
  - unfold messageAuthQuery. rewrite <-Ha. by destruct (IsAdmin s).
  - unfold messageAuthQuery. by destruct (IsAdmin s); vm_compute.
  - unfold attachmentAuthQuery. rewrite <-Ha. by destruct (IsAdmin s).
  - unfold attachmentAuthQuery. by destruct (IsAdmin s); vm_compute.
  - rewrite !listWhere_eq. unfold viewer. rewrite <-Ha, <-Hq.
    by destruct (IsAdmin s), (isSearchQueryUsable q).
  - rewrite listWhere_eq. apply filter_sql_placeholders.
Qed.

(** The file name in Content-Disposition cannot break out of its quotes or
    its header: for every stored name, [sanitizeFilename] gives a trimmed, valid
    UTF-8 string with no quote, apostrophe, CR, LF, slash or backslash, and the
    name that is sent is not empty. *)
Theorem attachment_name_is_header_safe a :
  header_safe (attachment_name a) /\ attachment_name a <> EmptyString /\
  TrimSpace (attachment_name a) = attachment_name a /\
  Valid (attachment_name a) = true.
Proof.
  unfold attachment_name. set (n := default EmptyString (a_original_filename a)).
  case_bool_decide as He; [split_and!; by vm_compute|].
  split_and!; [apply sanitizeFilename_safe|done|apply TrimSpace_idem|].
  unfold sanitizeFilename. unfold Valid. rewrite runes_TrimSpace.
  pose proof (Valid_Map (fun r => if dropped_rune r then -1 else r) n) as Hv. unfold Valid in Hv.
  destruct (trim_runes_infix (runes (Map (fun r => if dropped_rune r then -1 else r) n))) as (l1 & l3 & Hl).
  rewrite Hl, !forallb_app, !andb_true_iff in Hv. tauto.
Qed.

(** A search is sent to the full-text index exactly when it has an ASCII
    letter or digit; otherwise the list is not filtered by text. *)
Theorem search_usable_iff_alnum q :
  isSearchQueryUsable q = sexists (fun c => ascii_alnum (code c)) q.
Proof.
  assert (forall z, 0x80 <= z -> ascii_alnum z = false) as Hhigh.
  { intros z Hz. unfold ascii_alnum. rewrite !orb_false_iff, !in_range_false. lia. }
  assert (forall z, IsSpace z = true -> ascii_alnum z = false) as Hsp.
  { intros z Hz. destruct (Z.lt_ge_cases z 0x80); [|by apply Hhigh].
    unfold IsSpace in Hz. unfold ascii_alnum. rewrite !orb_false_iff, !in_range_false.
    rewrite !orb_true_iff, !in_range_spec, !Z.eqb_eq in Hz. lia. }
  unfold isSearchQueryUsable. rewrite runes_TrimSpace, (existsb_trim_runes ascii_alnum) by done.
  rewrite runes_ascii by done. case_bool_decide as He; [|done].
  rewrite <-runes_ascii by done. rewrite <-(existsb_trim_runes ascii_alnum) by done.
  rewrite <-runes_TrimSpace, He. done.
Qed.

(** ** The theorems at concrete inputs *)

Module Demo.
Definition bob : Session := mkSession "bob@example.com" false 0 "t".
Definition store : Storage := mkStorage "./data".

Definition message (id received : Z) (hash : string) : MessageRow :=
  mkMessage id hash hash "alice@example.com" (Some "Hello"%string) 0 received (Some "Hi Bob"%string) None
    ("raw/" +:+ hash) "success" None.
(** Message 7 is for Bob and has an attachment; message 8 is for Carol. *)
Definition database : MemDB :=
  mkMemDB (mkTables [message 7 100 "ab"; message 8 200 "ef"]
             [mkRecipientRow 1 7 "bob@example.com" "to" 100; mkRecipientRow 2 8 "carol@example.com" "to" 200]
             [mkAttachmentRow 1 7 "cd" (Some "a/b.pdf"%string) "application/pdf" 4 "cd"] [])
    (fun _ => false) false.
Definition files : MemFS :=
  mkMemFS {[ "data/raw/ab"%string := "From: alice"%string; "data/attachments/7/cd"%string := "%PDF"%string ]}
    ∅ 0 (fun _ => None).

Definition request (params query : list (string * string)) : Request :=
  mkRequest "GET" "/api/messages" query empty_header [] "10.0.0.1:4000" 0 (mkBody EmptyString None)
    (WithSession [] bob) params.
Definition for_message (id : string) : Request := request [("id", id); ("idx", "0")]%string [].
End Demo.

Lemma downloads_are_authorised_witness :
  (exists id m, id = 7 /\ m_id m = id /\ m ∈ messages (mem_tables Demo.database) /\
    resp_body (GetRawMIME Demo.store (Demo.for_message "7") new_writer (Demo.database, Demo.files)).1
    = [Bytes "From: alice"]) /\
  resp_body (GetAttachment Demo.store (Demo.for_message "7") new_writer (Demo.database, Demo.files)).1
    = [Bytes "%PDF"].
Proof.
  destruct (downloads_are_authorised Demo.store (Demo.for_message "7") new_writer Demo.database Demo.files
    eq_refl) as [[_ H1] [_ H2]].
  destruct H1 as (s & id & m & data & Hs & Hid & Hm & Hmid & _ & Hd & Hb); [by vm_compute|].
  destruct H2 as (s2 & id2 & idx & m2 & a & data2 & _ & _ & _ & _ & _ & _ & Ha & Hd2 & Hb2); [by vm_compute|].
  split.
  - exists id, m. assert (id = 7) as ->; [|split_and!; try done; by vm_compute].
    symmetry. apply (canonical_unique 1 1 "7"); [split_and!; by vm_compute|exact Hid].
  - by vm_compute.
Defined.

Lemma foreign_message_looks_absent_witness :
  refusal new_writer (GetMessage (Demo.for_message "8") new_writer (Demo.database, Demo.files)).1.
Proof.
  apply (foreign_message_looks_absent Demo.store (Demo.for_message "8") new_writer Demo.database Demo.bob 8).
  - by vm_compute.
  - split_and!; by vm_compute.
  - by vm_compute.
Defined.

Lemma message_view_exact_witness :
  exists m, m_id m = 7 /\
    resp_body (GetMessage (Demo.for_message "7") new_writer (Demo.database, Demo.files)).1
    = [Json (messageDTO_json (message_dto (mem_tables Demo.database) m))].
Proof.
  destruct (message_view_exact Demo.store (Demo.for_message "7") new_writer Demo.database Demo.files eq_refl)
    as (s & id & m & _ & Hid & _ & Hm & _ & Hb); [by vm_compute|].
  exists m. split; [|exact Hb]. rewrite Hm.
  apply (canonical_unique 1 1 "7"); [exact Hid|split_and!; by vm_compute].
Defined.

Lemma list_page_exact_witness :
  let r := Demo.request [] [("per_page", "500"); ("q", "Bob")]%string in
  page_size r = 100 /\ exists l : list MessageRow,
    Permutation l [Demo.message 7 100 "ab"] /\
    resp_body (ListMessages r new_writer (Demo.database, Demo.files)).1
    = [Json (list_json (map listed_dto (take 100 (drop 0 l))) (Z.of_nat (length l)) 1 100)].
Proof.
  split; [by vm_compute|].
  destruct (list_page_exact (Demo.request [] [("per_page", "500"); ("q", "Bob")]%string)
    new_writer Demo.database Demo.files eq_refl) as (s & l & Hs & Hp & _ & _ & _ & Hb);
    [by vm_compute|by vm_compute|].
  exists l. split; [|exact Hb]. injection Hs as <-.
  assert (listed sql_eq fulltext (list_filter (Demo.request [] [("per_page", "500"); ("q", "Bob")]%string)
    Demo.bob) (tables Demo.database) = [Demo.message 7 100 "ab"]) as Hl by (by vm_compute).
  by rewrite <-Hl.
Defined.

Lemma page_offset_overflows_witness :
  let r := Demo.request [] [("page", "288230376151711745"); ("per_page", "64")]%string in
  exists l : list MessageRow, Permutation l [Demo.message 7 100 "ab"] /\
    resp_body (ListMessages r new_writer (Demo.database, Demo.files)).1
    = [Json (list_json (map listed_dto (take 64 l)) (Z.of_nat (length l)) (2 ^ 58 + 1) 64)].
Proof.
  destruct (page_offset_overflows
    (Demo.request [] [("page", "288230376151711745"); ("per_page", "64")]%string)
    new_writer Demo.database Demo.files eq_refl) as (s & l & Hs & Hp & _ & Hb); [by vm_compute..|].
  exists l. split; [|exact Hb]. injection Hs as <-.
  assert (listed sql_eq fulltext (list_filter
    (Demo.request [] [("page", "288230376151711745"); ("per_page", "64")]%string) Demo.bob)
    (tables Demo.database) = [Demo.message 7 100 "ab"]) as Hl by (by vm_compute).
  by rewrite <-Hl.
Defined.

Lemma queries_are_parameterised_witness :
  (listWhere Demo.bob "x").1 = (listWhere (mkSession "' OR 1=1" false 0 "u") "x'); DROP TABLE messages; --").1.
Proof.
  apply (queries_are_parameterised Demo.bob (mkSession "' OR 1=1" false 0 "u") 1 2 3 4 "x"
    "x'); DROP TABLE messages; --"); by vm_compute.
Defined.
