(* ===== verification/Wire.v ===== *)
(** * The message API on the wire

    What a client finds in the bytes of the list and view replies
    (internal/api/messages.go): it reads the JSON back into the data transfer
    objects. *)

From S2P Require Export Api.

Open Scope Z_scope.

(** ** A client *)

Fixpoint jget (fs : list (string * jvalue)) (k : string) : option jvalue :=
  match fs with
  | [] => None
  | (k', v) :: fs' => if bool_decide (k' = k) then Some v else jget fs' k
  end.

Definition as_string (v : jvalue) : option string := match v with VString s => Some s | _ => None end.
Definition as_int (v : jvalue) : option Z := match v with VNumber l => ParseInt l | _ => None end.
Definition as_time (v : jvalue) : option Z := as_string v ≫= ReadRFC3339.
Definition as_list {A} (f : jvalue -> option A) (v : jvalue) : option (list A) :=
  match v with VArray l => mapM f l | _ => None end.

(** A field tagged [omitempty] may be missing. *)
Definition optional {A} (d : A) (f : jvalue -> option A) (v : option jvalue) : option A :=
  match v with None => Some d | Some v => f v end.

Definition read_recipient (v : jvalue) : option recipientDTO :=
  match v with
  | VObject fs =>
      e ← jget fs "email" ≫= as_string; t ← jget fs "type" ≫= as_string; Some (mkRecipientDTO e t)
  | _ => None
  end.

Definition read_attachment (v : jvalue) : option attachmentDTO :=
  match v with
  | VObject fs =>
      i ← jget fs "id" ≫= as_int; n ← jget fs "original_filename" ≫= as_string;
      t ← jget fs "mime_type" ≫= as_string; s ← jget fs "size_bytes" ≫= as_int;
      Some (mkAttachmentDTO i n t s)
  | _ => None
  end.

Definition read_message (v : jvalue) : option messageDTO :=
  match v with
  | VObject fs =>
      i ← jget fs "id" ≫= as_int; s ← jget fs "sender" ≫= as_string; t ← jget fs "subject" ≫= as_string;
      d ← jget fs "message_date" ≫= as_time; r ← jget fs "received_at" ≫= as_time;
      x ← optional EmptyString as_string (jget fs "text_body");
      h ← optional EmptyString as_string (jget fs "html_body");
      p ← jget fs "parser_status" ≫= as_string;
      rs ← optional [] (as_list read_recipient) (jget fs "recipients");
      al ← optional [] (as_list read_attachment) (jget fs "attachments");
      Some (mkMessageDTO i s t d r x h p rs al)
  | _ => None
  end.

Definition read_page (v : jvalue) : option (list messageDTO * Z * Z * Z) :=
  match v with
  | VObject fs =>
      l ← jget fs "messages" ≫= as_list read_message; t ← jget fs "total" ≫= as_int;
      p ← jget fs "page" ≫= as_int; n ← jget fs "per_page" ≫= as_int; Some (l, t, p, n)
  | _ => None
  end.

(** What arrives of a message: its texts as valid UTF-8. *)
Definition received_recipient (r : recipientDTO) : recipientDTO :=
  mkRecipientDTO (sanitize (rd_Email r)) (sanitize (rd_Type r)).
Definition received_attachment (a : attachmentDTO) : attachmentDTO :=
  mkAttachmentDTO (ad_ID a) (sanitize (ad_OriginalFilename a)) (sanitize (ad_MimeType a)) (ad_SizeBytes a).
Definition received (m : messageDTO) : messageDTO :=
  mkMessageDTO (md_ID m) (sanitize (md_Sender m)) (sanitize (md_Subject m)) (md_MessageDate m) (md_ReceivedAt m)
    (sanitize (md_TextBody m)) (sanitize (md_HTMLBody m)) (sanitize (md_ParserStatus m))
    (map received_recipient (md_Recipients m)) (map received_attachment (md_Attachments m)).

(** The integers are Go's. *)
Definition dto_ok (m : messageDTO) : Prop :=
  in_int64 (md_ID m) /\ Forall (fun a => in_int64 (ad_ID a) /\ in_int64 (ad_SizeBytes a)) (md_Attachments m).

(** Both dates have a year that can be printed. *)
Definition printable (m : messageDTO) : Prop :=
  is_Some (FormatRFC3339Nano (md_MessageDate m)) /\ is_Some (FormatRFC3339Nano (md_ReceivedAt m)).
#[export] Instance printable_dec m : Decision (printable m).
Proof. unfold printable. apply _. Defined.

(** ** Reading is the inverse of writing *)

Lemma as_list_map {A B} (f : jvalue -> option B) (g : A -> json) (h : A -> B) l :
  Forall (fun x => f (denote (g x)) = Some (h x)) l ->
  as_list f (denote (JList (map g l))) = Some (map h l).
Proof.
  intros Hl. cbn [denote as_list]. apply mapM_Some. induction Hl; constructor; done.
Qed.

Lemma sanitize_nil s : sanitize s = EmptyString -> s = EmptyString.
Proof.
  destruct s as [|a s]; [done|]. unfold sanitize. rewrite runes_cons.
  destruct (DecodeRune (String a s)) as [r w]. cbn [map sconcat fst].
  destruct (EncodeRune_valid r) as (r' & _ & ->). by destruct (encode_valid_nonempty r') as (? & ? & ->).
Qed.

Lemma read_recipient_json r : read_recipient (denote (recipientDTO_json r)) = Some (received_recipient r).
Proof. reflexivity. Qed.

Lemma read_attachment_json a :
  in_int64 (ad_ID a) /\ in_int64 (ad_SizeBytes a) ->
  read_attachment (denote (attachmentDTO_json a)) = Some (received_attachment a).
Proof.
  intros [H1%ParseInt_FormatInt H2%ParseInt_FormatInt].
  change (read_attachment (denote (attachmentDTO_json a))) with
    (i ← ParseInt (FormatInt (ad_ID a)); s ← ParseInt (FormatInt (ad_SizeBytes a));
     Some (mkAttachmentDTO i (sanitize (ad_OriginalFilename a)) (sanitize (ad_MimeType a)) s)).
  by rewrite H1, H2.
Qed.

Lemma jget_app fs gs k : jget (fs ++ gs) k = match jget fs k with Some v => Some v | None => jget gs k end.
Proof. induction fs as [|[k' v] fs IH]; simpl; [done|]. by case_bool_decide. Qed.

Lemma denote_obj fs : denote (JObj fs) = VObject (map (fun f => (sanitize f.1, denote f.2)) fs).
Proof. done. Qed.

(** A field that is left out when empty. *)
Lemma jget_omitempty k v k' fs :
  jget (map (fun f => (sanitize f.1, denote f.2)) (omitempty k v) ++ fs) k' =
  if bool_decide (sanitize k = k') && bool_decide (v <> EmptyString) then Some (VString (sanitize v)) else jget fs k'.
Proof.
  unfold omitempty. destruct (decide (v = EmptyString)) as [->|Hv].
  - rewrite bool_decide_eq_true_2 by done. simpl. by rewrite andb_false_r.
  - rewrite bool_decide_eq_false_2, (bool_decide_eq_true_2 (v <> _)) by done. simpl. rewrite andb_true_r. done.
Qed.

Lemma jget_omitempty_list {A} k (g : A -> json) l k' fs :
  jget (map (fun f => (sanitize f.1, denote f.2)) (omitempty_list k g l) ++ fs) k' =
  if bool_decide (sanitize k = k') && bool_decide (l <> []) then Some (denote (JList (map g l))) else jget fs k'.
Proof.
  unfold omitempty_list. destruct l as [|x l].
  - rewrite (bool_decide_eq_false_2 ([] <> [])) by tauto. by rewrite andb_false_r.
  - rewrite (bool_decide_eq_true_2 (_ <> _)) by done. rewrite andb_true_r. done.
Qed.

Lemma jget_omitempty_list_end {A} k (g : A -> json) l k' :
  jget (map (fun f => (sanitize f.1, denote f.2)) (omitempty_list k g l)) k' =
  if bool_decide (sanitize k = k') && bool_decide (l <> []) then Some (denote (JList (map g l))) else None.
Proof. rewrite <-(app_nil_r (map _ _)). by rewrite jget_omitempty_list. Qed.

Lemma optional_text v : optional EmptyString as_string
  (if bool_decide (v <> EmptyString) then Some (VString (sanitize v)) else None) = Some (sanitize v).
Proof. case_bool_decide as H; [done|by subst]. Qed.

Lemma optional_list {A B} (f : jvalue -> option B) (g : A -> json) (h : A -> B) l :
  Forall (fun x => f (denote (g x)) = Some (h x)) l ->
  optional [] (as_list f) (if bool_decide (l <> []) then Some (denote (JList (map g l))) else None) = Some (map h l).
Proof.
  intros Hl. case_bool_decide as H; [by apply as_list_map|]. destruct l; [done|]. exfalso. first [done|by apply H].
Qed.

(** The fields of a message's view, one by one. *)
Definition view_fields (m : messageDTO) : list (string * jvalue) :=
  map (fun f => (sanitize f.1, denote f.2))
    ([("id"%string, JInt (md_ID m)); ("sender"%string, JString (md_Sender m));
      ("subject"%string, JString (md_Subject m)); ("message_date"%string, JTime (md_MessageDate m));
      ("received_at"%string, JTime (md_ReceivedAt m))]
        ++ omitempty "text_body" (md_TextBody m) ++ omitempty "html_body" (md_HTMLBody m)
        ++ [("parser_status"%string, JString (md_ParserStatus m))]
        ++ omitempty_list "recipients" recipientDTO_json (md_Recipients m)
        ++ omitempty_list "attachments" attachmentDTO_json (md_Attachments m)).

Ltac jfield :=
  unfold view_fields; rewrite !map_app; cbn [map fst snd app];
  repeat first
    [ rewrite jget_omitempty | rewrite jget_omitempty_list | rewrite jget_omitempty_list_end | rewrite <-app_comm_cons
    | match goal with |- context [jget ((?k, ?v) :: ?l) ?k'] =>
        change (jget ((k, v) :: l) k') with (if bool_decide (k = k') then Some v else jget l k') end
    | match goal with |- context [bool_decide (sanitize ?k = ?k')] =>
        let b := eval vm_compute in (bool_decide (sanitize k = k')) in
        replace (bool_decide (sanitize k = k')) with b by (by vm_compute) end
    | progress cbv beta iota delta [andb] ].

Lemma read_message_json m :
  dto_ok m -> printable m -> read_message (denote (messageDTO_json m)) = Some (received m).
Proof.
  intros [Hid Hatt] [[d Hd] [r Hr]]. change (denote (messageDTO_json m)) with (VObject (view_fields m)).
  unfold read_message.
  assert (jget (view_fields m) "id" = Some (VNumber (FormatInt (md_ID m)))) as -> by (by jfield).
  assert (jget (view_fields m) "sender" = Some (VString (sanitize (md_Sender m)))) as -> by (by jfield).
  assert (jget (view_fields m) "subject" = Some (VString (sanitize (md_Subject m)))) as -> by (by jfield).
  assert (jget (view_fields m) "message_date" = Some (VString d)) as -> by (jfield; cbn [denote]; by rewrite Hd).
  assert (jget (view_fields m) "received_at" = Some (VString r)) as -> by (jfield; cbn [denote]; by rewrite Hr).
  assert (jget (view_fields m) "parser_status" = Some (VString (sanitize (md_ParserStatus m)))) as -> by (by jfield).
  assert (jget (view_fields m) "text_body" =
    if bool_decide (md_TextBody m <> EmptyString) then Some (VString (sanitize (md_TextBody m))) else None) as ->
    by (by jfield).
  assert (jget (view_fields m) "html_body" =
    if bool_decide (md_HTMLBody m <> EmptyString) then Some (VString (sanitize (md_HTMLBody m))) else None) as ->
    by (by jfield).
  assert (jget (view_fields m) "recipients" =
    if bool_decide (md_Recipients m <> []) then Some (denote (JList (map recipientDTO_json (md_Recipients m)))) else None)
    as -> by (by jfield).
  assert (jget (view_fields m) "attachments" =
    if bool_decide (md_Attachments m <> []) then Some (denote (JList (map attachmentDTO_json (md_Attachments m)))) else None)
    as -> by (by jfield).
  unfold as_time, as_int, as_string. cbn [mbind option_bind].
  rewrite (ParseInt_FormatInt _ Hid). cbn [mbind option_bind].
  rewrite (ReadRFC3339_Format _ _ Hd). cbn [mbind option_bind].
  rewrite (ReadRFC3339_Format _ _ Hr). cbn [mbind option_bind].
  fold as_string. rewrite !optional_text. cbn [mbind option_bind].
  rewrite (optional_list read_recipient recipientDTO_json received_recipient)
    by (by induction (md_Recipients m); constructor). cbn [mbind option_bind].
  rewrite (optional_list read_attachment attachmentDTO_json received_attachment); [done|].
  eapply Forall_impl; [exact Hatt|]. intros x Hx. by apply read_attachment_json.
Qed.

(** ** What can be sent *)

Lemma marshal_list_some l : Forall (fun v => is_Some (marshal v)) l -> is_Some (marshal (JList l)).
Proof.
  intros Hl. assert (is_Some (mapM marshal l)) as [es Hes] by (by apply mapM_is_Some).
  cbn [marshal]. rewrite Hes. by eexists.
Qed.

Lemma marshal_obj_some fs : Forall (fun f => is_Some (marshal f.2)) fs <-> is_Some (marshal (JObj fs)).
Proof.
  cbn [marshal]. match goal with |- context [mapM ?g fs] => set (f := g) end.
  assert (is_Some (mapM f fs) <-> Forall (fun x => is_Some (marshal x.2)) fs) as <-.
  { rewrite mapM_is_Some. apply Forall_proper; [|done]. intros x. unfold f, compose.
    destruct (marshal x.2); cbn; split; intros [y Hy]; first [discriminate Hy|by eexists]. }
  destruct (mapM f fs); cbn; split; intros [y Hy]; first [discriminate Hy|by eexists].
Qed.

Lemma omitempty_some k v : Forall (fun f => is_Some (marshal f.2)) (omitempty k v).
Proof. unfold omitempty. destruct (bool_decide _); repeat constructor. by eexists. Qed.

Lemma omitempty_list_some {A} k (g : A -> json) l :
  (forall x, is_Some (marshal (g x))) -> Forall (fun f => is_Some (marshal f.2)) (omitempty_list k g l).
Proof.
  intros Hg. unfold omitempty_list. destruct l as [|x l]; constructor; [|constructor].
  apply marshal_list_some. apply Forall_map, Forall_forall. eauto.
Qed.

Lemma marshal_message m : is_Some (marshal (messageDTO_json m)) <-> printable m.
Proof.
  unfold messageDTO_json. rewrite <-marshal_obj_some. rewrite !Forall_app, !Forall_cons. cbn [snd marshal].
  assert (forall (x : option string), is_Some (quoted <$> x) <-> is_Some x) as Hq by (intros x; apply fmap_is_Some).
  rewrite !Hq. unfold printable. split; [tauto|]. intros [H1 H2].
  split_and!; try done; try (by eexists); try apply omitempty_some; try (by apply List.Forall_nil);
    by apply omitempty_list_some.
Qed.

Lemma depths_le {A} (f : A -> json) l n : 0 <= n -> Forall (fun x => depth (f x) <= n) l -> depths f l <= n.
Proof. intros Hn. induction 1 as [|x l Hx Hl IH]; [done|]. rewrite depths_cons. lia. Qed.

Lemma depth_list {A} (f : A -> json) l n :
  0 <= n -> Forall (fun x => depth (f x) <= n) l -> depth (JList (map f l)) <= 1 + n.
Proof.
  intros Hn Hl. change (1 + depths id (map f l) <= 1 + n).
  assert (depths id (map f l) <= n); [|lia]. apply depths_le; [done|]. by apply Forall_map.
Qed.

Lemma depth_obj fs n : 0 <= n -> Forall (fun f => depth f.2 <= n) fs -> depth (JObj fs) <= 1 + n.
Proof. intros Hn Hf. change (1 + depths snd fs <= 1 + n). pose proof (depths_le snd fs n Hn Hf). lia. Qed.

Lemma depth_message m : depth (messageDTO_json m) <= 3.
Proof.
  apply (depth_obj _ 2); [done|]. rewrite !Forall_app. split_and!.
  - by repeat constructor.
  - unfold omitempty. destruct (bool_decide _); by repeat constructor.
  - unfold omitempty. destruct (bool_decide _); by repeat constructor.
  - by repeat constructor.
  - unfold omitempty_list. destruct (md_Recipients m); constructor; [|constructor].
    apply (depth_list _ _ 1); [done|]. apply Forall_forall. intros x _. by vm_compute.
  - unfold omitempty_list. destruct (md_Attachments m); constructor; [|constructor].
    apply (depth_list _ _ 1); [done|]. apply Forall_forall. intros x _. by vm_compute.
Qed.

(** BIGINT columns hold Go's [int64]. *)
Record int_columns (t : Tables) : Prop := mkIntColumns {
  ic_messages : Forall (fun m => in_int64 (m_id m)) (messages t);
  ic_attachments : Forall (fun a => in_int64 (a_id a) /\ in_int64 (a_size_bytes a)) (Sql.attachments t);
  ic_count : Z.of_nat (length (messages t)) <= max_int64
}.

Lemma message_dto_ok t m : int_columns t -> m ∈ messages t -> dto_ok (message_dto t m).
Proof.
  intros [Hm Ha _] Hin. rewrite Forall_forall in Hm. split; [by apply Hm|]. unfold message_dto. cbn [md_Attachments].
  apply Forall_map, Forall_forall. intros a Hin'. unfold attachments_of in Hin'.
  apply list_elem_of_In, filter_In in Hin' as [Hin' _]. rewrite Forall_forall in Ha. apply Ha. by apply list_elem_of_In.
Qed.

Lemma listed_dto_ok t m : int_columns t -> m ∈ messages t -> dto_ok (listed_dto m).
Proof. intros [Hm _ _] Hin. rewrite Forall_forall in Hm. split; [by apply Hm|constructor]. Qed.

(** A reply in JSON and what a reader makes of it. *)
Lemma reply_read {A} (f : jvalue -> option A) (P : Prop) `{Decision P} status v w x :
  new_reply w -> depth v <= maxNestingDepth -> (is_Some (marshal v) <-> P) ->
  (P -> f (denote v) = Some x) ->
  if decide P then exists v', parse (wire (writeJSON status v w)) = Some (v', String (byte 10) "") /\ f v' = Some x
  else wire (writeJSON status v w) = EmptyString.
Proof.
  intros [_ Hb] Hd Hp Hf. rewrite wire_writeJSON. unfold wire, Encode. rewrite Hb. cbn [map sconcat String.append].
  destruct (marshal v) as [s|] eqn:E.
  - rewrite decide_True by (apply Hp; by eexists). exists (denote v).
    split; [by apply (parse_marshal v s)|]. apply Hf, Hp. by eexists.
  - rewrite decide_False; [done|]. intros [y Hy]%Hp. discriminate Hy.
Qed.

Lemma read_page_json l total page per :
  Forall dto_ok l -> Forall printable l -> in_int64 total -> in_int64 page -> in_int64 per ->
  read_page (denote (list_json l total page per)) = Some (map received l, total, page, per).
Proof.
  intros Hok Hp H1%ParseInt_FormatInt H2%ParseInt_FormatInt H3%ParseInt_FormatInt.
  change (read_page (denote (list_json l total page per))) with
    (x ← as_list read_message (denote (JList (map messageDTO_json l))); t ← ParseInt (FormatInt total);
     p ← ParseInt (FormatInt page); n ← ParseInt (FormatInt per); Some (x, t, p, n)).
  rewrite (as_list_map read_message messageDTO_json received), H1, H2, H3; [done|].
  apply Forall_forall. intros m Hm. rewrite Forall_forall in Hok, Hp. apply read_message_json; auto.
Qed.

Lemma marshal_page l total page per :
  is_Some (marshal (list_json l total page per)) <-> Forall printable l.
Proof.
  unfold list_json. rewrite <-marshal_obj_some, !Forall_cons. cbn [snd].
  assert (is_Some (marshal (JList (map messageDTO_json l))) <-> Forall printable l) as Hl.
  { split.
    - cbn [marshal]. destruct (mapM marshal (map messageDTO_json l)) as [es|] eqn:E; [|by intros [? [=]]].
      intros _. assert (is_Some (mapM marshal (map messageDTO_json l))) as Hs by by eexists.
      apply mapM_is_Some in Hs. rewrite Forall_map in Hs. eapply Forall_impl; [exact Hs|]. intros m Hm. by apply marshal_message.
    - intros Hp. apply marshal_list_some, Forall_map. eapply Forall_impl; [exact Hp|].
      intros m Hm. by apply marshal_message. }
  rewrite Hl. split; [tauto|]. intros Hp. split_and!; try done; try (by eexists).
Qed.

Section properties.
  Context {D T F : Type} `{SQLDriverLaws D T} `{FileSystem F}.

(** C11: A message's view arrives as it is stored. When the view handler answers
    200, a client that reads the JSON in the bytes of the reply finds the
    message of that id, which the session may see: its integers and dates
    exactly, its texts with U+FFFD for bytes that are not UTF-8, absent texts and
    lists as empty ones, all recipients and attachments in order, and nothing
    after the value. Only a date outside the years 0 to 9999 makes the body empty,
    under the same status. *)
Theorem view_arrives_as_stored r w db (fs : F) :
  new_reply w -> int_columns (tables db) ->
  let out := (GetMessage r w (db, fs)).1 in
  resp_status out = 200 -> exists s id m,
    SessionFromContext (ReqCtx r) = Some s /\ canonical 1 (URLParam r "id") id /\
    m ∈ messages (tables db) /\ m_id m = id /\ may_see sql_eq (viewer s) (tables db) m = true /\
    let d := message_dto (tables db) m in
    if decide (printable d)
    then exists v, parse (wire out) = Some (v, String (byte 10) "") /\ read_message v = Some (received d)
    else wire out = EmptyString.
Proof.
  intros [Hw Hb] Hint out H200.
  destruct (GetMessage_cases (mkStorage "") r w db fs) as [_ [Hr|(s & id & m & rest & K2 & K3 & K4 & Ho)]].
  { destruct (refusal_status _ _ Hw Hr); unfold out in *; congruence. }
  apply by_id_cons in K4 as (Hm & Hid & Hs). exists s, id, m. split_and!; [done..|].
  unfold out. rewrite Ho. cbv zeta.
  apply reply_read; [by split|pose proof (depth_message (message_dto (tables db) m)); unfold maxNestingDepth; lia|
    apply marshal_message|].
  intros Hp. by apply read_message_json; [apply message_dto_ok|].
Qed.

(** C12: So does a page of the list: when the offset does not overflow and the list
    handler answers 200, a client reads from the bytes of the reply the
    requested page of the messages the session may see, newest first, their
    total, the page and the page size, unless one of them has a date that cannot
    be printed: then the whole body is empty. *)
Theorem page_arrives_as_stored r w db (fs : F) :
  new_reply w -> int_columns (tables db) -> (page_number r - 1) * page_size r <= max_int64 ->
  let out := (ListMessages r w (db, fs)).1 in
  resp_status out = 200 -> exists s l,
    let shown := map listed_dto
      (take (Z.to_nat (page_size r)) (drop (Z.to_nat ((page_number r - 1) * page_size r)) l)) in
    SessionFromContext (ReqCtx r) = Some s /\
    Permutation l (listed sql_eq fulltext (list_filter r s) (tables db)) /\ Sorted newest_first l /\
    if decide (Forall printable shown)
    then exists v, parse (wire out) = Some (v, String (byte 10) "") /\
      read_page v = Some (map received shown, Z.of_nat (length l), page_number r, page_size r)
    else wire out = EmptyString.
Proof.
  intros [Hw Hb] Hint Hmax out H200.
  destruct (ListMessages_cases r w db fs) as [_ [Hr|(s & l & K2 & K3 & K4 & K5 & Ho)]].
  { destruct (refusal_status _ _ Hw Hr); unfold out in *; congruence. }
  destruct (page_params_eq r) as (_ & Hp & Hs).
  rewrite wrap64_id in Ho by (unfold in_int64, min_int64; lia).
  assert (Forall (fun m => m ∈ messages (tables db)) l) as Hin.
  { rewrite K3. unfold listed. apply Forall_forall. intros m Hm%list_elem_of_In%filter_In.
    destruct Hm as [Hm _]. by apply list_elem_of_In. }
  exists s, l. cbv zeta. split_and!; [done..|]. unfold out. rewrite Ho.
  set (shown := take _ _). assert (Forall (fun m => m ∈ messages (tables db)) shown) as Hshown
    by (by apply Forall_take, Forall_drop).
  apply reply_read; [by split| |apply marshal_page|].
  - transitivity 5; [|done]. apply (depth_obj _ 4); [done|]. repeat constructor; try done.
    apply (depth_list _ _ 3); [done|]. apply Forall_forall. intros m _. apply depth_message.
  - intros Hpr. apply read_page_json; [|done| |unfold in_int64, min_int64; lia|unfold in_int64, min_int64, max_int64; lia].
    + apply Forall_map. eapply Forall_impl; [exact Hshown|]. intros m Hm. by eapply listed_dto_ok.
    + assert (length l <= length (messages (tables db)))%nat as Hl.
      { rewrite K3. unfold listed. apply filter_length_le. }
      destruct Hint as [_ _ Hc]. unfold in_int64, min_int64. lia.
Qed.
End properties.

(** ** The theorems at concrete inputs *)

Module WireDemo.
Lemma int_columns_ok : int_columns (tables Api.Demo.database).
Proof.
  split; [repeat (constructor; [by apply (bool_decide_unpack _); vm_compute|]); constructor| |done].
  repeat (constructor; [split; by apply (bool_decide_unpack _); vm_compute|]). constructor.
Qed.

Definition view : ResponseWriter := (GetMessage (Api.Demo.for_message "7") new_writer (Api.Demo.database, Api.Demo.files)).1.
Definition list_request : Request := Api.Demo.request [] [("per_page", "500"); ("q", "Bob")]%string.
Definition page : ResponseWriter := (ListMessages list_request new_writer (Api.Demo.database, Api.Demo.files)).1.
Definition seven : messageDTO :=
  mkMessageDTO 7 "alice@example.com" "Hello" 0 100 "Hi Bob" "" "success"
    [mkRecipientDTO "bob@example.com" "to"] [mkAttachmentDTO 1 "a/b.pdf" "application/pdf" 4].
End WireDemo.

Lemma view_arrives_as_stored_witness :
  exists v, parse (wire WireDemo.view) = Some (v, String (byte 10) "") /\ read_message v = Some WireDemo.seven.
Proof.
  destruct (view_arrives_as_stored (Api.Demo.for_message "7") new_writer Api.Demo.database Api.Demo.files)
    as (s & id & m & _ & Hid & Hm & Hmid & _ & Hread); [by split|apply WireDemo.int_columns_ok|by vm_compute|].
  assert (id = 7) as -> by (apply (canonical_unique 1 1 "7"); [exact Hid|split_and!; by vm_compute]).
  assert (m = Api.Demo.message 7 100 "ab") as ->.
  { apply elem_of_cons in Hm as [->|Hm]; [done|]. apply list_elem_of_singleton in Hm as ->. discriminate Hmid. }
  cbv zeta in Hread. rewrite decide_True in Hread by (apply (bool_decide_unpack _); by vm_compute).
  destruct Hread as (v & Hv & Hd). exists v. split; [exact Hv|]. rewrite Hd. by vm_compute.
Defined.

Lemma page_arrives_as_stored_witness :
  exists v, parse (wire WireDemo.page) = Some (v, String (byte 10) "") /\
    read_page v = Some ([mkMessageDTO 7 "alice@example.com" "Hello" 0 100 "Hi Bob" "" "" [] []], 1, 1, 100).
Proof.
  destruct (page_arrives_as_stored WireDemo.list_request new_writer Api.Demo.database Api.Demo.files)
    as (s & l & Hs & Hp & _ & Hread); [by split|apply WireDemo.int_columns_ok|by vm_compute|by vm_compute|].
  injection Hs as <-.
  assert (listed sql_eq fulltext (list_filter WireDemo.list_request Api.Demo.bob) (tables Api.Demo.database)
    = [Api.Demo.message 7 100 "ab"]) as Hl by (by vm_compute).
  rewrite Hl in Hp. apply Permutation_singleton_r in Hp. subst l.
  rewrite decide_True in Hread by (apply (bool_decide_unpack _); by vm_compute).
  destruct Hread as (v & Hv & Hd). exists v. split; [exact Hv|]. rewrite Hd. by vm_compute.
Defined.
