(* ===== verification/Transfer.v ===== *)
(** * Content-Transfer-Encodings (encoding/base64, mime/quotedprintable)

    The two decoders that internal/ingest/parser.go puts around the body of a
    message or a part, with everything they deliver before an error and the texts
    of their errors, and what they make of a body that a sender encoded. *)

From S2P Require Export Http.

Open Scope Z_scope.

Definition ErrUnexpectedEOF : error := ESentinel "io.ErrUnexpectedEOF" "unexpected EOF".
Definition ErrBufferFull : error := ESentinel "bufio.ErrBufferFull" "bufio: buffer full".

(** Bytes before what the rest of a body gives. *)
Definition deliver (s : string) (b : Body) : Body := mkBody (s +:+ body_bytes b) (body_error b).

(** ** base64.NewDecoder(base64.StdEncoding, body) *)

Definition is_newline (c : ascii) : bool := (code c =? 10) || (code c =? 13).

Fixpoint sfilter (p : ascii -> bool) (s : string) : string :=
  match s with
  | EmptyString => EmptyString
  | String c s' => if p c then String c (sfilter p s') else sfilter p s'
  end.

(** [newlineFilteringReader] *)
Definition without_newlines (s : string) : string := sfilter (fun c => negb (is_newline c)) s.

(** [decodeMap] *)
Definition sextet (c : ascii) : option Z :=
  let z := code c in
  if in_range 65 90 z then Some (z - 65)
  else if in_range 97 122 z then Some (z - 71)
  else if in_range 48 57 z then Some (z + 4)
  else if z =? 43 then Some 62
  else if z =? 47 then Some 63
  else None.

Definition padChar : ascii := "=".

(** [base64.CorruptInputError] *)
Definition CorruptInputError (offset : Z) : error := EText ("illegal base64 data at input byte " +:+ FormatInt offset).

(** [decodeQuantum] on four characters: the bytes and whether there was padding,
    or the place of the character at fault. *)
Definition decodeQuantum (a b c d : ascii) : (string * bool) + Z :=
  match sextet a with
  | None => inr 0
  | Some x =>
      match sextet b with
      | None => inr 1
      | Some y =>
          let b0 := byte (x * 4 + y / 16) in
          match sextet c with
          | None =>
              if bool_decide (c = padChar) then
                if bool_decide (d = padChar) then inl (String b0 "", true) else inr 2
              else inr 2
          | Some z =>
              let b1 := byte (y mod 16 * 16 + z / 4) in
              match sextet d with
              | None => if bool_decide (d = padChar) then inl (String b0 (String b1 ""), true) else inr 3
              | Some t => inl (String b0 (String b1 (String (byte (z mod 4 * 64 + t)) "")), false)
              end
          end
      end
  end.

(** The decoder takes the characters in chunks of quanta, as they come from the
    reader: the [i]-th chunk holds one and [reads i] more quanta, if there are as
    many. [at_] quanta of the current chunk are done and [left] more belong to it.
    What follows padding is an error only in the same chunk, and the offset in an
    error counts from the start of the chunk. *)
Fixpoint decode_quanta (reads : nat -> nat) (i at_ left : nat) (s : string) (ended : option error) : Body :=
  match s with
  | EmptyString => mkBody EmptyString ended
  | String a (String b (String c (String d s'))) =>
      match decodeQuantum a b c d with
      | inr j => mkBody EmptyString (Some (CorruptInputError (4 * Z.of_nat at_ + j)))
      | inl (out, padded) =>
          if padded && (0 <? left)%nat && (4 <=? String.length s')%nat then
            mkBody out (Some (CorruptInputError (4 * Z.of_nat at_ + 4)))
          else
            deliver out
              match left with
              | O => decode_quanta reads (S i) 0 (reads (S i)) s' ended
              | S left' => decode_quanta reads i (S at_) left' s' ended
              end
      end
  | _ => mkBody EmptyString (Some (default ErrUnexpectedEOF ended))
  end.

Definition base64_NewDecoder (reads : nat -> nat) (body : Body) : Body :=
  decode_quanta reads 0 0 (reads 0%nat) (without_newlines (body_bytes body)) (body_error body).

(** ** quotedprintable.NewReader(body) *)

Definition bufio_size : nat := 4096.

(** [ReadSlice] for a newline: the line with it; or what is left, with the error
    that ends the body; or a full buffer. [room] is the free space of the buffer. *)
Inductive line_end := LineOk | LineEOF | LineErr (e : error).

Fixpoint ReadSlice (room : nat) (s : string) (ended : option error) : string * string * line_end :=
  match room with
  | O => (EmptyString, s, LineErr ErrBufferFull)
  | S room' =>
      match s with
      | EmptyString => (EmptyString, EmptyString, match ended with Some e => LineErr e | None => LineEOF end)
      | String c s' =>
          if code c =? 10 then (String c "", s', LineOk)
          else let '(l, rest, e) := ReadSlice room' s' ended in (String c l, rest, e)
      end
  end.

(** [isQPDiscardWhitespace], [bytes.TrimRightFunc] *)
Definition qp_space (c : ascii) : bool := existsb (fun z => code c =? z) [10; 13; 32; 9].
Fixpoint trim_right (s : string) : string :=
  match s with
  | EmptyString => EmptyString
  | String c s' =>
      match trim_right s' with
      | EmptyString => if qp_space c then EmptyString else String c ""
      | t => String c t
      end
  end.

(** [%q] of white space. *)
Fixpoint quote_space (s : string) : string :=
  match s with
  | EmptyString => EmptyString
  | String c s' =>
      (if code c =? 10 then "\n" else if code c =? 13 then "\r" else if code c =? 9 then "\t" else String c "")
      +:+ quote_space s'
  end.

Definition lf : string := String (byte 10) "".
Definition crlf : string := String (byte 13) lf.
Definition softSuffix : string := "=".

(** A line as it is decoded, and how the reader goes on after it. *)
Definition qp_line (wholeLine : string) (rerr : line_end) : string * line_end :=
  let line := trim_right wholeLine in
  if HasSuffix line softSuffix then
    let rightStripped := sdrop (String.length line) wholeLine in
    let line := stake (String.length line - 1) line in
    let accepted :=
      HasPrefix rightStripped lf || HasPrefix rightStripped crlf ||
      bool_decide (rightStripped = EmptyString) && negb (bool_decide (line = EmptyString))
      && match rerr with LineEOF => true | _ => false end in
    (line, if accepted then rerr
           else LineErr (EText ("quotedprintable: invalid bytes after =: " +:+ String (byte 34) (quote_space rightStripped) +:+ String (byte 34) "")))
  else if HasSuffix wholeLine lf then
    (line +:+ (if HasSuffix wholeLine crlf then crlf else lf), rerr)
  else (line, rerr).

(** [fromHex] *)
Definition fromHex (b : ascii) : option Z :=
  let z := code b in
  if in_range 48 57 z then Some (z - 48)
  else if in_range 65 70 z then Some (z - 55)
  else if in_range 97 102 z then Some (z - 87)
  else None.

Definition invalid_hex (b : ascii) : error :=
  EText ("quotedprintable: invalid hex byte 0x" +:+ hex_EncodeToString (String b "")).
Definition invalid_byte_error (b : ascii) : error :=
  EText ("quotedprintable: invalid unescaped byte 0x" +:+ hex_EncodeToString (String b "") +:+ " in body").

(** [readHexByte] *)
Definition readHexByte (v : string) : result Z :=
  match v with
  | String h (String l _) =>
      match fromHex h with
      | None => Err (invalid_hex h)
      | Some hb => match fromHex l with None => Err (invalid_hex l) | Some lb => Ok (Z.lor (Z.shiftl hb 4) lb) end
      end
  | _ => Err ErrUnexpectedEOF
  end.

Definition qp_plain (b : ascii) : bool :=
  let z := code b in (z =? 9) || (z =? 13) || (z =? 10) || (0x80 <=? z) || in_range 32 126 z.

Fixpoint qp_decode (line : string) : Body :=
  match line with
  | EmptyString => mkBody EmptyString None
  | String b line' =>
      if bool_decide (b = "="%char) then
        match readHexByte line', line' with
        | Ok v, String _ (String _ line'') => deliver (String (byte v) "") (qp_decode line'')
        | Err err, String c _ =>
            if is_newline c then mkBody EmptyString (Some err) else deliver "=" (qp_decode line')
        | Err err, _ => mkBody EmptyString (Some err)
        | Ok _, _ => mkBody EmptyString None
        end
      else if qp_plain b then deliver (String b "") (qp_decode line')
      else mkBody EmptyString (Some (invalid_byte_error b))
  end.

(** The lines one after the other. [fuel] bounds their number. *)
Fixpoint qp_read (fuel : nat) (s : string) (ended : option error) : Body :=
  match fuel with
  | O => mkBody EmptyString ended
  | S fuel' =>
      let '(wholeLine, rest, rerr) := ReadSlice bufio_size s ended in
      let '(line, rerr) := qp_line wholeLine rerr in
      match qp_decode line with
      | mkBody out (Some e) => mkBody out (Some e)
      | mkBody out None =>
          match rerr with
          | LineOk => deliver out (qp_read fuel' rest ended)
          | LineEOF => mkBody out None
          | LineErr e => mkBody out (Some e)
          end
      end
  end.

Definition quotedprintable_NewReader (body : Body) : Body :=
  qp_read (S (String.length (body_bytes body))) (body_bytes body) (body_error body).

(** ** What a sender encodes *)

(** The standard encoding, with padding. *)
Definition b64_char (z : Z) : ascii :=
  if z <? 26 then byte (z + 65) else if z <? 52 then byte (z + 71) else if z <? 62 then byte (z - 4)
  else if z =? 62 then "+"%char else "/"%char.

Fixpoint b64_encode (s : string) : string :=
  match s with
  | EmptyString => EmptyString
  | String a EmptyString =>
      String (b64_char (code a / 4)) (String (b64_char (code a mod 4 * 16)) (String padChar (String padChar "")))
  | String a (String b EmptyString) =>
      String (b64_char (code a / 4)) (String (b64_char (code a mod 4 * 16 + code b / 16))
        (String (b64_char (code b mod 16 * 4)) (String padChar "")))
  | String a (String b (String c s')) =>
      String (b64_char (code a / 4)) (String (b64_char (code a mod 4 * 16 + code b / 16))
        (String (b64_char (code b mod 16 * 4 + code c / 64)) (String (b64_char (code c mod 64)) (b64_encode s'))))
  end.

(** Quoted-printable text (RFC 2045): a byte stands for itself or is escaped, and
    a line ends in a line break of the content or in one that is taken out. *)
Inductive qp_piece := Lit (c : ascii) | Esc (h l : ascii).
Inductive qp_break := Hard (nl : string) | Soft (nl : string).
Definition qp_lines := list (list qp_piece * qp_break).

Definition piece_text (p : qp_piece) : string :=
  match p with Lit c => String c "" | Esc h l => String "=" (String h (String l "")) end.
Definition piece_byte (p : qp_piece) : ascii :=
  match p with Lit c => c | Esc h l => byte (16 * default 0 (fromHex h) + default 0 (fromHex l)) end.
Definition pieces_text (l : list qp_piece) : string := sconcat (map piece_text l).
Definition pieces_bytes (l : list qp_piece) : string := sconcat (map (fun p => String (piece_byte p) "") l).

Definition line_text (l : list qp_piece * qp_break) : string :=
  pieces_text l.1 +:+ match l.2 with Hard nl => nl | Soft nl => String "=" nl end.
Definition line_bytes (l : list qp_piece * qp_break) : string :=
  pieces_bytes l.1 +:+ match l.2 with Hard nl => nl | Soft _ => EmptyString end.

(** A last line without a break follows the others. *)
Definition qp_text (ls : qp_lines) (last : list qp_piece) : string := sconcat (map line_text ls) +:+ pieces_text last.
Definition qp_bytes (ls : qp_lines) (last : list qp_piece) : string := sconcat (map line_bytes ls) +:+ pieces_bytes last.

Definition piece_ok (p : qp_piece) : Prop :=
  match p with
  | Lit c => qp_plain c = true /\ c <> "="%char /\ is_newline c = false
  | Esc h l => is_Some (fromHex h) /\ is_Some (fromHex l)
  end.
(** The content of a line does not end in white space, which mail relays add and
    remove. *)
Definition ends_visibly (l : list qp_piece) : Prop :=
  match last l with Some (Lit c) => qp_space c = false | _ => True end.
Definition break_ok (b : qp_break) : Prop := match b with Hard nl | Soft nl => nl = lf \/ nl = crlf end.
Definition line_ok (l : list qp_piece * qp_break) : Prop :=
  Forall piece_ok l.1 /\ break_ok l.2 /\ (String.length (line_text l) <= bufio_size)%nat /\
  match l.2 with Hard _ => ends_visibly l.1 | Soft _ => True end.
Definition last_ok (l : list qp_piece) : Prop :=
  Forall piece_ok l /\ (String.length (pieces_text l) < bufio_size)%nat /\ ends_visibly l.

(** A quoted-printable text for some bytes. *)
Definition qp_encodes (t s : string) : Prop :=
  exists ls last, Forall line_ok ls /\ last_ok last /\ t = qp_text ls last /\ s = qp_bytes ls last.

(** ** Lemmas: base64 *)

Lemma deliver_nil s e : deliver s (mkBody EmptyString e) = mkBody s e.
Proof. unfold deliver. simpl. by rewrite sapp_nil_r. Qed.
Lemma deliver_body s t e : deliver s (mkBody t e) = mkBody (s +:+ t) e.
Proof. done. Qed.

Lemma sextet_char z : 0 <= z < 64 -> sextet (b64_char z) = Some z.
Proof.
  intros Hz. unfold b64_char.
  destruct (Z.ltb_spec z 26); [|destruct (Z.ltb_spec z 52); [|destruct (Z.ltb_spec z 62); [|destruct (Z.eqb_spec z 62)]]].
  - unfold sextet. rewrite code_byte by lia. z_decide. f_equal. lia.
  - unfold sextet. rewrite code_byte by lia. z_decide. f_equal. lia.
  - unfold sextet. rewrite code_byte by lia. z_decide. f_equal. lia.
  - subst. reflexivity.
  - assert (z = 63) as -> by lia. reflexivity.
Qed.

Lemma sextet_pad : sextet padChar = None.
Proof. reflexivity. Qed.

#[local] Ltac Zify.zify_post_hook ::= Z.to_euclidean_division_equations.

Lemma first_byte x y : 0 <= x < 256 -> 0 <= y < 16 -> x / 4 * 4 + (x mod 4 * 16 + y) / 16 = x.
Proof. lia. Qed.
Lemma second_byte x y z : 0 <= y < 256 -> 0 <= z < 4 -> (x mod 4 * 16 + y / 16) mod 16 * 16 + (y mod 16 * 4 + z) / 4 = y.
Proof. lia. Qed.

Lemma quantum_three a b c :
  decodeQuantum (b64_char (code a / 4)) (b64_char (code a mod 4 * 16 + code b / 16))
    (b64_char (code b mod 16 * 4 + code c / 64)) (b64_char (code c mod 64))
  = inl (String a (String b (String c "")), false).
Proof.
  pose proof (code_range a). pose proof (code_range b). pose proof (code_range c).
  unfold decodeQuantum. rewrite !sextet_char by lia.
  rewrite first_byte, second_byte by lia.
  assert ((code b mod 16 * 4 + code c / 64) mod 4 * 64 + code c mod 64 = code c) as -> by lia. by rewrite !byte_code.
Qed.

Lemma quantum_two a b :
  decodeQuantum (b64_char (code a / 4)) (b64_char (code a mod 4 * 16 + code b / 16))
    (b64_char (code b mod 16 * 4)) padChar
  = inl (String a (String b ""), true).
Proof.
  pose proof (code_range a). pose proof (code_range b).
  unfold decodeQuantum. rewrite !sextet_char, sextet_pad by lia. rewrite bool_decide_eq_true_2 by done.
  rewrite first_byte by lia. pose proof (second_byte (code a) (code b) 0) as Hb. rewrite Z.add_0_r in Hb.
  rewrite Hb by lia. by rewrite !byte_code.
Qed.

Lemma quantum_one a :
  decodeQuantum (b64_char (code a / 4)) (b64_char (code a mod 4 * 16)) padChar padChar = inl (String a "", true).
Proof.
  pose proof (code_range a).
  unfold decodeQuantum. rewrite !sextet_char, sextet_pad by lia. rewrite bool_decide_eq_true_2 by done.
  pose proof (first_byte (code a) 0) as Ha. rewrite Z.add_0_r in Ha. rewrite Ha by lia. by rewrite byte_code.
Qed.

Lemma b64_encode_three a b c s :
  b64_encode (String a (String b (String c s))) =
  String (b64_char (code a / 4)) (String (b64_char (code a mod 4 * 16 + code b / 16))
    (String (b64_char (code b mod 16 * 4 + code c / 64)) (String (b64_char (code c mod 64)) (b64_encode s)))).
Proof. reflexivity. Qed.

(** Three characters at a time. *)
Lemma string_three_ind (P : string -> Prop) :
  P EmptyString -> (forall a, P (String a "")) -> (forall a b, P (String a (String b ""))) ->
  (forall a b c s, P s -> P (String a (String b (String c s)))) -> forall s, P s.
Proof.
  intros H0 H1 H2 H3. fix IH 1. intros [|a [|b [|c s]]]; [done|apply H1|apply H2|apply H3, IH].
Qed.

Lemma decode_encode reads i k left s ended : decode_quanta reads i k left (b64_encode s) ended = mkBody s ended.
Proof.
  revert i k left. induction s as [|a|a b|a b c s IH] using string_three_ind; intros i k left; [done|..].
  - cbn [b64_encode decode_quanta]. rewrite quantum_one. cbn [String.length Nat.leb]. rewrite andb_false_r.
    by destruct left.
  - cbn [b64_encode decode_quanta]. rewrite quantum_two. cbn [String.length Nat.leb]. rewrite andb_false_r.
    by destruct left.
  - rewrite b64_encode_three. cbn [decode_quanta]. rewrite quantum_three. cbn [andb].
    destruct left; by rewrite IH.
Qed.

(** Whatever line breaks are put into it, and however it is read. *)
Lemma base64_decodes reads t s ended :
  without_newlines t = b64_encode s -> base64_NewDecoder reads (mkBody t ended) = mkBody s ended.
Proof. intros Ht. unfold base64_NewDecoder. cbn [body_bytes body_error]. rewrite Ht. apply decode_encode. Qed.

Lemma sfilter_length p s : slen (sfilter p s) <= slen s.
Proof. unfold slen. induction s as [|c s IH]; simpl; [lia|]. destruct (p c); simpl; lia. Qed.

Lemma quantum_length a b c d out padded : decodeQuantum a b c d = inl (out, padded) -> slen out <= 3.
Proof.
  unfold decodeQuantum. repeat case_match; intros; simplify_eq; by vm_compute.
Qed.

Lemma string_four_ind (P : string -> Prop) :
  P EmptyString -> (forall a, P (String a "")) -> (forall a b, P (String a (String b ""))) ->
  (forall a b c, P (String a (String b (String c "")))) ->
  (forall a b c d s, P s -> P (String a (String b (String c (String d s))))) -> forall s, P s.
Proof.
  intros H0 H1 H2 H3 H4. fix IH 1.
  intros [|a [|b [|c [|d s]]]]; [done|apply H1|apply H2|apply H3|apply H4, IH].
Qed.

Lemma slen_String c s : slen (String c s) = 1 + slen s.
Proof. unfold slen. simpl. lia. Qed.
Lemma slen_app s t : slen (s +:+ t) = slen s + slen t.
Proof. unfold slen. rewrite sapp_length. lia. Qed.

Lemma decode_quanta_length reads i k left s ended :
  4 * slen (body_bytes (decode_quanta reads i k left s ended)) <= 3 * slen s.
Proof.
  revert i k left. induction s as [|a|a b|a b c|a b c d s IH] using string_four_ind; intros i k left;
    [cbn [decode_quanta body_bytes]; unfold slen; cbn [String.length]; lia..|].
  cbn [decode_quanta]. rewrite !slen_String.
  destruct (decodeQuantum a b c d) as [[out padded]|j] eqn:E; [|unfold slen; simpl; lia].
  apply quantum_length in E. destruct (_ && _); [simpl; unfold slen in *; lia|].
  unfold deliver. cbn [body_bytes]. rewrite slen_app.
  destruct left as [|left]; [specialize (IH (S i) 0%nat (reads (S i)))|specialize (IH i (S k) left)]; lia.
Qed.

(** What is decoded is shorter than what was read. *)
Lemma base64_length reads body : 4 * slen (body_bytes (base64_NewDecoder reads body)) <= 3 * slen (body_bytes body).
Proof.
  unfold base64_NewDecoder, without_newlines.
  pose proof (decode_quanta_length reads 0 0 (reads 0%nat)
    (sfilter (fun c => negb (is_newline c)) (body_bytes body)) (body_error body)).
  pose proof (sfilter_length (fun c => negb (is_newline c)) (body_bytes body)). lia.
Qed.

(** ** Lemmas: quoted-printable *)

Lemma ReadSlice_line room l s ended :
  sforall (fun c => negb (code c =? 10)) l = true -> (String.length l < room)%nat ->
  ReadSlice room (l +:+ String (byte 10) s) ended = (l +:+ lf, s, LineOk).
Proof.
  revert room. induction l as [|c l IH]; intros [|room] Hl Hr; try (simpl in Hr; lia); [done|].
  cbn [sforall] in Hl. apply andb_true_iff in Hl as [Hc%negb_true_iff Hl]. cbn [String.append ReadSlice].
  rewrite Hc, IH; [done|done|simpl in Hr; lia].
Qed.

Lemma ReadSlice_last room l ended :
  sforall (fun c => negb (code c =? 10)) l = true -> (String.length l < room)%nat ->
  ReadSlice room l ended = (l, EmptyString, match ended with Some e => LineErr e | None => LineEOF end).
Proof.
  revert room. induction l as [|c l IH]; intros [|room] Hl Hr; try (simpl in Hr; lia); [done|].
  cbn [sforall] in Hl. apply andb_true_iff in Hl as [Hc%negb_true_iff Hl]. cbn [ReadSlice].
  rewrite Hc, IH; [done|done|simpl in Hr; lia].
Qed.

(** A text that does not end in white space. *)
Definition visible_end (s : string) : Prop := trim_right s = s.

Lemma trim_right_spaces s t : sforall qp_space t = true -> trim_right (s +:+ t) = trim_right s.
Proof.
  intros Ht. induction s as [|c s IH]; cbn [String.append trim_right]; [|by rewrite IH].
  induction t as [|d t IHt]; [done|]. cbn [sforall] in Ht. apply andb_true_iff in Ht as [Hd Ht].
  cbn [trim_right]. by rewrite IHt, Hd.
Qed.

Lemma trim_right_last s c : qp_space c = false -> trim_right (s +:+ String c "") = s +:+ String c "".
Proof.
  intros Hc. induction s as [|d s IH]; cbn [String.append trim_right]; [by rewrite Hc|]. rewrite IH. by destruct s.
Qed.

Lemma HasSuffix_last s c d : HasSuffix (s +:+ String c "") (String d "") = bool_decide (c = d).
Proof.
  unfold HasSuffix. rewrite sapp_length. cbn [String.length].
  replace (String.length s + 1 - 1)%nat with (String.length s) by lia.
  rewrite sdrop_app, (proj2 (Nat.leb_le _ _)) by lia. cbn [andb].
  apply bool_decide_ext. split; [by intros [= ->]|by intros ->].
Qed.

Lemma fromHex_range c z : fromHex c = Some z -> 0 <= z < 16.
Proof. unfold fromHex. repeat case_match; intros; simplify_eq; unfold in_range in *; lia. Qed.

Lemma fromHex_char c : is_Some (fromHex c) -> c <> "="%char /\ is_newline c = false /\ qp_space c = false.
Proof.
  intros [z Hz]. assert (48 <= code c <= 57 \/ 65 <= code c <= 70 \/ 97 <= code c <= 102) as Hc
    by (revert Hz; unfold fromHex, in_range; repeat case_match; intros; simplify_eq; lia).
  split; [intros ->; change (code "=") with 61 in Hc; lia|].
  unfold is_newline, qp_space. cbn [existsb]. lia.
Qed.

Lemma nibbles h l : 0 <= h < 16 -> 0 <= l < 16 -> Z.lor (Z.shiftl h 4) l = 16 * h + l.
Proof.
  intros Hh Hl. rewrite Z.shiftl_mul_pow2 by lia. change (2 ^ 4) with 16.
  assert (Z.land (h * 16) l = 0) as Hz.
  { apply Z.bits_inj'. intros n Hn. rewrite Z.land_spec, Z.bits_0. destruct (Z.ltb_spec n 4).
    - change 16 with (2 ^ 4). by rewrite Z.mul_pow2_bits_low.
    - rewrite <-(Z.mod_small l (2 ^ 4)) by lia. rewrite Z.mod_pow2_bits_high by lia. apply andb_false_r. }
  rewrite <-Z.lxor_lor by done. rewrite <-Z.add_nocarry_lxor by done. lia.
Qed.

Lemma pieces_text_app l l' : pieces_text (l ++ l') = pieces_text l +:+ pieces_text l'.
Proof. unfold pieces_text. by rewrite map_app, sconcat_app. Qed.

(** The last character of the text of a line. *)
Lemma pieces_end l :
  Forall piece_ok l -> l = [] \/ exists s c, pieces_text l = s +:+ String c "" /\
    c <> "="%char /\ is_newline c = false /\ (ends_visibly l -> qp_space c = false).
Proof.
  intros Hl. induction l as [|p l _] using rev_ind; [by left|right].
  apply Forall_app in Hl as [_ [Hp _]%Forall_cons]. rewrite pieces_text_app.
  unfold ends_visibly. rewrite last_snoc. unfold pieces_text at 2. cbn [map sconcat]. rewrite sapp_nil_r.
  destruct p as [c|h d]; cbn [piece_text].
  - exists (pieces_text l), c. destruct Hp as (_ & ? & ?). by split_and!.
  - exists (pieces_text l +:+ String "=" (String h "")), d. rewrite sapp_assoc.
    destruct Hp as [_ (? & ? & ?)%fromHex_char]. by split_and!.
Qed.

Lemma pieces_no_lf l : Forall piece_ok l -> sforall (fun c => negb (code c =? 10)) (pieces_text l) = true.
Proof.
  assert (forall c, is_newline c = false -> negb (code c =? 10) = true) as Hn by (unfold is_newline; intros c; lia).
  induction 1 as [|p l Hp Hl IH]; [done|]. change (pieces_text (p :: l)) with (piece_text p +:+ pieces_text l).
  rewrite sforall_app, IH, andb_true_r. destruct p as [c|h d]; cbn [piece_text sforall].
  - destruct Hp as (_ & _ & Hp). by rewrite (Hn c Hp).
  - destruct Hp as [(_ & Hh & _)%fromHex_char (_ & Hd & _)%fromHex_char]. by rewrite (Hn h Hh), (Hn d Hd).
Qed.

Lemma pieces_visible l : Forall piece_ok l -> ends_visibly l -> trim_right (pieces_text l) = pieces_text l.
Proof.
  intros Hl Hv. destruct (pieces_end l Hl) as [->|(s & c & -> & _ & _ & Hc)]; [done|]. by apply trim_right_last, Hc.
Qed.

Lemma pieces_no_suffix l d :
  Forall piece_ok l -> (d = "="%char \/ is_newline d = true) -> HasSuffix (pieces_text l) (String d "") = false.
Proof.
  intros Hl Hd. destruct (pieces_end l Hl) as [->|(s & c & -> & Hc & Hn & _)]; [done|].
  rewrite HasSuffix_last. apply bool_decide_eq_false_2. intros ->. destruct Hd as [->|Hd]; congruence.
Qed.

Lemma qp_decode_pieces l t :
  Forall piece_ok l -> qp_decode (pieces_text l +:+ t) = deliver (pieces_bytes l) (qp_decode t).
Proof.
  induction 1 as [|p l Hp Hl IH].
  { change (qp_decode t = deliver EmptyString (qp_decode t)). by destruct (qp_decode t). }
  change (pieces_text (p :: l)) with (piece_text p +:+ pieces_text l). rewrite sapp_assoc.
  change (pieces_bytes (p :: l)) with (String (piece_byte p) (pieces_bytes l)).
  destruct p as [c|h d]; cbn [piece_text piece_byte String.append qp_decode].
  - destruct Hp as (Hc & Hne & _). rewrite bool_decide_eq_false_2, Hc, IH by done. done.
  - rewrite bool_decide_eq_true_2 by done. destruct Hp as [[x Hx] [y Hy]]. cbn [readHexByte]. rewrite Hx, Hy. cbn [default].
    rewrite nibbles by (by eapply fromHex_range). by rewrite IH.
Qed.

Lemma qp_decode_break nl : break_ok (Hard nl) -> qp_decode nl = mkBody nl None.
Proof. intros [-> | ->]; reflexivity. Qed.

(** The three ways a line ends. *)
Lemma qp_line_hard l nl rerr :
  Forall piece_ok l -> break_ok (Hard nl) -> ends_visibly l ->
  qp_line (pieces_text l +:+ nl) rerr = (pieces_text l +:+ nl, rerr).
Proof.
  intros Hl Hnl Hv. unfold qp_line.
  rewrite trim_right_spaces, pieces_visible by (done || by destruct Hnl as [-> | ->]).
  unfold softSuffix. rewrite pieces_no_suffix by auto.
  destruct Hnl as [-> | ->].
  - unfold lf at 1 2. rewrite HasSuffix_last, bool_decide_eq_true_2 by done. f_equal. f_equal.
    assert (HasSuffix (pieces_text l +:+ lf) crlf = false) as ->; [|done].
    destruct (pieces_end l Hl) as [->|(s & c & -> & _ & Hn & _)]; [done|].
    unfold HasSuffix. apply andb_false_iff. right. apply bool_decide_eq_false_2.
    rewrite sapp_assoc, sapp_length. cbn [String.append String.length lf crlf].
    replace (String.length s + 2 - 2)%nat with (String.length s) by lia. rewrite sdrop_app. intros [= ->]. done.
  - assert (HasSuffix (pieces_text l +:+ crlf) lf = true) as ->.
    { change crlf with (String (byte 13) "" +:+ lf). rewrite <-sapp_assoc. apply HasSuffix_app. }
    by rewrite HasSuffix_app.
Qed.

Lemma qp_line_soft l nl :
  break_ok (Soft nl) -> qp_line (pieces_text l +:+ String "=" nl) LineOk = (pieces_text l, LineOk).
Proof.
  intros Hnl. unfold qp_line. change (String "=" nl) with (String "=" "" +:+ nl). rewrite <-sapp_assoc.
  rewrite trim_right_spaces by (by destruct Hnl as [-> | ->]). rewrite trim_right_last by done.
  unfold softSuffix. rewrite HasSuffix_last, bool_decide_eq_true_2 by done.
  rewrite sdrop_app. rewrite sapp_length. cbn [String.length].
  replace (String.length (pieces_text l) + 1 - 1)%nat with (String.length (pieces_text l)) by lia.
  rewrite stake_app. by destruct Hnl as [-> | ->].
Qed.

Lemma qp_line_last l rerr :
  Forall piece_ok l -> ends_visibly l -> qp_line (pieces_text l) rerr = (pieces_text l, rerr).
Proof.
  intros Hl Hv. unfold qp_line. rewrite pieces_visible by done.
  unfold softSuffix, lf. by rewrite !pieces_no_suffix by auto.
Qed.

(** A broken line, up to its newline. *)
Lemma line_text_lf l :
  line_ok l -> exists s, line_text l = s +:+ lf /\ sforall (fun c => negb (code c =? 10)) s = true /\
    (String.length s < bufio_size)%nat.
Proof.
  intros (Hl & Hnl & Hlen & _). unfold line_text in *. pose proof (pieces_no_lf _ Hl) as Hn.
  assert (exists t, match l.2 with Hard nl => nl | Soft nl => String "=" nl end = t +:+ lf /\
    sforall (fun c => negb (code c =? 10)) t = true) as (t & Et & Ht).
  { destruct (l.2) as [nl|nl], Hnl as [-> | ->];
      [exists EmptyString|exists (String (byte 13) "")|exists "="%string|exists (String "=" (String (byte 13) ""))]; done. }
  exists (pieces_text l.1 +:+ t). rewrite Et, <-sapp_assoc in *. split; [done|]. split; [by rewrite sforall_app, Hn, Ht|].
  rewrite sapp_length in Hlen. cbn [String.length lf] in Hlen. lia.
Qed.

Lemma qp_line_decodes l :
  line_ok l -> exists line, qp_line (line_text l) LineOk = (line, LineOk) /\ qp_decode line = mkBody (line_bytes l) None.
Proof.
  intros (Hl & Hnl & _ & Hv). unfold line_text, line_bytes. destruct (l.2) as [nl|nl].
  - exists (pieces_text l.1 +:+ nl). split; [by apply qp_line_hard|].
    rewrite qp_decode_pieces, qp_decode_break by done. apply deliver_body.
  - exists (pieces_text l.1). split; [by apply qp_line_soft|].
    rewrite <-(sapp_nil_r (pieces_text l.1)), qp_decode_pieces by done. apply deliver_body.
Qed.

Lemma ReadSlice_rest room s ended l rest :
  ReadSlice (S room) s ended = (l, rest, LineOk) -> (String.length rest < String.length s)%nat.
Proof.
  revert s l rest. induction room as [|room IH]; intros [|c s] l rest; cbn [ReadSlice]; try (by destruct ended).
  - destruct (code c =? 10); [intros [= _ <-]; simpl; lia|done].
  - destruct (code c =? 10); [intros [= _ <-]; simpl; lia|].
    destruct (ReadSlice (S room) s ended) as [[l' rest'] e] eqn:E. cbn [ReadSlice] in E. rewrite E.
    intros [= _ <- ->]. apply IH in E. simpl. lia.
Qed.

Lemma qp_line_goes_on whole rerr line : qp_line whole rerr = (line, LineOk) -> rerr = LineOk.
Proof. unfold qp_line. repeat case_match; intros; simplify_eq; done. Qed.

(** More fuel changes nothing. *)
Lemma qp_read_enough fuel fuel' s ended :
  (String.length s < fuel)%nat -> (String.length s < fuel')%nat -> qp_read fuel s ended = qp_read fuel' s ended.
Proof.
  revert fuel' s. induction fuel as [|fuel IH]; intros [|fuel'] s Hf Hf'; try lia. cbn [qp_read].
  unfold bufio_size. destruct (ReadSlice _ s ended) as [[whole rest] rerr] eqn:Er.
  destruct (qp_line whole rerr) as [line [| |e]] eqn:El; [|done..].
  pose proof (qp_line_goes_on _ _ _ El) as ->. apply ReadSlice_rest in Er.
  destruct (qp_decode line) as [out [e|]]; [done|]. rewrite (IH fuel' rest) by lia. done.
Qed.

Lemma qp_read_text fuel ls last ended :
  Forall line_ok ls -> last_ok last -> (String.length (qp_text ls last) < fuel)%nat ->
  qp_read fuel (qp_text ls last) ended = mkBody (qp_bytes ls last) ended.
Proof.
  intros Hls (Hl & Hlen & Hv). revert fuel. unfold qp_text, qp_bytes.
  induction Hls as [|l ls Hok Hls IH]; intros fuel Hf; (destruct fuel as [|fuel]; [simpl in Hf; lia|]).
  - cbn [map sconcat String.append qp_read]. rewrite ReadSlice_last by (by try apply pieces_no_lf).
    rewrite qp_line_last by done. pose proof (qp_decode_pieces last EmptyString Hl) as Hd.
    rewrite sapp_nil_r in Hd. rewrite Hd. cbn [qp_decode]. rewrite deliver_nil. by destruct ended.
  - cbn [map sconcat] in *. rewrite !sapp_assoc in *. destruct (line_text_lf l Hok) as (s & Es & Hs & Hlt).
    destruct (qp_line_decodes l Hok) as (line & Hline & Hdec). cbn [qp_read]. rewrite Es in *.
    rewrite (sapp_assoc s lf) in *. unfold lf at 1. cbn [String.append]. rewrite ReadSlice_line by done. rewrite Hline, Hdec, IH; [done|].
    rewrite sapp_length in Hf. cbn [String.append lf String.length] in Hf. lia.
Qed.

Lemma quotedprintable_decodes ls last ended :
  Forall line_ok ls -> last_ok last ->
  quotedprintable_NewReader (mkBody (qp_text ls last) ended) = mkBody (qp_bytes ls last) ended.
Proof. intros Hls Hl. apply qp_read_text; [done|done|]. cbn [body_bytes]. lia. Qed.

(** Every content can be written with escapes only. *)
Definition hex_upper (z : Z) : ascii := if z <? 10 then byte (48 + z) else byte (55 + z).
Definition escaped (c : ascii) : qp_piece := Esc (hex_upper (code c / 16)) (hex_upper (code c mod 16)).

Lemma fromHex_upper z : 0 <= z < 16 -> fromHex (hex_upper z) = Some z.
Proof.
  intros Hz. unfold hex_upper, fromHex. destruct (Z.ltb_spec z 10); rewrite code_byte by lia; z_decide; f_equal; lia.
Qed.

Lemma escaped_ok c : piece_ok (escaped c) /\ piece_byte (escaped c) = c.
Proof.
  pose proof (code_range c). unfold escaped. cbn [piece_ok piece_byte]. rewrite !fromHex_upper by lia. cbn [default].
  split; [by split; eexists|]. unfold id. rewrite <-Z.div_mod by lia. apply byte_code.
Qed.

(** One line per byte. *)
Lemma qp_text_exists s : exists ls, Forall line_ok ls /\ last_ok [] /\ qp_bytes ls [] = s.
Proof.
  exists (map (fun c => ([escaped c], Soft crlf)) (String.list_ascii_of_string s)). split_and!.
  - apply Forall_forall. intros l (c & -> & _)%list_elem_of_fmap. split_and!; [|by right|vm_compute; lia|done].
    constructor; [apply escaped_ok|done].
  - split_and!; [done|vm_compute; lia|done].
  - unfold qp_bytes. induction s as [|c s IH]; [done|]. cbn [String.list_ascii_of_string map sconcat].
    unfold line_bytes at 1, pieces_bytes at 1. cbn [fst snd map sconcat String.append].
    rewrite (proj2 (escaped_ok c)). by rewrite IH.
Qed.
