(* ===== verification/Parser.v ===== *)
(** * The MIME parser (internal/ingest/parser.go)

    What the parser calls is the interface [MailLib]: [net/mail], [mime],
    [mime/multipart], the charset tables of [golang.org/x/net] and [html2text],
    with the facts the parser relies on in [MailLibLaws]; the transfer decoders
    are those of [Transfer]. A reader is the bytes it delivers and the error that ends them
    ([Body]). *)

From S2P Require Export Http Sha256 Transfer.

Open Scope Z_scope.

(** [mail.Header]: values by canonical key. *)
Definition MailHeader := gmap string (list string).

Definition Header_get (h : MailHeader) (key : string) : string :=
  match h !! CanonicalHeaderKey key with Some (v :: _) => v | _ => EmptyString end.

Definition Params := gmap string string.
Definition param (p : Params) (k : string) : string := default EmptyString (p !! k).

Class MailLib := {
  (** [mail.ReadMessage] on bytes: the header and the rest. *)
  mail_ReadMessage : string -> result (MailHeader * Body);
  (** [addressParser.Parse] and [ParseList]: the bare addresses. *)
  address_Parse : string -> result string;
  address_ParseList : string -> result (list string);
  (** [msg.Header.Date()] *)
  header_Date : MailHeader -> result Z;
  (** [headerDecoder.DecodeHeader] *)
  DecodeHeader : string -> result string;
  (** [mime.ParseMediaType]: it can return a type together with an error. *)
  ParseMediaType : string -> string * Params * option error;
  (** What the calls of [NextPart] give: the parts, then an error or [io.EOF]. *)
  multipart_parts : string -> Body -> list (MailHeader * Body) * option error;
  (** How the characters of a body come to the base64 decoder: the quanta that its
      [i]-th read brings, less one. *)
  base64_reads : Body -> nat -> nat;
  (** [charset.NewReaderLabel] and reading it all; [None] for an unknown label. *)
  charset_decode : string -> string -> option (result string);
  (** [html2text.FromString] with [TextOnly]. *)
  html2text_FromString : string -> result string
}.

(** A part is a piece of the body it is in, without the boundary lines; text
    made from valid text is valid. *)
Class MailLibLaws `{MailLib} := {
  part_smaller : forall boundary body h b,
    (h, b) ∈ (multipart_parts boundary body).1 -> slen (body_bytes b) < slen (body_bytes body);
  html2text_valid : forall s t, Valid s = true -> html2text_FromString s = Ok t -> Valid t = true
}.

(** ** Data *)

Record Recipient := mkRecipient { rc_Email : string; rc_Type : string }.

Record ParsedAttachment := mkParsedAttachment {
  pa_Content : string; pa_MimeType : string; pa_OriginalFilename : string; pa_Size : Z; pa_ContentHash : string
}.

Record ParsedMessage := mkParsed {
  Sender : string; Subject : string; MessageDate : Z; Recipients : list Recipient;
  TextBody : string; HTMLBody : string; Attachments : list ParsedAttachment; ContentHash : string
}.

(** [&ParsedMessage{ContentHash: h}] *)
Definition new_parsed (h : string) : ParsedMessage :=
  mkParsed EmptyString EmptyString zero_time [] EmptyString EmptyString [] h.

Definition set_sender (s : string) (p : ParsedMessage) : ParsedMessage :=
  mkParsed s (Subject p) (MessageDate p) (Recipients p) (TextBody p) (HTMLBody p) (Attachments p) (ContentHash p).
Definition set_subject (s : string) (p : ParsedMessage) : ParsedMessage :=
  mkParsed (Sender p) s (MessageDate p) (Recipients p) (TextBody p) (HTMLBody p) (Attachments p) (ContentHash p).
Definition set_date (d : Z) (p : ParsedMessage) : ParsedMessage :=
  mkParsed (Sender p) (Subject p) d (Recipients p) (TextBody p) (HTMLBody p) (Attachments p) (ContentHash p).
Definition add_recipients (l : list Recipient) (p : ParsedMessage) : ParsedMessage :=
  mkParsed (Sender p) (Subject p) (MessageDate p) (Recipients p ++ l) (TextBody p) (HTMLBody p)
    (Attachments p) (ContentHash p).
Definition set_text (s : string) (p : ParsedMessage) : ParsedMessage :=
  mkParsed (Sender p) (Subject p) (MessageDate p) (Recipients p) s (HTMLBody p) (Attachments p) (ContentHash p).
Definition set_html (s : string) (p : ParsedMessage) : ParsedMessage :=
  mkParsed (Sender p) (Subject p) (MessageDate p) (Recipients p) (TextBody p) s (Attachments p) (ContentHash p).
Definition add_attachment_part (a : ParsedAttachment) (p : ParsedMessage) : ParsedMessage :=
  mkParsed (Sender p) (Subject p) (MessageDate p) (Recipients p) (TextBody p) (HTMLBody p)
    (Attachments p ++ [a]) (ContentHash p).

(** ** Text *)

(** U+FFFD *)
Definition replacement : string := encode_valid RuneError.

Section parser.
Context `{UnicodeTable} `{MailLib}.

Definition canonicalEmail (email : string) : string := ToLower (TrimSpace email).

Definition decodeText (content charsetLabel : string) : string :=
  let label := ToLower (TrimSpace charsetLabel) in
  let label := if bool_decide (label = EmptyString) then "utf-8"%string else label in
  let is_utf8 := bool_decide (label ∈ ["utf-8"; "utf8"; "us-ascii"; "ascii"]%string) in
  if is_utf8 && Valid content then content
  else
    let label := if is_utf8 then "windows-1252"%string else label in
    let reader :=
      match charset_decode label content with
      | Some rd => Some rd
      | None => charset_decode "windows-1252" content
      end in
    match reader with
    | Some (Ok decoded) => ToValidUTF8 decoded replacement
    | _ => ToValidUTF8 content replacement
    end.

Definition decodeHeaderText (value : string) : string :=
  if bool_decide (value = EmptyString) then EmptyString
  else
    let value := match DecodeHeader value with Ok decoded => decoded | Err _ => value end in
    decodeText value EmptyString.

Definition htmlToText (s : string) : string :=
  match html2text_FromString s with Ok text => text | Err _ => EmptyString end.

Definition decodeContent (header : MailHeader) (body : Body) : Body :=
  let encoding := ToLower (Header_get header "Content-Transfer-Encoding") in
  if bool_decide (encoding = "quoted-printable"%string) then quotedprintable_NewReader body
  else if bool_decide (encoding = "base64"%string) then base64_NewDecoder (base64_reads body) body
  else body.

(** [header[name]]: a missing key is an empty list. *)
Definition parseRecipients (header : MailHeader) (name recipientType : string) : list Recipient :=
  let values := default [] (header !! name) in
  flat_map (fun value =>
    match address_ParseList value with
    | Err _ => []
    | Ok addresses =>
        flat_map (fun addr =>
          let email := canonicalEmail addr in
          if bool_decide (email <> EmptyString) then [mkRecipient email recipientType] else [])
          addresses
    end) values.

(** ** Entities *)

Definition consumeLeaf (header : MailHeader) (body : Body) (mediaType : string) (parsed : ParsedMessage)
  : ParsedMessage * option error :=
  let reader := decodeContent header body in
  match ReadAll reader with
  | (_, Some e) => (parsed, Some (EWrap "read MIME leaf" e))
  | (content, None) =>
      let '(_, dispositionParams, _) := ParseMediaType (Header_get header "Content-Disposition") in
      let '(_, contentTypeParams, _) := ParseMediaType (Header_get header "Content-Type") in
      let filename := param dispositionParams "filename" in
      let filename := if bool_decide (filename = EmptyString)
                      then param contentTypeParams "name" else filename in
      let filename := decodeHeaderText filename in
      let disposition := ToLower (Header_get header "Content-Disposition") in
      let isAttachment := bool_decide (filename <> EmptyString) || HasPrefix disposition "attachment" in
      if isAttachment then
        (add_attachment_part
           (mkParsedAttachment content mediaType filename (slen content) (HashBytes content)) parsed, None)
      else if bool_decide (mediaType = "text/plain"%string) then
        (set_text (TextBody parsed +:+ decodeText content (param contentTypeParams "charset")) parsed, None)
      else if bool_decide (mediaType = "text/html"%string) then
        (set_html (HTMLBody parsed +:+ decodeText content (param contentTypeParams "charset")) parsed, None)
      else (parsed, None)
  end.

(** The media type of an entity, lower-cased; [text/plain] when there is none. *)
Definition entityType (header : MailHeader) : string * Params :=
  let '(mediaType, params, err) := ParseMediaType (Header_get header "Content-Type") in
  let mediaType :=
    match err with
    | Some _ => "text/plain"%string
    | None => if bool_decide (mediaType = EmptyString) then "text/plain"%string else mediaType
    end in
  (ToLower mediaType, params).

(** The loop over [NextPart]: stop at the first error of a part, then report
    how the reader ended. *)
Fixpoint parts_loop (part : MailHeader -> Body -> ParsedMessage -> option (ParsedMessage * option error))
  (parts : list (MailHeader * Body)) (ended : option error) (parsed : ParsedMessage)
  : option (ParsedMessage * option error) :=
  match parts with
  | [] => Some (parsed, match ended with Some e => Some (EWrap "read MIME part" e) | None => None end)
  | (h, b) :: parts' =>
      match part h b parsed with
      | Some (parsed, None) => parts_loop part parts' ended parsed
      | r => r
      end
  end.

Definition parsePart (entity : MailHeader -> Body -> ParsedMessage -> option (ParsedMessage * option error))
  (header : MailHeader) (body : Body) (parsed : ParsedMessage) : option (ParsedMessage * option error) :=
  let '(mediaType, _) := entityType header in
  if HasPrefix mediaType "multipart/" then entity header body parsed
  else Some (consumeLeaf header body mediaType parsed).

(** [fuel] bounds the nesting; [None] is never the result with [parse_fuel]. *)
Fixpoint parseEntity (fuel : nat) (header : MailHeader) (body : Body) (parsed : ParsedMessage)
  : option (ParsedMessage * option error) :=
  match fuel with
  | O => None
  | S fuel' =>
      let '(mediaType, params) := entityType header in
      if HasPrefix mediaType "multipart/" then
        let boundary := param params "boundary" in
        if bool_decide (boundary = EmptyString) then
          Some (parsed, Some (EText "multipart message missing boundary"))
        else
          let '(parts, ended) := multipart_parts boundary body in
          parts_loop (parsePart (parseEntity fuel')) parts ended parsed
      else Some (consumeLeaf header body mediaType parsed)
  end.

Definition parse_fuel (body : Body) : nat := S (String.length (body_bytes body)).

Definition out_of_fuel : error := EText "out of fuel".

(** [err] is [nil] when the second component is [None]. *)
Definition ParseMIME (raw : string) : ParsedMessage * option error :=
  match mail_ReadMessage raw with
  | Err e => (new_parsed (HashBytes raw), Some (EWrap "read MIME message" e))
  | Ok (header, body) =>
      let parsed := new_parsed (HashBytes raw) in
      let from := Header_get header "From" in
      let parsed :=
        if bool_decide (from <> EmptyString) then
          match address_Parse from with
          | Err _ => set_sender (decodeText from EmptyString) parsed
          | Ok addr => set_sender (canonicalEmail addr) parsed
          end
        else parsed in
      let parsed := set_subject (decodeHeaderText (Header_get header "Subject")) parsed in
      let parsed := match header_Date header with Ok date => set_date date parsed | Err _ => parsed end in
      let parsed := add_recipients (parseRecipients header "To" "to") parsed in
      let parsed := add_recipients (parseRecipients header "Cc" "cc") parsed in
      let parsed := add_recipients (parseRecipients header "Bcc" "bcc") parsed in
      match default (parsed, Some out_of_fuel) (parseEntity (parse_fuel body) header body parsed) with
      | (parsed, Some err) => (parsed, Some err)
      | (parsed, None) =>
          if bool_decide (TextBody parsed = EmptyString) && bool_decide (HTMLBody parsed <> EmptyString)
          then (set_text (htmlToText (HTMLBody parsed)) parsed, None)
          else (parsed, None)
      end
  end.
End parser.

(** ** Lemmas *)

Lemma Valid_replacement : Valid replacement = true.
Proof. by vm_compute. Qed.

Section parser_lemmas.
Context `{UnicodeTable} `{MailLibLaws}.

Lemma decodeText_valid content label : Valid (decodeText content label) = true.
Proof.
  unfold decodeText. set (l := if bool_decide _ then _ else _).
  destruct (_ && _) eqn:E; [by apply andb_true_iff in E as [_ ?]|].
  repeat case_match; apply Valid_ToValidUTF8, Valid_replacement.
Qed.

Lemma decodeHeaderText_valid v : Valid (decodeHeaderText v) = true.
Proof. unfold decodeHeaderText. case_bool_decide; [done|]. apply decodeText_valid. Qed.

Lemma canonicalEmail_valid e : Valid (canonicalEmail e) = true.
Proof. apply Valid_ToLower. Qed.

Lemma parts_loop_some part parts ended p :
  Forall (fun hb => forall p, is_Some (part hb.1 hb.2 p)) parts ->
  is_Some (parts_loop part parts ended p).
Proof.
  intros Hp. revert p. induction Hp as [|[h b] parts Hhb Hp IH]; intros p; simpl; [by eexists|].
  destruct (Hhb p) as [[p' [e|]] Hr]; simpl in Hr; rewrite Hr; [by eexists|apply IH].
Qed.

Lemma parseEntity_total fuel header body parsed :
  (String.length (body_bytes body) < fuel)%nat -> is_Some (parseEntity fuel header body parsed).
Proof.
  revert header body parsed. induction fuel as [|fuel IH]; intros header body parsed Hf; [lia|]. simpl.
  destruct (entityType header) as [mt params]. destruct (HasPrefix mt "multipart/"); [|by eexists].
  case_bool_decide; [by eexists|].
  destruct (multipart_parts (param params "boundary") body) as [parts ended] eqn:E.
  apply parts_loop_some, Forall_forall. intros [h b] Hin p. unfold parsePart. simpl.
  destruct (entityType h) as [mt' ?]. destruct (HasPrefix mt' "multipart/"); [|by eexists].
  apply IH. pose proof (part_smaller (param params "boundary") body h b) as Hs. rewrite E in Hs.
  specialize (Hs Hin). unfold slen in Hs. lia.
Qed.

Lemma parts_loop_ext part part' parts ended p r :
  (forall h b p r, part h b p = Some r -> part' h b p = Some r) ->
  parts_loop part parts ended p = Some r -> parts_loop part' parts ended p = Some r.
Proof.
  intros Hp. revert p. induction parts as [|[h b] parts IH]; intros p; simpl; [done|].
  destruct (part h b p) as [[p' [e|]]|] eqn:E; [|apply Hp in E as ->; apply IH|done].
  by apply Hp in E as ->.
Qed.

Lemma parseEntity_mono fuel fuel' header body parsed r :
  (fuel <= fuel')%nat -> parseEntity fuel header body parsed = Some r ->
  parseEntity fuel' header body parsed = Some r.
Proof.
  revert fuel' header body parsed r.
  induction fuel as [|fuel IH]; intros [|fuel'] header body parsed r Hle; [done|done|lia|]. simpl.
  destruct (entityType header) as [mt params]. destruct (HasPrefix mt "multipart/"); [|done].
  case_bool_decide; [done|]. destruct (multipart_parts _ body) as [parts ended].
  apply parts_loop_ext. intros h b p r'. unfold parsePart. destruct (entityType h) as [mt' ?].
  destruct (HasPrefix mt' "multipart/"); [|done]. apply IH. lia.
Qed.

(** What every leaf keeps, the whole parse keeps. *)
Lemma parseEntity_inv (P : ParsedMessage -> Prop) fuel header body parsed r :
  (forall h b p, P p -> P (consumeLeaf h b (entityType h).1 p).1) ->
  P parsed -> parseEntity fuel header body parsed = Some r -> P r.1.
Proof.
  intros Hleaf. revert header body parsed r.
  induction fuel as [|fuel IH]; intros header body parsed r Hp; simpl; [done|].
  pose proof (Hleaf header body parsed Hp) as Hl.
  destruct (entityType header) as [mt params]. simpl in Hl.
  destruct (HasPrefix mt "multipart/"); [|by intros [= <-]].
  case_bool_decide; [by intros [= <-]|]. destruct (multipart_parts _ body) as [parts ended].
  clear Hl. revert parsed Hp. induction parts as [|[h b] parts IHp]; intros parsed Hp; simpl; [by intros [= <-]|].
  destruct (parsePart (parseEntity fuel) h b parsed) as [[p' e]|] eqn:E; [|done].
  assert (P p') as Hp'.
  { unfold parsePart in E. pose proof (Hleaf h b parsed Hp) as Hl. destruct (entityType h) as [mt' ?].
    destruct (HasPrefix mt' "multipart/"); [by apply IH in E|].
    injection E as E. simpl in Hl. by rewrite E in Hl. }
  destruct e; [by intros [= <-]|]. by apply IHp.
Qed.

(** The fields that no leaf touches. *)
Definition same_envelope (p q : ParsedMessage) : Prop :=
  Sender q = Sender p /\ Subject q = Subject p /\ MessageDate q = MessageDate p /\
  Recipients q = Recipients p /\ ContentHash q = ContentHash p.

Definition attachment_faithful (a : ParsedAttachment) : Prop :=
  pa_Size a = slen (pa_Content a) /\ pa_ContentHash a = HashBytes (pa_Content a) /\
  Valid (pa_OriginalFilename a) = true /\ Valid (pa_MimeType a) = true.

Definition bodies_ok (p : ParsedMessage) : Prop :=
  Valid (TextBody p) = true /\ Valid (HTMLBody p) = true /\ Forall attachment_faithful (Attachments p).

Lemma consumeLeaf_envelope h b mt p : same_envelope p (consumeLeaf h b mt p).1.
Proof.
  unfold consumeLeaf. destruct (ReadAll _) as [content [e|]]; [done|].
  destruct (ParseMediaType _) as [[? dp] ?], (ParseMediaType _) as [[? cp] ?].
  destruct (_ || _); [done|]. case_bool_decide; [done|]. by case_bool_decide.
Qed.

Lemma entityType_valid h : Valid (entityType h).1 = true.
Proof. unfold entityType. destruct (ParseMediaType _) as [[? ?] ?]. apply Valid_ToLower. Qed.

Lemma consumeLeaf_bodies h b mt p :
  Valid mt = true -> bodies_ok p -> bodies_ok (consumeLeaf h b mt p).1.
Proof.
  intros Hmt (Ht & Hh & Ha). unfold consumeLeaf. destruct (ReadAll _) as [content [e|]]; [done|].
  destruct (ParseMediaType _) as [[? dp] ?], (ParseMediaType _) as [[? cp] ?].
  destruct (_ || _).
  - split_and!; [done|done|]. apply Forall_app. split; [done|]. apply Forall_singleton.
    split_and!; [done|done|apply decodeHeaderText_valid|done].
  - case_bool_decide; [|case_bool_decide; [|done]]; split_and!; try done;
      apply Valid_app; (done || apply decodeText_valid).
Qed.
End parser_lemmas.

(** ** A library for small messages *)

(** An instance to run the parser on: header lines up to an empty line, media
    types with unquoted parameters, parts that a one-character boundary
    separates, and no transfer encodings. *)
Module Small.
(** The header and the rest; [nl] tells whether a line has just ended. *)
Fixpoint cut (nl : bool) (s : string) : string * string :=
  match s with
  | EmptyString => (EmptyString, EmptyString)
  | String a s' =>
      if nl && bool_decide (a = byte 10) then (EmptyString, s')
      else let '(h, r) := cut (bool_decide (a = byte 10)) s' in (String a h, r)
  end.

Fixpoint header_of (lines : list string) : MailHeader :=
  match lines with
  | [] => ∅
  | l :: lines' =>
      match SplitN2 l ":" with
      | [k; v] => <[CanonicalHeaderKey (TrimSpace k) :=
          TrimSpace v :: default [] (header_of lines' !! CanonicalHeaderKey (TrimSpace k))]> (header_of lines')
      | _ => header_of lines'
      end
  end.

Definition read (s : string) : MailHeader * Body :=
  let '(h, r) := cut true s in (header_of (Split h (byte 10)), mkBody r None).

Definition address (s : string) : result string :=
  if sexists (fun c => bool_decide (c = "@"%char)) s then Ok (TrimSpace s) else Err (EText "mail: missing @").

Fixpoint addresses (l : list string) : result (list string) :=
  match l with [] => Ok [] | s :: l' => a ← address s; r ← addresses l'; Ok (a :: r) end.

Definition media_type (v : string) : string * Params * option error :=
  match Split v ";" with
  | [] => (EmptyString, ∅, None)
  | t :: ps =>
      (TrimSpace t,
       foldr (fun p m => match SplitN2 p "=" with [k; x] => <[TrimSpace k := TrimSpace x]> m | _ => m end) ∅ ps,
       None)
  end.

Definition parts (boundary : string) (b : Body) : list (MailHeader * Body) * option error :=
  match boundary with
  | String c _ => (map read (tail (Split (body_bytes b) c)), body_error b)
  | EmptyString => ([], None)
  end.

(** ISO 8859-1 for windows-1252. *)
Fixpoint latin1 (s : string) : string :=
  match s with EmptyString => EmptyString | String c s' => encode_valid (code c) +:+ latin1 s' end.

#[export] Instance lib : MailLib := {|
  mail_ReadMessage s :=
    match s with EmptyString => Err (EText "EOF") | _ => Ok (read s) end;
  address_Parse := address;
  address_ParseList s := addresses (Split s ",");
  header_Date h := Err (EText "mail: header could not be parsed");
  DecodeHeader s := Ok s;
  ParseMediaType := media_type;
  multipart_parts := parts;
  base64_reads _ _ := 255%nat;
  charset_decode l s := if bool_decide (l = "windows-1252"%string) then Some (Ok (latin1 s)) else None;
  html2text_FromString s := Ok s
|}.

Lemma cut_length nl s : (String.length (cut nl s).2 <= String.length s)%nat.
Proof.
  revert nl. induction s as [|a s IH]; intros nl; simpl; [done|].
  destruct (nl && _); simpl; [lia|]. specialize (IH (bool_decide (a = byte 10))).
  destruct (cut _ s). simpl in *. lia.
Qed.

Lemma Split_length s c y : y ∈ Split s c -> (String.length y <= String.length s)%nat.
Proof.
  revert y. induction s as [|a s IH]; simpl; intros x Hx; [by apply list_elem_of_singleton in Hx as ->|].
  case_bool_decide.
  - apply elem_of_cons in Hx as [->|Hx%IH]; simpl; lia.
  - destruct (Split s c) as [|h t]; [by apply list_elem_of_singleton in Hx as ->; simpl; lia|].
    apply elem_of_cons in Hx as [->|Hx].
    + simpl. specialize (IH h ltac:(by left)). lia.
    + specialize (IH x ltac:(by right)). lia.
Qed.

Lemma Split_tail_smaller s c y : y ∈ tail (Split s c) -> (String.length y < String.length s)%nat.
Proof.
  revert y. induction s as [|a s IH]; simpl; intros y Hy; [by apply elem_of_nil in Hy|].
  revert Hy. case_bool_decide; simpl; intros Hy; [by apply Split_length in Hy; lia|].
  destruct (Split s c); simpl in *; [by apply elem_of_nil in Hy|]. specialize (IH y Hy). lia.
Qed.

#[export] Instance lib_laws : @MailLibLaws lib.
Proof.
  split.
  - intros boundary body h b. simpl. unfold parts. destruct boundary as [|c bd]; simpl.
    { by intros ?%elem_of_nil. }
    intros (p & Hp & Hin)%list_elem_of_fmap. apply Split_tail_smaller in Hin.
    pose proof (cut_length true p) as Hc. unfold read in Hp. destruct (cut true p) as [hd r].
    injection Hp as _ ->. unfold slen. simpl in *. lia.
  - by intros s t Hs [= <-].
Qed.

(** The example: two text parts, an attachment, recipients in two headers. *)
Definition nl : string := String (byte 10) EmptyString.
Definition sample : string :=
  "From: Alice@Example.com" +:+ nl +:+ "To: Bob@Example.com, carol@example.com" +:+ nl +:+
  "Cc: DAVE@example.com" +:+ nl +:+ "Subject: Report" +:+ nl +:+
  "Content-Type: multipart/mixed; boundary=|" +:+ nl +:+ nl +:+
  "preamble|Content-Type: text/plain; charset=UTF-8" +:+ nl +:+ nl +:+ "Hello Bob" +:+
  "|Content-Type: application/pdf; name=r.pdf" +:+ nl +:+ nl +:+ "%PDF-1.4".
End Small.

Example parse_sample :
  let p := @ParseMIME unicode_latin Small.lib Small.sample in
  p.2 = None /\ Sender p.1 = "alice@example.com"%string /\ TextBody p.1 = "Hello Bob"%string /\
  Recipients p.1 = [mkRecipient "bob@example.com" "to"; mkRecipient "carol@example.com" "to";
                    mkRecipient "dave@example.com" "cc"] /\
  map pa_OriginalFilename (Attachments p.1) = ["r.pdf"%string] /\ map pa_Size (Attachments p.1) = [8].
Proof. by vm_compute. Qed.

(** ** Properties *)

Section parse_facts.
Context `{UnicodeTable} `{MailLibLaws}.

(** The fields that come from the header of the message. *)
Definition envelope (raw : string) (header : MailHeader) : ParsedMessage :=
  let from := Header_get header "From" in
  mkParsed
    (if bool_decide (from <> EmptyString) then
       match address_Parse from with Err _ => decodeText from EmptyString | Ok a => canonicalEmail a end
     else EmptyString)
    (decodeHeaderText (Header_get header "Subject"))
    (match header_Date header with Ok d => d | Err _ => zero_time end)
    (parseRecipients header "To" "to" ++ parseRecipients header "Cc" "cc" ++ parseRecipients header "Bcc" "bcc")
    EmptyString EmptyString [] (HashBytes raw).

Lemma ParseMIME_cases raw :
  (exists e, mail_ReadMessage raw = Err e /\
     ParseMIME raw = (new_parsed (HashBytes raw), Some (EWrap "read MIME message" e))) \/
  (exists header body p err,
     mail_ReadMessage raw = Ok (header, body) /\
     parseEntity (parse_fuel body) header body (envelope raw header) = Some (p, err) /\
     ParseMIME raw =
       (match err with
        | None => if bool_decide (TextBody p = EmptyString) && bool_decide (HTMLBody p <> EmptyString)
                  then set_text (htmlToText (HTMLBody p)) p else p
        | Some _ => p
        end, err)).
Proof using All.
  unfold ParseMIME. destruct (mail_ReadMessage raw) as [[header body]|e] eqn:E; [right|left; eauto].
  exists header, body.
  match goal with |- context [parseEntity _ header body ?p0] => assert (p0 = envelope raw header) as -> end.
  { unfold envelope. destruct (bool_decide (_ <> EmptyString)), (address_Parse (Header_get header "From")), (header_Date header);
      cbv beta iota zeta delta [add_recipients set_subject set_date set_sender new_parsed Sender Subject
        MessageDate Recipients TextBody HTMLBody Attachments ContentHash]; by rewrite <-!app_assoc. }
  destruct (parseEntity_total (parse_fuel body) header body (envelope raw header)) as [[p err] Hr];
    [unfold parse_fuel; lia|].
  exists p, err. split_and!; [done|done|]. rewrite Hr. simpl. destruct err; [done|].
  by destruct (_ && _).
Qed.

Lemma recipients_canonical header name type :
  Forall (fun r => rc_Type r = type /\ rc_Email r <> EmptyString /\
    canonicalEmail (rc_Email r) = rc_Email r /\ Valid (rc_Email r) = true) (parseRecipients header name type).
Proof using All.
  unfold parseRecipients. apply Forall_forall. intros r Hr%list_elem_of_In.
  apply in_flat_map in Hr as (v & _ & Hr). destruct (address_ParseList v) as [l|]; [|done].
  apply in_flat_map in Hr as (a & _ & Hr). case_bool_decide as Hne; [|done].
  destruct Hr as [<-|[]]. split_and!; [done|done|apply canonical_idem|apply canonicalEmail_valid].
Qed.

Lemma consumeLeaf_keeps h b p (Q : ParsedMessage -> Prop) :
  (same_envelope p (consumeLeaf h b (entityType h).1 p).1 ->
   (bodies_ok p -> bodies_ok (consumeLeaf h b (entityType h).1 p).1) -> Q p ->
   Q (consumeLeaf h b (entityType h).1 p).1) -> Q p -> Q (consumeLeaf h b (entityType h).1 p).1.
Proof using All.
  intros HQ Hp. apply HQ; [apply consumeLeaf_envelope|apply consumeLeaf_bodies, entityType_valid|done].
Qed.

(** After the entity: the envelope is as it was and the bodies are well-formed. *)
Lemma parseEntity_spec fuel header body p0 r :
  bodies_ok p0 -> parseEntity fuel header body p0 = Some r -> same_envelope p0 r.1 /\ bodies_ok r.1.
Proof using All.
  intros Hp Hr. apply (parseEntity_inv (fun p => same_envelope p0 p /\ bodies_ok p)) in Hr; [done| |done].
  intros h b p [Henv Hb]. split.
  - destruct (consumeLeaf_envelope h b (entityType h).1 p) as (E1 & E2 & E3 & E4 & E5).
    destruct Henv as (F1 & F2 & F3 & F4 & F5). unfold same_envelope. by rewrite E1, E2, E3, E4, E5.
  - apply consumeLeaf_bodies; [apply entityType_valid|done].
Qed.

Lemma ParseMIME_spec raw :
  bodies_ok (ParseMIME raw).1 /\ ContentHash (ParseMIME raw).1 = HashBytes raw /\
  match mail_ReadMessage raw with
  | Err _ => (ParseMIME raw).1 = new_parsed (HashBytes raw)
  | Ok (header, _) => same_envelope (envelope raw header) (ParseMIME raw).1
  end.
Proof using All.
  destruct (ParseMIME_cases raw) as [(e & -> & ->)|(header & body & p & err & -> & Hr & ->)].
  { split; [|done]. split_and!; [done|done|constructor]. }
  apply parseEntity_spec in Hr as [Henv (Ht & Hh & Ha)]; [|split_and!; [done|done|constructor]].
  simpl in *. destruct err; [by split_and!; try apply Henv|].
  destruct (_ && _); [|by split_and!; try apply Henv].
  split; [split_and!; [|done|done]|]; [|split; [apply Henv|exact Henv]].
  simpl. unfold htmlToText. destruct (html2text_FromString (HTMLBody p)) eqn:E; [|done].
  by eapply html2text_valid.
Qed.
End parse_facts.

Section parser_properties.
  Context `{UnicodeTable} `{MailLibLaws}.

(** C26: Parsing terminates: for every entity the nesting of multiparts is
    bounded by the length of the body, so that the fuel [ParseMIME] uses gives a
    result, and more fuel gives the same one. *)
Theorem parse_terminates header body parsed :
  exists r, parseEntity (parse_fuel body) header body parsed = Some r /\
    forall fuel, (parse_fuel body <= fuel)%nat -> parseEntity fuel header body parsed = Some r.
Proof.
  destruct (parseEntity_total (parse_fuel body) header body parsed) as [r Hr]; [unfold parse_fuel; lia|].
  exists r. split; [done|]. intros fuel Hf. by eapply parseEntity_mono.
Qed.

(** C38: Everything a parse stores as text is valid UTF-8, whatever the bytes of
    the message, the charsets it declares and the outcome of the parse: sender,
    subject, both bodies, the recipients' addresses, and each attachment's name
    and media type. *)
Theorem parsed_text_is_valid_utf8 raw :
  let p := (ParseMIME raw).1 in
  Valid (Sender p) = true /\ Valid (Subject p) = true /\ Valid (TextBody p) = true /\
  Valid (HTMLBody p) = true /\ Forall (fun r => Valid (rc_Email r) = true) (Recipients p) /\
  Forall (fun a => Valid (pa_OriginalFilename a) = true /\ Valid (pa_MimeType a) = true) (Attachments p).
Proof.
  destruct (ParseMIME_spec raw) as ((Ht & Hh & Ha) & _ & Henv). cbv zeta.
  assert (Forall (fun a => Valid (pa_OriginalFilename a) = true /\ Valid (pa_MimeType a) = true)
    (Attachments (ParseMIME raw).1)) as Ha'.
  { eapply Forall_impl; [exact Ha|]. by intros a (_ & _ & ? & ?). }
  destruct (mail_ReadMessage raw) as [[header body]|e].
  - destruct Henv as (-> & -> & _ & -> & _). split_and!; try done.
    + simpl. case_bool_decide; [|done]. destruct (address_Parse _); [apply canonicalEmail_valid|apply decodeText_valid].
    + apply decodeHeaderText_valid.
    + simpl. rewrite !Forall_app. split_and!; (eapply Forall_impl; [apply recipients_canonical|]; by intros r (_ & _ & _ & ?)).
  - rewrite Henv in *. by split_and!.
Qed.

(** Attachment metadata are those of the content: every attachment a parse
    returns has the length of its content as size and the SHA-256 of its content
    as hash, whatever the outcome of the parse. *)
Theorem parsed_attachments_are_faithful raw :
  Forall (fun a => pa_Size a = slen (pa_Content a) /\ pa_ContentHash a = HashBytes (pa_Content a))
    (Attachments (ParseMIME raw).1).
Proof.
  destruct (ParseMIME_spec raw) as ((_ & _ & Ha) & _). eapply Forall_impl; [exact Ha|].
  by intros a (? & ? & _).
Qed.

(** C40: The recipients are those of the To, Cc and Bcc headers, in that order
    and with those types, whatever happens to the body; each address is not
    empty and in canonical form (trimmed, lower-cased, a fixed point of
    canonicalisation), so that it can be compared with a session's address. The
    sender, subject, date and content hash also do not depend on the body. *)
Theorem envelope_is_the_headers raw header body :
  mail_ReadMessage raw = Ok (header, body) ->
  let p := (ParseMIME raw).1 in
  Recipients p = parseRecipients header "To" "to" ++ parseRecipients header "Cc" "cc"
                 ++ parseRecipients header "Bcc" "bcc" /\
  Forall (fun r => rc_Email r <> EmptyString /\ canonicalEmail (rc_Email r) = rc_Email r) (Recipients p) /\
  same_envelope (envelope raw header) p.
Proof.
  intros Hm p. destruct (ParseMIME_spec raw) as (_ & _ & Henv). rewrite Hm in Henv.
  pose proof Henv as (_ & _ & _ & Hr & _). unfold p. rewrite Hr. simpl. split_and!; [done| |done].
  rewrite !Forall_app. split_and!; (eapply Forall_impl; [apply recipients_canonical|]; by intros r (_ & ? & ? & _)).
Qed.

(** Text that is what it says it is is kept byte for byte: a body that is
    valid UTF-8 and has no charset label, or one of utf-8, utf8, us-ascii and
    ascii in any case, is not changed; and whatever the label and the bytes, the
    result is valid UTF-8. *)
Theorem decodeText_keeps_utf8 content label :
  Valid (decodeText content label) = true /\
  (ToLower (TrimSpace label) ∈ [""; "utf-8"; "utf8"; "us-ascii"; "ascii"]%string ->
   Valid content = true -> decodeText content label = content).
Proof.
  split; [apply decodeText_valid|]. intros Hl Hv. unfold decodeText. rewrite Hv.
  set (l := ToLower (TrimSpace label)) in *. rewrite !elem_of_cons, elem_of_nil in Hl.
  destruct Hl as [->|[->|[->|[->|[->|[]]]]]]; done.
Qed.

(** What becomes of a leaf that can be read: with a file name, or a
    disposition that starts with "attachment", it is an attachment; otherwise a
    text/plain leaf is appended to the text body and a text/html leaf to the
    HTML body, decoded; every other leaf (an inline image without a name, say)
    is dropped without an error. A leaf that cannot be read fails the parse. *)
Theorem leaf_outcomes header body mediaType parsed :
  let out := consumeLeaf header body mediaType parsed in
  let d := decodeContent header body in
  let disposition := ToLower (Header_get header "Content-Disposition") in
  let dp := (ParseMediaType (Header_get header "Content-Disposition")).1.2 in
  let cp := (ParseMediaType (Header_get header "Content-Type")).1.2 in
  let name := decodeHeaderText (if bool_decide (param dp "filename" = EmptyString)
                                then param cp "name" else param dp "filename") in
  let text := decodeText (body_bytes d) (param cp "charset") in
  match body_error d with
  | Some e => out = (parsed, Some (EWrap "read MIME leaf" e))
  | None =>
      out.2 = None /\
      (name <> EmptyString \/ HasPrefix disposition "attachment" = true ->
       out.1 = add_attachment_part (mkParsedAttachment (body_bytes d) mediaType name (slen (body_bytes d))
         (HashBytes (body_bytes d))) parsed) /\
      (name = EmptyString -> HasPrefix disposition "attachment" = false ->
       out.1 = (if bool_decide (mediaType = "text/plain"%string) then set_text (TextBody parsed +:+ text) parsed
                else if bool_decide (mediaType = "text/html"%string) then set_html (HTMLBody parsed +:+ text) parsed
                else parsed))
  end.
Proof.
  cbv zeta. unfold consumeLeaf, ReadAll. destruct (decodeContent header body) as [content [e|]]; [done|].
  cbn [body_bytes body_error].
  destruct (ParseMediaType (Header_get header "Content-Disposition")) as [[? dp] ?].
  destruct (ParseMediaType (Header_get header "Content-Type")) as [[? cp] ?]. cbn [fst snd].
  set (name := decodeHeaderText _). set (disp := HasPrefix _ "attachment").
  destruct (bool_decide (name <> EmptyString)) eqn:En; simpl.
  - apply bool_decide_eq_true in En. by split_and!.
  - apply bool_decide_eq_false in En. destruct disp eqn:Ed; simpl.
    + split_and!; done.
    + split_and!.
      * case_bool_decide; [done|]. by case_bool_decide.
      * intros [?|?]; done.
      * intros _ _. case_bool_decide; [done|]. by case_bool_decide.
Qed.

(** The header without its Content-Transfer-Encoding. *)
Definition transfer_key : string := "Content-Transfer-Encoding".
Definition unencoded (header : MailHeader) : MailHeader := delete transfer_key header.

Lemma unencoded_get header key :
  CanonicalHeaderKey key <> transfer_key -> Header_get (unencoded header) key = Header_get header key.
Proof using.
  intros Hne. unfold Header_get, unencoded, MailHeader in *. by rewrite (lookup_delete_ne (M := gmap string)).
Qed.

Lemma consumeLeaf_unencoded header body content mediaType parsed :
  decodeContent header body = mkBody content None ->
  consumeLeaf header body mediaType parsed = consumeLeaf (unencoded header) (mkBody content None) mediaType parsed.
Proof using.
  intros Hd. unfold consumeLeaf. rewrite Hd, !unencoded_get by (by vm_compute).
  assert (decodeContent (unencoded header) (mkBody content None) = mkBody content None) as ->; [|done].
  unfold decodeContent. assert (Header_get (unencoded header) "Content-Transfer-Encoding" = EmptyString) as ->; [|done].
  unfold Header_get, unencoded, MailHeader in *. change (CanonicalHeaderKey "Content-Transfer-Encoding") with transfer_key.
  by rewrite (lookup_delete_eq (M := gmap string)).
Qed.

(** C39: Encodings are undone. A leaf whose body is the base64 of some bytes, with
    line breaks anywhere and however it is read, or any quoted-printable text for
    them with lines the reader's buffer holds, is treated exactly as the bytes
    themselves would be without the encoding: as an attachment they are stored as
    they were sent. Every byte string has such a text. *)
Theorem encoded_leaf_is_decoded header mediaType parsed :
  let encoding := ToLower (Header_get header transfer_key) in
  (forall t content,
     encoding = "base64"%string /\ without_newlines t = b64_encode content \/
     encoding = "quoted-printable"%string /\ qp_encodes t content ->
     consumeLeaf header (mkBody t None) mediaType parsed
     = consumeLeaf (unencoded header) (mkBody content None) mediaType parsed) /\
  (forall content, exists t, qp_encodes t content).
Proof using.
  intros encoding. split.
  - intros t content Hc. apply consumeLeaf_unencoded. unfold decodeContent.
    change (Header_get header "Content-Transfer-Encoding") with (Header_get header transfer_key). fold encoding.
    destruct Hc as [[-> Ht]|(-> & ls & last & Hls & Hl & -> & ->)].
    + by apply base64_decodes.
    + by apply quotedprintable_decodes.
  - intros content. destruct (qp_text_exists content) as (ls & Hls & Hl & <-). by exists (qp_text ls []), ls, [].
Qed.
End parser_properties.

Lemma envelope_is_the_headers_witness :
  Recipients (@ParseMIME unicode_latin Small.lib Small.sample).1 =
  [mkRecipient "bob@example.com" "to"; mkRecipient "carol@example.com" "to"; mkRecipient "dave@example.com" "cc"].
Proof.
  destruct (@envelope_is_the_headers unicode_latin Small.lib Small.lib_laws Small.sample
    (Small.read Small.sample).1 (Small.read Small.sample).2) as (H & _); [reflexivity|].
  rewrite H. by vm_compute.
Defined.

Lemma parse_terminates_witness :
  let p := Small.read Small.sample in
  exists r, @parseEntity unicode_latin Small.lib (parse_fuel p.2) p.1 p.2 (new_parsed "") = Some r.
Proof.
  cbv zeta. destruct (@parse_terminates unicode_latin Small.lib Small.lib_laws (Small.read Small.sample).1
    (Small.read Small.sample).2 (new_parsed "")) as (r & Hr & _).
  by exists r.
Defined.

Lemma parsed_text_is_valid_utf8_witness :
  Valid (TextBody (@ParseMIME unicode_latin Small.lib Small.sample).1) = true.
Proof.
  apply (@parsed_text_is_valid_utf8 unicode_latin Small.lib Small.lib_laws Small.sample).
Defined.

Module EncodedDemo.
Definition header (encoding : string) : MailHeader :=
  {[ "Content-Transfer-Encoding"%string := [encoding]; "Content-Disposition"%string := ["attachment"%string] ]}.
Definition empty : ParsedMessage := new_parsed EmptyString.
End EncodedDemo.

(** Two lines of base64, read by the decoder in one chunk; and a soft line break. *)
Lemma encoded_leaf_is_decoded_witness :
  let leaf e t := map pa_Content (Attachments (@consumeLeaf unicode_latin Small.lib
    (EncodedDemo.header e) (mkBody t None) "application/pdf" EncodedDemo.empty).1) in
  leaf "Base64"%string ("SGVs" +:+ crlf +:+ "bG8h" +:+ crlf) = ["Hello!"%string] /\
  leaf "quoted-printable"%string ("a=3Db =" +:+ crlf +:+ "c") = ["a=b c"%string].
Proof.
  cbv zeta. split.
  - rewrite (proj1 (@encoded_leaf_is_decoded unicode_latin Small.lib _ _ _) _ "Hello!"%string)
      by (left; split; by vm_compute). by vm_compute.
  - rewrite (proj1 (@encoded_leaf_is_decoded unicode_latin Small.lib _ _ _) _ "a=b c"%string); [by vm_compute|].
    right. split; [by vm_compute|].
    exists [([Lit "a"; Esc "3" "D"; Lit "b"; Lit " "], Soft crlf)]%char, [Lit "c"%char].
    split_and!; [|split_and!|by vm_compute|by vm_compute].
    + constructor; [|done]. split_and!; [|by right|vm_compute; lia|done].
      repeat constructor; try (by vm_compute); by eexists.
    + repeat constructor; by vm_compute.
    + vm_compute. lia.
    + by vm_compute.
Defined.
