(* ===== verification/Ingest.v ===== *)
(** * Ingestion (internal/ingest/handler.go)

    The handler that the worker posts raw messages to: authentication, size
    limit, duplicate check, parse (or fallback), blob and rows. Its state is the
    database, the file system and the runtime. Log records are not modelled. *)

From S2P Require Export Parser Storage Sql Config Middleware.

Open Scope Z_scope.

Definition ingestPSKHeader : string := "X-Lite-Mail-Ingest-PSK".

(** [subtle.ConstantTimeCompare([]byte(x), []byte(y)) == 1] *)
Definition psk_equal (x y : string) : bool := bool_decide (x = y).

(** A nil database, storage or configuration is [None]. *)
Record IngestHandler := mkIngestHandler {
  ih_db_present : bool; ih_storage : option Storage; ih_config : option Config
}.

Definition NewIngestHandler (db_present : bool) (s : option Storage) (cfg : option Config) : IngestHandler :=
  mkIngestHandler db_present s cfg.

(** [nullableString]: a [sql.NullString]. *)
Definition nullableString (value : string) : option string :=
  let value := TrimSpace value in
  if bool_decide (value <> EmptyString) then Some value else None.

Section fallback.
Context `{UnicodeTable} `{MailLib}.

(** Whatever was read before a decoding error is kept. *)
Definition readFallbackBody (header : MailHeader) (body : Body) : string :=
  (ReadAll (decodeContent header body)).1.

(** The loop over the parts: the first HTML part that is not empty. *)
Fixpoint fallback_html (parts : list (MailHeader * Body)) : option string :=
  match parts with
  | [] => None
  | (partHeader, part) :: parts' =>
      let '(partMediaType, partParams, _) := ParseMediaType (Header_get partHeader "Content-Type") in
      let partMediaType := ToLower partMediaType in
      if bool_decide (partMediaType = "text/html"%string) then
        let partContent := readFallbackBody partHeader part in
        if 0 <? slen partContent then Some (decodeText partContent (param partParams "charset"))
        else fallback_html parts'
      else fallback_html parts'
  end.

Definition fallbackParsedMessageWithError (raw contentHash : string) (parseErr : error) (rt : Runtime)
  : ParsedMessage * Runtime :=
  let '(now, rt) := time_Now rt in
  let parsed := set_text ("[Parse Error: " +:+ error_Error parseErr +:+ "]")
                  (set_date now (new_parsed contentHash)) in
  match mail_ReadMessage raw with
  | Err _ => (parsed, rt)
  | Ok (header, body) =>
      let from := Header_get header "From" in
      let parsed :=
        if bool_decide (from <> EmptyString) then
          match address_Parse from with
          | Ok addr => set_sender (canonicalEmail addr) parsed
          | Err _ => parsed
          end
        else parsed in
      let parsed := set_subject (decodeHeaderText (Header_get header "Subject")) parsed in
      let '(mediaType, params, mediaErr) := ParseMediaType (Header_get header "Content-Type") in
      let parsed :=
        if bool_decide (mediaErr = None) && HasPrefix (ToLower mediaType) "multipart/" then
          let boundary := param params "boundary" in
          if bool_decide (boundary <> EmptyString) then
            match fallback_html (multipart_parts boundary body).1 with
            | Some html => set_html html parsed
            | None => parsed
            end
          else parsed
        else if HasPrefix (ToLower mediaType) "text/html" then
          let content := readFallbackBody header body in
          if 0 <? slen content then set_html (decodeText content (param params "charset")) parsed
          else parsed
        else parsed in
      (parsed, rt)
  end.
End fallback.

Definition accepted_json (id : Z) : json :=
  JObj [("message_id"%string, JInt id); ("status"%string, JString "accepted")].
Definition duplicate_json : json := JObj [("status"%string, JString "duplicate")].

Section handler.
Context `{UnicodeTable} `{MailLib} {D T F : Type} `{SQLDriver D T} `{FileSystem F}.

Definition scan_id (row : list sqlval) : result Z :=
  match row with [id] => scan_int id | _ => Err ErrScan end.

Definition isDuplicate (contentHash : string) (db : D) : result bool :=
  match QueryRow scan_id "SELECT id FROM ingest_events WHERE content_hash = ? LIMIT 1" [VStr contentHash] db with
  | Ok _ => Ok true
  | Err e => if errors_Is e ErrNoRows then Ok false else Err e
  end.

Fixpoint insert_recipients (messageID : Z) (l : list Recipient) (tx : T) (rt : Runtime)
  : result T * Runtime :=
  match l with
  | [] => (Ok tx, rt)
  | recipient :: l' =>
      let '(now, rt) := time_Now rt in
      match tx_Exec "INSERT INTO message_recipients (message_id, recipient_email, recipient_type, received_at) VALUES (?, ?, ?, ?)"
              [VInt messageID; VStr (rc_Email recipient); VStr (rc_Type recipient); VTime now] tx with
      | (Err e, _) => (Err e, rt)
      | (Ok _, tx) => insert_recipients messageID l' tx rt
      end
  end.

Fixpoint insert_attachments (storage : Storage) (messageID : Z) (l : list ParsedAttachment) (tx : T) (fs : F)
  : result T * F :=
  match l with
  | [] => (Ok tx, fs)
  | attachment :: l' =>
      let safeKey := pa_ContentHash attachment in
      match SaveAttachment storage messageID safeKey (pa_Content attachment) fs with
      | (Err e, fs) => (Err e, fs)
      | (Ok _, fs) =>
          match tx_Exec "INSERT INTO attachments (message_id, storage_key, original_filename, mime_type, size_bytes, content_hash) VALUES (?, ?, ?, ?, ?, ?)"
                  [VInt messageID; VStr safeKey; nullable (nullableString (pa_OriginalFilename attachment));
                   VStr (pa_MimeType attachment); VInt (pa_Size attachment); VStr (pa_ContentHash attachment)] tx with
          | (Err e, _) => (Err e, fs)
          | (Ok _, tx) => insert_attachments storage messageID l' tx fs
          end
      end
  end.

(** An error before the commit leaves the transaction to be rolled back. *)
Definition persist (storage : Storage) (parsed : ParsedMessage) (parserStatus : string)
  (parserError : option string) (db : D) (fs : F) (rt : Runtime) : result Z * (D * F * Runtime) :=
  match db_Begin db with
  | Err e => (Err e, (db, fs, rt))
  | Ok tx =>
      let '(messageDate, rt) :=
        if IsZero (MessageDate parsed) then time_Now rt else (MessageDate parsed, rt) in
      let rawPath := "raw/" +:+ ContentHash parsed in
      let '(now, rt) := time_Now rt in
      match tx_Exec "INSERT INTO messages (cloudflare_message_id, content_hash, sender, subject, message_date, received_at, text_body, html_body, raw_mime_path, parser_status, parser_error) VALUES (?, ?, ?, ?, ?, ?, ?, ?, ?, ?, ?)"
              [VStr (ContentHash parsed); VStr (ContentHash parsed); VStr (Sender parsed); VStr (Subject parsed);
               VTime messageDate; VTime now; VStr (TextBody parsed); VStr (HTMLBody parsed); VStr rawPath;
               VStr parserStatus; nullable parserError] tx with
      | (Err e, _) => (Err e, (db, fs, rt))
      | (Ok messageID, tx) =>
          match insert_recipients messageID (Recipients parsed) tx rt with
          | (Err e, rt) => (Err e, (db, fs, rt))
          | (Ok tx, rt) =>
              match insert_attachments storage messageID (Attachments parsed) tx fs with
              | (Err e, fs) => (Err e, (db, fs, rt))
              | (Ok tx, fs) =>
                  match tx_Exec "INSERT INTO ingest_events (cloudflare_message_id, content_hash, status) VALUES (?, ?, 'accepted')"
                          [VStr (ContentHash parsed); VStr (ContentHash parsed)] tx with
                  | (Err e, _) => (Err e, (db, fs, rt))
                  | (Ok _, tx) =>
                      match tx_Commit tx db with
                      | (Err e, db) => (Err e, (db, fs, rt))
                      | (Ok _, db) => (Ok messageID, (db, fs, rt))
                      end
                  end
              end
          end
      end
  end.

(** The parsed message that is stored, with its status and error. *)
Definition parse_or_fallback (raw contentHash : string) (rt : Runtime)
  : ParsedMessage * string * option string * Runtime :=
  let '(parsed, parseErr) := ParseMIME raw in
  let '(parsed, parserStatus, parserError, rt) :=
    match parseErr with
    | None => (parsed, "success"%string, None, rt)
    | Some e =>
        let '(parsed, rt) := fallbackParsedMessageWithError raw contentHash e rt in
        (parsed, "failed"%string, Some (error_Error e), rt)
    end in
  let parsed :=
    if bool_decide (ContentHash parsed = EmptyString) then
      mkParsed (Sender parsed) (Subject parsed) (MessageDate parsed) (Recipients parsed)
        (TextBody parsed) (HTMLBody parsed) (Attachments parsed) contentHash
    else parsed in
  (parsed, parserStatus, parserError, rt).

Definition message_limit (c : Config) : Z :=
  if MaxMessageBytes c <=? 0 then 26214400 else MaxMessageBytes c.

(** After the checks on the request: [raw] is the message. *)
Definition ingest_message (storage : Storage) (raw : string) (w : ResponseWriter)
  (db : D) (fs : F) (rt : Runtime) : ResponseWriter * (D * F * Runtime) :=
  let contentHash := HashBytes raw in
  match isDuplicate contentHash db with
  | Err _ => (writeJSON 500 (json_error "check duplicate") w, (db, fs, rt))
  | Ok true => (writeJSON 200 duplicate_json w, (db, fs, rt))
  | Ok false =>
      let '(parsed, parserStatus, parserError, rt) := parse_or_fallback raw contentHash rt in
      match SaveRawMIME storage contentHash raw fs with
      | (Err _, fs) => (writeJSON 500 (json_error "save raw MIME") w, (db, fs, rt))
      | (Ok _, fs) =>
          match persist storage parsed parserStatus parserError db fs rt with
          | (Err _, st) => (writeJSON 500 (json_error "persist message") w, st)
          | (Ok messageID, st) => (writeJSON 200 (accepted_json messageID) w, st)
          end
      end
  end.

Definition ServeHTTP (h : IngestHandler) : Handler (D * F * Runtime) := fun r w '(db, fs, rt) =>
  if bool_decide (Method r <> "POST"%string) then
    (writeJSON 405 (json_error "method not allowed") w, (db, fs, rt))
  else
  match ih_config h with
  | None => (writeJSON 401 (json_error "unauthorized") w, (db, fs, rt))
  | Some c =>
      if bool_decide (WorkerIngestPSK c = EmptyString)
         || negb (psk_equal (Header_Get (ReqHeader r) ingestPSKHeader) (WorkerIngestPSK c)) then
        (writeJSON 401 (json_error "unauthorized") w, (db, fs, rt))
      else
        let limit := message_limit c in
        match ReadAll (LimitReader (ReqBody r) (wrap64 (limit + 1))) with
        | (_, Some _) => (writeJSON 400 (json_error "read request body") w, (db, fs, rt))
        | (raw, None) =>
            if limit <? slen raw then
              (writeJSON 413 (json_error "message too large") w, (db, fs, rt))
            else
              match ih_db_present h, ih_storage h with
              | true, Some storage => ingest_message storage raw w db fs rt
              | _, _ => (writeJSON 500 (json_error "ingest dependencies unavailable") w, (db, fs, rt))
              end
        end
  end.
End handler.

(** ** What a message adds to the tables *)

Definition with_recipients (l : list RecipientRow) (t : Tables) : Tables :=
  mkTables (messages t) (message_recipients t ++ l) (attachments t) (ingest_events t).
Definition with_attachments (l : list AttachmentRow) (t : Tables) : Tables :=
  mkTables (messages t) (message_recipients t) (attachments t ++ l) (ingest_events t).

Definition recipient_stored (id : Z) (rc : Recipient) (r : RecipientRow) : Prop :=
  r_message_id r = id /\ r_recipient_email r = rc_Email rc /\ r_recipient_type r = rc_Type rc.

Section stored.
Context `{UnicodeTable}.

Definition attachment_stored (id : Z) (p : ParsedAttachment) (a : AttachmentRow) : Prop :=
  a_message_id a = id /\ a_storage_key a = pa_ContentHash p /\
  a_original_filename a = nullableString (pa_OriginalFilename p) /\ a_mime_type a = pa_MimeType p /\
  a_size_bytes a = pa_Size p /\ a_content_hash a = pa_ContentHash p.

(** The tables [t'] are [t] with the rows of one message: its id is new. *)
Record stored (id : Z) (p : ParsedMessage) (status : string) (perr : option string)
  (round : Z -> Z) (t t' : Tables) : Prop := mkStored {
  st_fresh_messages : Forall (fun m => m_id m < id) (messages t);
  st_fresh_recipients : Forall (fun r => r_message_id r < id) (message_recipients t);
  st_fresh_attachments : Forall (fun a => a_message_id a < id) (attachments t);
  st_id : 0 < id /\ in_int64 id;
  st_rows : exists m recs atts e,
    t' = add_event e (with_attachments atts (with_recipients recs (add_message m t))) /\
    (exists date received,
      m = mkMessage id (ContentHash p) (ContentHash p) (Sender p) (Some (Subject p)) (round date) received
            (Some (TextBody p)) (Some (HTMLBody p)) ("raw/" +:+ ContentHash p) status perr /\
      (IsZero (MessageDate p) = false -> date = MessageDate p)) /\
    Forall2 (recipient_stored id) (Recipients p) recs /\
    Forall2 (attachment_stored id) (Attachments p) atts /\
    e_content_hash e = ContentHash p
}.
End stored.

Lemma HashBytes_plain data : plain_key (HashBytes data).
Proof.
  destruct (HashBytes_shape data) as [Hl Hh].
  assert (forall c, is_hex c = false -> no_char c (HashBytes data) = true) as Hno.
  { intros c Hc. unfold no_char. eapply sforall_impl; [|exact Hh]. intros a Ha. simpl.
    apply negb_true_iff, bool_decide_eq_false. intros ->. congruence. }
  split; [|by apply Hno]. split_and!; [| | |by apply Hno].
  - intros E. by rewrite E in Hl.
  - intros E. by rewrite E in Hl.
  - intros E. by rewrite E in Hl.
Qed.

Section ingest_lemmas.
Context `{UnicodeTable} `{MailLibLaws} {D T F : Type} `{SQLDriverLaws D T} `{FileSystemLaws F}.
Context (s : Storage) (base_ne : baseDir s <> EmptyString).

Lemma insert_recipients_ok id l tx rt tx' rt' :
  insert_recipients id l tx rt = (Ok tx', rt') ->
  exists recs, Forall2 (recipient_stored id) l recs /\ tx_tables tx' = with_recipients recs (tx_tables tx).
Proof using All.
  revert tx rt. induction l as [|rc l IH]; intros tx rt; cbn [insert_recipients].
  - intros [= <- <-]. exists []. split; [constructor|]. unfold with_recipients.
    rewrite app_nil_r. by destruct (tx_tables tx).
  - destruct (time_Now rt) as [now rt1]. destruct (tx_Exec _ _ tx) as [[rid|e] tx1] eqn:Ex; [|done].
    apply exec_recipient in Ex. intros (recs & Hr & Ht)%IH. eexists (_ :: recs).
    split; [constructor; [|exact Hr]|].
    2:{ rewrite Ht, Ex. unfold with_recipients, add_recipient. simpl. by rewrite <-app_assoc. }
    by split_and!.
Qed.

(** The attachments' files: nothing else changes. *)
Lemma insert_attachments_frame id l tx fs r fs' :
  0 < id /\ in_int64 id -> Forall (fun a => plain_key (pa_ContentHash a)) l ->
  insert_attachments s id l tx fs = (r, fs') ->
  (forall b, blob_ok b -> Forall (fun a => b <> Att id (pa_ContentHash a)) l ->
     blob_get s fs' b = blob_get s fs b) /\
  (no_blob_dirs s fs -> no_blob_dirs s fs').
Proof using base_ne.
  intros [Hid Hint] Hk. revert tx fs. induction Hk as [|a l Ha Hk IH]; intros tx fs; cbn [insert_attachments].
  { by intros [= <- <-]. }
  destruct (SaveAttachment s id (pa_ContentHash a) (pa_Content a) fs) as [sr fs1] eqn:Es.
  apply SaveAttachment_spec in Es as [[Ho Hn] _]; [|done|done].
  destruct sr as [[]|e].
  2:{ intros [= <- <-]. split; [|done]. intros b Hb Hne. apply Forall_cons in Hne as [Hne _].
      by apply Ho. }
  destruct (tx_Exec _ _ tx) as [[aid|e] tx1].
  2:{ intros [= <- <-]. split; [|done]. intros b Hb Hne. apply Forall_cons in Hne as [Hne _].
      by apply Ho. }
  intros [Hf Hd]%IH. split; [|tauto]. intros b Hb Hne. apply Forall_cons in Hne as [Hne Hne'].
  rewrite Hf by done. by apply Ho.
Qed.

Definition attachment_free (t : Tables) (a : ParsedAttachment) : Prop :=
  Forall (fun x => sql_eq (a_storage_key x) (pa_ContentHash a) = false) (attachments t).

Lemma insert_attachments_ok id l tx fs tx' fs' :
  0 < id /\ in_int64 id -> Forall (fun a => plain_key (pa_ContentHash a)) l ->
  insert_attachments s id l tx fs = (Ok tx', fs') ->
  (exists atts, Forall2 (attachment_stored id) l atts /\
     tx_tables tx' = with_attachments atts (tx_tables tx)) /\
  Forall (attachment_free (tx_tables tx)) l /\ NoDup (map pa_ContentHash l) /\
  Forall (fun a => blob_get s fs' (Att id (pa_ContentHash a)) = Some (pa_Content a)) l.
Proof using All.
  intros Hid Hk. revert tx fs. induction Hk as [|a l Ha Hk IH]; intros tx fs; cbn [insert_attachments].
  { intros [= <- <-]. split_and!; [|constructor|constructor|constructor]. exists [].
    split; [constructor|]. unfold with_attachments. rewrite app_nil_r. by destruct (tx_tables tx). }
  destruct (SaveAttachment s id (pa_ContentHash a) (pa_Content a) fs) as [[[]|e] fs1] eqn:Es; [|done].
  apply SaveAttachment_spec in Es as [_ Hw]; [|done|by destruct Hid]. simpl in Hw.
  destruct (tx_Exec _ _ tx) as [[aid|e] tx1] eqn:Ex; [|done].
  apply exec_attachment in Ex as [Hfree Hadd]. intros Hrec.
  pose proof (insert_attachments_frame _ _ _ _ _ _ Hid Hk Hrec) as [Hframe _].
  apply IH in Hrec as ((atts & Hatts & Ht) & Hfr & Hnd & Hbl).
  rewrite Hadd in Hfr. unfold attachment_free, add_attachment in Hfr. simpl in Hfr.
  assert (Forall (fun x => pa_ContentHash a <> pa_ContentHash x) l) as Hne.
  { eapply Forall_impl; [exact Hfr|]. intros x Hx E. simpl in Hx. apply Forall_app in Hx as [_ Hx].
    apply Forall_cons in Hx as [Hx _]. simpl in Hx. rewrite <-E in Hx. by rewrite sql_eq_refl in Hx. }
  split_and!.
  - eexists (_ :: atts). split; [constructor; [|exact Hatts]|].
    2:{ rewrite Ht, Hadd. unfold with_attachments, add_attachment. simpl. by rewrite <-app_assoc. }
    by split_and!.
  - constructor; [done|]. eapply Forall_impl; [exact Hfr|]. intros x Hx. simpl in Hx.
    by apply Forall_app in Hx as [? _].
  - simpl. constructor; [|done]. intros (x & Ex & Hx)%list_elem_of_fmap.
    rewrite Forall_forall in Hne. by apply (Hne x).
  - constructor; [|done]. rewrite Hframe; [done|by destruct Hid|]. eapply Forall_impl; [exact Hne|].
    intros x Hx E. by injection E.
Qed.

(** The files that rows of the tables (or raw messages) refer to. *)
Definition known (t : Tables) (b : blob) : Prop :=
  match b with Raw _ => True | Att id _ => Exists (fun a => a_message_id a = id) (attachments t) end.

Record persisted (id : Z) (p : ParsedMessage) (status : string) (perr : option string)
  (t t' : Tables) (fs' : F) : Prop := mkPersisted {
  pe_stored : stored id p status perr stored_time t t';
  pe_free : Forall (attachment_free t) (Attachments p);
  pe_distinct : NoDup (map pa_ContentHash (Attachments p));
  pe_files : Forall (fun a => blob_get s fs' (Att id (pa_ContentHash a)) = Some (pa_Content a)) (Attachments p)
}.

Lemma persist_spec p status perr db fs rt r db' fs' rt' :
  Forall (fun a => plain_key (pa_ContentHash a)) (Attachments p) ->
  persist s p status perr db fs rt = (r, (db', fs', rt')) ->
  (forall b, blob_ok b -> known (tables db) b -> blob_get s fs' b = blob_get s fs b) /\
  (no_blob_dirs s fs -> no_blob_dirs s fs') /\
  ((tables db' = tables db /\ exists e, r = Err e) \/
   exists id, persisted id p status perr (tables db) (tables db') fs' /\ (r = Ok id \/ exists e, r = Err e)).
Proof using All.
  intros Hk. unfold persist. destruct (db_Begin db) as [tx|e] eqn:Eb.
  2:{ intros [= <- <- <- <-]. eauto 6. }
  apply begin_tables in Eb.
  destruct (if IsZero (MessageDate p) then _ else _) as [date rt1] eqn:Ed.
  destruct (time_Now rt1) as [now rt2].
  destruct (tx_Exec _ _ tx) as [[id|e] tx1] eqn:Em.
  2:{ intros [= <- <- <- <-]. eauto 6. }
  apply exec_message in Em as (Hid & Hint & Hf1 & Hf2 & Hf3 & Em). rewrite Eb in *.
  destruct (insert_recipients id (Recipients p) tx1 rt2) as [[tx2|e] rt3] eqn:Er.
  2:{ intros [= <- <- <- <-]. eauto 6. }
  apply insert_recipients_ok in Er as (recs & Hrecs & Er).
  destruct (insert_attachments s id (Attachments p) tx2 fs) as [ar fs1] eqn:Ea.
  pose proof (insert_attachments_frame _ _ _ _ _ _ (conj Hid Hint) Hk Ea) as [Hframe Hdirs].
  assert (forall b, blob_ok b -> known (tables db) b -> blob_get s fs1 b = blob_get s fs b) as Hkn.
  { intros b Hb Hb'. apply Hframe; [done|]. apply Forall_forall. intros a _ ->. simpl in Hb'.
    apply Exists_exists in Hb' as (x & Hx & Ex). rewrite Forall_forall in Hf3. apply Hf3 in Hx. lia. }
  destruct ar as [tx3|e].
  2:{ intros [= <- <- <- <-]. eauto 6. }
  apply insert_attachments_ok in Ea as ((atts & Hatts & Ea) & Hfree & Hnd & Hbl); [|done|done].
  destruct (tx_Exec _ _ tx3) as [[eid|e] tx4] eqn:Ee.
  2:{ intros [= <- <- <- <-]. eauto 6. }
  apply exec_event in Ee as [_ Ee].
  assert (persisted id p status perr (tables db) (tx_tables tx4) fs1) as Hp.
  { split; [|by rewrite Er, Em in Hfree|done|done]. split; [done|done|done|done|].
    do 4 eexists. split; [by rewrite Ee, Ea, Er, Em|]. split_and!; [|done|done|done].
    do 2 eexists. split; [done|]. intros Hz. rewrite Hz in Ed. by injection Ed as <- <-. }
  destruct (tx_Commit tx4 db) as [[[]|e] db1] eqn:Ec.
  - apply commit_ok in Ec. intros [= <- <- <- <-]. split_and!; [done|done|]. right. exists id.
    rewrite Ec. auto.
  - apply commit_err in Ec. intros [= <- <- <- <-]. split_and!; [done|done|].
    destruct Ec as [Ec|Ec]; [left; eauto|right]. exists id. rewrite Ec. eauto.
Qed.

(** The message that is stored carries the hash of the raw bytes. *)
Lemma parse_or_fallback_spec raw rt p status perr rt' :
  parse_or_fallback raw (HashBytes raw) rt = (p, status, perr, rt') ->
  ContentHash p = HashBytes raw /\ Forall attachment_faithful (Attachments p) /\
  match (ParseMIME raw).2 with
  | None => p = (ParseMIME raw).1 /\ status = "success"%string /\ perr = None /\ rt' = rt
  | Some e => p = (fallbackParsedMessageWithError raw (HashBytes raw) e rt).1 /\
      status = "failed"%string /\ perr = Some (error_Error e) /\ Recipients p = [] /\ Attachments p = [] /\
      TextBody p = "[Parse Error: " +:+ error_Error e +:+ "]"
  end.
Proof using H1.
  assert (HashBytes raw <> EmptyString) as Hne.
  { intros E. destruct (HashBytes_shape raw) as [Hl _]. by rewrite E in Hl. }
  unfold parse_or_fallback. destruct (ParseMIME_spec raw) as ((_ & _ & Ha) & Hh & _).
  destruct (ParseMIME raw) as [q [e|]]; simpl in *.
  - destruct (fallbackParsedMessageWithError raw (HashBytes raw) e rt) as [q' rt1] eqn:Ef.
    assert (ContentHash q' = HashBytes raw /\ Recipients q' = [] /\ Attachments q' = [] /\
      TextBody q' = "[Parse Error: " +:+ error_Error e +:+ "]") as (E1 & E2 & E3 & E4).
    { unfold fallbackParsedMessageWithError in Ef. destruct (time_Now rt) as [now rt2].
      destruct (mail_ReadMessage raw) as [[h b]|re]; [|by injection Ef as <- <-].
      destruct (ParseMediaType _) as [[mt ps] me].
      injection Ef as <- _. destruct (bool_decide (Header_get h "From" <> EmptyString)),
        (address_Parse (Header_get h "From")), (bool_decide (me = None) && _),
        (bool_decide (param ps "boundary" <> EmptyString)), (HasPrefix (ToLower mt) "text/html"),
        (fallback_html (multipart_parts (param ps "boundary") b).1),
        (0 <? slen (readFallbackBody h b)); done. }
    rewrite bool_decide_eq_false_2 by congruence. intros [= <- <- <- <-].
    split_and!; try done. rewrite E3. constructor.
  - rewrite bool_decide_eq_false_2 by congruence. by intros [= <- <- <- <-].
Qed.

Lemma isDuplicate_false h db :
  isDuplicate h db = Ok false -> Forall (fun e => sql_eq (e_content_hash e) h = false) (ingest_events (tables db)).
Proof using All.
  unfold isDuplicate, QueryRow. destruct (db_Query _ _ db) as [rs|e] eqn:Eq.
  2:{ apply query_no_rows in Eq. by rewrite Eq. }
  pose proof Eq as Hd. apply query_duplicate in Hd as (full & -> & Hpre & Hall).
  destruct (rows rs) as [|row l] eqn:Er.
  - destruct (rows_Err rs) as [e|] eqn:Ee; [by rewrite (rows_no_rows _ _ _ _ _ Eq Ee)|].
    intros _. specialize (Hall eq_refl). unfold event_ids in Hall. clear -Hall.
    induction (ingest_events (tables db)) as [|e es IH]; [constructor|].
    simpl in Hall. destruct (sql_eq (e_content_hash e) h) eqn:E; [done|]. constructor; [done|by apply IH].
  - intros Hs. exfalso. revert Hs. destruct Hpre as [k Hk].
    unfold event_ids in Hk. destruct (List.filter _ _) as [|e es]; [done|]. simpl in Hk.
    injection Hk as Hrow _. by rewrite <-Hrow.
Qed.

Lemma isDuplicate_true h db :
  isDuplicate h db = Ok true -> Exists (fun e => sql_eq (e_content_hash e) h = true) (ingest_events (tables db)).
Proof using All.
  unfold isDuplicate, QueryRow. destruct (db_Query _ _ db) as [rs|e] eqn:Eq; [|by destruct (errors_Is e _)].
  apply query_duplicate in Eq as (full & -> & Hpre & _).
  destruct (rows rs) as [|row l]; [by destruct (rows_Err rs) as [e|]; [destruct (errors_Is e _)|]|].
  intros _. destruct Hpre as [k Hk]. unfold event_ids in Hk. apply Exists_exists.
  destruct (List.filter _ _) as [|e es] eqn:Ef; [done|].
  assert (In e (e :: es)) as Hin by (by left). rewrite <-Ef in Hin. apply filter_In in Hin as [Hin He].
  exists e. split; [by apply list_elem_of_In|done].
Qed.

(** A replay: the answer to the check is never [false]. *)
Lemma isDuplicate_replay h db :
  Exists (fun e => sql_eq (e_content_hash e) h = true) (ingest_events (tables db)) ->
  isDuplicate h db <> Ok false.
Proof using All.
  intros (e & Hin & He)%Exists_exists Hf%isDuplicate_false. rewrite Forall_forall in Hf.
  specialize (Hf e Hin). congruence.
Qed.

Definition received (raw : string) (fs fs' : F) : Prop :=
  blob_get s fs' (Raw (HashBytes raw)) = Some (default raw (blob_get s fs (Raw (HashBytes raw)))).

(** What became of a message: its rows and files are complete. *)
Definition taken (raw : string) (id : Z) (p : ParsedMessage) (status : string) (perr : option string)
  (db db' : D) (fs fs' : F) : Prop :=
  persisted id p status perr (tables db) (tables db') fs' /\ received raw fs fs' /\
  Forall (fun e => sql_eq (e_content_hash e) (HashBytes raw) = false) (ingest_events (tables db)).

Lemma ingest_message_spec raw w db fs rt w' db' fs' rt' p status perr rt1 :
  no_blob_dirs s fs ->
  parse_or_fallback raw (HashBytes raw) rt = (p, status, perr, rt1) ->
  ingest_message s raw w db fs rt = (w', (db', fs', rt')) ->
  ((forall b, blob_ok b -> known (tables db) b -> b <> Raw (HashBytes raw) ->
      blob_get s fs' b = blob_get s fs b) /\
   (forall d, blob_get s fs (Raw (HashBytes raw)) = Some d -> blob_get s fs' (Raw (HashBytes raw)) = Some d) /\
   no_blob_dirs s fs') /\
  ((w' = writeJSON 200 duplicate_json w /\ (db', fs', rt') = (db, fs, rt) /\
    Exists (fun e => sql_eq (e_content_hash e) (HashBytes raw) = true) (ingest_events (tables db))) \/
   (exists id, w' = writeJSON 200 (accepted_json id) w /\ taken raw id p status perr db db' fs fs') \/
   (exists m, w' = writeJSON 500 (json_error m) w /\
      (tables db' = tables db \/ exists id, taken raw id p status perr db db' fs fs'))).
Proof using All.
  intros Hn Hp. unfold ingest_message. destruct (isDuplicate _ db) as [[]|e] eqn:Ed.
  { intros [= <- <- <- <-]. split; [done|]. left. by apply isDuplicate_true in Ed. }
  2:{ intros [= <- <- <- <-]. split; [done|]. right; right. eauto. }
  apply isDuplicate_false in Ed. rewrite Hp.
  destruct (SaveRawMIME s (HashBytes raw) raw fs) as [sr fs1] eqn:Es.
  apply SaveRawMIME_spec in Es as [[Ho Hd] Hr]; [|done|apply HashBytes_plain|done].
  assert (forall d, blob_get s fs (Raw (HashBytes raw)) = Some d -> blob_get s fs1 (Raw (HashBytes raw)) = Some d)
    as Hkeep by (intros d Hs; by rewrite Hs in Hr).
  destruct sr as [[]|e].
  2:{ intros [= <- <- <- <-]. split; [by split_and!; [intros; apply Ho|..]; auto|]. right; right. eauto. }
  destruct (parse_or_fallback_spec _ _ _ _ _ _ Hp) as (Hh & Ha & _).
  destruct (persist s p status perr db fs1 rt1) as [pr [[db1 fs2] rt2]] eqn:Epe.
  apply persist_spec in Epe as (Hfr & Hdirs & Hout).
  2:{ eapply Forall_impl; [exact Ha|]. intros a (_ & -> & _). apply HashBytes_plain. }
  assert (received raw fs fs2) as Hrec.
  { unfold received. rewrite Hfr; [|apply HashBytes_plain|done].
    by destruct (blob_get s fs (Raw (HashBytes raw))) as [d|] eqn:E; [apply Hkeep|]. }
  assert ((forall b, blob_ok b -> known (tables db) b -> b <> Raw (HashBytes raw) ->
      blob_get s fs2 b = blob_get s fs b) /\
   (forall d, blob_get s fs (Raw (HashBytes raw)) = Some d -> blob_get s fs2 (Raw (HashBytes raw)) = Some d) /\
   no_blob_dirs s fs2) as Hall.
  { split_and!; [|intros d Hs; unfold received in Hrec; by rewrite Hs in Hrec|auto].
    intros b Hb Hkn Hne. rewrite Hfr by done. by apply Ho. }
  assert ((tables db1 = tables db /\ exists e, pr = Err e) \/ exists id, taken raw id p status perr db db1 fs fs2 /\
    (pr = Ok id \/ exists e, pr = Err e)) as Hout'.
  { destruct Hout as [?|(id & ? & ?)]; [by left|right]. exists id. by split_and!. }
  clear Hout. destruct pr as [id|e]; intros [= <- <- <- <-]; (split; [done|]); right.
  - destruct Hout' as [[_ [e ?]]|(id' & Ht & [[= <-]|[e ?]])]; [done| |done]. left. eauto.
  - right. eexists. split; [done|]. destruct Hout' as [[? _]|(id' & Ht & _)]; eauto.
Qed.

Lemma writeJSON_inj st st' v v' w : writeJSON st v w = writeJSON st' v' w -> v = v'.
Proof using.
  intros E. assert (resp_body (writeJSON st v w) = resp_body (writeJSON st' v' w)) as Eb by (by rewrite E).
  revert Eb. unfold writeJSON, Write, resp_body, set_header.
  rewrite !rw_base_on_base, !rw_base_WriteHeader, !rw_base_on_base. unfold base_Write, base_WriteHeader. simpl.
  destruct (bw_sent (rw_base w)); simpl; by intros [= ?]%app_inv_head.
Qed.

(** A request that passes the checks: [raw] is read from it. *)
Definition authentic (h : IngestHandler) (r : Request) : Prop :=
  Method r = "POST"%string /\ exists c, ih_config h = Some c /\ WorkerIngestPSK c <> EmptyString /\
    Header_Get (ReqHeader r) ingestPSKHeader = WorkerIngestPSK c.

Definition admitted (h : IngestHandler) (r : Request) (raw : string) : Prop :=
  authentic h r /\ ih_db_present h = true /\ ih_storage h = Some s /\
  exists c, ih_config h = Some c /\ slen raw <= message_limit c /\
    ReadAll (LimitReader (ReqBody r) (wrap64 (message_limit c + 1))) = (raw, None).

Lemma ServeHTTP_admitted h r w db fs rt raw :
  admitted h r raw -> ServeHTTP h r w (db, fs, rt) = ingest_message s raw w db fs rt.
Proof using.
  intros ((Hm & c & Hc & Hne & Hpsk) & Hdb & Hst & c' & Hc' & Hlim & Hread).
  rewrite Hc in Hc'. injection Hc' as <-. unfold ServeHTTP, psk_equal. rewrite Hm, Hc, Hpsk, Hdb, Hst.
  rewrite bool_decide_eq_false_2 by (intros X; by apply X). rewrite bool_decide_eq_false_2 by done.
  rewrite bool_decide_eq_true_2 by done. cbn [orb negb]. rewrite Hread.
  by destruct (Z.ltb_spec (message_limit c) (slen raw)); [lia|].
Qed.

(** Every other request is answered without touching the state. *)
Lemma ServeHTTP_rejected h r w db fs rt :
  ih_storage h = Some s ->
  (exists raw, admitted h r raw) \/
  (exists st m, ServeHTTP h r w (db, fs, rt) = (writeJSON st (json_error m) w, (db, fs, rt))).
Proof using.
  intros Hs. unfold ServeHTTP, admitted, authentic.
  destruct (bool_decide (Method r <> "POST"%string)) eqn:Em; [right; eauto|].
  apply bool_decide_eq_false, dec_stable in Em.
  destruct (ih_config h) as [c|] eqn:Ec; [|right; eauto].
  destruct (bool_decide (WorkerIngestPSK c = EmptyString)) eqn:E1; [right; eauto|]. cbn [orb].
  destruct (psk_equal _ _) eqn:E2; [|right; eauto]. cbn [negb].
  destruct (ReadAll _) as [raw [e|]] eqn:Er; [right; eauto|].
  destruct (Z.ltb_spec (message_limit c) (slen raw)); [right; eauto|].
  destruct (ih_db_present h) eqn:Ed; [|right; eauto]. left. exists raw.
  apply bool_decide_eq_false in E1. apply bool_decide_eq_true in E2. eauto 12.
Qed.

(** Whatever the answer: the tables are as they were or hold one more message,
    and no file that a row refers to has changed. *)
Lemma ServeHTTP_effect h r w db fs rt w' db' fs' rt' :
  ih_storage h = Some s -> no_blob_dirs s fs ->
  ServeHTTP h r w (db, fs, rt) = (w', (db', fs', rt')) ->
  no_blob_dirs s fs' /\
  (forall b d, blob_ok b -> known (tables db) b -> blob_get s fs b = Some d -> blob_get s fs' b = Some d) /\
  (tables db' = tables db \/
   exists raw p status perr rt1 id, admitted h r raw /\
     parse_or_fallback raw (HashBytes raw) rt = (p, status, perr, rt1) /\
     taken raw id p status perr db db' fs fs').
Proof using All.
  intros Hs Hn Hrun. destruct (ServeHTTP_rejected h r w db fs rt Hs) as [[raw Had]|(st & m & Hr)].
  2:{ rewrite Hr in Hrun. injection Hrun as <- <- <- <-. auto. }
  rewrite (ServeHTTP_admitted h r w db fs rt raw Had) in Hrun.
  destruct (parse_or_fallback raw (HashBytes raw) rt) as [[[p status] perr] rt1] eqn:Ep.
  apply (ingest_message_spec _ _ _ _ _ _ _ _ _ _ _ _ _ Hn Ep) in Hrun as ((Hfr & Hraw & Hdirs) & Hout).
  split_and!; [done| |].
  - intros b d Hb Hk Hg. destruct (decide (b = Raw (HashBytes raw))) as [->|Hne]; [by apply Hraw|].
    by rewrite Hfr.
  - destruct Hout as [(_ & [= -> _ _] & _)|[(id & _ & Ht)|(m & _ & [Ht|[id Ht]])]]; [by left| |by left|];
      right; exists raw, p, status, perr, rt1, id; auto.
Qed.

(** An accepted message was admitted, is new and was taken. *)
Lemma ServeHTTP_accepted h r w db fs rt id db' fs' rt' :
  ih_storage h = Some s -> no_blob_dirs s fs ->
  ServeHTTP h r w (db, fs, rt) = (writeJSON 200 (accepted_json id) w, (db', fs', rt')) ->
  exists raw p status perr rt1, admitted h r raw /\
    parse_or_fallback raw (HashBytes raw) rt = (p, status, perr, rt1) /\
    taken raw id p status perr db db' fs fs'.
Proof using All.
  intros Hs Hn Hrun. destruct (ServeHTTP_rejected h r w db fs rt Hs) as [[raw Had]|(st & m & Hr)].
  2:{ rewrite Hr in Hrun. injection Hrun as Hw%writeJSON_inj _ _ _. done. }
  rewrite (ServeHTTP_admitted h r w db fs rt raw Had) in Hrun.
  destruct (parse_or_fallback raw (HashBytes raw) rt) as [[[p status] perr] rt1] eqn:Ep.
  apply (ingest_message_spec _ _ _ _ _ _ _ _ _ _ _ _ _ Hn Ep) in Hrun as (_ & Hout).
  destruct Hout as [(Hw & _)|[(id' & Hw & Ht)|(m & Hw & _)]]; apply writeJSON_inj in Hw; try done.
  injection Hw as <-. exists raw, p, status, perr, rt1. auto.
Qed.

Lemma taken_event raw id p status perr db db' fs fs' :
  ContentHash p = HashBytes raw -> taken raw id p status perr db db' fs fs' ->
  Exists (fun e => sql_eq (e_content_hash e) (HashBytes raw) = true) (ingest_events (tables db')).
Proof using All.
  intros Hh ([[_ _ _ _ (m & recs & atts & e & Ht & _ & _ & _ & He)] _ _ _] & _). rewrite Ht. simpl.
  apply Exists_app. right. constructor. by rewrite He, Hh, sql_eq_refl.
Qed.

Lemma taken_grows raw id p status perr db db' fs fs' (P : EventRow -> Prop) :
  taken raw id p status perr db db' fs fs' -> Exists P (ingest_events (tables db)) ->
  Exists P (ingest_events (tables db')).
Proof using.
  intros ([[_ _ _ _ (m & recs & atts & e & Ht & _)] _ _ _] & _) Hx. rewrite Ht. simpl.
  apply Exists_app. by left.
Qed.
End ingest_lemmas.

(** Requests one after the other, each with a fresh writer. *)
Fixpoint serve_all {D T F} `{UnicodeTable} `{MailLib} `{SQLDriver D T} `{FileSystem F}
  (h : IngestHandler) (rs : list Request) (st : D * F * Runtime) : D * F * Runtime :=
  match rs with [] => st | r :: rs' => serve_all h rs' (ServeHTTP h r new_writer st).2 end.

(** Every row has its file; an attachment's file is what its row says. *)
Definition consistent {F} `{FileSystemLaws F} (s : Storage) (t : Tables) (fs : F) : Prop :=
  no_blob_dirs s fs /\
  Forall (fun m => blob_ok (Raw (m_content_hash m)) /\ is_Some (blob_get s fs (Raw (m_content_hash m))))
    (messages t) /\
  Forall (fun a => blob_ok (Att (a_message_id a) (a_storage_key a)) /\
    exists d, blob_get s fs (Att (a_message_id a) (a_storage_key a)) = Some d /\
      slen d = a_size_bytes a /\ HashBytes d = a_content_hash a) (attachments t).

(** ** Properties *)

Section ingest_properties.
  Context `{UnicodeTable} `{MailLibLaws} {D T F : Type} `{SQLDriverLaws D T} `{FileSystemLaws F}.

(** A request that is not authentic is refused. *)
Lemma ServeHTTP_unauthentic h r w (st : D * F * Runtime) :
  ~ authentic h r ->
  ServeHTTP h r w st =
    (if bool_decide (Method r = "POST"%string) then writeJSON 401 (json_error "unauthorized") w
     else writeJSON 405 (json_error "method not allowed") w, st) /\
  forall b, ServeHTTP h (with_body r b) w st = ServeHTTP h r w st.
Proof.
  intros Hna. destruct st as [[db fs] rt].
  assert (forall b, ServeHTTP h (with_body r b) w (db, fs, rt) =
    (if bool_decide (Method r = "POST"%string) then writeJSON 401 (json_error "unauthorized") w
     else writeJSON 405 (json_error "method not allowed") w, (db, fs, rt))) as Hb.
  { intros b. unfold ServeHTTP. simpl. unfold authentic in Hna. rewrite bool_decide_not.
    destruct (bool_decide (Method r = _)) eqn:Em; [|done]. apply bool_decide_eq_true in Em. simpl.
    destruct (ih_config h) as [c|]; [|done].
    destruct (bool_decide (WorkerIngestPSK c = EmptyString)) eqn:E1; [done|].
    destruct (psk_equal _ _) eqn:E2; [|done]. exfalso. apply Hna.
    apply bool_decide_eq_false in E1. apply bool_decide_eq_true in E2. eauto. }
  pose proof (Hb (ReqBody r)) as Hr. replace (with_body r (ReqBody r)) with r in Hr by (by destruct r).
  split; [done|]. intros b. by rewrite Hr.
Qed.

(** An authentic request is decided by what is read of its body. *)
Lemma ServeHTTP_authentic s h r c w (db : D) (fs : F) rt o :
  authentic h r -> ih_config h = Some c -> ih_db_present h = true -> ih_storage h = Some s ->
  ReadAll (LimitReader (ReqBody r) (wrap64 (message_limit c + 1))) = o ->
  ServeHTTP h r w (db, fs, rt) =
    match o with
    | (_, Some _) => (writeJSON 400 (json_error "read request body") w, (db, fs, rt))
    | (raw, None) => if message_limit c <? slen raw
                     then (writeJSON 413 (json_error "message too large") w, (db, fs, rt))
                     else ingest_message s raw w db fs rt
    end.
Proof.
  intros (Hm & c' & Hc' & Hne & Hpsk) Hc Hdb Hst Ho. rewrite Hc in Hc'. injection Hc' as <-.
  unfold ServeHTTP, psk_equal. rewrite Hm, Hc, Hpsk, Hdb, Hst.
  rewrite bool_decide_eq_false_2 by (intros X; by apply X). rewrite bool_decide_eq_false_2 by done.
  rewrite bool_decide_eq_true_2 by done. cbn [orb negb]. by rewrite Ho.
Qed.

(** One request keeps the store consistent. *)
Lemma ServeHTTP_consistent s h r w (db : D) (fs : F) rt w' db1 fs1 rt1 :
  baseDir s <> EmptyString -> ih_storage h = Some s -> consistent s (tables db) fs ->
  ServeHTTP h r w (db, fs, rt) = (w', (db1, fs1, rt1)) -> consistent s (tables db1) fs1.
Proof.
  intros Hb Hs (Hn & Hm & Ha) Hrun.
  destruct (ServeHTTP_effect s Hb _ _ _ _ _ _ _ _ _ _ Hs Hn Hrun) as (Hn' & Hf & Ht).
  assert (forall b, known (tables db) b -> blob_ok b /\ is_Some (blob_get s fs b) -> blob_ok b /\ is_Some (blob_get s fs1 b)) as Hk.
  { intros b Hkn [Hok [d Hd]]. split; [done|]. exists d. by apply Hf. }
  assert (Forall (fun m => blob_ok (Raw (m_content_hash m)) /\ is_Some (blob_get s fs1 (Raw (m_content_hash m))))
    (messages (tables db))) as Hm1.
  { eapply Forall_impl; [exact Hm|]. intros m. by apply Hk. }
  assert (Forall (fun a => blob_ok (Att (a_message_id a) (a_storage_key a)) /\
    exists d, blob_get s fs1 (Att (a_message_id a) (a_storage_key a)) = Some d /\
      slen d = a_size_bytes a /\ HashBytes d = a_content_hash a) (attachments (tables db))) as Ha1.
  { rewrite Forall_forall in *. intros a Hin. destruct (Ha a Hin) as (Hok & d & Hd & Hsz). split; [done|].
    exists d. split; [|done]. apply Hf; [done| |done]. apply Exists_exists. by exists a. }
  split; [done|]. destruct Ht as [->|(raw & p & status & perr & rtp & id & _ & Hp & Ht & Hrec & _)]; [done|].
  destruct (parse_or_fallback_spec _ _ _ _ _ _ Hp) as (Hh & Hfa & _).
  destruct Ht as [[_ _ _ Hid (m & recs & atts & e & -> & (dt & rc & -> & _) & _ & Hatts & _)] _ _ Hfiles].
  simpl. split; apply Forall_app; (split; [done|]).
  - apply Forall_singleton. simpl. rewrite Hh. split; [apply HashBytes_plain|]. by eexists.
  - clear -Hatts Hfa Hfiles Hid. induction Hatts as [|x a l l' Hxa Hl IH]; [constructor|].
    apply Forall_cons in Hfa as [(Hsz & Hhash & _) Hfa]. apply Forall_cons in Hfiles as [Hfile Hfiles].
    constructor; [|by apply IH]. destruct Hxa as (-> & -> & _ & _ & -> & ->). rewrite Hhash in *. split.
    + split_and!; [apply Hid..|apply HashBytes_plain].
    + by exists (pa_Content x).
Qed.

(** Only the worker's key opens the ingest endpoint. A request that is not a
    POST, or whose key header is not the configured key, or any request when no
    key is configured, is answered 405 or 401 with the database, the file system
    and the runtime as they were, and the answer does not depend on the body
    (nothing of it is read). *)
Theorem ingest_requires_psk h r w (st : D * F * Runtime) :
  ~ authentic h r ->
  ServeHTTP h r w st =
    (if bool_decide (Method r = "POST"%string) then writeJSON 401 (json_error "unauthorized") w
     else writeJSON 405 (json_error "method not allowed") w, st) /\
  forall b, ServeHTTP h (with_body r b) w st = ServeHTTP h r w st.
Proof. apply ServeHTTP_unauthentic. Qed.

(** C2: An accepted message is durable. When the answer is 200 with a message
    id, the request was authentic and its body within the limit; the tables hold
    exactly one more message, under a new id, with the fields of the parse (or of
    the fallback), its recipients and attachments in order, and one more event;
    the raw bytes can be read back under their SHA-256 (unless an older file
    holds that name), and every attachment's bytes under the message's id. *)
Theorem accepted_message_is_durable s h r w (db : D) (fs : F) rt id db' fs' rt' :
  baseDir s <> EmptyString -> ih_storage h = Some s -> no_blob_dirs s fs ->
  ServeHTTP h r w (db, fs, rt) = (writeJSON 200 (accepted_json id) w, (db', fs', rt')) ->
  exists raw p status perr rt1,
    admitted s h r raw /\ parse_or_fallback raw (HashBytes raw) rt = (p, status, perr, rt1) /\
    ContentHash p = HashBytes raw /\
    stored id p status perr stored_time (tables db) (tables db') /\
    ReadRawMIME s (HashBytes raw) fs' = Ok (default raw (blob_get s fs (Raw (HashBytes raw)))) /\
    Forall (fun a => ReadAttachment s id (HashBytes (pa_Content a)) fs' = Ok (pa_Content a)) (Attachments p).
Proof.
  intros Hb Hs Hn Hrun.
  destruct (ServeHTTP_accepted s Hb _ _ _ _ _ _ _ _ _ _ Hs Hn Hrun)
    as (raw & p & status & perr & rt1 & Had & Hp & Ht & Hrec & _).
  exists raw, p, status, perr, rt1. destruct Ht as [Hst _ _ Hfiles].
  destruct (parse_or_fallback_spec _ _ _ _ _ _ Hp) as (Hh & Ha & _). split_and!; try done.
  - apply ReadRawMIME_spec; [apply HashBytes_plain|exact Hrec].
  - rewrite Forall_forall in *. intros a Hin. destruct (Ha a Hin) as (_ & E & _). rewrite <-E.
    apply ReadAttachment_spec; [|by apply Hfiles].
    split_and!; [apply Hst..|]. rewrite E. apply HashBytes_plain.
Qed.

(** C3: Ingestion is atomic. Whatever the request, the failures of the database
    and of the file system, and the answer: the tables are either as they were
    or hold one complete message more (which happens without a 200 only when the
    commit took effect and its reply was lost), and no file that a row refers to,
    and no raw message, has changed. *)
Theorem ingest_is_atomic s h r w (db : D) (fs : F) rt w' db' fs' rt' :
  baseDir s <> EmptyString -> ih_storage h = Some s -> no_blob_dirs s fs ->
  ServeHTTP h r w (db, fs, rt) = (w', (db', fs', rt')) ->
  (tables db' = tables db \/
   exists raw p status perr rt1 id, admitted s h r raw /\
     parse_or_fallback raw (HashBytes raw) rt = (p, status, perr, rt1) /\
     stored id p status perr stored_time (tables db) (tables db')) /\
  (forall b d, blob_ok b -> known (tables db) b -> blob_get s fs b = Some d -> blob_get s fs' b = Some d).
Proof.
  intros Hb Hs Hn Hrun.
  destruct (ServeHTTP_effect s Hb _ _ _ _ _ _ _ _ _ _ Hs Hn Hrun) as (_ & Hf & Ht).
  split; [|done]. destruct Ht as [?|(raw & p & status & perr & rt1 & id & Had & Hp & Ht & _)]; [by left|right].
  exists raw, p, status, perr, rt1, id. split_and!; [done|done|]. by destruct Ht.
Qed.

(** No row without its file. Every request, answered or failing at any
    point, keeps the store consistent: each message row has a raw file under its
    hash, and each attachment row has a file with the row's size and SHA-256. *)
Theorem rows_have_their_files s h rs (db : D) (fs : F) rt db' fs' rt' :
  baseDir s <> EmptyString -> ih_storage h = Some s -> consistent s (tables db) fs ->
  serve_all h rs (db, fs, rt) = (db', fs', rt') -> consistent s (tables db') fs'.
Proof.
  intros Hb Hs. revert db fs rt. induction rs as [|r rs IH]; intros db fs rt Hc; cbn [serve_all].
  { by intros [= <- <- <-]. }
  destruct (ServeHTTP h r new_writer (db, fs, rt)) as [w' [[db1 fs1] rt1]] eqn:Hrun. cbn [snd].
  apply IH. by eapply ServeHTTP_consistent.
Qed.

(** C4: A message is accepted at most once. After a request was accepted, and
    after any further requests, a request with the same body is answered
    without changing anything: as a duplicate, or with an error. In particular
    a worker that repeats a delivery whose answer it lost stores nothing twice. *)
Theorem redelivery_never_accepted_twice s h r w (db : D) (fs : F) rt id st1 rs r' w' db2 fs2 rt2 :
  baseDir s <> EmptyString -> ih_storage h = Some s -> no_blob_dirs s fs ->
  ServeHTTP h r w (db, fs, rt) = (writeJSON 200 (accepted_json id) w, st1) ->
  serve_all h rs st1 = (db2, fs2, rt2) -> ReqBody r' = ReqBody r ->
  exists status v, ServeHTTP h r' w' (db2, fs2, rt2) = (writeJSON status v w', (db2, fs2, rt2)) /\
    (v = duplicate_json \/ exists m, v = json_error m).
Proof.
  intros Hb Hs Hn Hrun Hall Hbody. destruct st1 as [[db1 fs1] rt1].
  destruct (ServeHTTP_accepted s Hb _ _ _ _ _ _ _ _ _ _ Hs Hn Hrun) as (raw & p & status & perr & rtp & Had & Hp & Ht).
  destruct (ServeHTTP_effect s Hb _ _ _ _ _ _ _ _ _ _ Hs Hn Hrun) as (Hn1 & _).
  destruct (parse_or_fallback_spec _ _ _ _ _ _ Hp) as (Hh & _).
  apply (taken_event s) in Ht; [|done..].
  assert (Exists (fun e => sql_eq (e_content_hash e) (HashBytes raw) = true) (ingest_events (tables db2))) as Hev.
  { clear -H1 Hb Hs Hall Hn1 Ht. revert db1 fs1 rt1 Hn1 Ht Hall.
    induction rs as [|r rs IH]; intros db fs rt Hn Hev; cbn [serve_all]; [by intros [= <- _ _]|].
    destruct (ServeHTTP h r new_writer (db, fs, rt)) as [w1 [[db1 fs1] rt1]] eqn:Hrun. cbn [snd].
    destruct (ServeHTTP_effect s Hb _ _ _ _ _ _ _ _ _ _ Hs Hn Hrun) as (Hn' & _ & Ht). apply IH; [done|].
    destruct Ht as [->|(? & ? & ? & ? & ? & ? & _ & _ & Ht)]; [done|]. by eapply taken_grows. }
  destruct (ServeHTTP_rejected s h r' w' db2 fs2 rt2 Hs) as [[raw' Had']|(st & m & Hr)]; [|eauto 6].
  rewrite (ServeHTTP_admitted s _ _ _ _ _ _ _ Had').
  assert (raw' = raw) as ->.
  { destruct Had as (_ & _ & _ & c & Hc & _ & Hread), Had' as (_ & _ & _ & c' & Hc' & _ & Hread').
    rewrite Hc in Hc'. injection Hc' as <-. rewrite Hbody, Hread in Hread'. by injection Hread'. }
  apply (isDuplicate_replay s) in Hev; [|done]. unfold ingest_message.
  destruct (isDuplicate _ db2) as [[]|e]; [by eauto|done|by eauto 6].
Qed.

(** C29: The same attachment is never stored twice. The storage key of an
    attachment is the hash of its content, and the table's keys are unique over
    all messages: so a message with an attachment whose content some stored
    message has already, or that two of its own attachments share, is not
    accepted, now or at any retry, and the tables stay as they are. *)
Theorem identical_attachment_rejected s h r w (db : D) (fs : F) rt raw w' db' fs' rt' :
  baseDir s <> EmptyString -> no_blob_dirs s fs -> admitted s h r raw ->
  (ParseMIME raw).2 = None ->
  Exists (fun a => Exists (fun x => sql_eq (a_storage_key x) (HashBytes (pa_Content a)) = true)
                     (attachments (tables db))) (Attachments (ParseMIME raw).1) \/
  ~ NoDup (map pa_Content (Attachments (ParseMIME raw).1)) ->
  ServeHTTP h r w (db, fs, rt) = (w', (db', fs', rt')) ->
  (forall id, w' <> writeJSON 200 (accepted_json id) w) /\ tables db' = tables db.
Proof.
  intros Hb Hn Had Hok Hdup Hrun. rewrite (ServeHTTP_admitted s _ _ _ _ _ _ _ Had) in Hrun.
  destruct (parse_or_fallback raw (HashBytes raw) rt) as [[[p status] perr] rt1] eqn:Hp.
  destruct (ingest_message_spec s Hb _ _ _ _ _ _ _ _ _ _ _ _ _ Hn Hp Hrun) as (_ & Hout).
  destruct (parse_or_fallback_spec _ _ _ _ _ _ Hp) as (_ & Ha & Hpar). rewrite Hok in Hpar.
  destruct Hpar as (Ep & _). rewrite <-Ep in Hdup.
  assert (forall id, ~ taken s raw id p status perr db db' fs fs') as Hnot.
  { intros id ([_ Hfree Hnd _] & _). destruct Hdup as [Hx|Hx].
    - apply Exists_exists in Hx as (a & Hin & Hx). apply Exists_exists in Hx as (x & Hx & Heq).
      rewrite Forall_forall in Ha, Hfree. destruct (Ha a Hin) as (_ & Eh & _).
      specialize (Hfree a Hin). unfold attachment_free in Hfree. rewrite Forall_forall in Hfree.
      specialize (Hfree x Hx). rewrite Eh in Hfree. congruence.
    - apply Hx. clear -Hnd Ha. induction Ha as [|a l (_ & Ea & _) Hl IH]; simpl in *; [constructor|].
      apply NoDup_cons in Hnd as [Hnin Hnd]. constructor; [|by apply IH].
      intros (x & Ex & Hx)%list_elem_of_fmap. apply Hnin, list_elem_of_fmap. exists x. split; [|done].
      rewrite Forall_forall in Hl. destruct (Hl x Hx) as (_ & Eh & _). by rewrite Eh, <-Ex. }
  destruct Hout as [(-> & [= -> _ _] & _)|[(id & _ & Ht)|(m & -> & [Ht|[id Ht]])]];
    [|by apply Hnot in Ht| |by apply Hnot in Ht]; split; try done; intros id E; by apply writeJSON_inj in E.
Qed.

(** The size limit. With a limit below the largest [int64], a longer body is
    answered 413 (or 400 if reading it fails first) without touching the state,
    and a body up to the limit is taken whole. With [MAX_MESSAGE_BYTES] equal to
    the largest [int64] the addition of one wraps around: every body, whatever
    it holds, is taken as the empty message. *)
Theorem ingest_size_limit s h r c w (db : D) (fs : F) rt :
  authentic h r -> ih_config h = Some c -> ih_db_present h = true -> ih_storage h = Some s ->
  (message_limit c < max_int64 ->
   (message_limit c < slen (body_bytes (ReqBody r)) ->
      ServeHTTP h r w (db, fs, rt) = (writeJSON 413 (json_error "message too large") w, (db, fs, rt))) /\
   (slen (body_bytes (ReqBody r)) <= message_limit c -> body_error (ReqBody r) = None ->
      ServeHTTP h r w (db, fs, rt) = ingest_message s (body_bytes (ReqBody r)) w db fs rt) /\
   (slen (body_bytes (ReqBody r)) <= message_limit c -> body_error (ReqBody r) <> None ->
      ServeHTTP h r w (db, fs, rt) = (writeJSON 400 (json_error "read request body") w, (db, fs, rt)))) /\
  (message_limit c = max_int64 -> ServeHTTP h r w (db, fs, rt) = ingest_message s EmptyString w db fs rt).
Proof.
  intros Hau Hc Hdb Hst.
  assert (0 < message_limit c) as Hpos by (unfold message_limit; destruct (Z.leb_spec (MaxMessageBytes c) 0); lia).
  rewrite (ServeHTTP_authentic s h r c w db fs rt _ Hau Hc Hdb Hst eq_refl). unfold LimitReader, ReadAll. split.
  - intros Hlt. rewrite wrap64_id by (unfold in_int64, min_int64; lia).
    destruct (Z.leb_spec (message_limit c + 1) (slen (body_bytes (ReqBody r)))) as [Hle|Hgt]; simpl.
    + rewrite (proj2 (Z.ltb_lt _ _)); [split_and!; [done|lia|lia]|].
      unfold slen in *. rewrite stake_length; lia.
    + split_and!; [lia| |].
      * intros _ ->. by rewrite (proj2 (Z.ltb_ge _ _)) by lia.
      * intros _. by destruct (body_error (ReqBody r)).
  - intros ->. change (wrap64 (max_int64 + 1)) with min_int64.
    rewrite (proj2 (Z.leb_le _ _)); [done|]. unfold slen, min_int64. lia.
Qed.

(** A stored message is visible to its recipients and to nobody else. After
    a message is accepted, the users who may see it are exactly those whose
    address is one of the parsed recipients. *)
Theorem accepted_message_visible_to_recipients s h r w (db : D) (fs : F) rt id db' fs' rt' :
  baseDir s <> EmptyString -> ih_storage h = Some s -> no_blob_dirs s fs ->
  ServeHTTP h r w (db, fs, rt) = (writeJSON 200 (accepted_json id) w, (db', fs', rt')) ->
  exists raw p status perr rt1 m,
    admitted s h r raw /\ parse_or_fallback raw (HashBytes raw) rt = (p, status, perr, rt1) /\
    messages (tables db') = messages (tables db) ++ [m] /\ m_id m = id /\
    forall email, visible sql_eq email (tables db') m =
                  existsb (fun rc => sql_eq (rc_Email rc) email) (Recipients p).
Proof.
  intros Hb Hs Hn Hrun.
  destruct (ServeHTTP_accepted s Hb _ _ _ _ _ _ _ _ _ _ Hs Hn Hrun)
    as (raw & p & status & perr & rt1 & Had & Hp & Ht & _).
  destruct Ht as [Hst _ _ _]. pose proof Hst as [_ Hfr _ _ (m & recs & atts & e & Ht & (dt & rc & Hm & _) & Hrecs & _)].
  exists raw, p, status, perr, rt1, m. rewrite Ht. split_and!; [done|done|done|by subst m|].
  intros email. unfold visible. simpl. rewrite existsb_app.
  assert (existsb (fun x => (r_message_id x =? m_id m) && sql_eq (r_recipient_email x) email)
    (message_recipients (tables db)) = false) as ->.
  { apply existsb_false_Forall. eapply Forall_impl; [exact Hfr|]. intros x Hx. subst m. simpl in *.
    by destruct (Z.eqb_spec (r_message_id x) id); [lia|]. }
  cbn [orb]. subst m. cbn [m_id]. clear -Hrecs. induction Hrecs as [|a x l l' (E1 & E2 & _) Hl IH]; [done|].
  simpl. by rewrite E1, E2, Z.eqb_refl, IH.
Qed.

(** C28: A message that cannot be parsed is kept, but out of its recipients'
    sight: if the parser fails on an admitted message that is then accepted, its
    row has status [failed], the parser's error and a text that quotes it, and no
    user but an administrator may see it. *)
Theorem unparseable_message_is_kept_hidden s h r w (db : D) (fs : F) rt raw e id db' fs' rt' :
  baseDir s <> EmptyString -> no_blob_dirs s fs -> admitted s h r raw ->
  (ParseMIME raw).2 = Some e ->
  ServeHTTP h r w (db, fs, rt) = (writeJSON 200 (accepted_json id) w, (db', fs', rt')) ->
  exists m, messages (tables db') = messages (tables db) ++ [m] /\ m_id m = id /\
    m_parser_status m = "failed"%string /\ m_parser_error m = Some (error_Error e) /\
    m_text_body m = Some ("[Parse Error: " +:+ error_Error e +:+ "]")%string /\
    ReadRawMIME s (HashBytes raw) fs' = Ok (default raw (blob_get s fs (Raw (HashBytes raw)))) /\
    forall email, visible sql_eq email (tables db') m = false.
Proof.
  intros Hb Hn Had He Hrun. rewrite (ServeHTTP_admitted s _ _ _ _ _ _ _ Had) in Hrun.
  destruct (parse_or_fallback raw (HashBytes raw) rt) as [[[p status] perr] rt1] eqn:Hp.
  destruct (ingest_message_spec s Hb _ _ _ _ _ _ _ _ _ _ _ _ _ Hn Hp Hrun) as (_ & Hout).
  destruct (parse_or_fallback_spec _ _ _ _ _ _ Hp) as (_ & _ & Hpar). rewrite He in Hpar.
  destruct Hpar as (_ & Hstatus & Hperr & Hnorec & _ & Htext).
  destruct Hout as [(Hw & _)|[(id' & Hw & Ht)|(m & Hw & _)]]; apply writeJSON_inj in Hw; try done.
  injection Hw as <-. destruct Ht as ([Hst _ _ _] & Hrec & _).
  pose proof Hst as [_ Hfr _ _ (m & recs & atts & ev & Ht & (dt & rc & Hm & _) & Hrecs & _)].
  exists m. rewrite Ht, Hnorec in *. apply Forall2_nil_inv_l in Hrecs as ->. rewrite Hstatus, Hperr, Htext in Hm.
  split_and!; [done|by subst m..| |].
  - apply ReadRawMIME_spec; [apply HashBytes_plain|exact Hrec].
  - intros email. unfold visible. simpl. rewrite app_nil_r. apply existsb_false_Forall.
    eapply Forall_impl; [exact Hfr|]. intros x Hx. subst m. simpl in *.
    by destruct (Z.eqb_spec (r_message_id x) id); [lia|].
Qed.
End ingest_properties.

(** ** The theorems at concrete inputs *)

#[local] Existing Instance Small.lib.
#[local] Existing Instance Small.lib_laws.
#[local] Existing Instance unicode_latin.

Module IngestDemo.
Definition store : Storage := mkStorage "./data".
Definition cfg : Config := mkConfig "" "./data" "" 1000 "" 24 "" "" "key" "" "".
Definition h : IngestHandler := NewIngestHandler true (Some store) (Some cfg).
Definition post (psk raw : string) : Request :=
  mkRequest "POST" "/ingest" [] (Header_Set empty_header ingestPSKHeader psk) [] "10.0.0.1:4711"
    (slen raw) (mkBody raw None) [] [].
Definition rt0 : Runtime := mkRuntime (fun n => Z.of_nat n * Second) 0 (fun _ => None) 0.
Definition db0 : MemDB := mkMemDB no_tables (fun _ => false) false.
Definition fs0 : MemFS := mem_new (fun _ => None).
Definition run (raw : string) (db : MemDB) : ResponseWriter * (MemDB * MemFS * Runtime) :=
  ServeHTTP h (post "key" raw) new_writer (db, fs0, rt0).
Definition db1 (raw : string) : MemDB := (run raw db0).2.1.1.
Definition fs1 (raw : string) : MemFS := (run raw db0).2.1.2.
Definition rt1 (raw : string) : Runtime := (run raw db0).2.2.

(** A message whose multipart body has no boundary. *)
Definition broken : string :=
  "From: a@b.c" +:+ Small.nl +:+ "To: bob@example.com" +:+ Small.nl +:+
  "Content-Type: multipart/mixed" +:+ Small.nl +:+ Small.nl +:+ "text".

(** The attachment of the sample is stored already. *)
Definition db_dup : MemDB :=
  mkMemDB (mkTables [] [] [mkAttachmentRow 1 1 (HashBytes "%PDF-1.4") None "application/pdf" 8
    (HashBytes "%PDF-1.4")] []) (fun _ => false) false.

Definition both : list Request := [post "key" Small.sample; post "key" broken].
Definition two : MemDB * MemFS * Runtime := serve_all h both (db0, fs0, rt0).

Lemma split_state {A B C} (X : A * B * C) : X = (X.1.1, X.1.2, X.2).
Proof. by destruct X as [[? ?] ?]. Qed.

Lemma two_eq : serve_all h both (db0, fs0, rt0) = (two.1.1, two.1.2, two.2).
Proof. exact (split_state two). Qed.

Lemma split_result {A B C E} (X : A * (B * C * E)) a : X.1 = a -> X = (a, (X.2.1.1, X.2.1.2, X.2.2)).
Proof. destruct X as [? [[? ?] ?]]. simpl. by intros ->. Qed.

Definition refused := run Small.sample db_dup.
Definition db_after : MemDB := refused.2.1.1.

Lemma sample_parses : (ParseMIME Small.sample).2 = None.
Proof. by vm_compute. Qed.

Definition pdf : ParsedAttachment :=
  mkParsedAttachment "%PDF-1.4" "application/pdf" "r.pdf" 8 (HashBytes "%PDF-1.4").

Lemma sample_attachment : Attachments (ParseMIME Small.sample).1 = [pdf].
Proof. vm_compute. reflexivity. Qed.

Lemma pdf_stored :
  Exists (fun x => sql_eq (a_storage_key x) (HashBytes (pa_Content pdf)) = true) (attachments (tables db_dup)).
Proof. constructor. apply sql_eq_refl. Qed.

Lemma sample_duplicates :
  Exists (fun a => Exists (fun x => sql_eq (a_storage_key x) (HashBytes (pa_Content a)) = true)
    (attachments (tables db_dup))) (Attachments (ParseMIME Small.sample).1).
Proof. rewrite sample_attachment. constructor. exact pdf_stored. Qed.

Lemma run_sample :
  run Small.sample db0 = (writeJSON 200 (accepted_json 1) new_writer,
    (db1 Small.sample, fs1 Small.sample, rt1 Small.sample)).
Proof. refine (split_result (run Small.sample db0) _ _). vm_compute. reflexivity. Qed.

Lemma run_broken :
  run broken db0 = (writeJSON 200 (accepted_json 1) new_writer, (db1 broken, fs1 broken, rt1 broken)).
Proof. refine (split_result (run broken db0) _ _). vm_compute. reflexivity. Qed.

Lemma base_ne : baseDir store <> EmptyString.
Proof. done. Qed.

Lemma files_ok : no_blob_dirs store fs0.
Proof. intros b _. simpl. set_solver. Qed.

Lemma start_consistent : consistent store (tables db0) fs0.
Proof. split; [exact files_ok|]. split; constructor. Qed.

Lemma post_authentic raw : authentic h (post "key" raw).
Proof. split; [done|]. exists cfg. split_and!; [done|done|by vm_compute]. Qed.

Lemma post_admitted raw : slen raw <= 1000 -> admitted store h (post "key" raw) raw.
Proof.
  intros Hlen. split; [apply post_authentic|]. split_and!; [done|done|]. exists cfg. split_and!; [done|exact Hlen|].
  change (wrap64 _) with 1001. unfold LimitReader. simpl. by destruct (Z.leb_spec 1001 (slen raw)); [lia|].
Qed.
Lemma sample_admitted : admitted store h (post "key" Small.sample) Small.sample.
Proof. apply post_admitted. by vm_compute. Qed.

Lemma broken_admitted : admitted store h (post "key" broken) broken.
Proof. apply post_admitted. by vm_compute. Qed.

Lemma broken_fails : (ParseMIME broken).2 = Some (EText "multipart message missing boundary").
Proof. by vm_compute. Qed.
End IngestDemo.

Lemma ingest_requires_psk_witness :
  let r := IngestDemo.post "guess" Small.sample in
  let st := (IngestDemo.db0, IngestDemo.fs0, IngestDemo.rt0) in
  ServeHTTP IngestDemo.h r new_writer st
  = (writeJSON 401 (json_error "unauthorized") new_writer, st).
Proof.
  refine (proj1 (ingest_requires_psk _ (IngestDemo.post "guess" Small.sample) _ _ _)).
  intros [_ (c & Hc & _ & X)]. injection Hc as <-. vm_compute in X. discriminate X.
Defined.

Lemma accepted_message_is_durable_witness :
  exists raw p status perr,
    stored 1 p status perr stored_time no_tables (tables (IngestDemo.db1 Small.sample)) /\
    ReadRawMIME IngestDemo.store (HashBytes raw) (IngestDemo.fs1 Small.sample) = Ok raw.
Proof.
  destruct (accepted_message_is_durable IngestDemo.store IngestDemo.h _ _ _ _ _ _ _ _ _ IngestDemo.base_ne eq_refl
    IngestDemo.files_ok IngestDemo.run_sample) as (raw & p & status & perr & rt1 & _ & _ & _ & Hst & Hr & _).
  exists raw, p, status, perr. by split.
Defined.

Lemma ingest_is_atomic_witness :
  tables (IngestDemo.db1 Small.sample) = no_tables \/
  exists raw p status perr rt id,
    admitted IngestDemo.store IngestDemo.h (IngestDemo.post "key" Small.sample) raw /\
    parse_or_fallback raw (HashBytes raw) IngestDemo.rt0 = (p, status, perr, rt) /\
    stored id p status perr stored_time no_tables (tables (IngestDemo.db1 Small.sample)).
Proof.
  exact (proj1 (ingest_is_atomic IngestDemo.store IngestDemo.h _ _ _ _ _ _ _ _ _ IngestDemo.base_ne eq_refl
    IngestDemo.files_ok IngestDemo.run_sample)).
Defined.

Lemma rows_have_their_files_witness :
  consistent IngestDemo.store (tables IngestDemo.two.1.1) IngestDemo.two.1.2.
Proof.
  exact (rows_have_their_files IngestDemo.store IngestDemo.h IngestDemo.both IngestDemo.db0 IngestDemo.fs0
    IngestDemo.rt0 IngestDemo.two.1.1 IngestDemo.two.1.2 IngestDemo.two.2 IngestDemo.base_ne eq_refl
    IngestDemo.start_consistent IngestDemo.two_eq).
Defined.

Lemma redelivery_never_accepted_twice_witness :
  exists status v st, ServeHTTP IngestDemo.h (IngestDemo.post "key" Small.sample)
    new_writer st = (writeJSON status v new_writer, st) /\ (v = duplicate_json \/ exists m, v = json_error m).
Proof.
  destruct (redelivery_never_accepted_twice IngestDemo.store IngestDemo.h (IngestDemo.post "key" Small.sample) new_writer
    IngestDemo.db0 IngestDemo.fs0 IngestDemo.rt0 1 _ [] (IngestDemo.post "key" Small.sample) new_writer _ _ _
    IngestDemo.base_ne eq_refl IngestDemo.files_ok IngestDemo.run_sample eq_refl eq_refl) as (status & v & E & Hv).
  eauto.
Defined.

Lemma identical_attachment_rejected_witness :
  tables IngestDemo.db_after = tables IngestDemo.db_dup.
Proof.
  exact (proj2 (identical_attachment_rejected IngestDemo.store IngestDemo.h (IngestDemo.post "key" Small.sample)
    new_writer IngestDemo.db_dup IngestDemo.fs0 IngestDemo.rt0 Small.sample _ IngestDemo.db_after _ _
    IngestDemo.base_ne IngestDemo.files_ok IngestDemo.sample_admitted IngestDemo.sample_parses
    (or_introl IngestDemo.sample_duplicates) (IngestDemo.split_result IngestDemo.refused _ eq_refl))).
Defined.

Lemma ingest_size_limit_witness :
  let st := (IngestDemo.db0, IngestDemo.fs0, IngestDemo.rt0) in
  let h := NewIngestHandler true (Some IngestDemo.store) (Some (mkConfig "" "" "" 5 "" 24 "" "" "key" "" "")) in
  ServeHTTP h (IngestDemo.post "key" "From: a@b.c") new_writer st
  = (writeJSON 413 (json_error "message too large") new_writer, st).
Proof.
  cbv zeta. apply (ingest_size_limit IngestDemo.store _ _ (mkConfig "" "" "" 5 "" 24 "" "" "key" "" "")).
  - split; [done|]. eexists. split_and!; [reflexivity|done|by vm_compute].
  - done.
  - done.
  - done.
  - by vm_compute.
  - by vm_compute.
Defined.

Lemma accepted_message_visible_to_recipients_witness :
  exists p m, messages (mem_tables (IngestDemo.db1 Small.sample)) = [m] /\
    forall email, visible mem_eq email (mem_tables (IngestDemo.db1 Small.sample)) m =
                  existsb (fun rc => mem_eq (rc_Email rc) email) (Recipients p).
Proof.
  destruct (accepted_message_visible_to_recipients IngestDemo.store IngestDemo.h _ _ _ _ _ _ _ _ _ IngestDemo.base_ne eq_refl
    IngestDemo.files_ok IngestDemo.run_sample) as (raw & p & status & perr & rt1 & m & _ & _ & Hm & _ & Hv).
  exists p, m. by split.
Defined.

Lemma unparseable_message_is_kept_hidden_witness :
  exists m, messages (mem_tables (IngestDemo.db1 IngestDemo.broken)) = [m] /\ m_parser_status m = "failed"%string /\
    forall email, visible mem_eq email (mem_tables (IngestDemo.db1 IngestDemo.broken)) m = false.
Proof.
  destruct (unparseable_message_is_kept_hidden IngestDemo.store IngestDemo.h _ _ _ _ _ IngestDemo.broken
    (EText "multipart message missing boundary") _ _ _ _ IngestDemo.base_ne IngestDemo.files_ok
    IngestDemo.broken_admitted IngestDemo.broken_fails IngestDemo.run_broken)
    as (m & Hm & _ & Hs & _ & _ & _ & Hv).
  exists m. by split_and!.
Defined.
