(* ===== verification/Concurrent.v ===== *)
(** * Deliveries at the same time (internal/ingest/handler.go)

    net/http runs every request on a goroutine of its own, so that two
    deliveries interleave at each call to the database and the file system. Here
    the ingest handler is written as the sequence of those calls; run by itself
    it is [Ingest.ServeHTTP]; and any number of them run together over one
    database and one file system, in any order. *)

From S2P Require Export Ingest.

Open Scope Z_scope.

(** ** Programs: a tree of calls *)

Inductive call : Type -> Type :=
  | CQuery (q : string) (args : list sqlval) : call (result Rows)
  | CBegin : call (result unit)
  | CExec (q : string) (args : list sqlval) : call (result Z)
  | CCommit : call (result unit)
  | CStat (path : string) : call (result unit)
  | CMkdirAll (path : string) : call (result unit)
  | CWriteFile (path data : string) : call (result unit)
  | CNow : call Z.

Inductive prog (A : Type) : Type :=
  | Ret (a : A)
  | Call {R : Type} (c : call R) (k : R -> prog A).
Arguments Ret {A} a.
Arguments Call {A R} c k.

Fixpoint prog_bind {A B} (f : A -> prog B) (p : prog A) : prog B :=
  match p with Ret a => f a | Call c k => Call c (fun r => prog_bind f (k r)) end.
#[export] Instance prog_mret : MRet prog := fun A a => Ret a.
#[export] Instance prog_mbind : MBind prog := fun A B f p => prog_bind f p.

Definition perform {R} (c : call R) : prog R := Call c (fun r => Ret r).

(** ** storage.go *)

Definition SaveRawMIME_prog (s : Storage) (contentHash data : string) : prog (result unit) :=
  match validateKey contentHash with
  | Some e => Ret (Err e)
  | None =>
      let path := path_Join [baseDir s; "raw"%string; contentHash] in
      r ← perform (CStat path);
      match r with
      | Ok _ => Ret (Ok tt)
      | Err e =>
          if negb (os_IsNotExist e) then Ret (Err (EWrap "stat raw MIME" e))
          else
            r ← perform (CMkdirAll (Dir path));
            match r with
            | Err e => Ret (Err (EWrap "create raw MIME directory" e))
            | Ok _ =>
                r ← perform (CWriteFile path data);
                match r with
                | Err e => Ret (Err (EWrap "write raw MIME" e))
                | Ok _ => Ret (Ok tt)
                end
            end
      end
  end.

Definition SaveAttachment_prog (s : Storage) (messageID : Z) (safeKey data : string) : prog (result unit) :=
  if messageID <=? 0 then Ret (Err (EText "message ID must be positive"))
  else
  match validateKey safeKey with
  | Some e => Ret (Err e)
  | None =>
      let dir := path_Join [baseDir s; "attachments"%string; FormatInt messageID] in
      r ← perform (CMkdirAll dir);
      match r with
      | Err e => Ret (Err (EWrap "create attachment directory" e))
      | Ok _ =>
          r ← perform (CWriteFile (path_Join [dir; safeKey]) data);
          match r with
          | Err e => Ret (Err (EWrap "write attachment" e))
          | Ok _ => Ret (Ok tt)
          end
      end
  end.

(** ** handler.go *)

Section programs.
Context `{UnicodeTable} `{MailLib}.

Definition isDuplicate_prog (contentHash : string) : prog (result bool) :=
  r ← perform (CQuery sql_duplicate [VStr contentHash]);
  Ret (match r with
       | Err e => if errors_Is e ErrNoRows then Ok false else Err e
       | Ok rs =>
           match rows rs with
           | [] => match rows_Err rs with
                   | Some e => if errors_Is e ErrNoRows then Ok false else Err e
                   | None => Ok false
                   end
           | row :: _ => match scan_id row with
                         | Ok _ => Ok true
                         | Err e => if errors_Is e ErrNoRows then Ok false else Err e
                         end
           end
       end).

Fixpoint insert_recipients_prog (messageID : Z) (l : list Recipient) : prog (result unit) :=
  match l with
  | [] => Ret (Ok tt)
  | recipient :: l' =>
      now ← perform CNow;
      r ← perform (CExec sql_insert_recipient
            [VInt messageID; VStr (rc_Email recipient); VStr (rc_Type recipient); VTime now]);
      match r with
      | Err e => Ret (Err e)
      | Ok _ => insert_recipients_prog messageID l'
      end
  end.

Fixpoint insert_attachments_prog (storage : Storage) (messageID : Z) (l : list ParsedAttachment)
  : prog (result unit) :=
  match l with
  | [] => Ret (Ok tt)
  | attachment :: l' =>
      let safeKey := pa_ContentHash attachment in
      r ← SaveAttachment_prog storage messageID safeKey (pa_Content attachment);
      match r with
      | Err e => Ret (Err e)
      | Ok _ =>
          r ← perform (CExec sql_insert_attachment
                [VInt messageID; VStr safeKey; nullable (nullableString (pa_OriginalFilename attachment));
                 VStr (pa_MimeType attachment); VInt (pa_Size attachment); VStr (pa_ContentHash attachment)]);
          match r with
          | Err e => Ret (Err e)
          | Ok _ => insert_attachments_prog storage messageID l'
          end
      end
  end.

(** The transaction is the thread's own: an error before the commit leaves it
    to be rolled back. *)
Definition persist_prog (storage : Storage) (parsed : ParsedMessage) (parserStatus : string)
  (parserError : option string) : prog (result Z) :=
  r ← perform CBegin;
  match r with
  | Err e => Ret (Err e)
  | Ok _ =>
      messageDate ← (if IsZero (MessageDate parsed) then perform CNow else Ret (MessageDate parsed));
      let rawPath := "raw/" +:+ ContentHash parsed in
      now ← perform CNow;
      r ← perform (CExec sql_insert_message
            [VStr (ContentHash parsed); VStr (ContentHash parsed); VStr (Sender parsed); VStr (Subject parsed);
             VTime messageDate; VTime now; VStr (TextBody parsed); VStr (HTMLBody parsed); VStr rawPath;
             VStr parserStatus; nullable parserError]);
      match r with
      | Err e => Ret (Err e)
      | Ok messageID =>
          r ← insert_recipients_prog messageID (Recipients parsed);
          match r with
          | Err e => Ret (Err e)
          | Ok _ =>
              r ← insert_attachments_prog storage messageID (Attachments parsed);
              match r with
              | Err e => Ret (Err e)
              | Ok _ =>
                  r ← perform (CExec sql_insert_event [VStr (ContentHash parsed); VStr (ContentHash parsed)]);
                  match r with
                  | Err e => Ret (Err e)
                  | Ok _ =>
                      r ← perform CCommit;
                      match r with
                      | Err e => Ret (Err e)
                      | Ok _ => Ret (Ok messageID)
                      end
                  end
              end
          end
      end
  end.

(** A runtime whose clock reads [now]. *)
Definition frozen (now : Z) : Runtime := mkRuntime (fun _ => now) 0 (fun _ => None) 0.

Definition parse_or_fallback_prog (raw contentHash : string) : prog (ParsedMessage * string * option string) :=
  match (ParseMIME raw).2 with
  | None => Ret (parse_or_fallback raw contentHash (frozen 0)).1
  | Some _ => now ← perform CNow; Ret (parse_or_fallback raw contentHash (frozen now)).1
  end.

Definition ingest_prog (storage : Storage) (raw : string) (w : ResponseWriter) : prog ResponseWriter :=
  let contentHash := HashBytes raw in
  r ← isDuplicate_prog contentHash;
  match r with
  | Err _ => Ret (writeJSON 500 (json_error "check duplicate") w)
  | Ok true => Ret (writeJSON 200 duplicate_json w)
  | Ok false =>
      '(parsed, parserStatus, parserError) ← parse_or_fallback_prog raw contentHash;
      r ← SaveRawMIME_prog storage contentHash raw;
      match r with
      | Err _ => Ret (writeJSON 500 (json_error "save raw MIME") w)
      | Ok _ =>
          r ← persist_prog storage parsed parserStatus parserError;
          match r with
          | Err _ => Ret (writeJSON 500 (json_error "persist message") w)
          | Ok messageID => Ret (writeJSON 200 (accepted_json messageID) w)
          end
      end
  end.

Definition ServeHTTP_prog (h : IngestHandler) (r : Request) (w : ResponseWriter) : prog ResponseWriter :=
  if bool_decide (Method r <> "POST"%string) then Ret (writeJSON 405 (json_error "method not allowed") w)
  else
  match ih_config h with
  | None => Ret (writeJSON 401 (json_error "unauthorized") w)
  | Some c =>
      if bool_decide (WorkerIngestPSK c = EmptyString)
         || negb (psk_equal (Header_Get (ReqHeader r) ingestPSKHeader) (WorkerIngestPSK c)) then
        Ret (writeJSON 401 (json_error "unauthorized") w)
      else
        let limit := message_limit c in
        match ReadAll (LimitReader (ReqBody r) (wrap64 (limit + 1))) with
        | (_, Some _) => Ret (writeJSON 400 (json_error "read request body") w)
        | (raw, None) =>
            if limit <? slen raw then Ret (writeJSON 413 (json_error "message too large") w)
            else
              match ih_db_present h, ih_storage h with
              | true, Some storage => ingest_prog storage raw w
              | _, _ => Ret (writeJSON 500 (json_error "ingest dependencies unavailable") w)
              end
        end
  end.
End programs.

(** ** What a call does *)

(** A database that several transactions use: [T] is what one transaction has
    done so far, [D] what they share. *)
Class SharedSQL (D T : Type) := {
  sh_Query : string -> list sqlval -> D -> result Rows;
  sh_Begin : D -> result T * D;
  sh_Exec : string -> list sqlval -> T -> D -> result Z * T * D;
  sh_Commit : T -> D -> result unit * D
}.

Definition ErrTxDone : error := ESentinel "sql.ErrTxDone" "sql: transaction has already been committed or rolled back".

Section calls.
Context {D T F : Type} `{SharedSQL D T} `{FileSystem F}.

(** The shared world, and the thread's own transaction. *)
Definition do_call {R} (c : call R) (db : D) (fs : F) (rt : Runtime) (tx : option T)
  : R * (D * F * Runtime) * option T :=
  match c in call R return R * (D * F * Runtime) * option T with
  | CQuery q args => (sh_Query q args db, (db, fs, rt), tx)
  | CBegin =>
      match sh_Begin db with
      | (Ok t, db) => (Ok tt, (db, fs, rt), Some t)
      | (Err e, db) => (Err e, (db, fs, rt), None)
      end
  | CExec q args =>
      match tx with
      | None => (Err ErrTxDone, (db, fs, rt), None)
      | Some t => let '(r, t, db) := sh_Exec q args t db in (r, (db, fs, rt), Some t)
      end
  | CCommit =>
      match tx with
      | None => (Err ErrTxDone, (db, fs, rt), None)
      | Some t => let '(r, db) := sh_Commit t db in (r, (db, fs, rt), None)
      end
  | CStat p => (os_Stat p fs, (db, fs, rt), tx)
  | CMkdirAll p => let '(r, fs) := os_MkdirAll p fs in (r, (db, fs, rt), tx)
  | CWriteFile p d => let '(r, fs) := os_WriteFile p d fs in (r, (db, fs, rt), tx)
  | CNow => let '(now, rt) := time_Now rt in (now, (db, fs, rt), tx)
  end.

(** A program by itself. *)
Fixpoint run_alone {A} (p : prog A) (db : D) (fs : F) (rt : Runtime) (tx : option T)
  : A * (D * F * Runtime) * option T :=
  match p with
  | Ret a => (a, (db, fs, rt), tx)
  | Call c k => let '(r, (db, fs, rt), tx) := do_call c db fs rt tx in run_alone (k r) db fs rt tx
  end.

Lemma run_bind {A B} (p : prog A) (f : A -> prog B) db fs rt tx :
  run_alone (p ≫= f) db fs rt tx =
  let '(a, (db, fs, rt), tx) := run_alone p db fs rt tx in run_alone (f a) db fs rt tx.
Proof.
  revert db fs rt tx. induction p as [a|R c k IH]; intros db fs rt tx; [done|]. simpl.
  destruct (do_call c db fs rt tx) as [[r [[db' fs'] rt']] tx']. apply IH.
Qed.

Lemma run_perform {A R} (c : call R) (f : R -> prog A) db fs rt tx :
  run_alone (perform c ≫= f) db fs rt tx =
  let '(r, (db, fs, rt), tx) := do_call c db fs rt tx in run_alone (f r) db fs rt tx.
Proof. done. Qed.
End calls.

(** *** Alone, the program is the handler *)

(** One transaction at a time: the interface of [Sql]. *)
Definition one_at_a_time {D T} `{SQLDriver D T} : SharedSQL D T := {|
  sh_Query := db_Query;
  sh_Begin d := (db_Begin d, d);
  sh_Exec q args t d := (tx_Exec q args t, d);
  sh_Commit := tx_Commit
|}.

Section alone.
Context `{UnicodeTable} `{MailLib} {D T F : Type} `{SQLDriver D T} `{FileSystem F}.
#[local] Existing Instance one_at_a_time.
Implicit Types (db : D) (fs : F) (tx : option T).

Lemma SaveRawMIME_alone s h d db fs rt tx :
  run_alone (SaveRawMIME_prog s h d) db fs rt tx =
  let '(r, fs) := SaveRawMIME s h d fs in (r, (db, fs, rt), tx).
Proof.
  unfold SaveRawMIME_prog, SaveRawMIME. destruct (validateKey h) as [e|]; [done|].
  simpl. destruct (os_Stat _ fs) as [[]|e]; [done|]. destruct (negb _); [done|].
  simpl. destruct (os_MkdirAll _ fs) as [[[]|e1] fs1]; [|done]. simpl. by destruct (os_WriteFile _ d fs1) as [[[]|e2] fs2].
Qed.

Lemma SaveAttachment_alone s id k d db fs rt tx :
  run_alone (SaveAttachment_prog s id k d) db fs rt tx =
  let '(r, fs) := SaveAttachment s id k d fs in (r, (db, fs, rt), tx).
Proof.
  unfold SaveAttachment_prog, SaveAttachment. destruct (id <=? 0); [done|]. destruct (validateKey k) as [e|]; [done|].
  simpl. destruct (os_MkdirAll _ fs) as [[[]|e] fs1]; [|done]. simpl. by destruct (os_WriteFile _ d fs1) as [[[]|e] fs2].
Qed.

Lemma isDuplicate_alone h db fs rt tx :
  run_alone (isDuplicate_prog h) db fs rt tx = (isDuplicate h db, (db, fs, rt), tx).
Proof.
  unfold isDuplicate_prog, isDuplicate, QueryRow. rewrite run_perform. simpl. do 2 f_equal.
  change sql_duplicate with "SELECT id FROM ingest_events WHERE content_hash = ? LIMIT 1"%string.
  destruct (db_Query _ _ db) as [rs|e]; [|done].
  destruct (rows rs) as [|row l]; [by destruct (rows_Err rs)|by destruct (scan_id row)].
Qed.

Lemma insert_recipients_alone id l db fs rt t :
  exists t', run_alone (insert_recipients_prog id l) db fs rt (Some t) =
    (match (insert_recipients id l t rt).1 with Ok _ => Ok tt | Err e => Err e end,
     (db, fs, (insert_recipients id l t rt).2), Some t') /\
    forall t2, (insert_recipients id l t rt).1 = Ok t2 -> t' = t2.
Proof.
  revert rt t. induction l as [|rc l IH]; intros rt t.
  { exists t. split; [done|]. by intros t2 [= <-]. }
  cbn [insert_recipients insert_recipients_prog]. rewrite run_perform. cbn [do_call].
  destruct (time_Now rt) as [now rt1]. rewrite run_perform. cbn [do_call sh_Exec one_at_a_time].
  change sql_insert_recipient with "INSERT INTO message_recipients (message_id, recipient_email, recipient_type, received_at) VALUES (?, ?, ?, ?)"%string.
  destruct (tx_Exec _ _ t) as [[rid|e] t1]; [apply IH|]. by exists t1.
Qed.

Lemma insert_attachments_alone s id l db fs rt t :
  exists t', run_alone (insert_attachments_prog s id l) db fs rt (Some t) =
    (match (insert_attachments s id l t fs).1 with Ok _ => Ok tt | Err e => Err e end,
     (db, (insert_attachments s id l t fs).2, rt), Some t') /\
    forall t2, (insert_attachments s id l t fs).1 = Ok t2 -> t' = t2.
Proof.
  revert fs t. induction l as [|a l IH]; intros fs t.
  { exists t. split; [done|]. by intros t2 [= <-]. }
  cbn [insert_attachments insert_attachments_prog]. rewrite run_bind, SaveAttachment_alone.
  destruct (SaveAttachment _ _ _ _ fs) as [[[]|e] fs1]; [|by exists t].
  rewrite run_perform. cbn [do_call sh_Exec one_at_a_time].
  change sql_insert_attachment with "INSERT INTO attachments (message_id, storage_key, original_filename, mime_type, size_bytes, content_hash) VALUES (?, ?, ?, ?, ?, ?)"%string.
  destruct (tx_Exec _ _ t) as [[rid|e] t1]; [apply IH|]. by exists t1.
Qed.

Lemma persist_alone s p status perr db fs rt tx :
  (run_alone (persist_prog s p status perr) db fs rt tx).1 = persist s p status perr db fs rt.
Proof.
  unfold persist_prog, persist. rewrite run_perform. cbn [do_call sh_Begin one_at_a_time].
  destruct (db_Begin db) as [t|e]; [|done]. rewrite run_bind.
  destruct (if IsZero (MessageDate p) then time_Now rt else _) as [date rt1] eqn:Ed.
  assert (run_alone (if IsZero (MessageDate p) then perform CNow else Ret (MessageDate p)) db fs rt (Some t) =
    (date, (db, fs, rt1), Some t)) as ->.
  { unfold time_Now in Ed. destruct (IsZero _); by injection Ed as <- <-. }
  rewrite run_perform. cbn [do_call]. destruct (time_Now rt1) as [now rt2].
  rewrite run_perform. cbn [do_call sh_Exec one_at_a_time].
  unfold sql_insert_message.
  destruct (tx_Exec _ _ t) as [[id|e] t1]; [|done].
  rewrite run_bind. destruct (insert_recipients_alone id (Recipients p) db fs rt2 t1) as (t2 & -> & Hr).
  destruct (insert_recipients _ _ _ _) as [[t2'|e] rt3]; cbn [fst snd] in *; [|done]. rewrite (Hr _ eq_refl).
  rewrite run_bind. destruct (insert_attachments_alone s id (Attachments p) db fs rt3 t2') as (t3 & -> & Ha).
  destruct (insert_attachments _ _ _ _ _) as [[t3'|e] fs1]; cbn [fst snd] in *; [|done]. rewrite (Ha _ eq_refl).
  rewrite run_perform. cbn [do_call sh_Exec one_at_a_time].
  change sql_insert_event with "INSERT INTO ingest_events (cloudflare_message_id, content_hash, status) VALUES (?, ?, 'accepted')"%string.
  destruct (tx_Exec _ _ t3') as [[eid|e] t4]; [|done].
  rewrite run_perform. cbn [do_call sh_Commit one_at_a_time]. by destruct (tx_Commit t4 db) as [[[]|e] db1].
Qed.

(** The parse reads the clock once, and only when it falls back. *)
Lemma parse_alone raw h db fs rt tx :
  run_alone (parse_or_fallback_prog raw h) db fs rt tx =
  ((parse_or_fallback raw h rt).1, (db, fs, (parse_or_fallback raw h rt).2), tx).
Proof.
  unfold parse_or_fallback_prog, parse_or_fallback. destruct (ParseMIME raw) as [p [e|]]; simpl; [|done].
  unfold fallbackParsedMessageWithError, time_Now, frozen. simpl.
  destruct (mail_ReadMessage raw) as [[header body]|e']; simpl; [|done].
  by destruct (ParseMediaType _) as [[mt ps] me].
Qed.

Lemma ServeHTTP_alone h r w db fs rt tx :
  (run_alone (ServeHTTP_prog h r w) db fs rt tx).1 = ServeHTTP h r w (db, fs, rt).
Proof.
  unfold ServeHTTP_prog, ServeHTTP. destruct (bool_decide _); [done|]. destruct (ih_config h) as [c|]; [|done].
  destruct (_ || _); [done|]. destruct (ReadAll _) as [raw [e|]]; [done|]. destruct (_ <? _); [done|].
  destruct (ih_db_present h); [|done]. destruct (ih_storage h) as [s|]; [|done].
  unfold ingest_prog, ingest_message. rewrite run_bind, isDuplicate_alone.
  destruct (isDuplicate _ db) as [[]|e]; [done| |done]. rewrite run_bind, parse_alone.
  destruct (parse_or_fallback _ _ rt) as [[[p status] perr] rt1]. cbn [fst snd].
  rewrite run_bind, SaveRawMIME_alone. destruct (SaveRawMIME _ _ _ fs) as [[[]|e] fs1]; [|done].
  rewrite run_bind. pose proof (persist_alone s p status perr db fs1 rt1 tx) as E.
  destruct (run_alone (persist_prog _ _ _ _) db fs1 rt1 tx) as [[pr [[db2 fs2] rt2]] tx2]. cbn [fst] in E.
  rewrite <-E. by destruct pr.
Qed.
End alone.

(** ** Many at once *)

(** A request in progress: what its goroutine has still to do. *)
Record handling (T : Type) := mkHandling { hd_req : Request; hd_prog : prog ResponseWriter; hd_tx : option T }.
Arguments mkHandling {T} _ _ _.
Arguments hd_req {T} _.
Arguments hd_prog {T} _.
Arguments hd_tx {T} _.

(** [mc_torn]: some write to a file has failed so far. *)
Record machine (D T F : Type) := mkMachine {
  mc_db : D; mc_fs : F; mc_rt : Runtime; mc_torn : bool; mc_running : gmap nat (handling T)
}.
Arguments mkMachine {D T F} _ _ _ _ _.
Arguments mc_db {D T F} _.
Arguments mc_fs {D T F} _.
Arguments mc_rt {D T F} _.
Arguments mc_torn {D T F} _.
Arguments mc_running {D T F} _.

Definition write_failed {R} (c : call R) : R -> bool :=
  match c in call R return R -> bool with
  | CWriteFile _ _ => fun r => negb (is_ok r)
  | _ => fun _ => false
  end.

(** A new request arrives, or a request in progress makes its next call. *)
Inductive turn := Arrives (i : nat) (r : Request) | Runs (i : nat).

Section machine.
Context `{UnicodeTable} `{MailLib} {D T F : Type} `{SharedSQL D T} `{FileSystem F}.

Definition take_turn (h : IngestHandler) (e : turn) (m : machine D T F) : machine D T F :=
  match e with
  | Arrives i r =>
      match mc_running m !! i with
      | Some _ => m
      | None => mkMachine (mc_db m) (mc_fs m) (mc_rt m) (mc_torn m)
                  (<[i := mkHandling r (ServeHTTP_prog h r new_writer) None]> (mc_running m))
      end
  | Runs i =>
      match mc_running m !! i with
      | Some (mkHandling r (Call c k) tx) =>
          let '(x, (db, fs, rt), tx) := do_call c (mc_db m) (mc_fs m) (mc_rt m) tx in
          mkMachine db fs rt (mc_torn m || write_failed c x) (<[i := mkHandling r (k x) tx]> (mc_running m))
      | _ => m
      end
  end.

Definition take_turns (h : IngestHandler) (es : list turn) (m : machine D T F) : machine D T F :=
  foldl (fun m e => take_turn h e m) m es.

Definition idle (db : D) (fs : F) (rt : Runtime) : machine D T F := mkMachine db fs rt false ∅.
End machine.

(** ** What the shared database promises *)

Definition join_tables (t u : Tables) : Tables :=
  mkTables (messages t ++ messages u) (message_recipients t ++ message_recipients u)
    (attachments t ++ attachments u) (ingest_events t ++ ingest_events u).

(** The same rows, in whatever order. *)
#[export] Instance same_rows : Equiv Tables := fun t u =>
  messages t ≡ₚ messages u /\ message_recipients t ≡ₚ message_recipients u /\
  attachments t ≡ₚ attachments u /\ ingest_events t ≡ₚ ingest_events u.

#[export] Instance same_rows_equivalence : Equivalence (≡@{Tables}).
Proof.
  split; [intros t|intros t u (? & ? & ? & ?)|intros t u v (? & ? & ? & ?) (? & ? & ? & ?)];
    split_and!; first [done|by symmetry|by etrans].
Qed.

#[export] Instance join_tables_proper : Proper ((≡) ==> (≡) ==> (≡)) join_tables.
Proof.
  intros t t' (E1 & E2 & E3 & E4) u u' (E1' & E2' & E3' & E4').
  unfold join_tables, equiv, same_rows. simpl. by rewrite E1, E2, E3, E4, E1', E2', E3', E4'.
Qed.

Lemma join_tables_assoc t u v : join_tables t (join_tables u v) = join_tables (join_tables t u) v.
Proof. unfold join_tables. simpl. by rewrite !app_assoc. Qed.
Lemma join_tables_comm t u : join_tables t u ≡ join_tables u t.
Proof. split_and!; simpl; apply Permutation_app_comm. Qed.
Lemma join_tables_nil t : join_tables t no_tables = t.
Proof. destruct t. unfold join_tables. simpl. by rewrite !app_nil_r. Qed.

(** No two rows are related, wherever they stand. *)
Definition distinct {A} (same : A -> A -> bool) (l : list A) : Prop :=
  forall x y l', l ≡ₚ x :: y :: l' -> same x y = false.

(** The primary key of the messages and the two UNIQUE indexes. *)
Definition unique_rows (eq : string -> string -> bool) (t : Tables) : Prop :=
  distinct (fun x y => m_id x =? m_id y) (messages t) /\
  distinct (fun x y => eq (a_storage_key x) (a_storage_key y)) (attachments t) /\
  distinct (fun x y => eq (e_cloudflare_message_id x) (e_cloudflare_message_id y)
                       && eq (e_content_hash x) (e_content_hash y)) (ingest_events t).

(** The four INSERT statements, with their arguments, and the row of each. *)
Inductive insertion :=
  | InsMessage (cf h sender subject : string) (date received : Z) (text html path status : string) (perr : option string)
  | InsRecipient (mid : Z) (email type : string) (received : Z)
  | InsAttachment (mid : Z) (key : string) (name : option string) (mime : string) (size : Z) (h : string)
  | InsEvent (cf h : string).

Definition ins_text (i : insertion) : string :=
  match i with
  | InsMessage _ _ _ _ _ _ _ _ _ _ _ => sql_insert_message
  | InsRecipient _ _ _ _ => sql_insert_recipient
  | InsAttachment _ _ _ _ _ _ => sql_insert_attachment
  | InsEvent _ _ => sql_insert_event
  end.
Definition ins_args (i : insertion) : list sqlval :=
  match i with
  | InsMessage cf h sender subject date received text html path status perr =>
      [VStr cf; VStr h; VStr sender; VStr subject; VTime date; VTime received; VStr text; VStr html; VStr path;
       VStr status; nullable perr]
  | InsRecipient mid email type received => [VInt mid; VStr email; VStr type; VTime received]
  | InsAttachment mid key name mime size h => [VInt mid; VStr key; nullable name; VStr mime; VInt size; VStr h]
  | InsEvent cf h => [VStr cf; VStr h]
  end.
Definition ins_apply (round : Z -> Z) (id : Z) (i : insertion) (t : Tables) : Tables :=
  match i with
  | InsMessage cf h sender subject date received text html path status perr =>
      add_message (mkMessage id cf h sender (Some subject) (round date) (round received) (Some text) (Some html)
        path status perr) t
  | InsRecipient mid email type received => add_recipient (mkRecipientRow id mid email type (round received)) t
  | InsAttachment mid key name mime size h => add_attachment (mkAttachmentRow id mid key name mime size h) t
  | InsEvent cf h => add_event (mkEvent id cf h "accepted") t
  end.

(** A transaction sees and changes only its own rows until it commits; a commit
    adds them all or none, and not against a unique index. *)
Class SharedSQLLaws (D T : Type) `{SharedSQL D T} := {
  sh_tables : D -> Tables;
  sh_added : T -> Tables;
  sh_eq : string -> string -> bool;
  sh_round : Z -> Z;
  sh_eq_same : forall s, sh_eq s s = true;
  sh_begins : forall d r d', sh_Begin d = (r, d') ->
    sh_tables d' = sh_tables d /\ forall t, r = Ok t -> sh_added t = no_tables;
  sh_apart : forall q args t d r t' d', sh_Exec q args t d = (r, t', d') -> sh_tables d' = sh_tables d;
  sh_inserts : forall i t d id t' d', sh_Exec (ins_text i) (ins_args i) t d = (Ok id, t', d') ->
    0 < id /\ in_int64 id /\ sh_added t' = ins_apply sh_round id i (sh_added t);
  sh_commits : forall t d r d', sh_Commit t d = (r, d') ->
    (sh_tables d' = sh_tables d /\ r <> Ok tt) \/
    (sh_tables d' ≡ join_tables (sh_tables d) (sh_added t) /\ unique_rows sh_eq (sh_tables d'))
}.

(** ** Reasoning about one program among others *)

(** What a program knows for itself: the rows of its open transaction, the rows
    it has committed, and files that exist. Other programs change none of it. *)
Record local := mkLocal { lo_tx : option Tables; lo_done : option Tables; lo_blobs : list blob }.
Definition know (b : blob) (x : local) : local := mkLocal (lo_tx x) (lo_done x) (b :: lo_blobs x).

(** A raw message is filed under its hash. *)
Definition good_file (b : blob) (d : string) : Prop :=
  match b with Raw k => HashBytes d = k | Att _ _ => True end.

Section wp.
Variables (s : Storage) (round : Z -> Z).

(** What may be committed, with what is known to exist. *)
Variable G : Tables -> list blob -> Prop.

(** [P] holds of whatever the call returns, in company: its weakest precondition. *)
Definition call_wp {R} (c : call R) (x : local) : (R -> local -> Prop) -> Prop :=
  match c in call R return (R -> local -> Prop) -> Prop with
  | CQuery _ _ => fun P => forall r, P r x
  | CBegin => fun P =>
      P (Ok tt) (mkLocal (Some no_tables) (lo_done x) (lo_blobs x)) /\
      forall e, P (Err e) (mkLocal None (lo_done x) (lo_blobs x))
  | CExec q args => fun P => exists i t, q = ins_text i /\ args = ins_args i /\ lo_tx x = Some t /\
      (forall id, 0 < id -> in_int64 id -> P (Ok id) (mkLocal (Some (ins_apply round id i t)) (lo_done x) (lo_blobs x))) /\
      (forall e t', P (Err e) (mkLocal (Some t') (lo_done x) (lo_blobs x)))
  | CCommit => fun P => exists t, lo_tx x = Some t /\ lo_done x = None /\ G t (lo_blobs x) /\
      P (Ok tt) (mkLocal None (Some t) (lo_blobs x)) /\
      (forall e, P (Err e) (mkLocal None None (lo_blobs x)) /\ P (Err e) (mkLocal None (Some t) (lo_blobs x)))
  | CStat p => fun P => (exists b, blob_ok b /\ p = blob_path s b /\ P (Ok tt) (know b x)) /\ forall e, P (Err e) x
  | CMkdirAll p => fun P => store_dir p s /\ forall r, P r x
  | CWriteFile p d => fun P =>
      (exists b, blob_ok b /\ p = blob_path s b /\ good_file b d /\ P (Ok tt) (know b x)) /\ forall e, P (Err e) x
  | CNow => fun P => forall t, P t x
  end.

Fixpoint wp {A} (p : prog A) (x : local) (Q : A -> local -> Prop) : Prop :=
  match p with Ret a => Q a x | Call c k => call_wp c x (fun r x' => wp (k r) x' Q) end.

Lemma call_wp_mono {R} (c : call R) x (P P' : R -> local -> Prop) :
  (forall r x, P r x -> P' r x) -> call_wp c x P -> call_wp c x P'.
Proof using Type.
  intros HP. destruct c; simpl.
  - auto.
  - intros [? ?]. auto.
  - intros (i & t & ? & ? & ? & ? & ?). exists i, t. auto 10.
  - intros (t & ? & ? & ? & ? & He). exists t. split_and!; auto. intros e. destruct (He e). auto.
  - intros [(b & ? & ? & ?) ?]. split; [exists b|]; auto.
  - intros [? ?]. auto.
  - intros [(b & ? & ? & ? & ?) ?]. split; [exists b|]; auto.
  - auto.
Qed.

Lemma wp_mono {A} (p : prog A) x (Q Q' : A -> local -> Prop) :
  (forall a x, Q a x -> Q' a x) -> wp p x Q -> wp p x Q'.
Proof using Type.
  intros HQ. revert x. induction p as [a|R c k IH]; intros x; simpl; [auto|].
  apply call_wp_mono. intros r x'. apply IH.
Qed.

Lemma wp_bind {A B} (p : prog A) (f : A -> prog B) x Q :
  wp p x (fun a x' => wp (f a) x' Q) -> wp (p ≫= f) x Q.
Proof using Type.
  revert x. induction p as [a|R c k IH]; intros x; simpl; [done|]. apply call_wp_mono. intros r x'. apply IH.
Qed.

Lemma wp_perform {A R} (c : call R) (f : R -> prog A) x Q :
  call_wp c x (fun r x' => wp (f r) x' Q) -> wp (perform c ≫= f) x Q.
Proof using Type. done. Qed.
End wp.

(** *** The handler's program *)

(** The rows that one message adds. *)
Definition complete `{UnicodeTable} `{MailLib} (round : Z -> Z) (raw : string) (id : Z) (t : Tables) : Prop :=
  exists rt p status perr rt', parse_or_fallback raw (HashBytes raw) rt = (p, status, perr, rt') /\
    stored id p status perr round no_tables t /\
    Forall (fun e => e_cloudflare_message_id e = HashBytes raw) (ingest_events t).

(** What a request admits is read from it. *)
Lemma admitted_unique s h r raw raw' : admitted s h r raw -> admitted s h r raw' -> raw = raw'.
Proof.
  intros (_ & _ & _ & c & Hc & _ & E) (_ & _ & _ & c' & Hc' & _ & E'). rewrite Hc in Hc'. injection Hc' as <-.
  rewrite E in E'. by injection E'.
Qed.

Section handler_wp.
Context `{UnicodeTable} `{MailLibLaws} (s : Storage) (base_ne : baseDir s <> EmptyString) (round : Z -> Z)
  (h : IngestHandler) (h_storage : ih_storage h = Some s).

(** A request may commit the rows of its own message, once its file is there. *)
Definition claim (r : Request) (t : Tables) (bs : list blob) : Prop :=
  exists raw id, admitted s h r raw /\ complete round raw id t /\ Raw (HashBytes raw) ∈ bs.

(** The reply tells what was committed; an error may hide it. *)
Definition outcome (r : Request) (w' : ResponseWriter) (x : local) : Prop :=
  match lo_done x with
  | None => forall id, w' <> writeJSON 200 (accepted_json id) new_writer
  | Some t => exists raw id, admitted s h r raw /\ complete round raw id t /\
      (w' = writeJSON 200 (accepted_json id) new_writer \/ exists m, w' = writeJSON 500 (json_error m) new_writer)
  end.

Notation wp := (wp s round).

Lemma SaveRawMIME_wp G raw x (Q : result unit -> local -> Prop) :
  Q (Ok tt) (know (Raw (HashBytes raw)) x) -> (forall e, Q (Err e) x) ->
  wp G (SaveRawMIME_prog s (HashBytes raw) raw) x Q.
Proof using base_ne.
  intros Hok Herr. unfold SaveRawMIME_prog. rewrite plain_key_valid by apply HashBytes_plain.
  change (path_Join [baseDir s; "raw"%string; HashBytes raw]) with (blob_path s (Raw (HashBytes raw))).
  assert (blob_ok (Raw (HashBytes raw))) as Hb by apply HashBytes_plain.
  apply wp_perform. simpl. split; [by exists (Raw (HashBytes raw))|]. intros e.
  destruct (negb _); [apply Herr|]. simpl. split; [left; by apply Dir_raw_path|].
  intros [[]|e1]; [|apply Herr]. simpl. split; [by exists (Raw (HashBytes raw))|]. intros e2. apply Herr.
Qed.

Lemma SaveAttachment_wp G id k d x (Q : result unit -> local -> Prop) :
  blob_ok (Att id k) -> Q (Ok tt) (know (Att id k) x) -> (forall e, Q (Err e) x) ->
  wp G (SaveAttachment_prog s id k d) x Q.
Proof using base_ne.
  intros Hb Hok Herr. pose proof Hb as (Hid & _ & Hk). unfold SaveAttachment_prog.
  rewrite (proj2 (Z.leb_gt _ _)) by lia. rewrite plain_key_valid by done. rewrite attachment_path by done.
  apply wp_perform. simpl. split; [right; right; eauto|].
  intros [[]|e1]; [|apply Herr]. simpl. split; [by exists (Att id k)|]. intros e2. apply Herr.
Qed.

Lemma insert_recipients_wp G id l t bs (Q : result unit -> local -> Prop) :
  (forall recs, Forall2 (recipient_stored id) l recs -> Q (Ok tt) (mkLocal (Some (with_recipients recs t)) None bs)) ->
  (forall e x, lo_done x = None -> Q (Err e) x) ->
  wp G (insert_recipients_prog id l) (mkLocal (Some t) None bs) Q.
Proof using Type.
  revert t Q. induction l as [|rc l IH]; intros t Q Hok Herr.
  - simpl. specialize (Hok [] ltac:(constructor)). unfold with_recipients in Hok. rewrite app_nil_r in Hok. by destruct t.
  - cbn [insert_recipients_prog]. apply wp_perform. simpl. intros now.
    exists (InsRecipient id (rc_Email rc) (rc_Type rc) now), t. split_and!; [done..| |by intros; apply Herr].
    intros rid _ _. apply IH; [|done]. intros recs Hrecs. simpl.
    specialize (Hok (mkRecipientRow rid id (rc_Email rc) (rc_Type rc) (round now) :: recs)).
    unfold with_recipients, add_recipient in *. simpl in *. rewrite <-app_assoc. simpl.
    apply Hok. by constructor.
Qed.

Lemma insert_attachments_wp G id l t bs (Q : result unit -> local -> Prop) :
  0 < id -> in_int64 id -> Forall (fun a => plain_key (pa_ContentHash a)) l ->
  (forall atts bs', Forall2 (attachment_stored id) l atts -> bs ⊆ bs' ->
     Q (Ok tt) (mkLocal (Some (with_attachments atts t)) None bs')) ->
  (forall e x, lo_done x = None -> Q (Err e) x) ->
  wp G (insert_attachments_prog s id l) (mkLocal (Some t) None bs) Q.
Proof using base_ne.
  intros Hid Hint Hl. revert t bs Q. induction Hl as [|a l Ha Hl IH]; intros t bs Q Hok Herr.
  - simpl. specialize (Hok [] bs ltac:(constructor) ltac:(done)). unfold with_attachments in Hok.
    rewrite app_nil_r in Hok. by destruct t.
  - cbn [insert_attachments_prog]. apply wp_bind, SaveAttachment_wp; [done| |by intros; apply Herr].
    apply wp_perform. simpl.
    exists (InsAttachment id (pa_ContentHash a) (nullableString (pa_OriginalFilename a)) (pa_MimeType a) (pa_Size a)
      (pa_ContentHash a)), t.
    split_and!; [done..| |by intros; apply Herr]. intros aid _ _. apply IH; [|done]. intros atts bs' Hatts Hbs. simpl.
    specialize (Hok (mkAttachmentRow aid id (pa_ContentHash a) (nullableString (pa_OriginalFilename a)) (pa_MimeType a)
      (pa_Size a) (pa_ContentHash a) :: atts) bs').
    unfold with_attachments, add_attachment in *. simpl in *. rewrite <-app_assoc. simpl.
    apply Hok; [by constructor; [split_and!|]|]. intros b Hb. apply Hbs. by right.
Qed.

Lemma stored_alone id p status perr date received recs atts eid :
  0 < id -> in_int64 id -> (IsZero (MessageDate p) = false -> date = MessageDate p) ->
  Forall2 (recipient_stored id) (Recipients p) recs -> Forall2 (attachment_stored id) (Attachments p) atts ->
  stored id p status perr round no_tables
    (ins_apply round eid (InsEvent (ContentHash p) (ContentHash p)) (with_attachments atts (with_recipients recs
      (ins_apply round id (InsMessage (ContentHash p) (ContentHash p) (Sender p) (Subject p) date received (TextBody p)
        (HTMLBody p) ("raw/" +:+ ContentHash p) status perr) no_tables)))).
Proof using Type.
  intros Hid Hint Hd Hrecs Hatts. split; [constructor..|done|]. do 4 eexists. split; [reflexivity|].
  split_and!; [|done|done|done]. exists date, (round received). by split.
Qed.

Lemma persist_wp raw rt p status perr rt' r bs (Q : result Z -> local -> Prop) :
  admitted s h r raw -> parse_or_fallback raw (HashBytes raw) rt = (p, status, perr, rt') -> Raw (HashBytes raw) ∈ bs ->
  (forall id t bs', complete round raw id t -> Q (Ok id) (mkLocal None (Some t) bs')) ->
  (forall e x, lo_done x = None -> Q (Err e) x) ->
  (forall e id t bs', complete round raw id t -> Q (Err e) (mkLocal None (Some t) bs')) ->
  wp (claim r) (persist_prog s p status perr) (mkLocal None None bs) Q.
Proof using base_ne H1.
  intros Had Hp Hraw Hok Herr Hlost. unfold persist_prog.
  destruct (parse_or_fallback_spec _ _ _ _ _ _ Hp) as (Hh & Ha & _).
  apply wp_perform. split; [|intros; by apply Herr]. apply wp_bind.
  assert (forall (P : Z -> Prop), (forall date, (IsZero (MessageDate p) = false -> date = MessageDate p) -> P date) ->
    wp (claim r) (if IsZero (MessageDate p) then perform CNow else Ret (MessageDate p)) (mkLocal (Some no_tables) None bs)
      (fun a x => P a /\ x = mkLocal (Some no_tables) None bs)) as Hdate.
  { intros P HP. destruct (IsZero _); simpl; [|by split; [apply HP|]]. intros now. split; [by apply HP|done]. }
  eapply wp_mono; [|exact (Hdate (fun date => IsZero (MessageDate p) = false -> date = MessageDate p) ltac:(done))].
  intros date x [Hd ->]. clear Hdate. apply wp_perform. simpl. intros now.
  exists (InsMessage (ContentHash p) (ContentHash p) (Sender p) (Subject p) date now (TextBody p)
        (HTMLBody p) ("raw/" +:+ ContentHash p) status perr), no_tables.
  split_and!; [done..| |by intros; apply Herr]. intros id Hid Hint.
  apply wp_bind, insert_recipients_wp; [|by intros; apply Herr]. intros recs Hrecs.
  apply wp_bind, insert_attachments_wp; [done|done| | |by intros; apply Herr].
  { eapply Forall_impl; [exact Ha|]. intros a (_ & -> & _). apply HashBytes_plain. }
  intros atts bs' Hatts Hbs. apply wp_perform. simpl. eexists (InsEvent _ _), _.
  split_and!; [reflexivity..| |by intros; apply Herr]. intros eid _ _.
  set (t := ins_apply _ _ _ _).
  assert (complete round raw id t) as Hc.
  { exists rt, p, status, perr, rt'. split; [done|]. split; [by apply stored_alone|]. simpl. rewrite Hh. by repeat constructor. }
  exists t. split_and!; [done..| | |].
  - exists raw, id. split_and!; [done|done|by apply Hbs].
  - by apply Hok.
  - intros e. split; [by apply Herr|by eapply Hlost].
Qed.

Lemma parse_wp G raw x (Q : ParsedMessage * string * option string -> local -> Prop) :
  (forall rt p status perr rt', parse_or_fallback raw (HashBytes raw) rt = (p, status, perr, rt') -> Q (p, status, perr) x) ->
  wp G (parse_or_fallback_prog raw (HashBytes raw)) x Q.
Proof using Type.
  intros HQ. unfold parse_or_fallback_prog.
  assert (forall rt, Q (parse_or_fallback raw (HashBytes raw) rt).1 x) as HQ'.
  { intros rt. destruct (parse_or_fallback raw (HashBytes raw) rt) as [[[p status] perr] rt'] eqn:E. by eapply HQ. }
  destruct (ParseMIME raw).2; simpl; [intros t|]; apply HQ'.
Qed.

Lemma ingest_wp r raw :
  admitted s h r raw -> wp (claim r) (ingest_prog s raw new_writer) (mkLocal None None []) (outcome r).
Proof using base_ne H1.
  intros Had. unfold ingest_prog. apply wp_bind.
  assert (forall st v bs, (forall id, v <> accepted_json id) -> outcome r (writeJSON st v new_writer) (mkLocal None None bs)) as Hno.
  { intros st v bs Hv id E. apply writeJSON_inj in E. by apply (Hv id). }
  unfold isDuplicate_prog. apply wp_perform. simpl. intros rs.
  destruct (match rs with Ok _ => _ | Err _ => _ end) as [[]|e]; [by apply Hno| |by apply Hno].
  apply wp_bind, parse_wp. intros rt p status perr rt' Hp.
  apply wp_bind, SaveRawMIME_wp; [cbv beta iota|intros; by apply Hno].
  refine (wp_bind s round _ (persist_prog s p status perr) _ _ _ _). eapply persist_wp; [exact Had|exact Hp|by left|..].
  - intros id t bs' Hc. exists raw, id. split_and!; [done|done|by left].
  - intros e x Hx. unfold outcome. simpl. rewrite Hx. by apply (Hno 500 (json_error "persist message") []).
  - intros e id t bs' Hc. exists raw, id. split_and!; [done|done|right; by eexists].
Qed.

Lemma ServeHTTP_wp r : wp (claim r) (ServeHTTP_prog h r new_writer) (mkLocal None None []) (outcome r).
Proof using All.
  assert (forall st v, (forall id, v <> accepted_json id) ->
    wp (claim r) (Ret (writeJSON st v new_writer)) (mkLocal None None []) (outcome r)) as Hno.
  { intros st v Hv id E. apply writeJSON_inj in E. by apply (Hv id). }
  unfold ServeHTTP_prog. rewrite h_storage.
  destruct (bool_decide (Method r <> "POST"%string)) eqn:Em; [by apply Hno|].
  apply bool_decide_eq_false, dec_stable in Em.
  destruct (ih_config h) as [c|] eqn:Ec; [|by apply Hno].
  destruct (bool_decide (WorkerIngestPSK c = EmptyString)) eqn:E1; [by apply Hno|]. cbn [orb].
  destruct (psk_equal _ _) eqn:E2; [|by apply Hno]. cbn [negb].
  destruct (ReadAll _) as [raw [e|]] eqn:Er; [by apply Hno|].
  destruct (Z.ltb_spec (message_limit c) (slen raw)); [by apply Hno|].
  destruct (ih_db_present h) eqn:Ed; [|by apply Hno]. apply ingest_wp.
  apply bool_decide_eq_false in E1. apply bool_decide_eq_true in E2.
  split; [split; [done|by exists c]|]. split_and!; [done|done|by exists c].
Qed.
End handler_wp.

(** ** All of them together *)

(** The tables at the start with the rows of some commits. *)
Definition with_commits (t0 : Tables) (C : gmap nat Tables) : Tables :=
  map_fold (fun _ t acc => join_tables acc t) t0 C.

Lemma with_commits_insert t0 C i t :
  C !! i = None -> with_commits t0 (<[i := t]> C) ≡ join_tables (with_commits t0 C) t.
Proof.
  intros Hi. unfold with_commits. refine (map_fold_insert (≡@{Tables}) (fun _ t acc => join_tables acc t) t0 i t C _ _ Hi).
  - intros j z x y E. by rewrite E.
  - intros j1 j2 z1 z2 y _ _ _. rewrite <-!join_tables_assoc. by rewrite (join_tables_comm z2 z1).
Qed.

Section together.
Context `{UnicodeTable} `{MailLibLaws} {D T F : Type} `{SharedSQLLaws D T} `{FileSystemLaws F}.
Context (s : Storage) (base_ne : baseDir s <> EmptyString) (h : IngestHandler) (h_storage : ih_storage h = Some s).
Implicit Types (m : machine D T F).

(** Every raw message that exists is filed under its hash. *)
Definition good_files (fs : F) : Prop :=
  forall b d, blob_ok b -> blob_get s fs b = Some d -> good_file b d.

(** The shared state: the tables hold the start and the commits. *)
Record world (t0 : Tables) (C : gmap nat Tables) (db : D) (fs : F) (torn : bool) : Prop := mkWorld {
  wo_tables : sh_tables db ≡ with_commits t0 C;
  wo_unique : C = ∅ \/ unique_rows sh_eq (sh_tables db);
  wo_dirs : no_blob_dirs s fs;
  wo_good : torn = false -> good_files fs
}.

Definition knows (fs : F) (torn : bool) (bs : list blob) : Prop :=
  torn = false -> Forall (fun b => blob_ok b /\ is_Some (blob_get s fs b)) bs.

(** Files may appear and be written again, but do not vanish. *)
Definition files_grow (fs : F) (torn : bool) (fs' : F) (torn' : bool) : Prop :=
  (torn' = false -> torn = false) /\
  (torn' = false -> forall b, blob_ok b -> is_Some (blob_get s fs b) -> is_Some (blob_get s fs' b)).

Lemma files_grow_refl fs torn : files_grow fs torn fs torn.
Proof using Type. by split. Qed.

Lemma knows_grow fs torn fs' torn' bs : files_grow fs torn fs' torn' -> knows fs torn bs -> knows fs' torn' bs.
Proof using Type.
  intros [Ht Hf] Hk Htorn. eapply Forall_impl; [exact (Hk (Ht Htorn))|]. intros b [? ?]. split; [done|]. by apply Hf.
Qed.

(** What making a directory and writing a blob do to the shared state. *)
Lemma mkdir_world t0 C db fs torn p r fs1 :
  world t0 C db fs torn -> store_dir p s -> os_MkdirAll p fs = (r, fs1) ->
  files_grow fs torn fs1 torn /\ world t0 C db fs1 torn.
Proof using base_ne.
  intros [H1' H2' H3' H4'] Hd Em.
  assert (forall b', blob_get s fs1 b' = blob_get s fs b') as Hsame by (intros b'; by eapply mkdir_files).
  split; [split; [done|intros _ b _; by rewrite Hsame]|]. split; [done|done| |].
  - by apply (mkdir_only_at s base_ne (Raw (HashBytes "")) _ _ _ _ Hd Em).
  - intros Ht b d Hb. rewrite Hsame. by apply H4'.
Qed.

Lemma write_world t0 C db fs torn b data r fs1 :
  world t0 C db fs torn -> blob_ok b -> good_file b data -> os_WriteFile (blob_path s b) data fs = (r, fs1) ->
  let torn' := torn || negb (is_ok r) in
  files_grow fs torn fs1 torn' /\ world t0 C db fs1 torn' /\ (r = Ok tt -> is_Some (blob_get s fs1 b)).
Proof using base_ne.
  intros [H1' H2' H3' H4'] Hb Hgood Ew.
  destruct (write_only_at s base_ne _ _ _ _ _ Hb Ew) as [Hother Hdirs].
  pose proof (write_written s _ _ _ _ _ Ew) as Hwr. split_and!.
  - split; [by intros [? _]%orb_false_iff|]. intros [_ Ht]%orb_false_iff b' Hb' Hs. destruct (decide (b' = b)) as [->|Hne].
    + destruct r as [[]|e]; [by rewrite Hwr|done].
    + by rewrite Hother.
  - split; [done|done|auto|]. intros [Ht Hr]%orb_false_iff b' d' Hb' Hg'.
    destruct (decide (b' = b)) as [->|Hne]; [|by rewrite Hother in Hg'; [apply H4'|..]].
    destruct r as [[]|e]; [|done]. simpl in Hwr. rewrite Hwr in Hg'. by injection Hg' as <-.
  - intros ->. by rewrite Hwr.
Qed.

(** A call keeps the shared state and does what its precondition says. *)
Lemma call_sound {R} (c : call R) t0 C i db fs rt torn tx bs G P x db' fs' rt' tx' :
  world t0 C db fs torn -> knows fs torn bs ->
  call_wp s sh_round G c (mkLocal (sh_added <$> tx) (C !! i) bs) P ->
  do_call c db fs rt tx = (x, (db', fs', rt'), tx') ->
  let torn' := torn || write_failed c x in
  exists C' bs', world t0 C' db' fs' torn' /\ knows fs' torn' bs' /\
    P x (mkLocal (sh_added <$> tx') (C' !! i) bs') /\ files_grow fs torn fs' torn' /\
    (C' = C \/ C !! i = None /\ exists t, C' = <[i := t]> C /\ G t bs).
Proof using base_ne.
  intros Hw Hk Hwp Hdo. destruct c; cbn [write_failed]; rewrite ?orb_false_r; cbv zeta; cbn [do_call call_wp] in *.
  - injection Hdo as <- <- <- <- <-. exists C, bs. split_and!; [done|done|apply Hwp|done|by left].
  - destruct (sh_Begin db) as [[t|e] db1] eqn:Eb; injection Hdo as <- <- <- <- <-;
      apply sh_begins in Eb as [Et Ef]; exists C, bs; cbn [lo_tx lo_done lo_blobs] in *.
    + split_and!; [|done| |done|by left].
      * destruct Hw as [H1' H2' H3' H4']. split; by rewrite ?Et.
      * cbn [fmap option_fmap option_map]. rewrite (Ef t eq_refl). apply Hwp.
    + split_and!; [|done|apply Hwp|done|by left]. destruct Hw. split; by rewrite ?Et.
  - destruct Hwp as (ins & t & -> & -> & Htx & Hok & Herr). cbn [lo_tx lo_done lo_blobs] in *.
    destruct tx as [tx|]; [|done]. injection Htx as Htx.
    destruct (sh_Exec _ _ tx db) as [[r tx1] db1] eqn:Ex. injection Hdo as <- <- <- <- <-.
    pose proof (sh_apart _ _ _ _ _ _ _ Ex) as Et. exists C, bs.
    split_and!; [destruct Hw; split; by rewrite ?Et|done| |done|by left].
    destruct r as [id|e]; [|apply Herr]. apply sh_inserts in Ex as (Hid & Hint & Ea).
    cbn [fmap option_fmap option_map]. rewrite Ea, Htx. by apply Hok.
  - destruct Hwp as (t & Htx & Hdone & HG & Hok & Herr). cbn [lo_tx lo_done lo_blobs] in *.
    destruct tx as [tx|]; [|done]. injection Htx as Htx.
    destruct (sh_Commit tx db) as [r db1] eqn:Ec. injection Hdo as <- <- <- <- <-.
    destruct Hw as [H1' H2' H3' H4']. apply sh_commits in Ec as [[Et Hr]|[Et Hu]].
    + exists C, bs. rewrite Hdone. split_and!; [split; by rewrite ?Et|done| |done|by left].
      destruct r as [[]|e]; [done|apply Herr].
    + exists (<[i := t]> C), bs. rewrite lookup_insert_eq. split_and!; [|done| |done|right; eauto].
      * split; [|by right|done|done]. rewrite Et, Htx, H1'. by rewrite with_commits_insert.
      * destruct r as [[]|e]; [done|apply Herr].
  - destruct Hwp as [(b & Hb & -> & Hok) Herr]. injection Hdo as <- <- <- <- <-.
    destruct (os_Stat (blob_path s b) fs) as [[]|e] eqn:Es.
    + exists C, (b :: bs). split_and!; [done| |done|done|by left].
      intros Ht. constructor; [|by apply Hk]. split; [done|]. destruct (stat_ok _ _ Es) as [Hs|Hd]; [done|].
      by destruct (wo_dirs _ _ _ _ _ Hw b Hb).
    + exists C, bs. split_and!; [done|done|apply Herr|done|by left].
  - destruct Hwp as [Hd Hok]. destruct (os_MkdirAll path fs) as [r fs1] eqn:Em. injection Hdo as <- <- <- <- <-.
    destruct (mkdir_world _ _ _ _ _ _ _ _ Hw Hd Em) as [Hg Hw']. exists C, bs.
    split_and!; [done|by eapply knows_grow|apply Hok|done|by left].
  - destruct Hwp as [(b & Hb & -> & Hgood & Hok) Herr]. destruct (os_WriteFile _ data fs) as [r fs1] eqn:Ew.
    injection Hdo as <- <- <- <- <-.
    destruct (write_world _ _ _ _ _ _ _ _ _ Hw Hb Hgood Ew) as (Hg & Hw' & Hs). destruct r as [[]|e].
    + exists C, (b :: bs). split_and!; [done| |done|done|by left]. intros Ht. constructor; [by split; [|apply Hs]|].
      exact (knows_grow _ _ _ _ _ Hg Hk Ht).
    + exists C, bs. split_and!; [done|by eapply knows_grow|apply Herr|done|by left].
  - destruct (time_Now rt) as [now rt1]. injection Hdo as <- <- <- <- <-. exists C, bs.
    split_and!; [done|done|apply Hwp|done|by left].
Qed.

(** What a goroutine relies on: its transaction, its commit and the files it
    knows; and what its commit stands for. *)
Definition relies (fs : F) (torn : bool) (C : gmap nat Tables) (i : nat) (g : handling T) : Prop :=
  exists bs, knows fs torn bs /\
    wp s sh_round (claim s sh_round h (hd_req g)) (hd_prog g) (mkLocal (sh_added <$> hd_tx g) (C !! i) bs)
      (outcome s sh_round h (hd_req g)).

Definition committed (fs : F) (torn : bool) (t : Tables) (r : Request) : Prop :=
  exists raw id, admitted s h r raw /\ complete sh_round raw id t /\
    (torn = false -> is_Some (blob_get s fs (Raw (HashBytes raw)))).

Record consistent_machine (t0 : Tables) (C : gmap nat Tables) (m : machine D T F) : Prop := mkConsistent {
  cm_world : world t0 C (mc_db m) (mc_fs m) (mc_torn m);
  cm_running : map_Forall (relies (mc_fs m) (mc_torn m) C) (mc_running m);
  cm_commits : map_Forall (fun i t => exists g, mc_running m !! i = Some g /\
                                         committed (mc_fs m) (mc_torn m) t (hd_req g)) C
}.

Lemma committed_grow fs torn fs' torn' t r :
  files_grow fs torn fs' torn' -> committed fs torn t r -> committed fs' torn' t r.
Proof using Type.
  intros [Ht Hf] (raw & id & ? & ? & ?). exists raw, id. split_and!; [done..|]. intros. apply Hf; [done|apply HashBytes_plain|auto].
Qed.

Lemma arrives_consistent t0 C m i r :
  consistent_machine t0 C m -> consistent_machine t0 C (take_turn h (Arrives i r) m).
Proof using All.
  intros [Hw Hr Hc]. simpl. destruct (mc_running m !! i) as [g|] eqn:Ei; [done|]. split; [done| |]; simpl.
  - apply map_Forall_insert_2; [|done]. exists []. split; [by constructor|]. simpl.
    assert (C !! i = None) as ->; [|by apply ServeHTTP_wp].
    destruct (C !! i) as [t|] eqn:E; [|done]. destruct (Hc i t E) as (g & Hg & _). congruence.
  - intros j t Hj. destruct (Hc j t Hj) as (g & Hg & Hcm). exists g. split; [|done].
    rewrite lookup_insert_ne; [done|]. intros ->. congruence.
Qed.

Lemma runs_consistent t0 C m i :
  consistent_machine t0 C m -> exists C', consistent_machine t0 C' (take_turn h (Runs i) m).
Proof using All.
  intros [Hw Hr Hc]. simpl. destruct (mc_running m !! i) as [[r p tx]|] eqn:Ei; [|by exists C].
  destruct p as [w'|R c k]; [by exists C|]. pose proof Hr as Hr0. specialize (Hr i _ Ei). destruct Hr as (bs & Hk & Hwp).
  simpl in Hwp. destruct (do_call c (mc_db m) (mc_fs m) (mc_rt m) tx) as [[x [[db fs] rt]] tx'] eqn:Ed.
  destruct (call_sound c t0 C i _ _ _ _ _ _ _ _ _ _ _ _ _ Hw Hk Hwp Ed) as (C' & bs' & Hw' & Hk' & HP & Hg & HC).
  exists C'. set (torn' := mc_torn m || write_failed c x) in *.
  assert (forall j, j <> i -> C' !! j = C !! j) as Hother.
  { intros j Hj. destruct HC as [->|(_ & t & -> & _)]; [done|]. by rewrite lookup_insert_ne. }
  split; [done| |]; simpl.
  - intros j g Hj. destruct (decide (j = i)) as [->|Hne].
    + rewrite lookup_insert_eq in Hj. injection Hj as <-. by exists bs'.
    + rewrite lookup_insert_ne in Hj by done. destruct (Hr0 j g Hj) as (bsj & Hkj & Hwpj). exists bsj.
      split; [by eapply knows_grow|]. by rewrite Hother.
  - intros j t Hj.
    assert (C !! j = Some t -> exists g, <[i := mkHandling r (k x) tx']> (mc_running m) !! j = Some g /\
      committed fs torn' t (hd_req g)) as Hold.
    { intros Hj'. destruct (Hc j t Hj') as (g & Hgj & Hcm). destruct (decide (j = i)) as [->|Hne].
      - rewrite Ei in Hgj. injection Hgj as <-. eexists. rewrite lookup_insert_eq. split; [done|]. by eapply committed_grow.
      - exists g. rewrite lookup_insert_ne by done. split; [done|]. by eapply committed_grow. }
    destruct HC as [->|(Hi & t' & -> & raw & id & Had & Hcomp & Hbs)]; [by apply Hold|].
    destruct (decide (j = i)) as [->|Hne]; [|rewrite lookup_insert_ne in Hj by done; by apply Hold].
    rewrite lookup_insert_eq in Hj. injection Hj as <-. eexists. rewrite lookup_insert_eq. split; [done|].
    exists raw, id. split_and!; [done|done|]. intros Ht. destruct Hg as [Hg1 Hg2]. apply Hg2; [done|apply HashBytes_plain|].
    specialize (Hk (Hg1 Ht)). rewrite Forall_forall in Hk. by destruct (Hk _ Hbs).
Qed.

Lemma turns_consistent t0 C m es :
  consistent_machine t0 C m -> exists C', consistent_machine t0 C' (take_turns h es m).
Proof using All.
  revert C m. induction es as [|e es IH]; intros C m Hm; [by exists C|]. simpl. destruct e as [i r|i].
  - apply (IH C). by apply arrives_consistent.
  - destruct (runs_consistent t0 C m i Hm) as [C' Hm']. by apply (IH C').
Qed.

Lemma idle_consistent db fs rt :
  no_blob_dirs s fs -> good_files fs -> consistent_machine (sh_tables db) ∅ (idle db fs rt).
Proof using Type. intros Hd Hg. split; [split; [done|by left|done..]|apply map_Forall_empty..]. Qed.

Lemma with_commits_split t0 C i t : C !! i = Some t -> with_commits t0 C ≡ join_tables (with_commits t0 (delete i C)) t.
Proof using Type. intros Hi. rewrite <-(with_commits_insert t0 (delete i C) i t) by apply lookup_delete_eq. by rewrite insert_delete_id. Qed.

(** What a complete message puts into the two tables with one row each. *)
Lemma complete_rows raw id t :
  complete sh_round raw id t -> exists msg e, messages t = [msg] /\ m_id msg = id /\ ingest_events t = [e] /\
    e_cloudflare_message_id e = HashBytes raw /\ e_content_hash e = HashBytes raw.
Proof using H1.
  intros (rt & p & status & perr & rt' & Hp & [_ _ _ _ (msg & recs & atts & e & -> & (d & rc & Hm & _) & _ & _ & He)] & Hcf).
  destruct (parse_or_fallback_spec _ _ _ _ _ _ Hp) as (Hh & _). simpl in *. exists msg, e. apply Forall_cons in Hcf as [Hcf _].
  split_and!; [done|by subst msg|done|done|by rewrite He].
Qed.

(** Two commits are of different messages, under different ids. *)
Lemma commits_differ t0 C db fs torn i j ti tj rawi rawj idi idj :
  world t0 C db fs torn -> i <> j -> C !! i = Some ti -> C !! j = Some tj ->
  complete sh_round rawi idi ti -> complete sh_round rawj idj tj -> rawi <> rawj /\ idi <> idj.
Proof using H1.
  intros [Ht Hu _ _] Hij Hi Hj Hci Hcj. destruct Hu as [->|(Hm & _ & He)]; [done|].
  rewrite (with_commits_split t0 C i ti Hi) in Ht.
  rewrite (with_commits_split t0 (delete i C) j tj) in Ht by (by rewrite lookup_delete_ne).
  destruct (complete_rows _ _ _ Hci) as (mi & ei & E1 & E2 & E3 & E4 & E5).
  destruct (complete_rows _ _ _ Hcj) as (mj & ej & F1 & F2 & F3 & F4 & F5).
  destruct Ht as (Htm & _ & _ & Hte). simpl in Htm, Hte. rewrite E1, F1 in Htm. rewrite E3, F3 in Hte.
  split.
  - intros ->. specialize (He ej ei (ingest_events (with_commits t0 (delete j (delete i C))))). simpl in He.
    rewrite E4, E5, F4, F5, !sh_eq_same in He. by discriminate He; rewrite Hte; solve_Permutation.
  - intros ->. specialize (Hm mj mi (messages (with_commits t0 (delete j (delete i C))))). simpl in Hm.
    rewrite E2, F2, Z.eqb_refl in Hm. by discriminate Hm; rewrite Htm; solve_Permutation.
Qed.
End together.

(** ** Properties *)

Section concurrent_properties.
Context `{UnicodeTable} `{MailLibLaws} {D T F : Type} `{SharedSQLLaws D T} `{FileSystemLaws F}.

(** C5: Deliveries at the same time are atomic. Let any requests arrive at any
    time and their goroutines run in any order, one call to the database or the file system
    at a time, any of which may fail. Then the tables hold what they held at the
    start and, for some of the requests, all the rows of that request's message,
    once, under an id of its own. A finished request was answered 200 with the id
    of its rows, or an error that hides them, if it has rows; and if it has none,
    anything but an acceptance. And as long as no write to a file has failed, every message
    that was added has a raw file with its hash. *)
Theorem concurrent_deliveries_are_atomic s h es (db : D) (fs : F) rt :
  baseDir s <> EmptyString -> ih_storage h = Some s -> no_blob_dirs s fs -> good_files s fs ->
  let m := take_turns h es (idle db fs rt) in
  exists C : gmap nat Tables, sh_tables (mc_db m) ≡ with_commits (sh_tables db) C /\
    (forall i t, C !! i = Some t -> exists g raw id,
       mc_running m !! i = Some g /\ admitted s h (hd_req g) raw /\ complete sh_round raw id t /\
       (mc_torn m = false -> exists d, ReadRawMIME s (HashBytes raw) (mc_fs m) = Ok d /\ HashBytes d = HashBytes raw)) /\
    (forall i g w', mc_running m !! i = Some g -> hd_prog g = Ret w' ->
       match C !! i with
       | Some t => exists raw id, admitted s h (hd_req g) raw /\ complete sh_round raw id t /\
           (w' = writeJSON 200 (accepted_json id) new_writer \/ exists e, w' = writeJSON 500 (json_error e) new_writer)
       | None => forall id, w' <> writeJSON 200 (accepted_json id) new_writer
       end).
Proof.
  intros Hb Hs Hd Hg m. destruct (turns_consistent s Hb h Hs _ _ _ es (idle_consistent s h db fs rt Hd Hg)) as [C [Hw Hr Hc]].
  fold m in Hw, Hr, Hc. exists C. split_and!.
  - apply Hw.
  - intros i t Hi. destruct (Hc i t Hi) as (g & Hgi & raw & id & Had & Hcomp & Hfile). exists g, raw, id.
    split_and!; [done..|]. intros Ht. destruct (Hfile Ht) as [d Hget]. exists d.
    split; [apply ReadRawMIME_spec; [apply HashBytes_plain|done]|].
    exact (wo_good _ _ _ _ _ _ Hw Ht (Raw (HashBytes raw)) d (HashBytes_plain raw) Hget).
  - intros i g w' Hi Hp. destruct (Hr i g Hi) as (bs & _ & Hwp). rewrite Hp in Hwp. exact Hwp.
Qed.

(** C6: A message is accepted at most once, also when deliveries race. Under any
    interleaving, two requests that were both answered as accepted had different
    bodies, and were given different ids: the duplicate check, which both may
    have passed, is backed by the unique index. *)
Theorem racing_deliveries_accepted_once s h es (db : D) (fs : F) rt i j gi gj rawi rawj idi idj :
  baseDir s <> EmptyString -> ih_storage h = Some s -> no_blob_dirs s fs -> good_files s fs ->
  let m := take_turns h es (idle db fs rt) in
  mc_running m !! i = Some gi -> mc_running m !! j = Some gj -> i <> j ->
  admitted s h (hd_req gi) rawi -> admitted s h (hd_req gj) rawj ->
  hd_prog gi = Ret (writeJSON 200 (accepted_json idi) new_writer) ->
  hd_prog gj = Ret (writeJSON 200 (accepted_json idj) new_writer) ->
  rawi <> rawj /\ idi <> idj.
Proof.
  intros Hb Hs Hd Hg m Hi Hj Hij Hai Haj Hpi Hpj.
  destruct (turns_consistent s Hb h Hs _ _ _ es (idle_consistent s h db fs rt Hd Hg)) as [C [Hw Hr _]].
  assert (forall k g raw id, mc_running m !! k = Some g -> admitted s h (hd_req g) raw ->
    hd_prog g = Ret (writeJSON 200 (accepted_json id) new_writer) ->
    exists t, C !! k = Some t /\ complete sh_round raw id t) as Hone.
  { intros k g raw id Hk Ha Hp. destruct (Hr k g Hk) as (bs & _ & Hwp). rewrite Hp in Hwp. unfold outcome in Hwp. simpl in Hwp.
    destruct (C !! k) as [t|]; [|by destruct (Hwp id)]. destruct Hwp as (raw' & id' & Ha' & Hc & Hw').
    exists t. split; [done|]. rewrite (admitted_unique _ _ _ _ _ Ha Ha').
    destruct Hw' as [E|[e E]]; apply writeJSON_inj in E; [by injection E as ->|done]. }
  destruct (Hone i gi rawi idi Hi Hai Hpi) as (ti & Hti & Hci). destruct (Hone j gj rawj idj Hj Haj Hpj) as (tj & Htj & Hcj).
  exact (commits_differ s _ _ _ _ _ _ _ _ _ _ _ _ _ Hw Hij Hti Htj Hci Hcj).
Qed.

(** The sequence of calls is the handler. Run by itself, over a database that
    serves one transaction at a time, the program of the interleavings gives the
    reply and leaves the database, the files and the clock exactly as
    [Ingest.ServeHTTP] does, for every request and whatever fails. *)
Theorem calls_are_the_handler {D' T'} `{SQLDriver D' T'} h r w (db : D') (fs : F) rt :
  (run_alone (H := one_at_a_time) (ServeHTTP_prog h r w) db fs rt None).1 = ServeHTTP h r w (db, fs, rt).
Proof. apply ServeHTTP_alone. Qed.
End concurrent_properties.

(** ** A shared database in memory *)

Fixpoint distinctb {A} (same : A -> A -> bool) (l : list A) : bool :=
  match l with
  | [] => true
  | x :: l' => forallb (fun y => negb (same x y) && negb (same y x)) l' && distinctb same l'
  end.

Lemma distinctb_perm {A} (same : A -> A -> bool) l l' : l ≡ₚ l' -> distinctb same l = true -> distinctb same l' = true.
Proof.
  induction 1 as [|x l l' Hp IH|x y l|l1 l2 l3 _ IH1 _ IH2]; [done| | |auto].
  - simpl. rewrite !andb_true_iff, !forallb_Forall. intros [Hx Hl]. split; [by rewrite <-Hp|auto].
  - simpl. rewrite !andb_true_iff, !negb_true_iff. tauto.
Qed.

Lemma distinctb_spec {A} (same : A -> A -> bool) l : distinctb same l = true -> distinct same l.
Proof.
  intros Hl x y l' Hp. apply (distinctb_perm _ _ _ Hp) in Hl. simpl in Hl.
  rewrite !andb_true_iff, !negb_true_iff in Hl. tauto.
Qed.

Definition unique_rowsb (eq : string -> string -> bool) (t : Tables) : bool :=
  distinctb (fun x y => m_id x =? m_id y) (messages t) &&
  distinctb (fun x y => eq (a_storage_key x) (a_storage_key y)) (attachments t) &&
  distinctb (fun x y => eq (e_cloudflare_message_id x) (e_cloudflare_message_id y)
                        && eq (e_content_hash x) (e_content_hash y)) (ingest_events t).

(** [sd_next] is the AUTO_INCREMENT counter, which transactions share; an
    insertion that clashes with another one is found out at the commit. *)
Record SharedDB := mkShared { sd_db : MemDB; sd_next : Z }.
Definition sd_with (t : Tables) (d : SharedDB) : SharedDB :=
  mkShared (mkMemDB t (fails (sd_db d)) (lost_reply (sd_db d))) (sd_next d).

Definition read_insertion (q : string) (args : list sqlval) : option insertion :=
  match args with
  | [VStr cf; VStr h; VStr sender; VStr subject; VTime date; VTime received; VStr text; VStr html; VStr path;
     VStr status; perr] =>
      if bool_decide (q = sql_insert_message) then
        match null_string perr with
        | Some perr => Some (InsMessage cf h sender subject date received text html path status perr)
        | None => None
        end
      else None
  | [VInt mid; VStr email; VStr type; VTime received] =>
      if bool_decide (q = sql_insert_recipient) then Some (InsRecipient mid email type received) else None
  | [VInt mid; VStr key; name; VStr mime; VInt size; VStr h] =>
      if bool_decide (q = sql_insert_attachment) then
        match null_string name with Some name => Some (InsAttachment mid key name mime size h) | None => None end
      else None
  | [VStr cf; VStr h] => if bool_decide (q = sql_insert_event) then Some (InsEvent cf h) else None
  | _ => None
  end.

#[export] Instance SharedDB_shared : SharedSQL SharedDB Tables := {|
  sh_Query q args d := mem_query q args (sd_db d);
  sh_Begin d := (if fails (sd_db d) "BEGIN" then Err ErrDriver else Ok no_tables, d);
  sh_Exec q args t d :=
    if fails (sd_db d) q then (Err ErrDriver, t, d)
    else match read_insertion q args with
         | None => (Err ErrSyntax, t, d)
         | Some i =>
             if (0 <? sd_next d) && (sd_next d <=? max_int64) then
               (Ok (sd_next d), ins_apply seconds_only (sd_next d) i t, mkShared (sd_db d) (sd_next d + 1))
             else (Err ErrDriver, t, d)
         end;
  sh_Commit t d :=
    let t' := join_tables (mem_tables (sd_db d)) t in
    if negb (unique_rowsb mem_eq t') then (Err ErrDup, d)
    else if fails (sd_db d) "COMMIT" then (Err ErrDriver, if lost_reply (sd_db d) then sd_with t' d else d)
    else (Ok tt, sd_with t' d)
|}.

#[export] Instance SharedDB_laws : SharedSQLLaws SharedDB Tables.
Proof.
  refine {| sh_tables d := mem_tables (sd_db d); sh_added t := t; sh_eq := mem_eq; sh_round := seconds_only |}.
  - intros s. by apply bool_decide_eq_true.
  - intros d r d'. simpl. destruct (fails _ _); intros [= <- <-]; split; try done. by intros t [= <-].
  - intros q args t d r t' d'. simpl. destruct (fails _ _); [by intros [= <- <- <-]|].
    destruct (read_insertion _ _); [|by intros [= <- <- <-]]. destruct (_ && _); by intros [= <- <- <-].
  - intros i t d id t' d'. simpl. destruct (fails _ _); [done|].
    assert (read_insertion (ins_text i) (ins_args i) = Some i) as ->.
    { destruct i as [| |mid key [name|] mime size hash|]; simpl; by rewrite ?null_string_nullable. }
    destruct (Z.ltb_spec 0 (sd_next d)), (Z.leb_spec (sd_next d) max_int64); try done. simpl. intros [= <- <- <-].
    split_and!; [done|unfold in_int64, min_int64; lia|done].
  - intros t d r d'. simpl. destruct (unique_rowsb _ _) eqn:Eu; simpl; [|intros [= <- <-]; by left].
    assert (unique_rows mem_eq (join_tables (mem_tables (sd_db d)) t)) as Hu.
    { unfold unique_rowsb in Eu. rewrite !andb_true_iff in Eu. destruct Eu as [[E1 E2] E3].
      split_and!; by apply distinctb_spec. }
    destruct (fails _ _); [destruct (lost_reply _)|]; intros [= <- <-]; [by right|by left|by right].
Defined.

(** ** The theorems at concrete inputs *)

#[local] Existing Instance Small.lib.
#[local] Existing Instance Small.lib_laws.
#[local] Existing Instance unicode_latin.

Module RaceDemo.
Definition empty : SharedDB := mkShared IngestDemo.db0 1.
Definition post (raw : string) : Request := IngestDemo.post "key" raw.
Definition run (fs : MemFS) (es : list turn) : machine SharedDB Tables MemFS :=
  take_turns IngestDemo.h es (idle empty fs IngestDemo.rt0).
Definition many (n : nat) (i : nat) : list turn := repeat (Runs i) n.

(** Two deliveries that take turns, call by call. *)
Fixpoint alternate (n : nat) : list turn :=
  match n with O => [] | S n' => Runs 0 :: Runs 1 :: alternate n' end.
Definition in_turn (a b : string) : list turn := Arrives 0 (post a) :: Arrives 1 (post b) :: alternate 40.
Definition two (a b : string) : machine SharedDB Tables MemFS := run IngestDemo.fs0 (in_turn a b).
Definition replied (m : machine SharedDB Tables MemFS) (i : nat) : option ResponseWriter :=
  match mc_running m !! i with Some (mkHandling _ (Ret w) _) => Some w | _ => None end.

(** The second delivery asks for the file before the first has written it, and
    writes it, with a disk that is then full, after the first was accepted. *)
Definition full_disk : MemFS := mem_new (fun n => if bool_decide (n = 5%nat) then Some 7%nat else None).
Definition late_writer : list turn :=
  Arrives 0 (post Small.sample) :: Arrives 1 (post Small.sample) :: many 2 1 ++ many 40 0 ++ many 40 1.
Definition torn : machine SharedDB Tables MemFS := run full_disk late_writer.

Lemma start_good : good_files IngestDemo.store IngestDemo.fs0.
Proof. intros b d _ Hd. unfold blob_get in Hd. simpl in Hd. by rewrite lookup_empty in Hd. Qed.

Definition in_progress (raw : string) (m : machine SharedDB Tables MemFS) (i : nat) : handling Tables :=
  default (mkHandling (post raw) (Ret new_writer) None) (mc_running m !! i).

Lemma finished raw m i w :
  replied m i = Some w -> mc_running m !! i = Some (in_progress raw m i) /\ hd_prog (in_progress raw m i) = Ret w.
Proof.
  unfold replied, in_progress. destruct (mc_running m !! i) as [[r p tx]|]; [|done].
  destruct p; [|done]. by intros [= ->].
Qed.
End RaceDemo.

(** A racing delivery can destroy a stored message. [SaveRawMIME] looks
    whether the file exists and writes it in two calls, so a second delivery of
    the same message that looked first may write after the first was accepted;
    when that write fails half way, the message that was accepted is truncated. *)
Theorem racing_write_tears_accepted_message :
  let m := RaceDemo.torn in
  RaceDemo.replied m 0 = Some (writeJSON 200 (accepted_json 1) new_writer) /\
  RaceDemo.replied m 1 = Some (writeJSON 500 (json_error "save raw MIME") new_writer) /\
  map m_content_hash (messages (sh_tables (mc_db m))) = [HashBytes Small.sample] /\
  ReadRawMIME IngestDemo.store (HashBytes Small.sample) (mc_fs m) = Ok (stake 7 Small.sample).
Proof. by split_and!; vm_compute. Qed.

Lemma concurrent_deliveries_are_atomic_witness :
  let m := RaceDemo.two Small.sample Small.sample in
  length (messages (sh_tables (mc_db m))) = 1%nat /\
  exists C, sh_tables (mc_db m) ≡ with_commits no_tables C /\
    forall i t, C !! i = Some t -> exists raw id, complete sh_round raw id t.
Proof.
  split; [vm_compute; reflexivity|].
  destruct (concurrent_deliveries_are_atomic IngestDemo.store IngestDemo.h
    (RaceDemo.in_turn Small.sample Small.sample)
    RaceDemo.empty IngestDemo.fs0 IngestDemo.rt0 IngestDemo.base_ne eq_refl IngestDemo.files_ok RaceDemo.start_good)
    as (C & Ht & Hc & _).
  exists C. split; [exact Ht|]. intros i t Hi. destruct (Hc i t Hi) as (g & raw & id & _ & _ & Hcomp & _). eauto.
Defined.

Lemma racing_deliveries_accepted_once_witness :
  Small.sample <> IngestDemo.broken /\ 1 <> 2.
Proof.
  pose (m := take_turns IngestDemo.h (RaceDemo.in_turn Small.sample IngestDemo.broken)
    (idle RaceDemo.empty IngestDemo.fs0 IngestDemo.rt0)).
  destruct (RaceDemo.finished Small.sample m 0 (writeJSON 200 (accepted_json 1) new_writer) ltac:(by vm_compute)) as [H0 P0].
  destruct (RaceDemo.finished IngestDemo.broken m 1 (writeJSON 200 (accepted_json 2) new_writer) ltac:(by vm_compute)) as [H1 P1].
  assert (hd_req (RaceDemo.in_progress Small.sample m 0) = RaceDemo.post Small.sample) as R0 by (vm_compute; reflexivity).
  assert (hd_req (RaceDemo.in_progress IngestDemo.broken m 1) = RaceDemo.post IngestDemo.broken) as R1
    by (vm_compute; reflexivity).
  refine (racing_deliveries_accepted_once IngestDemo.store IngestDemo.h
    (RaceDemo.in_turn Small.sample IngestDemo.broken)
    RaceDemo.empty IngestDemo.fs0 IngestDemo.rt0 0 1 _ _ _ _ 1 2 IngestDemo.base_ne eq_refl IngestDemo.files_ok
    RaceDemo.start_good H0 H1 ltac:(done) _ _ P0 P1).
  - rewrite R0. exact IngestDemo.sample_admitted.
  - rewrite R1. exact (IngestDemo.post_admitted IngestDemo.broken ltac:(by vm_compute)).
Defined.
