(* ===== verification/Migrate.v ===== *)
(** * Migrations (internal/db/migrate.go)

    Loading the migration files, splitting them into statements, and applying or
    rolling back over a database whose transactions may be committed behind the
    code's back (MariaDB ends a transaction at every DDL statement). The lines
    printed for each migration are not modelled. *)

From S2P Require Export Sql.

Open Scope Z_scope.

Record Migration := mkMigration { Version : Z; Name : string; UpSQL : string; DownSQL : string }.

(** [m.String()] *)
Definition Migration_String (m : Migration) : string := Format03d (Version m) +:+ "_" +:+ Name m.

(** ** Files *)

Record DirEntry := mkEntry { de_Name : string; de_IsDir : bool }.

(** [fs.FS] with [fs.ReadDir] at its root, [fs.Sub] and [fs.ReadFile]. *)
Inductive FS := mkFS {
  fs_ReadDir : result (list DirEntry);
  fs_Sub : string -> result FS;
  fs_ReadFile : string -> result string
}.

(** [sort.Slice]: it may reorder elements that compare equal. *)
Class SortLib := sort_Slice : forall {A}, (A -> A -> bool) -> list A -> list A.
Class SortLaws `{SortLib} := {
  sort_permutes : forall A (less : A -> A -> bool) l, Permutation (sort_Slice less l) l;
  sort_sorted : forall A (key : A -> Z) l,
    Sorted (fun a b => key a <= key b) (sort_Slice (fun a b => key a <? key b) l) /\
    Sorted (fun a b => key b <= key a) (sort_Slice (fun a b => key b <? key a) l)
}.

(** [fmt.Sscanf(s, "%d", &n)]: white space, a sign, digits; what follows them
    is not looked at. A line break before the number is an error. *)
Fixpoint skip_space (l : list (Z * string)) : option (list (Z * string)) :=
  match l with
  | [] => Some []
  | (r, b) :: l' =>
      if r =? 13 then
        match l' with
        | (10, _) :: _ => None
        | _ => skip_space l'
        end
      else if r =? 10 then None
      else if IsSpace r then skip_space l' else Some l
  end.

Fixpoint take_digits (s : string) : string :=
  match s with
  | String c s' => if is_digit c then String c (take_digits s') else EmptyString
  | EmptyString => EmptyString
  end.

Definition Sscanf_d (s : string) : option Z :=
  match skip_space (runes s) with
  | None => None
  | Some l =>
      let s := sconcat (map snd l) in
      let '(sign, s) :=
        match s with
        | String c s' => if bool_decide (c = "+"%char) || bool_decide (c = "-"%char)
                         then (String c EmptyString, s') else (EmptyString, s)
        | EmptyString => (EmptyString, EmptyString)
        end in
      match take_digits s with
      | EmptyString => None
      | ds => ParseInt (sign +:+ ds)
      end
  end.

Definition hasUpMigration (entries : list DirEntry) : bool :=
  existsb (fun entry => negb (de_IsDir entry) && HasSuffix (de_Name entry) ".up.sql") entries.

Definition hasDir (entries : list DirEntry) (name : string) : bool :=
  existsb (fun entry => de_IsDir entry && bool_decide (de_Name entry = name)) entries.

(** The version and name of a file of the listing; [None] where the loop
    continues with the next entry. *)
Definition entry_migration (entry : DirEntry) : option (Z * string) :=
  if de_IsDir entry || negb (HasSuffix (de_Name entry) ".up.sql") then None
  else
    match SplitN2 (TrimSuffix (de_Name entry) ".up.sql") "_" with
    | [number; migrationName] =>
        match Sscanf_d number with
        | Some version => Some (version, migrationName)
        | None => None
        end
    | _ => None
    end.

(** The loop over the entries; [seen] holds the names that were met. *)
Fixpoint collect (entries : list DirEntry) (seen : gset string) : list Migration :=
  match entries with
  | [] => []
  | entry :: entries' =>
      match entry_migration entry with
      | None => collect entries' seen
      | Some (version, migrationName) =>
          if bool_decide (migrationName ∈ seen) then collect entries' seen
          else mkMigration version migrationName EmptyString EmptyString
                 :: collect entries' ({[migrationName]} ∪ seen)
      end
  end.

Definition upPath (m : Migration) : string := Format03d (Version m) +:+ "_" +:+ Name m +:+ ".up.sql".
Definition downPath (m : Migration) : string := Format03d (Version m) +:+ "_" +:+ Name m +:+ ".down.sql".

Fixpoint read_sql (fsys : FS) (l : list Migration) : result (list Migration) :=
  match l with
  | [] => Ok []
  | m :: l' =>
      match fs_ReadFile fsys (upPath m) with
      | Err e => Err (EWrap ("read up migration " +:+ upPath m) e)
      | Ok up =>
          match fs_ReadFile fsys (downPath m) with
          | Err e => Err (EWrap ("read down migration " +:+ downPath m) e)
          | Ok down =>
              match read_sql fsys l' with
              | Err e => Err e
              | Ok r => Ok (mkMigration (Version m) (Name m) up down :: r)
              end
          end
      end
  end.

Definition LoadMigrations `{SortLib} (fsys : FS) : result (list Migration) :=
  match fs_ReadDir fsys with
  | Err e => Err (EWrap "read migrations dir" e)
  | Ok entries =>
      let listing :=
        if negb (hasUpMigration entries) && hasDir entries "migrations" then
          match fs_Sub fsys "migrations" with
          | Ok subFS =>
              match fs_ReadDir subFS with
              | Err e => Err (EWrap "read migrations dir" e)
              | Ok entries => Ok (subFS, entries)
              end
          | Err _ => Ok (fsys, entries)
          end
        else Ok (fsys, entries) in
      match listing with
      | Err e => Err e
      | Ok (fsys, entries) =>
          read_sql fsys (sort_Slice (fun a b => Version a <? Version b) (collect entries ∅))
      end
  end.

(** ** Statements *)

Definition nl_char : ascii := byte 10.
Definition nl_str : string := String nl_char EmptyString.

(** A line that is neither empty nor a comment. *)
Definition kept_line (line : string) : bool :=
  negb (HasPrefix line "--" || bool_decide (line = EmptyString)).

Definition statement (s : string) : string :=
  TrimSpace (GoStrings.Join (List.filter kept_line (map TrimSpace (Split s nl_char))) nl_str).

Definition splitSQL (sql : string) : list string :=
  List.filter (fun stmt => negb (bool_decide (stmt = EmptyString))) (map statement (Split sql ";")).

(** ** The database *)

(** [T] is the connection inside a transaction; rolling back or committing it
    gives the database back. *)
Class MigDriver (D T : Type) := {
  mdb_Exec : string -> list sqlval -> D -> result unit * D;
  mdb_Query : string -> list sqlval -> D -> result Rows;
  mdb_Begin : D -> result T;
  mtx_Exec : string -> list sqlval -> T -> result unit * T;
  mtx_Commit : T -> result unit * D;
  mtx_Rollback : T -> D
}.

Section operations.
Context {D T : Type} `{MigDriver D T} `{SortLib}.

Definition sql_create_migrations : string :=
  "CREATE TABLE IF NOT EXISTS schema_migrations (" +:+ nl_str +:+
  String (byte 9) (String (byte 9) "version INT PRIMARY KEY,") +:+ nl_str +:+
  String (byte 9) (String (byte 9) "name VARCHAR(255) NOT NULL,") +:+ nl_str +:+
  String (byte 9) (String (byte 9) "applied_at DATETIME NOT NULL DEFAULT CURRENT_TIMESTAMP") +:+ nl_str +:+
  String (byte 9) ")".
Definition sql_count_migration : string := "SELECT COUNT(*) FROM schema_migrations WHERE version = ?".
Definition sql_record_migration : string := "INSERT INTO schema_migrations (version, name) VALUES (?, ?)".
Definition sql_forget_migration : string := "DELETE FROM schema_migrations WHERE version = ?".

Definition createMigrationsTable (db : D) : option error * D :=
  match mdb_Exec sql_create_migrations [] db with
  | (Err e, db) => (Some e, db)
  | (Ok _, db) => (None, db)
  end.

Definition isMigrationApplied (version : Z) (db : D) : result bool :=
  match mdb_Query sql_count_migration [VInt version] db with
  | Err e => Err e
  | Ok rs =>
      match rows rs with
      | [] => match rows_Err rs with Some e => Err e | None => Err ErrNoRows end
      | row :: _ =>
          match row with
          | [v] => match scan_int v with Ok count => Ok (0 <? count) | Err e => Err e end
          | _ => Err ErrScan
          end
      end
  end.

Fixpoint exec_all (stmts : list string) (tx : T) : option error * T :=
  match stmts with
  | [] => (None, tx)
  | stmt :: stmts' =>
      match mtx_Exec stmt [] tx with
      | (Err e, tx) => (Some e, tx)
      | (Ok _, tx) => exec_all stmts' tx
      end
  end.

(** One migration in its transaction: the statements, then the bookkeeping. *)
Definition in_tx (begin what record commit : string) (stmts : list string) (q : string) (args : list sqlval)
  (version : Z) (db : D) : option error * D :=
  match mdb_Begin db with
  | Err e => (Some (EWrap (begin +:+ FormatInt version) e), db)
  | Ok tx =>
      match exec_all stmts tx with
      | (Some e, tx) => (Some (EWrap (what +:+ FormatInt version) e), mtx_Rollback tx)
      | (None, tx) =>
          match mtx_Exec q args tx with
          | (Err e, tx) => (Some (EWrap (record +:+ FormatInt version) e), mtx_Rollback tx)
          | (Ok _, tx) =>
              match mtx_Commit tx with
              | (Err e, db) => (Some (EWrap (commit +:+ FormatInt version) e), db)
              | (Ok _, db) => (None, db)
              end
          end
      end
  end.

Definition apply_migration (m : Migration) (db : D) : option error * D :=
  in_tx "begin tx for migration " "apply migration " "record migration " "commit migration "
    (splitSQL (UpSQL m)) sql_record_migration [VInt (Version m); VStr (Name m)] (Version m) db.

Fixpoint run_loop (migrations : list Migration) (db : D) : option error * D :=
  match migrations with
  | [] => (None, db)
  | m :: migrations' =>
      match isMigrationApplied (Version m) db with
      | Err e => (Some (EWrap ("check migration " +:+ FormatInt (Version m)) e), db)
      | Ok true => run_loop migrations' db
      | Ok false =>
          match apply_migration m db with
          | (Some e, db) => (Some e, db)
          | (None, db) => run_loop migrations' db
          end
      end
  end.

Definition RunMigrations (migrations : list Migration) (db : D) : option error * D :=
  match createMigrationsTable db with
  | (Some e, db) => (Some (EWrap "create migrations table" e), db)
  | (None, db) => run_loop migrations db
  end.

Definition undo_migration (m : Migration) (db : D) : option error * D :=
  in_tx "begin tx for rollback " "rollback migration " "delete migration record " "commit rollback "
    (splitSQL (DownSQL m)) sql_forget_migration [VInt (Version m)] (Version m) db.

(** The loop ends after the first migration that is rolled back. *)
Fixpoint rollback_loop (migrations : list Migration) (db : D) : option error * D :=
  match migrations with
  | [] => (None, db)
  | m :: migrations' =>
      match isMigrationApplied (Version m) db with
      | Err e => (Some (EWrap ("check migration " +:+ FormatInt (Version m)) e), db)
      | Ok false => rollback_loop migrations' db
      | Ok true => undo_migration m db
      end
  end.

(** The slice of the caller is sorted in place: it is returned. *)
Definition RollbackMigration (migrations : list Migration) (db : D)
  : option error * list Migration * D :=
  match createMigrationsTable db with
  | (Some e, db) => (Some (EWrap "create migrations table" e), migrations, db)
  | (None, db) =>
      let migrations := sort_Slice (fun a b => Version b <? Version a) migrations in
      let '(r, db) := rollback_loop migrations db in
      (r, migrations, db)
  end.
End operations.

(** ** Connecting *)

(** The MySQL driver's connection strings ([mysql.ParseDSN], [cfg.FormatDSN]) and
    opening a database over one ([sql.Open], [db.Ping]). *)
Class MySQLDriver (C D : Type) := {
  ParseDSN : string -> result C;
  with_ParseTime : C -> C;
  FormatDSN : C -> string;
  sql_Open : string -> result D;
  db_Ping : D -> option error
}.

Section connect.
Context {C D T : Type} `{MySQLDriver C D} `{MigDriver D T} `{SortLib}.

Definition normalizeMySQLDSN (dsn : string) : result string :=
  if bool_decide (TrimSpace dsn = EmptyString) then Err (EText "dsn is required")
  else
    match ParseDSN dsn with
    | Err e => Err e
    | Ok cfg => Ok (FormatDSN (with_ParseTime cfg))
    end.

Definition Connect (dsn : string) : result D :=
  match normalizeMySQLDSN dsn with
  | Err e => Err (EWrap "normalize dsn" e)
  | Ok normalizedDSN =>
      match sql_Open normalizedDSN with
      | Err e => Err (EWrap "open db" e)
      | Ok db =>
          match db_Ping db with
          | Some e => Err (EWrap "ping db" e)
          | None => Ok db
          end
      end
  end.

(** [Migrate] and [Rollback]: the database as it is closed, if it was opened. *)
Definition Migrate (databaseURL : string) (fsys : FS) : option error * option D :=
  match Connect databaseURL with
  | Err e => (Some e, None)
  | Ok db =>
      match LoadMigrations fsys with
      | Err e => (Some (EWrap "load migrations" e), Some db)
      | Ok migrations => let '(r, db) := RunMigrations migrations db in (r, Some db)
      end
  end.

Definition Rollback (databaseURL : string) (fsys : FS) : option error * option D :=
  match Connect databaseURL with
  | Err e => (Some e, None)
  | Ok db =>
      match LoadMigrations fsys with
      | Err e => (Some (EWrap "load migrations" e), Some db)
      | Ok migrations => let '(r, _, db) := RollbackMigration migrations db in (r, Some db)
      end
  end.
End connect.

(** ** What the database promises *)

(** [recorded] are the rows of schema_migrations, [tx_kept] those a rollback
    leaves (a DDL statement commits what was done before it, and the bookkeeping
    that follows takes effect at once), [journal] the statements of migrations
    executed so far. An error can come from a lost reply. *)
Class MigLaws (D T : Type) `{MigDriver D T} := {
  recorded : D -> list (Z * string);
  tx_recorded : T -> list (Z * string);
  tx_kept : T -> list (Z * string);
  journal : D -> list string;
  tx_journal : T -> list string;
  foreign : string -> Prop;

  create_keeps : forall d r d', mdb_Exec sql_create_migrations [] d = (r, d') ->
    recorded d' = recorded d /\ journal d' = journal d;
  count_answer : forall v d rs, mdb_Query sql_count_migration [VInt v] d = Ok rs ->
    delivers rs (fun full => full =
      [[VInt (Z.of_nat (length (List.filter (fun x => x.1 =? v) (recorded d))))]]);
  begin_keeps : forall d t, mdb_Begin d = Ok t ->
    tx_recorded t = recorded d /\ tx_kept t = recorded d /\ tx_journal t = journal d;
  stmt_runs : forall q t r t', foreign q -> mtx_Exec q [] t = (r, t') ->
    tx_recorded t' = tx_recorded t /\ (tx_kept t' = tx_kept t \/ tx_kept t' = tx_recorded t) /\
    (tx_journal t' = tx_journal t ++ [q] \/ (r <> Ok tt /\ tx_journal t' = tx_journal t));
  record_runs : forall v n t r t', mtx_Exec sql_record_migration [VInt v; VStr n] t = (r, t') ->
    tx_journal t' = tx_journal t /\
    (tx_kept t' = tx_kept t \/ tx_kept t' = tx_recorded t ++ [(v, n)]) /\
    (r = Ok tt -> tx_recorded t' = tx_recorded t ++ [(v, n)]);
  forget_runs : forall v t r t', mtx_Exec sql_forget_migration [VInt v] t = (r, t') ->
    tx_journal t' = tx_journal t /\
    (tx_kept t' = tx_kept t \/
     tx_kept t' = List.filter (fun x => negb (x.1 =? v)) (tx_recorded t)) /\
    (r = Ok tt -> tx_recorded t' = List.filter (fun x => negb (x.1 =? v)) (tx_recorded t));
  commit_runs : forall t r d, mtx_Commit t = (r, d) ->
    journal d = tx_journal t /\ (recorded d = tx_recorded t \/ (r <> Ok tt /\ recorded d = tx_kept t));
  rollback_runs : forall t, recorded (mtx_Rollback t) = tx_kept t /\ journal (mtx_Rollback t) = tx_journal t
}.

(** The migrations a run still has to apply: the versions that are not recorded,
    each once. *)
Fixpoint plan (migrations : list Migration) (versions : list Z) : list Migration :=
  match migrations with
  | [] => []
  | m :: migrations' =>
      if bool_decide (Version m ∈ versions) then plan migrations' versions
      else m :: plan migrations' (Version m :: versions)
  end.

Definition statements (l : list Migration) : list string := concat (map (fun m => splitSQL (UpSQL m)) l).
Definition records (l : list Migration) : list (Z * string) := map (fun m => (Version m, Name m)) l.

Lemma plan_ext ms vs vs' : (forall v, v ∈ vs <-> v ∈ vs') -> plan ms vs = plan ms vs'.
Proof.
  revert vs vs'. induction ms as [|m ms IH]; intros vs vs' Hv; simpl; [done|].
  rewrite (bool_decide_ext _ (Version m ∈ vs')) by apply Hv. case_bool_decide; [by apply IH|].
  f_equal. apply IH. intros v. rewrite !elem_of_cons. by rewrite Hv.
Qed.

Lemma plan_resume ms vs l1 l2 :
  plan ms vs = l1 ++ l2 -> plan ms (vs ++ map Version l1) = l2.
Proof.
  revert vs l1. induction ms as [|m ms IH]; intros vs l1; simpl.
  { intros [-> ->]%eq_sym%app_eq_nil. done. }
  destruct (bool_decide (Version m ∈ vs)) eqn:E.
  - intros Hp. rewrite bool_decide_eq_true_2 by (apply bool_decide_eq_true in E; set_solver). by apply IH.
  - apply bool_decide_eq_false in E. destruct l1 as [|x l1]; simpl.
    + intros <-. by rewrite app_nil_r, bool_decide_eq_false_2.
    + intros [= <- Hp]. rewrite bool_decide_eq_true_2 by set_solver. rewrite <-(IH _ _ Hp).
      apply plan_ext. intros v. simpl. set_solver.
Qed.

Lemma plan_covers ms vs m : m ∈ ms -> Version m ∈ vs ++ map Version (plan ms vs).
Proof.
  revert vs. induction ms as [|x ms IH]; intros vs; [by intros ?%elem_of_nil|]. simpl.
  intros [->|Hm]%elem_of_cons; case_bool_decide; [set_solver|set_solver|by apply IH|].
  specialize (IH (Version x :: vs) Hm). set_solver.
Qed.

Lemma plan_nil ms vs : plan ms vs = [] <-> Forall (fun m => Version m ∈ vs) ms.
Proof.
  revert vs. induction ms as [|m ms IH]; intros vs; simpl; [by split|].
  rewrite Forall_cons. case_bool_decide; [rewrite IH; tauto|]. split; [done|tauto].
Qed.

Section run.
Context {D T : Type} `{MigLaws D T} `{SortLaws}.

Definition versions (d : D) : list Z := map fst (recorded d).

Lemma isMigrationApplied_spec v d b :
  isMigrationApplied v d = Ok b -> b = bool_decide (v ∈ versions d).
Proof.
  unfold isMigrationApplied. destruct (mdb_Query _ _ d) as [rs|e] eqn:Eq; [|done].
  apply count_answer in Eq as (full & -> & Hpre & _).
  destruct (rows rs) as [|row l]; [by destruct (rows_Err rs)|]. destruct Hpre as [k Hk].
  injection Hk as <- _. simpl. intros [= <-]. unfold versions.
  induction (recorded d) as [|[v' n] l' IH]; [done|].
  cbn [List.filter map fst]. destruct (Z.eqb_spec v' v) as [->|Hne]; simpl.
  - rewrite bool_decide_eq_true_2 by set_solver. by apply Z.ltb_lt.
  - rewrite IH. apply bool_decide_ext. set_solver.
Qed.

Lemma exec_all_spec stmts t r t' :
  Forall foreign stmts -> tx_kept t = tx_recorded t -> exec_all stmts t = (r, t') ->
  tx_recorded t' = tx_recorded t /\ tx_kept t' = tx_recorded t /\
  exists part, part `prefix_of` stmts /\ tx_journal t' = tx_journal t ++ part /\ (r = None -> part = stmts).
Proof.
  intros Hf. revert t. induction Hf as [|q stmts Hq Hf IH]; intros t Hk; simpl.
  - intros [= <- <-]. split_and!; [done|done|]. exists []. rewrite app_nil_r. by split_and!.
  - destruct (mtx_Exec q [] t) as [[[]|e] t1] eqn:Ex; apply stmt_runs in Ex as (Hr & Hk1 & Hj); [|done| |done].
    + assert (tx_kept t1 = tx_recorded t1) as Hk1' by (rewrite Hr; by destruct Hk1 as [-> | ->]).
      intros (Hr2 & Hk2 & part & Hpre & Hj2 & Hall)%IH; [|done].
      destruct Hj as [Hj|[Hj _]]; [|done]. split_and!; [congruence|congruence|].
      exists (q :: part). split_and!; [by apply prefix_cons|by rewrite Hj2, Hj, <-app_assoc|].
      intros Hn. by rewrite Hall.
    + intros [= <- <-]. split_and!; [done|by destruct Hk1 as [-> | ->]|].
      destruct Hj as [Hj|[_ Hj]]; [exists [q]|exists []]; (split_and!; [|by rewrite ?app_nil_r|done]).
      * by exists stmts.
      * by exists (q :: stmts).
Qed.

(** The outcome of a transaction whose bookkeeping statement has effect [eff]. *)
Lemma in_tx_spec begin what record commit stmts q args eff version d r d' :
  Forall foreign stmts ->
  (forall t r t', mtx_Exec q args t = (r, t') ->
     tx_journal t' = tx_journal t /\ (tx_kept t' = tx_kept t \/ tx_kept t' = eff (tx_recorded t)) /\
     (r = Ok tt -> tx_recorded t' = eff (tx_recorded t))) ->
  in_tx begin what record commit stmts q args version d = (r, d') ->
  exists part, journal d' = journal d ++ part /\ part `prefix_of` stmts /\
    (recorded d' = eff (recorded d) /\ part = stmts \/ r <> None /\ recorded d' = recorded d).
Proof.
  intros Hf Hq. unfold in_tx. destruct (mdb_Begin d) as [t|e] eqn:Eb.
  2:{ intros [= <- <-]. exists []. rewrite app_nil_r. split_and!; [done|by apply prefix_nil|]. by right. }
  apply begin_keeps in Eb as (Hb1 & Hb2 & Hb3).
  destruct (exec_all stmts t) as [re t1] eqn:Ee.
  apply exec_all_spec in Ee as (Hr1 & Hk1 & part & Hpre & Hj & Hall); [|done|congruence].
  destruct re as [e|].
  { intros [= <- <-]. destruct (rollback_runs t1) as [Hrb1 Hrb2].
    exists part. split_and!; [congruence|done|right]. split; [done|congruence]. }
  rewrite Hall in * by done. clear part Hall Hpre.
  destruct (mtx_Exec q args t1) as [[[]|e] t2] eqn:Ex; apply Hq in Ex as (Hj2 & Hk2 & Hr2).
  2:{ intros [= <- <-]. destruct (rollback_runs t2) as [Hrb1 Hrb2].
      exists stmts. split_and!; [congruence|done|]. rewrite Hrb1.
      destruct Hk2 as [-> | ->]; [right|left]; (split; [try done|try done]); congruence. }
  destruct (mtx_Commit t2) as [[[]|e] d2] eqn:Ec; apply commit_runs in Ec as (Hj3 & Hr3);
    intros [= <- <-]; exists stmts; (split_and!; [congruence|done|]).
  - left. split; [|done]. destruct Hr3 as [->|[? _]]; [|done]. rewrite Hr2 by done. congruence.
  - destruct Hr3 as [->|[_ ->]].
    + left. rewrite Hr2 by done. split; [congruence|done].
    + destruct Hk2 as [-> | ->]; [right|left]; (split; [try done|try done]); congruence.
Qed.

Lemma run_loop_spec ms d r d' :
  Forall (fun m => Forall foreign (splitSQL (UpSQL m))) ms -> run_loop ms d = (r, d') ->
  exists done rest part, plan ms (versions d) = done ++ rest /\
    recorded d' = recorded d ++ records done /\
    journal d' = journal d ++ statements done ++ part /\
    (r = None -> rest = [] /\ part = []) /\
    match rest with [] => part = [] | m :: _ => part `prefix_of` splitSQL (UpSQL m) end.
Proof.
  intros Hf. revert d. induction Hf as [|m ms Hm Hf IH]; intros d; cbn [run_loop].
  - intros [= <- <-]. exists [], [], []. by rewrite !app_nil_r.
  - destruct (isMigrationApplied (Version m) d) as [b|e] eqn:Ea.
    2:{ intros [= <- <-]. exists [], (plan (m :: ms) (versions d)), []. rewrite !app_nil_r.
        split_and!; try done. destruct (plan _ _); [done|apply prefix_nil]. }
    apply isMigrationApplied_spec in Ea as ->. cbn [plan]. destruct (bool_decide (Version m ∈ versions d)) eqn:E; [by apply IH|].
    unfold apply_migration. destruct (in_tx _ _ _ _ _ _ _ _ d) as [re d1] eqn:Et.
    apply (in_tx_spec _ _ _ _ _ _ _ (fun l => l ++ [(Version m, Name m)])) in Et as (part & Hj & Hpre & Hout);
      [|done|intros; by apply record_runs].
    assert (recorded d1 = recorded d ++ [(Version m, Name m)] ->
      plan ms (versions d1) = plan ms (Version m :: versions d)) as Hplan.
    { intros Hr. apply plan_ext. intros v. unfold versions. rewrite Hr, map_app. simpl. set_solver. }
    destruct re as [e|].
    + intros [= <- <-]. destruct Hout as [[Hr ->]|[_ Hr]].
      * exists [m], (plan ms (Version m :: versions d)), []. simpl. unfold statements. simpl.
        rewrite !app_nil_r. split_and!; try done. destruct (plan ms (Version m :: versions d)); [done|apply prefix_nil].
      * exists [], (m :: plan ms (Version m :: versions d)), part. rewrite app_nil_r. by split_and!.
    + destruct Hout as [[Hr ->]|[? _]]; [|done].
      intros (l1 & l2 & part & Hp & Hr2 & Hj2 & Hn & Hm2)%IH. exists (m :: l1), l2, part.
      rewrite Hplan in Hp by done. rewrite Hr2, Hr, Hj2, Hj, Hp. unfold statements. simpl.
      rewrite <-!app_assoc. by split_and!.
Qed.

Lemma createMigrationsTable_spec d r d' :
  createMigrationsTable d = (r, d') -> recorded d' = recorded d /\ journal d' = journal d.
Proof.
  unfold createMigrationsTable. destruct (mdb_Exec _ _ d) as [[u|e] d1] eqn:E; intros [= <- <-];
    by apply create_keeps in E.
Qed.
End run.

(** ** Splitting: lemmas *)

Lemma splitSQL_semi s t : splitSQL (s +:+ String ";" t) = splitSQL s ++ splitSQL t.
Proof. unfold splitSQL. by rewrite Split_app, map_app, List.filter_app. Qed.

Lemma Split_head s c : exists h t, Split s c = h :: t.
Proof. pose proof (Split_nonempty s c). destruct (Split s c) as [|h t]; [done|eauto]. Qed.

(** A first line that is empty or a comment is dropped. *)
Lemma statement_drop_line l s :
  no_char nl_char l = true -> kept_line (TrimSpace l) = false ->
  statement (l +:+ String nl_char s) = statement s.
Proof.
  intros Hl Hk. unfold statement. rewrite Split_app, (Split_no_char l) by done.
  cbn [app map List.filter]. by rewrite Hk.
Qed.

Lemma splitSQL_drop_line l s :
  no_char nl_char l = true -> no_char ";" l = true -> kept_line (TrimSpace l) = false ->
  splitSQL (l +:+ String nl_char s) = splitSQL s.
Proof.
  intros Hl Hs Hk. unfold splitSQL. destruct (Split_head s ";") as (h & t & Es).
  assert (Split (l +:+ String nl_char s) ";" = (l +:+ String nl_char h) :: t) as ->.
  { clear Hl Hk. induction l as [|c l IH]; cbn [String.append].
    - cbn [Split]. rewrite bool_decide_eq_false_2 by done. by rewrite Es.
    - unfold no_char in Hs. cbn [sforall] in Hs. apply andb_true_iff in Hs as [Hc Hs].
      apply negb_true_iff, bool_decide_eq_false in Hc. cbn [Split].
      rewrite bool_decide_eq_false_2 by done. by rewrite IH. }
  rewrite Es. cbn [map List.filter]. by rewrite statement_drop_line.
Qed.

Definition clean_line (l : string) : Prop :=
  TrimSpace l = l /\ kept_line l = true /\ no_char nl_char l = true /\ no_char ";" l = true.
Definition clean_stmt (st : string) : Prop :=
  exists ls, ls <> [] /\ Forall clean_line ls /\ st = GoStrings.Join ls nl_str.

Lemma runes_nonempty s : s <> EmptyString -> runes s <> [].
Proof. destruct s as [|a s]; [done|]. intros _. rewrite runes_cons. by destruct (DecodeRune _). Qed.

Lemma trimmed_ends s : TrimSpace s = s -> ends_not is_space_elem (runes s).
Proof. intros Hs. rewrite <-Hs, runes_TrimSpace. apply trim_runes_ends. Qed.

Lemma kept_nonempty l : kept_line l = true -> l <> EmptyString.
Proof. intros Hk ->. discriminate Hk. Qed.

Lemma ends_not_app {A} (p : A -> bool) l1 l2 l3 :
  l1 <> [] -> l3 <> [] -> ends_not p l1 -> ends_not p l3 -> ends_not p (l1 ++ l2 ++ l3).
Proof.
  intros H1 H3 [Ha _] [_ Hb]. unfold ends_not. rewrite !reverse_app. split.
  - by destruct l1.
  - destruct (reverse l3) as [|x r] eqn:E; [|done].
    apply (f_equal reverse) in E. by rewrite reverse_involutive in E.
Qed.

Lemma TrimSpace_Join ls :
  Forall clean_line ls -> TrimSpace (GoStrings.Join ls nl_str) = GoStrings.Join ls nl_str.
Proof.
  intros Hls. apply TrimSpace_id.
  assert (ls = [] \/ (ends_not is_space_elem (runes (GoStrings.Join ls nl_str)) /\
    runes (GoStrings.Join ls nl_str) <> [])) as [->|[? _]]; [|done|done].
  induction Hls as [|l ls (Ht & Hk & _) Hls IH]; [by left|right].
  pose proof (trimmed_ends _ Ht). apply kept_nonempty, runes_nonempty in Hk.
  destruct ls as [|l' ls]; [by simpl|]. rewrite Join_cons. destruct IH as [?|[IH1 IH2]]; [done|].
  change (nl_str +:+ GoStrings.Join (l' :: ls) nl_str) with (String nl_char (GoStrings.Join (l' :: ls) nl_str)).
  rewrite runes_app_ascii by done. rewrite runes_cons. cbn -[runes GoStrings.Join].
  change (?x :: ?r) with ([x] ++ r). split; [by apply ends_not_app|]. by destruct (runes l).
Qed.

Lemma statement_clean st : clean_stmt st -> statement st = st.
Proof.
  intros (ls & Hne & Hls & ->). unfold statement, nl_str.
  rewrite Split_Join_char; [|done|by eapply Forall_impl; [exact Hls|]; intros l (_ & _ & ? & _)].
  assert (List.filter kept_line (map TrimSpace ls) = ls) as ->.
  { clear Hne. induction Hls as [|l ls (Ht & Hk & _) Hls IH]; [done|]. simpl. by rewrite Ht, Hk, IH. }
  by apply TrimSpace_Join.
Qed.

Lemma clean_no_semi st : clean_stmt st -> no_char ";" st = true /\ st <> EmptyString.
Proof.
  intros (ls & Hne & Hls & ->). split.
  - clear Hne. induction Hls as [|l ls (_ & _ & _ & Hs) Hls IH]; [done|].
    destruct ls as [|l' ls]; [done|]. rewrite Join_cons. unfold no_char in *. by rewrite !sforall_app, Hs, IH.
  - destruct Hls as [|l ls (_ & Hk & _) Hls]; [done|]. apply kept_nonempty in Hk.
    destruct ls as [|l' ls]; [done|]. rewrite Join_cons. by destruct l.
Qed.

Lemma splitSQL_clean st : clean_stmt st -> splitSQL st = [st].
Proof.
  intros Hst. destruct (clean_no_semi st Hst) as [Hs Hne]. unfold splitSQL.
  rewrite Split_no_char by done. cbn [map List.filter]. rewrite statement_clean by done.
  by rewrite bool_decide_eq_false_2.
Qed.

(** What every statement looks like. *)
Lemma statement_trimmed s : TrimSpace (statement s) = statement s.
Proof. apply TrimSpace_idem. Qed.

Lemma no_char_infix c s1 s2 s3 : no_char c (s1 +:+ (s2 +:+ s3)) = true -> no_char c s2 = true.
Proof. unfold no_char. rewrite !sforall_app, !andb_true_iff. tauto. Qed.

Lemma no_char_Join c ls : c <> nl_char -> Forall (fun l => no_char c l = true) ls -> no_char c (GoStrings.Join ls nl_str) = true.
Proof.
  intros Hc Hls. induction Hls as [|l ls Hl Hls IH]; [done|]. destruct ls as [|l' ls]; [done|].
  rewrite Join_cons. unfold no_char in *. rewrite !sforall_app, Hl, IH. simpl.
  by rewrite bool_decide_eq_false_2 by (intros E; by apply Hc).
Qed.

Lemma no_char_sub_Split c d s : no_char c s = true -> Forall (fun l => no_char c l = true) (Split s d).
Proof.
  induction s as [|a s IH]; simpl; [by repeat constructor|]. unfold no_char in *. simpl.
  rewrite andb_true_iff. intros [Ha Hs]. specialize (IH Hs). destruct (bool_decide (a = d)); [by constructor|].
  destruct (Split s d) as [|h t]; [constructor; [|done]; simpl; by rewrite Ha|].
  apply Forall_cons in IH as [Hh Ht]. constructor; [simpl; by rewrite Ha|done].
Qed.

Lemma statement_no_semi s : no_char ";" s = true -> no_char ";" (statement s) = true.
Proof.
  intros Hs. unfold statement. apply sforall_TrimSpace, no_char_Join; [done|].
  apply Forall_forall. intros l Hl. apply list_elem_of_In, filter_In in Hl as [Hl _].
  apply in_map_iff in Hl as (l' & <- & Hl). apply sforall_TrimSpace.
  pose proof (no_char_sub_Split ";" nl_char s Hs) as Hall. rewrite Forall_forall in Hall.
  apply Hall. by apply list_elem_of_In.
Qed.

(** ** Loading: lemmas *)

Lemma collect_spec entries seen m :
  m ∈ collect entries seen ->
  Name m ∉ seen /\ exists e, e ∈ entries /\ entry_migration e = Some (Version m, Name m).
Proof.
  revert seen. induction entries as [|e entries IH]; intros seen; simpl; [by intros ?%elem_of_nil|].
  destruct (entry_migration e) as [[v n]|] eqn:E.
  - destruct (bool_decide (n ∈ seen)) eqn:Es.
    + intros (Hm & x & Hx & Hex)%IH. split; [done|]. exists x. split; [by right|done].
    + apply bool_decide_eq_false in Es. intros [->|Hm]%elem_of_cons.
      * split; [done|]. exists e. split; [by left|done].
      * apply IH in Hm as (Hm & x & Hx & Hex). split; [set_solver|]. exists x. split; [by right|done].
  - intros (Hm & x & Hx & Hex)%IH. split; [done|]. exists x. split; [by right|done].
Qed.

Lemma collect_NoDup entries seen : NoDup (map Name (collect entries seen)).
Proof.
  revert seen. induction entries as [|e entries IH]; intros seen; simpl; [constructor|].
  destruct (entry_migration e) as [[v n]|]; [|done]. case_bool_decide as Hs; [done|]. simpl.
  constructor; [|done]. intros (m & Hn & Hm)%list_elem_of_fmap. apply collect_spec in Hm as [Hm _]. set_solver.
Qed.

Lemma collect_complete entries seen e v n :
  e ∈ entries -> entry_migration e = Some (v, n) -> n ∈ seen \/ n ∈ map Name (collect entries seen).
Proof.
  revert seen. induction entries as [|x entries IH]; intros seen; [by intros ?%elem_of_nil|]. simpl.
  intros [<-|He]%elem_of_cons Hm.
  - rewrite Hm. case_bool_decide; [by left|right]. simpl. by left.
  - specialize (IH). destruct (entry_migration x) as [[v' n']|]; [|by apply IH].
    case_bool_decide; [by apply IH|]. destruct (IH ({[n']} ∪ seen) He Hm) as [Hs|Hs]; [|right; by right].
    apply elem_of_union in Hs as [->%elem_of_singleton|Hs]; [right; by left|by left].
Qed.

Lemma read_sql_spec fsys l r :
  read_sql fsys l = Ok r ->
  records r = records l /\
  Forall (fun m => fs_ReadFile fsys (upPath m) = Ok (UpSQL m) /\ fs_ReadFile fsys (downPath m) = Ok (DownSQL m)) r.
Proof.
  revert r. induction l as [|m l IH]; intros r; simpl; [by intros [= <-]|].
  destruct (fs_ReadFile fsys (upPath m)) as [up|e] eqn:Eu; [|done].
  destruct (fs_ReadFile fsys (downPath m)) as [down|e] eqn:Ed; [|done].
  destruct (read_sql fsys l) as [r'|e]; [|done]. intros [= <-]. destruct (IH r' eq_refl) as [Hr Hf].
  unfold records in *. simpl. rewrite Hr. split; [done|]. by constructor.
Qed.

Lemma read_sql_total fsys l :
  Forall (fun m => (exists s, fs_ReadFile fsys (upPath m) = Ok s) /\ exists s, fs_ReadFile fsys (downPath m) = Ok s) l ->
  exists r, read_sql fsys l = Ok r.
Proof.
  induction 1 as [|m l [[u Hu] [d Hd]] Hl [r IH]]; simpl; [by eexists|]. rewrite Hu, Hd, IH. by eexists.
Qed.

(** The directory a load works on: the given one, or its [migrations]. *)
Definition loads_from (fsys fsys' : FS) (entries : list DirEntry) : Prop :=
  fs_ReadDir fsys' = Ok entries /\
  (fsys' = fsys \/ exists top, fs_ReadDir fsys = Ok top /\ hasUpMigration top = false /\
     hasDir top "migrations" = true /\ fs_Sub fsys "migrations" = Ok fsys').

Lemma LoadMigrations_cases `{SortLib} fsys :
  (exists e, LoadMigrations fsys = Err e) \/
  exists fsys' entries, loads_from fsys fsys' entries /\
    LoadMigrations fsys = read_sql fsys' (sort_Slice (fun a b => Version a <? Version b) (collect entries ∅)).
Proof.
  unfold LoadMigrations, loads_from. destruct (fs_ReadDir fsys) as [top|e] eqn:Et; [|eauto].
  destruct (hasUpMigration top) eqn:Eu, (hasDir top "migrations") eqn:Ed; simpl; try (right; eauto 6; fail).
  destruct (fs_Sub fsys "migrations") as [sub|e] eqn:Es; [|right; eauto 6].
  destruct (fs_ReadDir sub) as [entries|e] eqn:Er; [|eauto]. right. exists sub, entries. eauto 10.
Qed.

(** The decimal form of a version, padded to three digits. *)
Lemma Format03d_digits z : 0 <= z -> Format03d z = zeros (3 - String.length (digits z)) +:+ digits z.
Proof. intros Hz. unfold Format03d. by destruct (Z.ltb_spec z 0); [lia|]. Qed.

Lemma zeros_digits n s : sforall is_digit s = true -> sforall is_digit (zeros n +:+ s) = true.
Proof. intros Hs. induction n; simpl; [done|exact IHn]. Qed.

Lemma parse_zeros n s : parse_digits 0 (zeros n +:+ s) = parse_digits 0 s.
Proof. induction n; simpl; [done|exact IHn]. Qed.

Lemma take_digits_all s : sforall is_digit s = true -> take_digits s = s.
Proof.
  induction s as [|c s IH]; simpl; [done|]. rewrite andb_true_iff. intros [-> Hs]. by rewrite IH.
Qed.

Lemma digit_char c : is_digit c = true -> 48 <= code c <= 57.
Proof. unfold is_digit, in_range. rewrite andb_true_iff, !Z.leb_le. lia. Qed.

Lemma digits_not c s : is_digit c = false -> sforall is_digit s = true -> no_char c s = true.
Proof.
  intros Hc Hs. unfold no_char. eapply sforall_impl; [|exact Hs]. intros a Ha. simpl.
  apply negb_true_iff, bool_decide_eq_false. intros ->. congruence.
Qed.

Lemma Sscanf_d_digits s v :
  sforall is_digit s = true -> parse_digits 0 s = Some v -> s <> EmptyString -> in_int64 v -> Sscanf_d s = Some v.
Proof.
  intros Hd Hp Hne Hv. unfold Sscanf_d. destruct s as [|c s]; [done|].
  pose proof Hd as Hd2. cbn [sforall] in Hd2. apply andb_true_iff in Hd2 as [Hc _].
  pose proof (digit_char c Hc) as Hrange.
  assert (skip_space (runes (String c s)) = Some (runes (String c s))) as ->.
  { rewrite runes_cons. cbn [DecodeRune]. rewrite (proj2 (Z.ltb_lt _ _)) by lia. cbn [skip_space].
    destruct (Z.eqb_spec (code c) 13); [lia|]. destruct (Z.eqb_spec (code c) 10); [lia|].
    assert (IsSpace (code c) = false) as ->; [|done].
    unfold IsSpace, in_range. repeat rewrite ?(proj2 (Z.eqb_neq _ _)), ?(proj2 (Z.leb_gt _ _)) by lia.
    repeat (rewrite ?(proj2 (Z.leb_gt _ _)) by lia; simpl). all: try done. all: lia. }
  cbn beta iota. rewrite runes_concat.
  rewrite !bool_decide_eq_false_2 by (intros ->; vm_compute in Hc; done). cbn [orb].
  rewrite take_digits_all by done. unfold ParseInt. cbn [String.append].
  rewrite !bool_decide_eq_false_2 by (intros ->; vm_compute in Hc; done).
  unfold parse_unsigned. rewrite Hp. by rewrite bool_decide_eq_true_2.
Qed.

Lemma Sscanf_d_Format03d v : 0 <= v -> in_int64 v -> Sscanf_d (Format03d v) = Some v.
Proof.
  intros Hv Hi. rewrite Format03d_digits by done. destruct (digits_spec v Hv) as (Hp & Hne & Hd).
  apply Sscanf_d_digits; [by apply zeros_digits|by rewrite parse_zeros| |done].
  destruct (3 - _)%nat; [done|]. done.
Qed.

Lemma SplitN2_app s c t : no_char c s = true -> SplitN2 (s +:+ String c t) c = [s; t].
Proof.
  intros Hs. assert (IndexByte (s +:+ String c t) c = Some (String.length s)) as Hi.
  { unfold no_char in Hs. induction s as [|a s IH]; simpl; [by rewrite bool_decide_eq_true_2|].
    simpl in Hs. apply andb_true_iff in Hs as [Ha Hs]. apply negb_true_iff, bool_decide_eq_false in Ha.
    by rewrite bool_decide_eq_false_2, IH. }
  unfold SplitN2. rewrite Hi, stake_app. f_equal.
  assert (sdrop (S (String.length s)) (s +:+ String c t) = t) as ->; [|done].
  clear. induction s as [|a s IH]; [by destruct t|exact IH].
Qed.

Lemma TrimSuffix_app s t : TrimSuffix (s +:+ t) t = s.
Proof.
  unfold TrimSuffix. rewrite HasSuffix_app, sapp_length.
  replace (String.length s + String.length t - String.length t)%nat with (String.length s) by lia. apply stake_app.
Qed.

(** ** An in-memory database *)

(** [mm_fails n] picks the statements that fail after the [n]-th statement outside
    a transaction. A statement of a migration ends the transaction, as DDL does:
    what was recorded before it stays. *)
Record MemMig := mkMemMig {
  mm_rows : list (Z * string); mm_journal : list string; mm_runs : nat; mm_fails : nat -> string -> bool
}.
Record MemMigTx := mkMemMigTx { mt_now : MemMig; mt_kept : list (Z * string) }.

Definition mm_broken (d : MemMig) (q : string) : bool := mm_fails d (mm_runs d) q.
Definition mm_with (rows : list (Z * string)) (d : MemMig) : MemMig :=
  mkMemMig rows (mm_journal d) (mm_runs d) (mm_fails d).
Definition mm_log (q : string) (d : MemMig) : MemMig :=
  mkMemMig (mm_rows d) (mm_journal d ++ [q]) (mm_runs d) (mm_fails d).
Definition mm_next (d : MemMig) : MemMig :=
  mkMemMig (mm_rows d) (mm_journal d) (S (mm_runs d)) (mm_fails d).

#[export] Instance MemMig_driver : MigDriver MemMig MemMigTx := {|
  mdb_Exec q _ d := if mm_broken d q then (Err ErrDriver, d) else (Ok tt, mm_next d);
  mdb_Query q args d :=
    if mm_broken d q then Err ErrDriver else
    match args with
    | [VInt v] => Ok (mkRows [[VInt (Z.of_nat (length (List.filter (fun x => x.1 =? v) (mm_rows d))))]] None)
    | _ => Err ErrSyntax
    end;
  mdb_Begin d := if mm_broken d "BEGIN" then Err ErrDriver else Ok (mkMemMigTx d (mm_rows d));
  mtx_Exec q args t :=
    let d := mt_now t in
    if mm_broken d q then (Err ErrDriver, t) else
    match args with
    | [VInt v; VStr n] =>
        if existsb (fun x => x.1 =? v) (mm_rows d) then (Err ErrDup, t)
        else (Ok tt, mkMemMigTx (mm_with (mm_rows d ++ [(v, n)]) d) (mt_kept t))
    | [VInt v] =>
        (Ok tt, mkMemMigTx (mm_with (List.filter (fun x => negb (x.1 =? v)) (mm_rows d)) d) (mt_kept t))
    | _ => (Ok tt, mkMemMigTx (mm_log q d) (mm_rows d))
    end;
  mtx_Commit t :=
    if mm_broken (mt_now t) "COMMIT" then (Err ErrDriver, mm_with (mt_kept t) (mt_now t)) else (Ok tt, mt_now t);
  mtx_Rollback t := mm_with (mt_kept t) (mt_now t)
|}.

#[export] Instance MemMig_laws : MigLaws MemMig MemMigTx.
Proof.
  refine {| recorded := mm_rows; tx_recorded t := mm_rows (mt_now t); tx_kept := mt_kept;
            journal := mm_journal; tx_journal t := mm_journal (mt_now t); foreign _ := True |}; simpl.
  - intros d r d'. by destruct (mm_broken d _); intros [= <- <-].
  - intros v d rs. destruct (mm_broken d _); [done|]. intros [= <-]. eexists. split; [done|]. by split.
  - intros d t. destruct (mm_broken d _); [done|]. by intros [= <-].
  - intros q t r t' _. destruct (mm_broken _ q); intros [= <- <-]; simpl.
    + split_and!; [done|by left|right; by split].
    + split_and!; [done|by right|by left].
  - intros v n t r t'. destruct (mm_broken _ _); [intros [= <- <-]; split_and!; [done|by left|done]|].
    destruct (existsb _ _); intros [= <- <-]; split_and!; try done; by left.
  - intros v t r t'. destruct (mm_broken _ _); intros [= <- <-]; split_and!; try done; by left.
  - intros t r d. destruct (mm_broken _ _); intros [= <- <-]; (split; [done|]); [right|left]; done.
  - done.
Defined.

#[export] Instance not_less_dec {A} (less : A -> A -> bool) : RelDecision (fun a b => less b a = false).
Proof. intros a b. unfold Decision. destruct (less b a); [by right|by left]. Defined.

#[export] Instance merge_sort_lib : SortLib := fun A less => merge_sort (fun a b => less b a = false).

#[export] Instance merge_sort_laws : SortLaws.
Proof.
  assert (forall A (key : A -> Z), Total (fun a b => (key b <? key a) = false)) as Ht1.
  { intros A key a b. rewrite !Z.ltb_ge. lia. }
  assert (forall A (key : A -> Z), Total (fun a b => (key a <? key b) = false)) as Ht2.
  { intros A key a b. rewrite !Z.ltb_ge. lia. }
  split.
  - intros A less l. apply merge_sort_Permutation.
  - intros A key l. split.
    + specialize (Ht1 A key). eapply Sorted_impl; [|apply (Sorted_merge_sort (fun a b => (key b <? key a) = false))].
      intros a b Hab%Z.ltb_ge. lia.
    + specialize (Ht2 A key). eapply Sorted_impl; [|apply (Sorted_merge_sort (fun a b => (key a <? key b) = false))].
      intros a b Hab%Z.ltb_ge. lia.
Qed.

(** ** Properties *)

(** C34: Loading is exact. A load that succeeds returns migrations sorted by
    version, one for each name that some up-file of the directory has (and no
    others), with the version of such a file and the contents of the up- and
    down-files in the canonical names. *)
Theorem load_migrations_exact `{SortLaws} fsys ms :
  LoadMigrations fsys = Ok ms ->
  exists fsys' entries, loads_from fsys fsys' entries /\
    Sorted (fun a b => Version a <= Version b) ms /\ NoDup (map Name ms) /\
    (forall n, n ∈ map Name ms <-> exists e v, e ∈ entries /\ entry_migration e = Some (v, n)) /\
    Forall (fun m => (exists e, e ∈ entries /\ entry_migration e = Some (Version m, Name m)) /\
      fs_ReadFile fsys' (upPath m) = Ok (UpSQL m) /\ fs_ReadFile fsys' (downPath m) = Ok (DownSQL m)) ms.
Proof.
  intros Hl. destruct (LoadMigrations_cases fsys) as [[e He]|(fsys' & entries & Hfrom & Hl')]; [congruence|].
  rewrite Hl in Hl'. symmetry in Hl'. apply read_sql_spec in Hl' as [Hrec Hfiles].
  set (l := collect entries ∅) in *. set (sorted := sort_Slice _ l) in *.
  assert (Permutation sorted l) as Hperm by apply sort_permutes.
  assert (map Version ms = map Version sorted /\ map Name ms = map Name sorted) as [Hv Hn].
  { unfold records in Hrec. split.
    - apply (f_equal (map fst)) in Hrec. by rewrite !map_map in Hrec.
    - apply (f_equal (map snd)) in Hrec. by rewrite !map_map in Hrec. }
  exists fsys', entries. split_and!; [done| | | |].
  - apply (Sorted_map Version). rewrite Hv. apply (Sorted_map Version).
    exact (proj1 (sort_sorted _ Version l)).
  - rewrite Hn, Hperm. apply collect_NoDup.
  - intros n. rewrite Hn, Hperm. split.
    + intros (m & -> & Hm)%list_elem_of_fmap. apply collect_spec in Hm as (_ & e & He & Hme). eauto.
    + intros (e & v & He & Hme). destruct (collect_complete entries ∅ e v n He Hme); [set_solver|done].
  - rewrite Forall_forall in *. intros m Hm. split; [|by apply Hfiles].
    assert ((Version m, Name m) ∈ records sorted) as Hin by (rewrite <-Hrec; by apply list_elem_of_fmap; exists m).
    apply list_elem_of_fmap in Hin as (m' & [= Hv' Hn'] & Hm'). rewrite Hperm in Hm'.
    apply collect_spec in Hm' as (_ & e & He & Hme). exists e. by rewrite Hv', Hn'.
Qed.

(** File names round-trip: the up-file that the loader reads for a version
    (not negative) and any name is recognised as a migration with that version
    and name. A file whose version is written in another way (without the
    padding, say) gives the same migration, whose files are then looked up in the
    padded names. *)
Theorem migration_file_roundtrip m :
  0 <= Version m -> in_int64 (Version m) ->
  entry_migration (mkEntry (upPath m) false) = Some (Version m, Name m) /\
  entry_migration (mkEntry (digits (Version m) +:+ "_" +:+ Name m +:+ ".up.sql") false)
    = Some (Version m, Name m).
Proof.
  intros Hv Hi. destruct (digits_spec _ Hv) as (Hp & Hne & Hd).
  assert (forall num, sforall is_digit num = true -> Sscanf_d num = Some (Version m) ->
    entry_migration (mkEntry (num +:+ "_" +:+ Name m +:+ ".up.sql") false) = Some (Version m, Name m)) as Hall.
  { intros num Hnum Hs. unfold entry_migration. cbn [de_Name de_IsDir].
    change (num +:+ "_" +:+ Name m +:+ ".up.sql") with (num +:+ ("_" +:+ (Name m +:+ ".up.sql"))).
    rewrite <-!sapp_assoc, HasSuffix_app, TrimSuffix_app. cbn [orb negb].
    rewrite sapp_assoc. change ("_" +:+ Name m) with (String "_" (Name m)).
    rewrite SplitN2_app by by apply digits_not. by rewrite Hs. }
  split; apply Hall.
  - rewrite Format03d_digits by done. by apply zeros_digits.
  - by apply Sscanf_d_Format03d.
  - done.
  - by apply Sscanf_d_digits.
Qed.

(** C35: Splitting inverts writing. A script of statements (of trimmed lines that
    are not empty, not comments and have no semicolon), each ended by a semicolon
    and a line break, splits into exactly those statements; and a comment line
    without a semicolon, anywhere between two lines, is dropped. *)
Theorem splitSQL_roundtrip stmts :
  Forall clean_stmt stmts ->
  splitSQL (sconcat (map (fun st => st +:+ (String ";" nl_str)) stmts)) = stmts /\
  forall c s, no_char nl_char c = true -> no_char ";" c = true ->
    HasPrefix (TrimSpace c) "--" = true -> splitSQL (c +:+ String nl_char s) = splitSQL s.
Proof.
  intros Hs. split.
  - induction Hs as [|st stmts Hst Hs IH]; [done|]. cbn [map sconcat].
    rewrite sapp_assoc. change (String ";" nl_str +:+ ?x) with (String ";" (EmptyString +:+ String nl_char x)).
    rewrite splitSQL_semi, splitSQL_clean, splitSQL_drop_line by done. by rewrite IH.
  - intros c s Hc1 Hc2 Hp. apply splitSQL_drop_line; [done|done|]. unfold kept_line. by rewrite Hp.
Qed.

(** Every statement is ready to send: it is not empty, has no surrounding
    white space and no semicolon; and a semicolon always splits, also in a
    string literal or in a comment, so that the rest of a comment line after a
    semicolon is sent to the server as SQL. *)
Theorem splitSQL_semicolon_always_splits s t :
  splitSQL (s +:+ String ";" t) = splitSQL s ++ splitSQL t /\
  Forall (fun st => st <> EmptyString /\ TrimSpace st = st /\ no_char ";" st = true) (splitSQL s) /\
  splitSQL ("-- one" +:+ String ";" (" two" +:+ nl_str +:+ "SELECT 1;")) = ["two" +:+ nl_str +:+ "SELECT 1"]%string.
Proof.
  split; [apply splitSQL_semi|]. split; [|by vm_compute].
  apply Forall_forall. intros st Hst. apply list_elem_of_In, filter_In in Hst as [Hst Hne].
  apply negb_true_iff, bool_decide_eq_false in Hne.
  apply in_map_iff in Hst as (p & <- & Hp). split_and!; [done|apply statement_trimmed|].
  apply statement_no_semi. pose proof (Split_elems s ";") as He. rewrite Forall_forall in He.
  by apply He, list_elem_of_In.
Qed.

Section properties.
Context {D T : Type} `{MigLaws D T} `{SortLaws}.

Lemma RunMigrations_spec ms d r d' :
  Forall (fun m => Forall foreign (splitSQL (UpSQL m))) ms -> RunMigrations ms d = (r, d') ->
  exists done rest part, plan ms (versions d) = done ++ rest /\
    recorded d' = recorded d ++ records done /\
    journal d' = journal d ++ statements done ++ part /\
    (r = None -> rest = [] /\ part = []) /\
    match rest with [] => part = [] | m :: _ => part `prefix_of` splitSQL (UpSQL m) end.
Proof.
  intros Hf. unfold RunMigrations. destruct (createMigrationsTable d) as [rc d1] eqn:Ec.
  apply createMigrationsTable_spec in Ec as [Hr Hj]. destruct rc as [e|].
  - intros [= <- <-]. exists [], (plan ms (versions d)), []. rewrite Hr, Hj, !app_nil_r.
    split_and!; try done. destruct (plan ms (versions d)); [done|apply prefix_nil].
  - intros Hrun. apply run_loop_spec in Hrun; [|done]. unfold versions in *. by rewrite Hr, Hj in Hrun.
Qed.

(** C21: A run applies what is missing, in order, once. Whatever fails, the rows
    of schema_migrations gain exactly the migrations of a first part of the plan
    (the versions not recorded yet, in the order given, each once); the
    statements executed are all those of that part, then a first part of the
    statements of the next one; and a run that reports no error has done the
    whole plan. *)
Theorem run_migrations_exact ms (d : D) r d' :
  Forall (fun m => Forall foreign (splitSQL (UpSQL m))) ms -> RunMigrations ms d = (r, d') ->
  exists done rest part, plan ms (versions d) = done ++ rest /\
    recorded d' = recorded d ++ records done /\
    journal d' = journal d ++ statements done ++ part /\
    (r = None -> rest = [] /\ part = []) /\
    match rest with [] => part = [] | m :: _ => part `prefix_of` splitSQL (UpSQL m) end.
Proof. apply RunMigrations_spec. Qed.

(** Running again does nothing. After a run without an error every version is
    recorded, and every later run of the same migrations, whatever its outcome,
    executes no statement of theirs and records nothing. *)
Theorem rerun_applies_nothing ms (d : D) d1 r d2 :
  Forall (fun m => Forall foreign (splitSQL (UpSQL m))) ms ->
  RunMigrations ms d = (None, d1) -> RunMigrations ms d1 = (r, d2) ->
  Forall (fun m => Version m ∈ versions d1) ms /\ recorded d2 = recorded d1 /\ journal d2 = journal d1.
Proof.
  intros Hf Hrun1 Hrun2. apply RunMigrations_spec in Hrun1 as (l & rest & part & Hp & Hr & _ & Hn & _); [|done].
  destruct (Hn eq_refl) as [-> _]. rewrite app_nil_r in Hp.
  assert (Forall (fun m => Version m ∈ versions d1) ms) as Hall.
  { apply Forall_forall. intros m Hm. pose proof (plan_covers ms (versions d) m Hm) as Hc.
    unfold versions. rewrite Hr, map_app. unfold records. rewrite map_map, <-Hp. exact Hc. }
  split; [done|]. apply RunMigrations_spec in Hrun2 as (l2 & rest2 & part2 & Hp2 & Hr2 & Hj2 & _ & Hm); [|done].
  rewrite (proj2 (plan_nil _ _) Hall) in Hp2. symmetry in Hp2. apply app_eq_nil in Hp2 as [-> ->].
  simpl in Hm. subst part2. unfold records, statements in *. simpl in *. by rewrite !app_nil_r in *.
Qed.

(** A failed migration starts over. If a run fails and a later one reports no
    error, the database has executed the migrations before the failure, then
    some first statements of the failing migration, and then all its statements
    from the first, and the rest: its first statements have been executed
    twice. *)
Theorem failed_migration_restarts ms (d : D) e d1 d2 :
  Forall (fun m => Forall foreign (splitSQL (UpSQL m))) ms ->
  RunMigrations ms d = (Some e, d1) -> RunMigrations ms d1 = (None, d2) ->
  exists before again part, plan ms (versions d) = before ++ again /\
    match again with [] => part = [] | m :: _ => part `prefix_of` splitSQL (UpSQL m) end /\
    journal d2 = journal d ++ statements before ++ part ++ statements again /\
    recorded d2 = recorded d ++ records (before ++ again).
Proof.
  intros Hf Hrun1 Hrun2.
  apply RunMigrations_spec in Hrun1 as (before & again & part & Hp & Hr & Hj & _ & Hm); [|done].
  apply RunMigrations_spec in Hrun2 as (l2 & rest2 & part2 & Hp2 & Hr2 & Hj2 & Hn2 & _); [|done].
  destruct (Hn2 eq_refl) as [-> ->]. rewrite app_nil_r in Hp2.
  assert (versions d1 = versions d ++ map Version before) as Hv.
  { unfold versions. rewrite Hr, map_app. unfold records. by rewrite map_map. }
  rewrite Hv, (plan_resume _ _ _ _ Hp) in Hp2. subst l2.
  exists before, again, part. split_and!; [done|done| |].
  - rewrite Hj2, Hj, app_nil_r. by rewrite <-!app_assoc.
  - rewrite Hr2, Hr. unfold records. by rewrite map_app, app_assoc.
Qed.

Lemma rollback_loop_spec ms d r d' :
  Forall (fun m => Forall foreign (splitSQL (DownSQL m))) ms ->
  rollback_loop ms d = (r, d') ->
  recorded d' = recorded d /\ journal d' = journal d /\
    (r = None -> Forall (fun x => Version x ∉ versions d) ms) \/
  exists l1 m l2 part, ms = l1 ++ m :: l2 /\ Forall (fun x => Version x ∉ versions d) l1 /\
    Version m ∈ versions d /\ part `prefix_of` splitSQL (DownSQL m) /\ journal d' = journal d ++ part /\
    (recorded d' = List.filter (fun x => negb (x.1 =? Version m)) (recorded d) /\ part = splitSQL (DownSQL m) \/
     r <> None /\ recorded d' = recorded d).
Proof.
  intros Hf. revert d. induction Hf as [|m ms Hm Hf IH]; intros d; cbn [rollback_loop].
  { intros [= <- <-]. left. split_and!; [done|done|constructor]. }
  destruct (isMigrationApplied (Version m) d) as [b|e] eqn:Ea; [|intros [= <- <-]; by left].
  apply isMigrationApplied_spec in Ea as ->. destruct (bool_decide (Version m ∈ versions d)) eqn:E.
  - apply bool_decide_eq_true in E. unfold undo_migration. intros Ht.
    apply (in_tx_spec _ _ _ _ _ _ _ (fun l => List.filter (fun x => negb (x.1 =? Version m)) l)) in Ht
      as (part & Hj & Hpre & Hout); [|done|intros; by apply forget_runs].
    right. exists [], m, ms, part. by split_and!.
  - apply bool_decide_eq_false in E. intros [(? & ? & Hn)|(l1 & x & l2 & part & -> & Hl1 & Hrest)]%IH; [left|right].
    { split_and!; [done|done|]. intros Hr. constructor; [done|by apply Hn]. }
    exists (m :: l1), x, l2, part. split; [done|]. split; [by constructor|done].
Qed.

Lemma RollbackMigration_spec ms (d : D) r ms' d' :
  Forall (fun m => Forall foreign (splitSQL (DownSQL m))) ms ->
  RollbackMigration ms d = (r, ms', d') ->
  Permutation ms' ms /\
  (recorded d' = recorded d /\ journal d' = journal d /\
     (r = None -> Forall (fun x => Version x ∉ versions d) ms) \/
   exists m part, m ∈ ms /\ Version m ∈ versions d /\
     Forall (fun x => Version x ∈ versions d -> Version x <= Version m) ms /\
     part `prefix_of` splitSQL (DownSQL m) /\ journal d' = journal d ++ part /\
     (recorded d' = List.filter (fun x => negb (x.1 =? Version m)) (recorded d) /\ part = splitSQL (DownSQL m) \/
      r <> None /\ recorded d' = recorded d)).
Proof.
  intros Hf. unfold RollbackMigration. destruct (createMigrationsTable d) as [[e|] d1] eqn:Ec;
    apply createMigrationsTable_spec in Ec as [Hr Hj].
  { intros [= <- <- <-]. split; [done|]. by left. }
  set (sorted := sort_Slice _ ms). assert (Permutation sorted ms) as Hperm by apply sort_permutes.
  destruct (rollback_loop sorted d1) as [r1 d2] eqn:El. intros [= <- <- <-]. split; [done|].
  apply rollback_loop_spec in El; [|by rewrite Hperm].
  unfold versions in *. rewrite Hr, Hj in El.
  destruct El as [(? & ? & Hn)|(l1 & m & l2 & part & Hs & Hl1 & Hm & Hpre & Hj2 & Hout)]; [left|right].
  { split_and!; [done|done|]. intros Hn1. rewrite <-Hperm. by apply Hn. }
  exists m, part. split_and!; try done.
  - rewrite <-Hperm, Hs. apply elem_of_app. right. by left.
  - rewrite <-Hperm, Hs. apply Forall_app. split.
    + eapply Forall_impl; [exact Hl1|]. intros x Hx ?. done.
    + pose proof (proj2 (sort_sorted _ Version ms)) as Hsorted. fold sorted in Hsorted. rewrite Hs in Hsorted.
      assert (Transitive (fun a b => Version b <= Version a)) by (intros a b c; lia).
      apply Sorted_StronglySorted in Hsorted; [|done]. apply StronglySorted_app in Hsorted as (_ & _ & Hs2).
      apply StronglySorted_inv in Hs2 as [_ Hs2]. constructor; [done|].
      eapply Forall_impl; [exact Hs2|]. done.
Qed.
(** C22: A rollback undoes the latest applied migration and no other. With an
    error or without, the statements executed are a first part of the down
    statements of one migration, the applied one with the greatest version, and
    the only row that may have gone is that version's; without an error they are
    all of them and the row is gone, unless no migration of the list was applied
    and nothing has changed. The caller's list is left in descending order. *)
Theorem rollback_undoes_latest ms (d : D) r ms' d' :
  Forall (fun m => Forall foreign (splitSQL (DownSQL m))) ms ->
  RollbackMigration ms d = (r, ms', d') ->
  Permutation ms' ms /\
  (recorded d' = recorded d /\ journal d' = journal d /\
     (r = None -> Forall (fun x => Version x ∉ versions d) ms) \/
   exists m part, m ∈ ms /\ Version m ∈ versions d /\
     Forall (fun x => Version x ∈ versions d -> Version x <= Version m) ms /\
     part `prefix_of` splitSQL (DownSQL m) /\ journal d' = journal d ++ part /\
     (recorded d' = List.filter (fun x => negb (x.1 =? Version m)) (recorded d) /\ part = splitSQL (DownSQL m) \/
      r <> None /\ recorded d' = recorded d)).
Proof. apply RollbackMigration_spec. Qed.
End properties.

(** ** The theorems at concrete inputs *)

Module MigDemo.
Definition m1 : Migration := mkMigration 1 "init" "CREATE TABLE a (id INT); CREATE TABLE b (id INT);" "DROP TABLE a;".
Definition m2 : Migration := mkMigration 2 "index" "ALTER TABLE a ADD c INT;" "ALTER TABLE a DROP c;".
Definition both : list Migration := [m1; m2].

(** The first run breaks at the second statement; the next ones do not. *)
Definition db0 : MemMig :=
  mkMemMig [] [] 0 (fun n q => (n =? 1)%nat && bool_decide (q = "CREATE TABLE b (id INT)"%string)).
Definition db1 : MemMig := (RunMigrations both db0).2.
Definition db2 : MemMig := (RunMigrations both db1).2.
Definition db3 : MemMig := (RollbackMigration both db2).2.

Definition file (m : Migration) (p : string) : option string :=
  if bool_decide (p = upPath m) then Some (UpSQL m)
  else if bool_decide (p = downPath m) then Some (DownSQL m) else None.

(** The files of both migrations, and one that is not a migration. *)
Definition fsys : FS := mkFS
  (Ok [mkEntry (downPath m1) false; mkEntry (upPath m1) false; mkEntry (downPath m2) false;
       mkEntry (upPath m2) false; mkEntry "README.up.sql" false])
  (fun _ => Err (EText "invalid"))
  (fun p => match file m1 p with
            | Some s => Ok s
            | None => match file m2 p with Some s => Ok s | None => Err ErrDriver end
            end).

Lemma all_foreign (f : Migration -> string) ms :
  Forall (fun m => Forall (foreign (D := MemMig) (T := MemMigTx)) (splitSQL (f m))) ms.
Proof. apply Forall_forall. intros m _. by apply Forall_forall. Qed.

Lemma run1_fails : RunMigrations both db0 = (Some (EWrap "apply migration 1" ErrDriver), db1).
Proof. reflexivity. Qed.
Lemma run2_ok : RunMigrations both db1 = (None, db2).
Proof. reflexivity. Qed.

Definition stmts : list string := ["SELECT 1"; "CREATE TABLE t (" +:+ nl_str +:+ "id INT" +:+ nl_str +:+ ")"]%string.

Lemma stmts_clean : Forall clean_stmt stmts.
Proof.
  repeat constructor.
  - exists ["SELECT 1"%string]. split_and!; [done| |done]. repeat constructor.
  - exists ["CREATE TABLE t ("; "id INT"; ")"]%string. split_and!; [done| |done]. repeat constructor.
Qed.
End MigDemo.

Lemma load_migrations_exact_witness :
  exists ms, LoadMigrations MigDemo.fsys = Ok ms /\ Sorted (fun a b => Version a <= Version b) ms.
Proof.
  exists [MigDemo.m1; MigDemo.m2].
  assert (LoadMigrations MigDemo.fsys = Ok [MigDemo.m1; MigDemo.m2]) as Hl by (vm_compute; reflexivity).
  split; [exact Hl|]. destruct (load_migrations_exact _ _ Hl) as (fsys' & entries & _ & Hs & _). exact Hs.
Defined.

Lemma migration_file_roundtrip_witness :
  entry_migration (mkEntry "012_add_index.up.sql" false) = Some (12, "add_index"%string).
Proof. apply (migration_file_roundtrip (mkMigration 12 "add_index" "" "")); by vm_compute. Defined.

Lemma splitSQL_roundtrip_witness :
  splitSQL ("SELECT 1;" +:+ nl_str +:+ "CREATE TABLE t (" +:+ nl_str +:+ "id INT" +:+ nl_str +:+ ");" +:+ nl_str)
  = MigDemo.stmts.
Proof. exact (proj1 (splitSQL_roundtrip MigDemo.stmts MigDemo.stmts_clean)). Defined.

Lemma run_migrations_exact_witness :
  exists done rest, MigDemo.both = done ++ rest /\ recorded MigDemo.db1 = records done.
Proof.
  destruct (run_migrations_exact _ _ _ _ (MigDemo.all_foreign UpSQL _) MigDemo.run1_fails)
    as (l & rest & part & Hp & Hr & _).
  exists l, rest. split; [exact Hp|exact Hr].
Defined.

Lemma rerun_applies_nothing_witness :
  journal (RunMigrations MigDemo.both MigDemo.db2).2 = journal MigDemo.db2.
Proof.
  apply (rerun_applies_nothing MigDemo.both MigDemo.db1 MigDemo.db2 (RunMigrations MigDemo.both MigDemo.db2).1).
  - exact (MigDemo.all_foreign UpSQL _).
  - exact MigDemo.run2_ok.
  - reflexivity.
Defined.

Lemma failed_migration_restarts_witness :
  exists before again part, MigDemo.both = before ++ again /\
    journal MigDemo.db2 = statements before ++ part ++ statements again.
Proof.
  destruct (failed_migration_restarts _ _ _ _ _ (MigDemo.all_foreign UpSQL _) MigDemo.run1_fails MigDemo.run2_ok)
    as (before & again & part & Hp & _ & Hj & _).
  exists before, again, part. split; [exact Hp|exact Hj].
Defined.

Lemma rollback_undoes_latest_witness :
  Permutation (RollbackMigration MigDemo.both MigDemo.db2).1.2 MigDemo.both.
Proof.
  apply (rollback_undoes_latest MigDemo.both MigDemo.db2 (RollbackMigration MigDemo.both MigDemo.db2).1.1 _
    MigDemo.db3 (MigDemo.all_foreign DownSQL _)).
  reflexivity.
Defined.
