(* ===== verification/Schema.v ===== *)
(** * The shipped migrations (internal/db/embed.go, internal/db/migrations)

    The embedded files as the program carries them, what loading and splitting
    make of them, and the tables they leave. *)

From S2P Require Export Migrate.

Open Scope Z_scope.

(** ** The files *)

Definition create_mailbox_tables_up : string := "-- Create mailbox tables for lite-mail
-- Up migration: 001_create_mailbox_tables

-- Messages table: stores parsed email metadata and raw MIME path reference
CREATE TABLE IF NOT EXISTS messages (
    id BIGINT AUTO_INCREMENT PRIMARY KEY,
    cloudflare_message_id VARCHAR(255) NOT NULL,
    content_hash VARCHAR(64) NOT NULL COMMENT 'SHA-256 hash for deduplication',
    sender VARCHAR(500) NOT NULL COMMENT 'Canonicalized sender email',
    subject VARCHAR(1000),
    message_date DATETIME NOT NULL COMMENT 'Date from email header',
    received_at DATETIME NOT NULL COMMENT 'When we received the message',
    text_body LONGTEXT CHARACTER SET utf8mb4 COLLATE utf8mb4_unicode_ci,
    html_body LONGTEXT CHARACTER SET utf8mb4 COLLATE utf8mb4_unicode_ci,
    raw_mime_path VARCHAR(1000) NOT NULL COMMENT 'Path to raw MIME in DATA_DIR/raw/',
    parser_status ENUM('success', 'partial', 'failed') NOT NULL DEFAULT 'success',
    parser_error TEXT,
    created_at DATETIME NOT NULL DEFAULT CURRENT_TIMESTAMP,
    updated_at DATETIME NOT NULL DEFAULT CURRENT_TIMESTAMP ON UPDATE CURRENT_TIMESTAMP,
    INDEX idx_messages_content_hash (content_hash),
    INDEX idx_messages_sender (sender),
    INDEX idx_messages_received_at (received_at)
) ENGINE=InnoDB DEFAULT CHARSET=utf8mb4 COLLATE=utf8mb4_unicode_ci;

-- Message recipients table: normalized recipient list
CREATE TABLE IF NOT EXISTS message_recipients (
    id BIGINT AUTO_INCREMENT PRIMARY KEY,
    message_id BIGINT NOT NULL,
    recipient_email VARCHAR(500) NOT NULL COMMENT 'Canonicalized recipient email',
    recipient_type ENUM('to', 'cc', 'bcc') NOT NULL,
    received_at DATETIME NOT NULL COMMENT 'When the message was received (copied from messages.received_at)',
    created_at DATETIME NOT NULL DEFAULT CURRENT_TIMESTAMP,
    FOREIGN KEY (message_id) REFERENCES messages(id) ON DELETE CASCADE,
    INDEX idx_recipients_email_received (recipient_email, received_at)
) ENGINE=InnoDB DEFAULT CHARSET=utf8mb4 COLLATE=utf8mb4_unicode_ci;

-- Attachments table: metadata only, files stored on filesystem
CREATE TABLE IF NOT EXISTS attachments (
    id BIGINT AUTO_INCREMENT PRIMARY KEY,
    message_id BIGINT NOT NULL,
    storage_key VARCHAR(500) NOT NULL COMMENT 'Safe generated path in DATA_DIR/attachments/',
    original_filename VARCHAR(500) COMMENT 'Original filename metadata only, not used in path',
    mime_type VARCHAR(255) NOT NULL,
    size_bytes BIGINT NOT NULL,
    content_hash VARCHAR(64) NOT NULL COMMENT 'SHA-256 hash for integrity',
    created_at DATETIME NOT NULL DEFAULT CURRENT_TIMESTAMP,
    FOREIGN KEY (message_id) REFERENCES messages(id) ON DELETE CASCADE,
    INDEX idx_attachments_message_id (message_id),
    UNIQUE INDEX idx_attachments_storage_key (storage_key)
) ENGINE=InnoDB DEFAULT CHARSET=utf8mb4 COLLATE=utf8mb4_unicode_ci;

-- Ingest events table: dedupe tracking via cloudflare_message_id + content_hash
CREATE TABLE IF NOT EXISTS ingest_events (
    id BIGINT AUTO_INCREMENT PRIMARY KEY,
    cloudflare_message_id VARCHAR(255) NOT NULL,
    content_hash VARCHAR(64) NOT NULL,
    status ENUM('accepted', 'duplicate', 'rejected') NOT NULL,
    created_at DATETIME NOT NULL DEFAULT CURRENT_TIMESTAMP,
    UNIQUE INDEX idx_ingest_dedupe (cloudflare_message_id, content_hash)
) ENGINE=InnoDB DEFAULT CHARSET=utf8mb4 COLLATE=utf8mb4_unicode_ci;

-- Fulltext index for search: sender + subject + text_body
-- Applied separately for MariaDB compatibility
ALTER TABLE messages ADD FULLTEXT INDEX ft_messages_search (sender, subject, text_body);
".

Definition create_mailbox_tables_down : string := "-- Rollback mailbox tables for lite-mail
-- Down migration: 001_create_mailbox_tables

ALTER TABLE messages DROP INDEX ft_messages_search;
DROP TABLE IF EXISTS ingest_events;
DROP TABLE IF EXISTS attachments;
DROP TABLE IF EXISTS message_recipients;
DROP TABLE IF EXISTS messages;
".

Definition add_share_and_delivery_tables_up : string := "-- Share tokens table: one permanent token per message
CREATE TABLE IF NOT EXISTS share_tokens (
    id BIGINT AUTO_INCREMENT PRIMARY KEY,
    message_id BIGINT NOT NULL,
    token VARCHAR(128) NOT NULL COMMENT 'crypto-random 64-char hex token (32 bytes)',
    created_at DATETIME NOT NULL DEFAULT CURRENT_TIMESTAMP,
    UNIQUE INDEX idx_share_tokens_token (token),
    INDEX idx_share_tokens_message_id (message_id),
    FOREIGN KEY (message_id) REFERENCES messages(id) ON DELETE CASCADE
) ENGINE=InnoDB DEFAULT CHARSET=utf8mb4 COLLATE=utf8mb4_unicode_ci;

-- Telegram delivery status table: one record per message attempt
CREATE TABLE IF NOT EXISTS telegram_deliveries (
    id BIGINT AUTO_INCREMENT PRIMARY KEY,
    message_id BIGINT NOT NULL,
    status ENUM('pending','skipped','sent','failed') NOT NULL DEFAULT 'pending',
    last_error TEXT,
    attempted_at DATETIME,
    sent_at DATETIME,
    created_at DATETIME NOT NULL DEFAULT CURRENT_TIMESTAMP,
    updated_at DATETIME NOT NULL DEFAULT CURRENT_TIMESTAMP ON UPDATE CURRENT_TIMESTAMP,
    UNIQUE INDEX idx_telegram_deliveries_message_id (message_id),
    FOREIGN KEY (message_id) REFERENCES messages(id) ON DELETE CASCADE
) ENGINE=InnoDB DEFAULT CHARSET=utf8mb4 COLLATE=utf8mb4_unicode_ci;
".

Definition add_share_and_delivery_tables_down : string := "DROP TABLE IF EXISTS telegram_deliveries;
DROP TABLE IF EXISTS share_tokens;
".

Definition drop_share_and_delivery_tables_up : string := "-- Drop the share_tokens and telegram_deliveries tables.
--
-- These tables were created by migration 002 to support Go-side
-- public share-link rendering (/share/{token}) and Telegram delivery
-- status tracking. Both responsibilities have been retired in favor
-- of the Cloudflare Worker, which now hosts:
--   * /email/:id?mode=text|html   (preview surfaces, replacement for /share/{token})
--   * Telegram delivery (no Go-side audit row needed)
--
-- Safe to drop: no production code reads or writes these tables after
-- task 5 (ingest) and task 6 (share routes / share handler / db helpers)
-- of the worker-owns-telegram-delivery plan.
DROP TABLE IF EXISTS telegram_deliveries;
DROP TABLE IF EXISTS share_tokens;
".

Definition drop_share_and_delivery_tables_down : string := "-- Recreate share_tokens and telegram_deliveries.
--
-- This is the symmetric inverse of 003_drop_share_and_delivery_tables.up.sql.
-- The shapes below match 002_add_share_and_delivery_tables.up.sql verbatim
-- so that `migrate down` followed by `migrate up` leaves the database in
-- the same state as before this migration.
--
-- Share tokens table: one permanent token per message
CREATE TABLE IF NOT EXISTS share_tokens (
    id BIGINT AUTO_INCREMENT PRIMARY KEY,
    message_id BIGINT NOT NULL,
    token VARCHAR(128) NOT NULL COMMENT 'crypto-random 64-char hex token (32 bytes)',
    created_at DATETIME NOT NULL DEFAULT CURRENT_TIMESTAMP,
    UNIQUE INDEX idx_share_tokens_token (token),
    INDEX idx_share_tokens_message_id (message_id),
    FOREIGN KEY (message_id) REFERENCES messages(id) ON DELETE CASCADE
) ENGINE=InnoDB DEFAULT CHARSET=utf8mb4 COLLATE=utf8mb4_unicode_ci;

-- Telegram delivery status table: one record per message attempt
CREATE TABLE IF NOT EXISTS telegram_deliveries (
    id BIGINT AUTO_INCREMENT PRIMARY KEY,
    message_id BIGINT NOT NULL,
    status ENUM('pending','skipped','sent','failed') NOT NULL DEFAULT 'pending',
    last_error TEXT,
    attempted_at DATETIME,
    sent_at DATETIME,
    created_at DATETIME NOT NULL DEFAULT CURRENT_TIMESTAMP,
    updated_at DATETIME NOT NULL DEFAULT CURRENT_TIMESTAMP ON UPDATE CURRENT_TIMESTAMP,
    UNIQUE INDEX idx_telegram_deliveries_message_id (message_id),
    FOREIGN KEY (message_id) REFERENCES messages(id) ON DELETE CASCADE
) ENGINE=InnoDB DEFAULT CHARSET=utf8mb4 COLLATE=utf8mb4_unicode_ci;
".

Definition mailbox_tables : Migration :=
  mkMigration 1 "create_mailbox_tables" create_mailbox_tables_up create_mailbox_tables_down.
Definition share_tables : Migration :=
  mkMigration 2 "add_share_and_delivery_tables" add_share_and_delivery_tables_up add_share_and_delivery_tables_down.
Definition no_share_tables : Migration :=
  mkMigration 3 "drop_share_and_delivery_tables" drop_share_and_delivery_tables_up drop_share_and_delivery_tables_down.

Definition shipped : list Migration := [mailbox_tables; share_tables; no_share_tables].

(** All their statements, in both directions. *)
Definition shipped_statements : list string :=
  concat (map (fun m => splitSQL (UpSQL m) ++ splitSQL (DownSQL m)) shipped).

Lemma elem_of_concat_map {A B} (f : A -> list B) l x y : x ∈ l -> y ∈ f x -> y ∈ concat (map f l).
Proof.
  intros Hx Hy. induction Hx as [l|x z l Hx IH]; cbn [map concat]; apply elem_of_app; [by left|by right; apply IH].
Qed.

Lemma shipped_up m q : m ∈ shipped -> q ∈ splitSQL (UpSQL m) -> q ∈ shipped_statements.
Proof.
  intros Hm Hq. refine (elem_of_concat_map (fun m => splitSQL (UpSQL m) ++ splitSQL (DownSQL m)) shipped m q Hm _).
  apply elem_of_app. by left.
Qed.

Lemma shipped_down m q : m ∈ shipped -> q ∈ splitSQL (DownSQL m) -> q ∈ shipped_statements.
Proof.
  intros Hm Hq. refine (elem_of_concat_map (fun m => splitSQL (UpSQL m) ++ splitSQL (DownSQL m)) shipped m q Hm _).
  apply elem_of_app. by right.
Qed.

Fixpoint read_shipped (l : list Migration) (path : string) : result string :=
  match l with
  | [] => Err (EText "file does not exist")
  | m :: l' =>
      if bool_decide (path = upPath m) then Ok (UpSQL m)
      else if bool_decide (path = downPath m) then Ok (DownSQL m)
      else read_shipped l' path
  end.

(** The directory: its entries in the order of their names. *)
Definition migrations_dir : FS := mkFS
  (Ok (concat (map (fun m => [mkEntry (downPath m) false; mkEntry (upPath m) false]) shipped)))
  (fun _ => Err (EText "file does not exist"))
  (read_shipped shipped).

(** [//go:embed migrations] *)
Definition MigrationsFS : FS := mkFS
  (Ok [mkEntry "migrations" true])
  (fun dir => if bool_decide (dir = "migrations"%string) then Ok migrations_dir else Err (EText "file does not exist"))
  (fun _ => Err (EText "file does not exist")).

(** ** What the statements do to the tables

    [ddl] is the documented effect of the four kinds of statements in these files
    on the tables, the indexes added later and the foreign keys; [None] is an error of
    the database. *)

(** The words of a text, cut at white space, commas, parentheses and quotes. *)
Definition word_break (c : ascii) : bool :=
  sexists (fun d => bool_decide (c = d)) " ,()'" || bool_decide (c = nl_char).

Fixpoint words_from (acc : string) (s : string) : list string :=
  match s with
  | EmptyString => match acc with EmptyString => [] | _ => [acc] end
  | String c s' =>
      if word_break c then match acc with EmptyString => words_from EmptyString s'
                                        | _ => acc :: words_from EmptyString s' end
      else words_from (acc +:+ String c EmptyString) s'
  end.
Definition words (s : string) : list string := words_from EmptyString s.

(** Tables, indexes added after the creation of their table, and the foreign keys
    (a table with one it refers to). *)
Record Schema := mkSchema {
  sc_tables : list string; sc_indexes : list (string * string); sc_refs : list (string * string)
}.
Definition no_tables : Schema := mkSchema [] [] [].

#[export] Instance Schema_eq_dec : EqDecision Schema.
Proof. solve_decision. Defined.

(** The tables that a definition refers to. *)
Fixpoint references (ws : list string) : list string :=
  match ws with
  | [] => []
  | w :: ws' =>
      match ws' with
      | t :: _ => if bool_decide (w = "REFERENCES"%string) then t :: references ws' else references ws'
      | [] => []
      end
  end.

Definition create_table (t : string) (refs : list string) (s : Schema) : option Schema :=
  if bool_decide (t ∈ sc_tables s) then Some s
  else if forallb (fun p => bool_decide (p ∈ sc_tables s)) refs
  then Some (mkSchema (sc_tables s ++ [t]) (sc_indexes s) (sc_refs s ++ map (pair t) refs))
  else None.

(** A table that another one refers to cannot be dropped. *)
Definition drop_table (t : string) (s : Schema) : option Schema :=
  if existsb (fun x => bool_decide (x.2 = t)) (sc_refs s) then None
  else Some (mkSchema (List.filter (fun x => negb (bool_decide (x = t))) (sc_tables s))
                      (List.filter (fun x => negb (bool_decide (x.1 = t))) (sc_indexes s))
                      (List.filter (fun x => negb (bool_decide (x.1 = t))) (sc_refs s))).

Definition add_index (t i : string) (s : Schema) : option Schema :=
  if bool_decide (t ∈ sc_tables s /\ (t, i) ∉ sc_indexes s)
  then Some (mkSchema (sc_tables s) (sc_indexes s ++ [(t, i)]) (sc_refs s)) else None.
Definition drop_index (t i : string) (s : Schema) : option Schema :=
  if bool_decide ((t, i) ∈ sc_indexes s)
  then Some (mkSchema (sc_tables s) (List.filter (fun x => negb (bool_decide (x = (t, i)))) (sc_indexes s)) (sc_refs s))
  else None.

Definition ddl (s : Schema) (stmt : string) : option Schema :=
  match words stmt with
  | "CREATE" :: "TABLE" :: "IF" :: "NOT" :: "EXISTS" :: t :: ws => create_table t (references ws) s
  | "ALTER" :: "TABLE" :: t :: "ADD" :: "FULLTEXT" :: "INDEX" :: i :: _ => add_index t i s
  | "ALTER" :: "TABLE" :: t :: "DROP" :: "INDEX" :: i :: _ => drop_index t i s
  | "DROP" :: "TABLE" :: "IF" :: "EXISTS" :: t :: _ => drop_table t s
  | _ => None
  end%string.

Fixpoint ddl_all (s : Schema) (stmts : list string) : option Schema :=
  match stmts with
  | [] => Some s
  | q :: stmts' => s' ← ddl s q; ddl_all s' stmts'
  end.

(** The schema after the first [k] migrations. *)
Definition schema_at (k : nat) : option Schema := ddl_all no_tables (statements (take k shipped)).

Definition mail_tables : list string := ["messages"; "message_recipients"; "attachments"; "ingest_events"]%string.
Definition search_index : string * string := ("messages", "ft_messages_search")%string.

Lemma ddl_all_app s l l' : ddl_all s (l ++ l') = ddl_all s l ≫= fun s' => ddl_all s' l'.
Proof.
  revert s. induction l as [|q l IH]; intros s; [done|]. cbn [app ddl_all].
  destruct (ddl s q); [apply IH|done].
Qed.

Lemma schema_3 :
  schema_at 3 = Some (mkSchema mail_tables [search_index]
    [("message_recipients", "messages"); ("attachments", "messages")]%string).
Proof. vm_compute. reflexivity. Qed.

(** *** Loading *)

(** A list in ascending order, without two elements of the same key, is what
    sorting gives back. *)
Lemma sort_ascending `{SortLaws} {A} (key : A -> Z) l :
  Sorted (fun a b => key a <= key b) l ->
  (forall x y, x ∈ l -> y ∈ l -> key x = key y -> x = y) ->
  sort_Slice (fun a b => key a <? key b) l = l.
Proof.
  intros Hl Hinj. destruct (sort_sorted A key l) as [Hs _].
  pose proof (sort_permutes A (fun a b => key a <? key b) l) as Hp.
  assert (Transitive (fun a b => key a <= key b)) as Ht by (intros a b c; lia).
  apply Sorted_StronglySorted in Hs, Hl; [|done..].
  apply (StronglySorted_unique_strong (fun a b => key a <= key b)); [|done..].
  intros x y Hx Hy H1 H2. rewrite Hp in Hx. apply Hinj; [done..|lia].
Qed.

Lemma shipped_versions x y : x ∈ shipped -> y ∈ shipped -> Version x = Version y -> x = y.
Proof.
  unfold shipped. rewrite !elem_of_cons. intros Hx Hy Hv.
  destruct Hx as [->|[->|[->|[]%elem_of_nil]]], Hy as [->|[->|[->|[]%elem_of_nil]]];
    first [reflexivity|discriminate Hv].
Qed.

(** The listing names the three migrations; their texts are read later. *)
Definition unread (m : Migration) : Migration := mkMigration (Version m) (Name m) "" "".

Lemma collect_shipped : forall entries, fs_ReadDir migrations_dir = Ok entries -> collect entries ∅ = map unread shipped.
Proof. intros entries [= <-]. vm_compute. reflexivity. Qed.

Lemma read_shipped_all : read_sql migrations_dir (map unread shipped) = Ok shipped.
Proof. vm_compute. reflexivity. Qed.

Lemma load_shipped `{SortLaws} : LoadMigrations MigrationsFS = Ok shipped.
Proof.
  unfold LoadMigrations, MigrationsFS. cbn [fs_ReadDir fs_Sub].
  rewrite bool_decide_eq_true_2 by done.
  change (negb (hasUpMigration [mkEntry "migrations" true]) && hasDir [mkEntry "migrations" true] "migrations") with true.
  cbv iota. destruct (fs_ReadDir migrations_dir) as [entries|e] eqn:E; [|discriminate E].
  rewrite (collect_shipped _ E), (sort_ascending Version); [apply read_shipped_all| |].
  - repeat constructor; by vm_compute.
  - intros x y Hx Hy Hv. apply list_elem_of_fmap in Hx as (x' & -> & Hx), Hy as (y' & -> & Hy).
    f_equal. by apply shipped_versions.
Qed.

(** *** Applying and rolling back *)

Definition shipped_upto (k : nat) : list Z := map fst (records (take k shipped)).

(** The down statements of the latest migration lead one step back. *)
Lemma latest_applied k m :
  (k <= 3)%nat -> m ∈ shipped -> Version m ∈ shipped_upto k ->
  Forall (fun x => Version x ∈ shipped_upto k -> Version x <= Version m) shipped ->
  List.filter (fun x => negb (x.1 =? Version m)) (records (take k shipped)) = records (take (pred k) shipped) /\
  (schema_at k ≫= fun s => ddl_all s (splitSQL (DownSQL m))) = schema_at (pred k).
Proof.
  intros Hk Hm Hin Hmax. unfold shipped in Hm. rewrite !elem_of_cons in Hm.
  apply (bool_decide_pack _) in Hin, Hmax.
  do 4 (destruct k as [|k]; [destruct Hm as [->|[->|[->|[]%elem_of_nil]]];
    vm_compute in Hin; vm_compute in Hmax; first [contradiction|split; vm_compute; reflexivity]|]). lia.
Qed.

Lemma none_applied k : Forall (fun x => Version x ∉ shipped_upto k) shipped -> k = 0%nat.
Proof.
  destruct k as [|k]; [done|]. intros Hno%Forall_cons. destruct Hno as [Hno _]. destruct Hno. by left.
Qed.

Section steps.
Context {D T : Type} `{MigLaws D T} `{SortLaws}.
Context (shipped_foreign : Forall (foreign (D := D) (T := T)) shipped_statements).

(** The database stands after the first [k] migrations. *)
Definition stands_at (k : nat) (d : D) : Prop :=
  recorded d = records (take k shipped) /\ ddl_all no_tables (journal d) = schema_at k.

Lemma foreign_up : Forall (fun m => Forall (foreign (D := D) (T := T)) (splitSQL (UpSQL m))) shipped.
Proof using shipped_foreign.
  apply Forall_forall. intros m Hm. apply Forall_forall. intros q Hq.
  rewrite Forall_forall in shipped_foreign. by eapply shipped_foreign, shipped_up.
Qed.

Lemma foreign_down : Forall (fun m => Forall (foreign (D := D) (T := T)) (splitSQL (DownSQL m))) shipped.
Proof using shipped_foreign.
  apply Forall_forall. intros m Hm. apply Forall_forall. intros q Hq.
  rewrite Forall_forall in shipped_foreign. by eapply shipped_foreign, shipped_down.
Qed.

Lemma stands_at_run k d d' :
  (k <= 3)%nat -> stands_at k d -> RunMigrations shipped d = (None, d') -> stands_at 3 d'.
Proof using All.
  intros Hk [Hr Hj] Hrun.
  apply RunMigrations_spec in Hrun as (l & rest & part & Hp & Hr' & Hj' & Hn & _); [|exact foreign_up].
  destruct (Hn eq_refl) as [-> ->]. rewrite app_nil_r in Hp, Hj'.
  assert (l = drop k shipped) as ->.
  { rewrite <-Hp. unfold versions. rewrite Hr. do 4 (destruct k as [|k]; [vm_compute; reflexivity|]). lia. }
  split.
  - rewrite Hr', Hr. unfold records. rewrite <-map_app. by rewrite take_drop.
  - rewrite Hj', ddl_all_app, Hj. do 4 (destruct k as [|k]; [vm_compute; reflexivity|]). lia.
Qed.

Lemma stands_at_rollback k d ms' d' :
  (k <= 3)%nat -> stands_at k d -> RollbackMigration shipped d = (None, ms', d') -> stands_at (pred k) d'.
Proof using All.
  intros Hk [Hr Hj] Hrun.
  apply RollbackMigration_spec in Hrun as [_ Hrun]; [|exact foreign_down].
  assert (versions d = shipped_upto k) as Hv by (unfold versions; by rewrite Hr).
  destruct Hrun as [(Hr' & Hj' & Hno)|(m & part & Hm & Hin & Hmax & _ & Hj' & Hout)].
  - rewrite Hv in Hno. assert (k = 0%nat) as -> by (by apply none_applied, Hno).
    split; [by rewrite Hr'|by rewrite Hj'].
  - destruct Hout as [[Hr' ->]|[Hc _]]; [|done]. rewrite Hv in Hin, Hmax.
    destruct (latest_applied k m Hk Hm Hin Hmax) as [Hrec Hback].
    split; [by rewrite Hr', Hr|]. rewrite Hj', ddl_all_app, Hj. exact Hback.
Qed.
End steps.

(** *** A migration that cannot be repeated *)

(** A database that gives the statements of the shipped migrations their documented
    effect: one of them that the tables do not admit, such as an index that exists
    already, is refused and not executed. *)
Class FollowsDDL (D T : Type) `{MigLaws D T} : Prop := {
  exec_follows : forall q t r t', q ∈ shipped_statements -> mtx_Exec q [] t = (r, t') ->
    is_Some (ddl_all no_tables (tx_journal t)) -> is_Some (ddl_all no_tables (tx_journal t'))
}.

Section follows.
Context {D T : Type} `{FollowsDDL D T} `{SortLaws}.
Context (shipped_foreign : Forall (foreign (D := D) (T := T)) shipped_statements).

Definition sound (d : D) : Prop := is_Some (ddl_all no_tables (journal d)).

Lemma exec_all_follows stmts t r t' :
  Forall (.∈ shipped_statements) stmts -> exec_all stmts t = (r, t') -> is_Some (ddl_all no_tables (tx_journal t)) ->
  is_Some (ddl_all no_tables (tx_journal t')).
Proof using All.
  intros Hall. revert t. induction Hall as [|q stmts Hq _ IH]; intros t; cbn [exec_all]; [by intros [= <- <-]|].
  destruct (mtx_Exec q [] t) as [[u|e] t1] eqn:E; intros Ht Hs; pose proof (exec_follows _ _ _ _ Hq E Hs); [by eapply IH|].
  by injection Ht as <- <-.
Qed.

Lemma up_shipped m : m ∈ shipped -> Forall (.∈ shipped_statements) (splitSQL (UpSQL m)).
Proof using Type. intros Hm. apply Forall_forall. intros q. by apply shipped_up. Qed.

Lemma apply_follows m d r d' : m ∈ shipped -> apply_migration m d = (r, d') -> sound d -> sound d'.
Proof using All.
  intros Hm. unfold apply_migration, in_tx, sound. destruct (mdb_Begin d) as [t|e] eqn:Eb; [|by intros [= <- <-]].
  apply begin_keeps in Eb as (_ & _ & <-). destruct (exec_all _ t) as [[e|] t1] eqn:Ee; intros Hrun Hs;
    pose proof (exec_all_follows _ _ _ _ (up_shipped m Hm) Ee Hs) as Hs1.
  { injection Hrun as <- <-. by rewrite (proj2 (rollback_runs t1)). }
  destruct (mtx_Exec sql_record_migration _ t1) as [[u|e] t2] eqn:Ex; pose proof (record_runs _ _ _ _ _ Ex) as (Hj & _).
  - destruct (mtx_Commit t2) as [[u2|e] d2] eqn:Ec; pose proof (commit_runs _ _ _ Ec) as (Hc & _);
      injection Hrun as <- <-; by rewrite Hc, Hj.
  - injection Hrun as <- <-. by rewrite (proj2 (rollback_runs t2)), Hj.
Qed.

Lemma run_loop_follows ms d r d' : Forall (.∈ shipped) ms -> run_loop ms d = (r, d') -> sound d -> sound d'.
Proof using All.
  intros Hall. revert d. induction Hall as [|m ms Hm _ IH]; intros d; cbn [run_loop]; [by intros [= <- <-]|].
  destruct (isMigrationApplied _ d) as [[]|e]; [by apply IH| |by intros [= <- <-]].
  destruct (apply_migration m d) as [[e|] d1] eqn:E; intros Hrun Hs; pose proof (apply_follows _ _ _ _ Hm E Hs); [|by eapply IH].
  by injection Hrun as <- <-.
Qed.

Lemma run_follows d r d' : RunMigrations shipped d = (r, d') -> sound d -> sound d'.
Proof using All.
  unfold RunMigrations, sound. destruct (createMigrationsTable d) as [[e|] d1] eqn:E;
    apply createMigrationsTable_spec in E as [_ Hj]; rewrite <-Hj; [by intros [= <- <-]|].
  apply run_loop_follows. by apply Forall_forall.
Qed.

(** The index is there and its migration is not recorded. *)
Definition stuck (d : D) : Prop :=
  recorded d = [] /\ exists s, ddl_all no_tables (journal d) = Some s /\ search_index ∈ sc_indexes s.

Lemma create_keeps_index t refs s s' : create_table t refs s = Some s' -> sc_indexes s' = sc_indexes s.
Proof.
  unfold create_table. destruct (bool_decide _); [by intros [= <-]|]. destruct (forallb _ _); [|done].
  by intros [= <-].
Qed.

(** The five statements of the first migration: four that keep the index, and one
    that fails when it exists. *)
Definition mailbox_stmt (i : nat) : string := default EmptyString (splitSQL (UpSQL mailbox_tables) !! i).

Lemma mailbox_stmts : splitSQL (UpSQL mailbox_tables) = map mailbox_stmt (seq 0 5).
Proof. vm_compute. reflexivity. Qed.

Lemma mailbox_creates i : (i < 4)%nat -> exists t refs, forall s, ddl s (mailbox_stmt i) = create_table t refs s.
Proof.
  intros Hi. destruct i as [|[|[|[|i]]]]; [| | | |lia].
  - exists "messages"%string, []. intros s. vm_compute. reflexivity.
  - exists "message_recipients"%string, ["messages"%string]. intros s. vm_compute. reflexivity.
  - exists "attachments"%string, ["messages"%string]. intros s. vm_compute. reflexivity.
  - exists "ingest_events"%string, []. intros s. vm_compute. reflexivity.
Qed.

Lemma mailbox_adds_index s : ddl s (mailbox_stmt 4) = add_index "messages" "ft_messages_search" s.
Proof. vm_compute. reflexivity. Qed.

Lemma ddl_prefix_keeps_index part s s' :
  part `prefix_of` splitSQL (UpSQL mailbox_tables) -> search_index ∈ sc_indexes s -> ddl_all s part = Some s' ->
  search_index ∈ sc_indexes s' /\ part <> splitSQL (UpSQL mailbox_tables).
Proof.
  rewrite mailbox_stmts. intros [rest Hpre] Hin Hrun.
  assert (forall n i s s', (i + n <= 4)%nat -> search_index ∈ sc_indexes s ->
    ddl_all s (map mailbox_stmt (seq i n)) = Some s' -> search_index ∈ sc_indexes s') as Hkeep.
  { clear. induction n as [|n IH]; intros i s s' Hi Hin; cbn [seq map ddl_all]; [by intros [= <-]|].
    destruct (mailbox_creates i) as (t & refs & ->); [lia|].
    destruct (create_table t refs s) as [s1|] eqn:E; [|done]. apply create_keeps_index in E. cbn [mbind option_bind].
    apply IH; [lia|by rewrite E]. }
  assert (forall s, search_index ∈ sc_indexes s -> ddl_all s (map mailbox_stmt (seq 0 5)) = None) as Hfail.
  { clear -Hkeep. intros s Hin. change (seq 0 5) with (seq 0 4 ++ [4%nat]). rewrite map_app, ddl_all_app.
    destruct (ddl_all s _) as [s1|] eqn:E; [|done]. apply Hkeep in E; [|lia|done].
    cbn [mbind option_bind map ddl_all]. rewrite mailbox_adds_index. unfold add_index.
    rewrite bool_decide_eq_false_2; [done|]. intros [_ Hno]. by apply Hno. }
  split; [|intros ->; by rewrite Hfail in Hrun].
  assert (part = take (length part) (map mailbox_stmt (seq 0 5))) as E by (by rewrite Hpre, take_app_length).
  assert (length part <= 5)%nat as Hl by (apply (f_equal length) in Hpre; rewrite length_app in Hpre; simpl in Hpre; lia).
  rewrite E in Hrun. rewrite firstn_map in Hrun.
  destruct (decide (length part = 5%nat)) as [E5|]; [rewrite E5 in Hrun; by rewrite Hfail in Hrun|].
  rewrite take_seq in Hrun. eapply Hkeep; [|exact Hin|exact Hrun]. lia.
Qed.

Lemma statements_cons m l : statements (m :: l) = splitSQL (UpSQL m) ++ statements l.
Proof. done. Qed.

(** From a state with the index, statements that start with those of the first
    migration fail. *)
Lemma mailbox_again s l part s' :
  search_index ∈ sc_indexes s -> ddl_all s (statements (mailbox_tables :: l) ++ part) = Some s' -> False.
Proof.
  intros Hin. rewrite statements_cons, <-app_assoc, ddl_all_app.
  destruct (ddl_all s _) as [s1|] eqn:E1; [|discriminate]. intros _.
  pose proof (ddl_prefix_keeps_index (splitSQL (UpSQL mailbox_tables)) s s1) as Hk.
  destruct Hk as [_ Hne]; [|exact Hin|exact E1|exact (Hne eq_refl)].
  exists []. symmetry. apply app_nil_r.
Qed.

Lemma stuck_run d r d' : RunMigrations shipped d = (r, d') -> stuck d -> r <> None /\ stuck d'.
Proof using All.
  intros Hrun [Hr (s & Hs & Hin)]. pose proof (run_follows _ _ _ Hrun ltac:(by exists s)) as [s' Hs'].
  apply RunMigrations_spec in Hrun as (l & rest & part & Hp & Hr' & Hj & Hn & Hpre); [|by apply foreign_up].
  assert (plan shipped (versions d) = shipped) as Hplan by (unfold versions; rewrite Hr; vm_compute; reflexivity).
  rewrite Hplan in Hp. rewrite Hj, ddl_all_app, Hs in Hs'. cbn [mbind option_bind] in Hs'.
  destruct l as [|m l].
  - assert (part `prefix_of` splitSQL (UpSQL mailbox_tables)) as Hpre'
      by (rewrite <-(app_nil_l rest), <-Hp in Hpre; exact Hpre).
    change (statements [] ++ part) with part in *.
    destruct (ddl_prefix_keeps_index part s s' Hpre' Hin Hs') as [Hin' Hne]. split.
    + intros ->. destruct (Hn eq_refl) as [-> _]. discriminate Hp.
    + split; [by rewrite Hr', Hr|]. exists s'. split; [|done]. by rewrite Hj, ddl_all_app, Hs.
  - exfalso. assert (m = mailbox_tables) as -> by (by injection Hp).
    exact (mailbox_again s l part s' Hin Hs').
Qed.
End follows.

(** ** A database that executes only what succeeds *)

Inductive DDLMig := DDL (d : MemMig).
Inductive DDLTx := DDLT (t : MemMigTx).
Definition ddl_db (d : DDLMig) : MemMig := match d with DDL d => d end.
Definition ddl_tx (t : DDLTx) : MemMigTx := match t with DDLT t => t end.

Definition refuses (q : string) (args : list sqlval) (t : MemMigTx) : bool :=
  match args with
  | [] => bool_decide (ddl_all no_tables (mm_journal (mt_now t) ++ [q]) = None)
  | _ => false
  end.

#[export] Instance DDLMig_driver : MigDriver DDLMig DDLTx := {|
  mdb_Exec q args d := let '(r, d') := mdb_Exec q args (ddl_db d) in (r, DDL d');
  mdb_Query q args d := mdb_Query q args (ddl_db d);
  mdb_Begin d := DDLT <$> mdb_Begin (ddl_db d);
  mtx_Exec q args t :=
    if refuses q args (ddl_tx t) then (Err ErrSyntax, t)
    else let '(r, t') := mtx_Exec q args (ddl_tx t) in (r, DDLT t');
  mtx_Commit t := let '(r, d') := mtx_Commit (ddl_tx t) in (r, DDL d');
  mtx_Rollback t := DDL (mtx_Rollback (ddl_tx t))
|}.

#[export] Instance DDLMig_laws : MigLaws DDLMig DDLTx.
Proof.
  refine {| recorded d := recorded (ddl_db d); tx_recorded t := tx_recorded (ddl_tx t);
            tx_kept t := tx_kept (ddl_tx t); journal d := journal (ddl_db d);
            tx_journal t := tx_journal (ddl_tx t); foreign _ := True |}.
  - intros [d] r d'. cbn [mdb_Exec DDLMig_driver ddl_db]. destruct (mdb_Exec _ _ _) as [r1 d1] eqn:E.
    intros [= <- <-]. by apply (create_keeps d) in E.
  - intros v [d] rs. apply (count_answer v d rs).
  - intros [d] [t]. cbn [mdb_Begin DDLMig_driver ddl_db ddl_tx]. destruct (mdb_Begin d) as [t1|e] eqn:E; [|done].
    intros [= <-]. by apply (begin_keeps d t1).
  - intros q [t] r t' _. cbn [mtx_Exec DDLMig_driver ddl_tx]. destruct (refuses q [] t).
    { intros [= <- <-]. split_and!; [done|by left|right; by split]. }
    destruct (mtx_Exec q [] t) as [r1 t1] eqn:E. intros [= <- <-]. by apply (stmt_runs q t).
  - intros v n [t] r t'. cbn [mtx_Exec DDLMig_driver ddl_tx refuses].
    destruct (mtx_Exec _ _ t) as [r1 t1] eqn:E. intros [= <- <-]. by apply (record_runs v n t).
  - intros v [t] r t'. cbn [mtx_Exec DDLMig_driver ddl_tx refuses].
    destruct (mtx_Exec _ _ t) as [r1 t1] eqn:E. intros [= <- <-]. by apply (forget_runs v t).
  - intros [t] r d. cbn [mtx_Commit DDLMig_driver ddl_tx]. destruct (mtx_Commit t) as [r1 d1] eqn:E.
    intros [= <- <-]. by apply (commit_runs t).
  - intros [t]. apply (rollback_runs t).
Defined.

#[export] Instance DDLMig_follows : FollowsDDL DDLMig DDLTx.
Proof.
  split. intros q [t] r t' _. cbn [mtx_Exec DDLMig_driver ddl_tx]. destruct (refuses q [] t) eqn:Er; [by intros [= <- <-]|].
  destruct (mtx_Exec q [] t) as [r1 t1] eqn:E. intros [= <- <-] Hs.
  apply (stmt_runs q t) in E as (_ & _ & [Hj|[_ Hj]]); [| |done].
  - change (tx_journal (DDLT t1)) with (tx_journal t1). rewrite Hj. unfold refuses in Er.
    apply bool_decide_eq_false in Er. change (mm_journal (mt_now t)) with (tx_journal t) in Er.
    destruct (ddl_all no_tables (tx_journal t ++ [q])); [by eexists|done].
  - change (tx_journal (DDLT t1)) with (tx_journal t1). by rewrite Hj.
Qed.

(** ** Properties *)


(** C24: The first migration cannot be started again. Its last statement adds an
    index without asking whether it exists, and a database commits every such
    statement at once; so if a run fails after it, while the migration is being
    recorded, no later run of the program's migrations ever succeeds: each
    reports an error and records nothing. Of the database this assumes its laws,
    [MigLaws], that the statements in the shipped files do not touch
    schema_migrations, and that these statements have their documented effect on
    the tables, [FollowsDDL]. *)
Theorem first_migration_never_recovers {D T} `{FollowsDDL D T} `{SortLaws} (d1 d2 d3 : D) r :
  Forall (foreign (D := D) (T := T)) shipped_statements ->
  recorded d1 = [] -> journal d1 = splitSQL (UpSQL mailbox_tables) ->
  rtc (fun a b => exists r, RunMigrations shipped a = (r, b)) d1 d2 -> RunMigrations shipped d2 = (r, d3) ->
  r <> None /\ recorded d3 = [].
Proof.
  intros Hf Hr Hj Hruns Hrun. assert (stuck d1) as Hs.
  { split; [done|]. rewrite Hj. assert (is_Some (schema_at 1)) as [s Hs] by (vm_compute; by eexists).
    exists s. split; [|revert Hs; vm_compute; intros [= <-]; by left].
    rewrite <-Hs. unfold schema_at. change (take 1 shipped) with [mailbox_tables].
    rewrite statements_cons, app_nil_r. exact eq_refl. }
  assert (stuck d2) as Hs2.
  { clear -Hf Hruns Hs H1 H2. induction Hruns as [|a b c [r' Hab] _ IH]; [done|]. apply IH.
    exact (proj2 (stuck_run Hf _ _ _ Hab Hs)). }
  destruct (stuck_run Hf _ _ _ Hrun Hs2) as [? [? _]]. by split.
Qed.

(** ** The theorems at concrete inputs *)

Module SchemaDemo.
#[local] Instance plain_mysql : MySQLDriver string DDLMig := {|
  ParseDSN s := Ok s; with_ParseTime s := s; FormatDSN s := s;
  sql_Open _ := Ok (DDL (mkMemMig [] [] 0 (fun _ _ => false))); db_Ping _ := None
|}.
Definition fresh : DDLMig := DDL (mkMemMig [] [] 0 (fun _ _ => false)).
Definition migrated : option error * option DDLMig := Migrate (C := string) (T := DDLTx) "dsn" MigrationsFS.
Lemma migrated_ok : migrated = (None, Some (default fresh migrated.2)).
Proof. vm_compute. reflexivity. Qed.

(** The recording of the first migration fails once, after its five statements. *)
Definition unlucky : DDLMig :=
  DDL (mkMemMig [] [] 0 (fun n q => (n =? 1)%nat && bool_decide (q = sql_record_migration))).
Definition half : option error * DDLMig := RunMigrations (T := DDLTx) shipped unlucky.
Definition retried : option error * DDLMig := RunMigrations (T := DDLTx) shipped half.2.
Lemma retried_eq : RunMigrations (T := DDLTx) shipped half.2 = (retried.1, retried.2).
Proof. vm_compute. reflexivity. Qed.
End SchemaDemo.


Lemma first_migration_never_recovers_witness :
  SchemaDemo.half.1 <> None /\ SchemaDemo.retried.1 <> None /\ recorded SchemaDemo.retried.2 = [].
Proof.
  split; [vm_compute; discriminate|].
  apply (first_migration_never_recovers SchemaDemo.half.2 SchemaDemo.half.2 SchemaDemo.retried.2 SchemaDemo.retried.1).
  - by apply Forall_true.
  - vm_compute. reflexivity.
  - vm_compute. reflexivity.
  - apply rtc_refl.
  - exact SchemaDemo.retried_eq.
Defined.
