(* ===== verification/Server.v ===== *)
(** * The server (internal/server/server.go, internal/server/handlers.go)

    The application state, [New], the routes with their middleware and the two
    small handlers; then what the composed server guarantees for every request and
    for every stretch of traffic. The router (go-chi) is an interface: which
    registered route a method and a path lead to. Requests are served one after
    the other. [Start] and [Shutdown] are in [Main]. *)

From S2P Require Export Auth RateLimit Middleware Api Ingest Migrate.

Open Scope Z_scope.

(** ** State *)

(** The session store and the two rate limiters are shared by all requests. *)
Record App (D F : Type) := mkApp {
  app_rt : Runtime;
  app_log : list LogRecord;
  app_sessions : CookieSessionStore;
  app_login_limiter : rateLimiter;
  app_ingest_limiter : rateLimiter;
  app_db : D;
  app_fs : F
}.
Arguments mkApp {D F} _ _ _ _ _ _ _.
Arguments app_rt {D F} _.
Arguments app_log {D F} _.
Arguments app_sessions {D F} _.
Arguments app_login_limiter {D F} _.
Arguments app_ingest_limiter {D F} _.
Arguments app_db {D F} _.
Arguments app_fs {D F} _.

#[export] Program Instance app_runtime {D F} : Lens (App D F) Runtime := {|
  view a := app_rt a;
  put rt a := mkApp rt (app_log a) (app_sessions a) (app_login_limiter a) (app_ingest_limiter a) (app_db a) (app_fs a)
|}.
Solve Obligations with by intros; repeat match goal with x : App _ _ |- _ => destruct x end.

#[export] Program Instance app_logging {D F} : Lens (App D F) (list LogRecord * Runtime) := {|
  view a := (app_log a, app_rt a);
  put x a := mkApp x.2 x.1 (app_sessions a) (app_login_limiter a) (app_ingest_limiter a) (app_db a) (app_fs a)
|}.
Solve Obligations with by intros; repeat match goal with x : App _ _ |- _ => destruct x | x : _ * _ |- _ => destruct x end.

#[export] Program Instance app_auth {D F} : Lens (App D F) (CookieSessionStore * Runtime) := {|
  view a := (app_sessions a, app_rt a);
  put x a := mkApp x.2 (app_log a) x.1 (app_login_limiter a) (app_ingest_limiter a) (app_db a) (app_fs a)
|}.
Solve Obligations with by intros; repeat match goal with x : App _ _ |- _ => destruct x | x : _ * _ |- _ => destruct x end.

#[export] Program Instance app_data {D F} : Lens (App D F) (D * F) := {|
  view a := (app_db a, app_fs a);
  put x a := mkApp (app_rt a) (app_log a) (app_sessions a) (app_login_limiter a) (app_ingest_limiter a) x.1 x.2
|}.
Solve Obligations with by intros; repeat match goal with x : App _ _ |- _ => destruct x | x : _ * _ |- _ => destruct x end.

#[export] Program Instance app_ingest {D F} : Lens (App D F) (D * F * Runtime) := {|
  view a := (app_db a, app_fs a, app_rt a);
  put x a := mkApp x.2 (app_log a) (app_sessions a) (app_login_limiter a) (app_ingest_limiter a) x.1.1 x.1.2
|}.
Solve Obligations with by intros; repeat match goal with x : App _ _ |- _ => destruct x | x : _ * _ |- _ => destruct x end.

(** The two limiters: the lens is given where the middleware is used. *)
Program Definition login_limiter {D F} : Lens (App D F) (rateLimiter * Runtime) := {|
  view a := (app_login_limiter a, app_rt a);
  put x a := mkApp x.2 (app_log a) (app_sessions a) x.1 (app_ingest_limiter a) (app_db a) (app_fs a)
|}.
Solve Obligations with by intros; repeat match goal with x : App _ _ |- _ => destruct x | x : _ * _ |- _ => destruct x end.

Program Definition ingest_limiter {D F} : Lens (App D F) (rateLimiter * Runtime) := {|
  view a := (app_ingest_limiter a, app_rt a);
  put x a := mkApp x.2 (app_log a) (app_sessions a) (app_login_limiter a) x.1 (app_db a) (app_fs a)
|}.
Solve Obligations with by intros; repeat match goal with x : App _ _ |- _ => destruct x | x : _ * _ |- _ => destruct x end.

(** ** The router *)

(** A registered route: a handler for a method (any, for [r.Handle]) and a
    pattern, or a router mounted at a pattern ([r.Route]). *)
Inductive ChiRoute := Endpoint (method : option string) (pattern : string) | MountAt (pattern : string).

(** Where a request leads: the [i]-th route, with the URL parameters and, for a
    mounted router, the rest of the path. *)
Inductive route_result := RouteFound (i : nat) (params : list (string * string)) (rest : string)
  | RouteNoMethod | RouteNotFound.

Class ChiRouter := {
  chi_Find : list ChiRoute -> string -> string -> route_result;
  chi_NotFound : Request -> ResponseWriter -> ResponseWriter;
  chi_MethodNotAllowed : Request -> ResponseWriter -> ResponseWriter
}.

(** A route that is found exists, and takes the method of the request. *)
Class ChiLaws `{ChiRouter} := {
  chi_found : forall rs m p i params rest, chi_Find rs m p = RouteFound i params rest ->
    exists rt, rs !! i = Some rt /\
      match rt with Endpoint (Some m') _ => m' = m | _ => True end;
  chi_not_found_acts : forall r w, exists b, acts inner_edit w b (chi_NotFound r w);
  chi_not_allowed_acts : forall r w, exists b, acts inner_edit w b (chi_MethodNotAllowed r w)
}.

(** [chi.URLParam] finds what the router put into the request's context. *)
Definition with_params (r : Request) (params : list (string * string)) : Request :=
  mkRequest (Method r) (URLPath r) (Query r) (ReqHeader r) (ReqCookies r) (RemoteAddr r)
    (ContentLength r) (ReqBody r) (ReqCtx r) (params ++ URLParams r).

Section router.
Context `{ChiRouter} {W : Type}.

(** What runs for a route, given the rest of the path. *)
Record Route := mkRoute { rt_chi : ChiRoute; rt_run : string -> Handler W }.

Definition dispatch (routes : list Route) (path : string) : Handler W := fun r w st =>
  match chi_Find (map rt_chi routes) (Method r) path with
  | RouteFound i params rest =>
      match routes !! i with
      | Some rt => rt_run rt rest (with_params r params) w st
      | None => (chi_NotFound r w, st)
      end
  | RouteNoMethod => (chi_MethodNotAllowed r w, st)
  | RouteNotFound => (chi_NotFound r w, st)
  end.

Definition Get_ (pattern : string) (h : Handler W) : Route := mkRoute (Endpoint (Some "GET"%string) pattern) (fun _ => h).
Definition Post_ (pattern : string) (h : Handler W) : Route := mkRoute (Endpoint (Some "POST"%string) pattern) (fun _ => h).
Definition Handle_ (pattern : string) (h : Handler W) : Route := mkRoute (Endpoint None pattern) (fun _ => h).
(** [r.Route(pattern, ...)]: a router with its own middleware. *)
Definition Route_ (pattern : string) (use : Middleware W) (routes : list Route) : Route :=
  mkRoute (MountAt pattern) (fun rest => use (dispatch routes rest)).
End router.
Arguments Route W : clear implicits.

(** ** The embedded files *)

(** [staticFS.ReadFile("static/index.html")], and the file server under
    [/static/]. *)
Class StaticFiles := {
  index_html : result string;
  static_serve : Request -> ResponseWriter -> ResponseWriter
}.
Class StaticLaws `{StaticFiles} :=
  static_acts : forall r w, exists b, acts inner_edit w b (static_serve r w).

(** ** handlers.go *)

Definition health_body : string :=
  "{" +:+ String (byte 34) ("status" +:+ String (byte 34) (":" +:+
  String (byte 34) ("ok" +:+ String (byte 34) "}"))).

Definition healthHandler {W} : Handler W := fun r w st =>
  let w := set_header "Content-Type" "application/json" w in
  let w := WriteHeader 200 w in
  (Write (Bytes health_body) w, st).

Definition spaHandler {W} `{StaticFiles} : Handler W := fun r w st =>
  match index_html with
  | Err _ => (http_Error "not found" 404 w, st)
  | Ok data => (Write (Bytes data) (set_header "Content-Type" "text/html; charset=utf-8" w), st)
  end.

(** ** server.go *)

Definition rateLimitLogin : Z := 10.
Definition rateLimitIngest : Z := 60.
Definition maxBodyBytes : Z := Z.shiftl 1 20.

Record Server := mkServer { srv_config : Config; srv_store : Storage }.

(** The defaults that [New] writes into the configuration it is given. *)
Definition config_defaults (cfg : option Config) : Config :=
  let c := default zero_config cfg in
  mkConfig (DatabaseURL c)
    (if bool_decide (DataDir c = EmptyString) then "./data"%string else DataDir c)
    (PublicBaseURL c) (MaxMessageBytes c)
    (if bool_decide (SessionCookieName c = EmptyString) then "lite_mail_session"%string else SessionCookieName c)
    (if SessionTTLHours c <=? 0 then 24 else SessionTTLHours c)
    (NormalUserPSK c) (AdminPSK c) (WorkerIngestPSK c) (ServerAddr c) (AppEnv c).

(** [New] panics when the storage cannot be created. *)
Definition New {D F} `{FileSystem F} (cfg : option Config) (db : D) (fs : F) (rt : Runtime)
  : result (Server * App D F) * F :=
  let cfg := config_defaults cfg in
  match NewStorage (DataDir cfg) fs with
  | (Err e, fs) => (Err e, fs)
  | (Ok store, fs) =>
      (Ok (mkServer cfg store,
           mkApp rt [] (NewCookieSessionStore (SessionCookieName cfg))
             (rate_limit_state rateLimitLogin rateLimitLogin) (rate_limit_state rateLimitIngest rateLimitIngest)
             db fs), fs)
  end.

Section server.
Context `{UnicodeTable} `{MailLib} `{ChiRouter} `{StaticFiles}
  {D T F : Type} `{SQLDriver D T} `{FileSystem F}.

Definition staticHandler : Handler (App D F) := fun r w st => (static_serve r w, st).

Definition ingestHandler (s : Server) : IngestHandler :=
  NewIngestHandler true (Some (srv_store s)) (Some (srv_config s)).

Definition requireAuth (s : Server) : Middleware (App D F) :=
  RequireAuth (S := CookieSessionStore) (Some (srv_config s)).

Definition ingest_use (s : Server) : Middleware (App D F) := fun next =>
  RateLimit (H := ingest_limiter) rateLimitIngest rateLimitIngest
    (MaxBodySize (MaxMessageBytes (srv_config s)) next).

Definition login_use : Middleware (App D F) := fun next =>
  RateLimit (H := login_limiter) rateLimitLogin rateLimitLogin (MaxBodySize maxBodyBytes next).

(** The routes, in the order they are registered. *)
Definition routes (s : Server) : list (Route (App D F)) :=
  [ Get_ "/healthz" healthHandler;
    Route_ "/api/ingest" (ingest_use s) [Post_ "/" (lift_handler (ServeHTTP (ingestHandler s)))];
    Route_ "/api/login" login_use
      [Post_ "/" (lift_handler (S := CookieSessionStore * Runtime) (LoginHandler (Some (srv_config s))))];
    Post_ "/api/logout" (lift_handler (S := CookieSessionStore * Runtime) (LogoutHandler (Some (srv_config s))));
    Get_ "/api/messages" (requireAuth s (lift_handler (S := D * F) ListMessages));
    Get_ "/api/messages/{id}" (requireAuth s (lift_handler (S := D * F) GetMessage));
    Get_ "/api/messages/{id}/raw" (requireAuth s (lift_handler (GetRawMIME (srv_store s))));
    Get_ "/api/messages/{id}/attachments/{idx}" (requireAuth s (lift_handler (GetAttachment (srv_store s))));
    Get_ "/" spaHandler;
    Get_ "/login" spaHandler;
    Get_ "/messages/{id}" spaHandler;
    Handle_ "/static/*" staticHandler ].

Definition middlewares (s : Server) (next : Handler (App D F)) : Handler (App D F) :=
  RequestID "X-Request-ID" (SecurityHeaders (RequestLogging (CORS (PublicBaseURL (srv_config s)) next))).

(** [s.Handler()] *)
Definition serve (s : Server) : Handler (App D F) := fun r =>
  middlewares s (dispatch (routes s) (URLPath r)) r.
End server.

(** ** Every handler keeps the middleware's promises *)

#[export] Instance lift_handler_well_behaved {W S} `{Lens W S} (h : Handler S) :
  WellBehaved h -> WellBehaved (lift_handler h).
Proof.
  intros Hh r w st. destruct (Hh r w (view st)) as [b Hb]. exists b.
  unfold lift_handler. by destruct (h r w (view st)).
Qed.

(** Case analysis on the code's matches until a writer is in sight. *)
Ltac walk :=
  repeat (simpl; match goal with
    | |- context [match ?x with _ => _ end] => destruct x eqn:?
    end);
  simpl.

#[export] Instance LoginHandler_well_behaved `{UnicodeTable} {S} `{SessionStore S} cfg :
  WellBehaved (LoginHandler (S := S) cfg).
Proof. intros r w [st rt]. unfold LoginHandler. walk; solve_acts. Qed.

#[export] Instance LogoutHandler_well_behaved {S} `{SessionStore S} cfg :
  WellBehaved (LogoutHandler (S := S) cfg).
Proof. intros r w [st rt]. unfold LogoutHandler. walk; solve_acts. Qed.

#[export] Instance RequireAuth_well_behaved {S} `{SessionStore S} {W} `{Lens W (S * Runtime)} cfg
  (next : Handler W) : WellBehaved next -> WellBehaved (RequireAuth cfg next).
Proof. intros Hn r w st. unfold RequireAuth. walk; first [apply Hn|solve_acts]. Qed.

#[export] Instance RateLimit_well_behaved {W} `{Lens W (rateLimiter * Runtime)} rpm burst
  (next : Handler W) : WellBehaved next -> WellBehaved (RateLimit rpm burst next).
Proof.
  intros Hn r w st. rewrite RateLimit_eq. unfold limit_headers. destruct (verdict r st).1.1.1; [|solve_acts].
  match goal with |- context [next r ?w' ?st'] => destruct (Hn r w' st') as [b Hb] end.
  exists b. eapply acts_trans; [|exact Hb]. auto 20 with acts.
Qed.

Lemma numericURLParam_writer w r name :
  (numericURLParam w r name).2 = (if (numericURLParam w r name).1.2 then w else NotFound w) /\
  (numericURLParamAllowZero w r name).2 = (if (numericURLParamAllowZero w r name).1.2 then w else NotFound w).
Proof. unfold numericURLParam, numericURLParamAllowZero. by split; walk. Qed.

Section api_well_behaved.
Context {D T F : Type} `{SQLDriver D T} `{FileSystem F}.

#[export] Instance GetRawMIME_well_behaved s : WellBehaved (GetRawMIME (D := D) (F := F) s).
Proof.
  intros r w [db fs]. unfold GetRawMIME, internal_error. pose proof (numericURLParam_writer w r "id") as [Hw _].
  destruct (numericURLParam w r "id") as [[id ok] w1]. simpl in Hw. subst w1. walk; solve_acts.
Qed.

#[export] Instance GetMessage_well_behaved : WellBehaved (GetMessage (D := D) (F := F)).
Proof.
  intros r w [db fs]. unfold GetMessage, internal_error. pose proof (numericURLParam_writer w r "id") as [Hw _].
  destruct (numericURLParam w r "id") as [[id ok] w1]. simpl in Hw. subst w1. walk; solve_acts.
Qed.

#[export] Instance ListMessages_well_behaved : WellBehaved (ListMessages (D := D) (F := F)).
Proof. intros r w [db fs]. unfold ListMessages, internal_error. walk; solve_acts. Qed.

#[export] Instance GetAttachment_well_behaved s : WellBehaved (GetAttachment (D := D) (F := F) s).
Proof.
  intros r w [db fs]. unfold GetAttachment, internal_error.
  pose proof (numericURLParam_writer w r "id") as [Hw _].
  pose proof (numericURLParam_writer w r "idx") as [_ Hw'].
  destruct (numericURLParam w r "id") as [[id []] w1]; simpl in Hw; subst w1; [|solve_acts].
  destruct (numericURLParamAllowZero w r "idx") as [[idx ok'] w2]. simpl in Hw'. subst w2. walk; solve_acts.
Qed.
End api_well_behaved.

#[export] Instance ServeHTTP_well_behaved `{UnicodeTable} `{MailLib} {D T F} `{SQLDriver D T} `{FileSystem F} h :
  WellBehaved (ServeHTTP (D := D) (F := F) h).
Proof. intros r w [[db fs] rt]. unfold ServeHTTP, ingest_message. walk; solve_acts. Qed.

#[export] Instance healthHandler_well_behaved {W} : WellBehaved (W := W) healthHandler.
Proof. intros r w st. unfold healthHandler. solve_acts. Qed.

#[export] Instance spaHandler_well_behaved {W} `{StaticFiles} : WellBehaved (W := W) spaHandler.
Proof. intros r w st. unfold spaHandler. walk; solve_acts. Qed.

#[export] Instance staticHandler_well_behaved {D F} `{StaticLaws} : WellBehaved (staticHandler (D := D) (F := F)).
Proof. intros r w st. apply static_acts. Qed.

(** A router is, when its routes are. *)
Definition route_well_behaved {W} (rt : Route W) : Prop := forall rest, WellBehaved (rt_run rt rest).

Lemma dispatch_well_behaved `{ChiLaws} {W} (rs : list (Route W)) path :
  Forall route_well_behaved rs -> WellBehaved (dispatch rs path).
Proof.
  intros Hrs r w st. unfold dispatch.
  destruct (chi_Find _ _ _) as [i params rest| |]; simpl; [|apply chi_not_allowed_acts|apply chi_not_found_acts].
  destruct (rs !! i) as [rt|] eqn:Ei; [|apply chi_not_found_acts].
  eapply Forall_lookup_1 in Hrs; [|exact Ei]. apply Hrs.
Qed.

(** ** What the handlers leave alone *)

(** [f] reads a part of the state that no write through the lens touches. *)
Class Aside {W S X} (L : Lens W S) (f : W -> X) := aside : forall s w, f (put s w) = f w.

(** Requests that differ in what the middleware adds or limits only. *)
Definition alike (r r' : Request) : Prop := Method r = Method r' /\ ReqHeader r = ReqHeader r'.

(** A relation that the middleware may be put around. *)
Class Tame {X} (R : Request -> relation X) := {
  tame_refl : forall r x, R r x x;
  tame_alike : forall r r' x y, alike r r' -> R r' x y -> R r x y
}.
#[export] Instance tame_eq {X} : Tame (fun _ => eq (A := X)).
Proof. by split; intros; subst. Qed.
#[export] Instance tame_preserved {X} (Q : X -> Prop) : Tame (fun _ x y => Q x -> Q y).
Proof. by split; intros; auto. Qed.

(** [h] moves what [f] reads along [R] only. *)
Class Moves {W X} (f : W -> X) (R : Request -> relation X) (h : Handler W) :=
  moves : forall r w st, R r (f st) (f (h r w st).2).
(** [h] never changes what [f] reads. *)
Notation Keeps f h := (Moves f (fun _ => eq) h).

Section moves.
Context {W X : Type} (f : W -> X) (R : Request -> relation X) `{!Tame R}.

#[export] Instance RequireAuth_moves {S} `{SessionStore S} {L : Lens W (S * Runtime)} cfg next :
  Aside L f -> Moves f R next -> Moves f R (RequireAuth cfg next).
Proof.
  intros Ha Hn r w st. unfold RequireAuth. walk; rewrite ?Ha; try apply tame_refl.
  match goal with |- context [put ?x st] => rewrite <-(Ha x st) at 1 end.
  eapply tame_alike; [|apply Hn]. done.
Qed.

#[export] Instance RateLimit_moves {L : Lens W (rateLimiter * Runtime)} rpm burst next :
  Aside L f -> Moves f R next -> Moves f R (RateLimit rpm burst next).
Proof.
  intros Ha Hn r w st. rewrite RateLimit_eq. destruct (verdict r st).1.1.1; simpl.
  - match goal with |- context [put ?x st] => rewrite <-(Ha x st) at 1 end. apply Hn.
  - rewrite Ha. apply tame_refl.
Qed.

#[export] Instance MaxBodySize_moves n next : Moves f R next -> Moves f R (MaxBodySize n next).
Proof.
  intros Hn r w st. unfold MaxBodySize. destruct (_ <? _); [apply tame_refl|].
  eapply tame_alike; [|apply Hn]. done.
Qed.

#[export] Instance CORS_moves o next : Moves f R next -> Moves f R (CORS o next).
Proof. intros Hn r w st. rewrite CORS_eq. destruct (bool_decide _); [apply tame_refl|]. apply Hn. Qed.

#[export] Instance SecurityHeaders_moves next : Moves f R next -> Moves f R (SecurityHeaders next).
Proof. intros Hn r w st. apply Hn. Qed.

#[export] Instance RequestID_moves {L : Lens W Runtime} h next :
  Aside L f -> Moves f R next -> Moves f R (RequestID h next).
Proof.
  intros Ha Hn r w st. destruct (RequestID_spec h next r w st) as (rid & st1 & -> & E).
  assert (f st1 = f st) as <- by
    (destruct (bool_decide _); [destruct (generateUUIDv4 _)|]; injection E as -> ->; apply Ha).
  eapply tame_alike; [|apply Hn]. done.
Qed.

#[export] Instance RequestLogging_moves {L : Lens W (list LogRecord * Runtime)} next :
  Aside L f -> Moves f R next -> Moves f R (RequestLogging next).
Proof.
  intros Ha Hn r w st. unfold RequestLogging. destruct (view st) as [log rt]. simpl.
  match goal with |- context [next r ?w ?st] => pose proof (Hn r w st) as E; destruct (next r w st) as [rec st1] end.
  destruct (view st1) as [log1 rt1]. simpl in *. by rewrite Ha in E |- *.
Qed.

Lemma dispatch_moves `{ChiRouter} (rs : list (Route W)) path :
  Forall (fun rt => forall rest, Moves f R (rt_run rt rest)) rs -> Moves f R (dispatch rs path).
Proof.
  intros Hrs r w st. unfold dispatch. destruct (chi_Find _ _ _) as [i params rest| |]; [|apply tame_refl..].
  destruct (rs !! i) as [rt|] eqn:Ei; [|apply tame_refl]. eapply Forall_lookup_1 in Hrs; [|exact Ei].
  eapply tame_alike; [|apply Hrs]. done.
Qed.
End moves.

#[export] Instance lift_handler_keeps {W S X} {L : Lens W S} (f : W -> X) R `{!Tame R} (h : Handler S) :
  Aside L f -> Moves f R (lift_handler h).
Proof.
  intros Ha r w st. unfold lift_handler. destruct (h r w (view st)). simpl. rewrite Ha. apply tame_refl.
Qed.
#[export] Instance healthHandler_keeps {W X} (f : W -> X) R `{!Tame R} : Moves f R healthHandler.
Proof. intros r w st. apply tame_refl. Qed.
#[export] Instance spaHandler_keeps {W X} `{StaticFiles} (f : W -> X) R `{!Tame R} : Moves f R spaHandler.
Proof. intros r w st. unfold spaHandler. destruct index_html; apply tame_refl. Qed.
#[export] Instance staticHandler_keeps {D F X} `{StaticFiles} (f : App D F -> X) R `{!Tame R} : Moves f R staticHandler.
Proof. intros r w st. apply tame_refl. Qed.

(** Each lens writes its own fields. *)
#[export] Hint Extern 1 (Aside _ _) => (intros ? ?; reflexivity) : typeclass_instances.

Section serving.
Context `{UnicodeTable} `{MailLib} `{ChiLaws} `{StaticLaws}
  {D T F : Type} `{SQLDriver D T} `{FileSystem F}.
Implicit Types (s : Server) (st : App D F).

Lemma routes_well_behaved s : Forall route_well_behaved (routes (D := D) (F := F) s).
Proof.
  repeat constructor; intros rest; simpl; unfold requireAuth; try apply _.
  - apply RateLimit_well_behaved, MaxBodySize_well_behaved, dispatch_well_behaved.
    repeat constructor; intros ?; apply _.
  - apply RateLimit_well_behaved, MaxBodySize_well_behaved, dispatch_well_behaved.
    repeat constructor; intros ?; apply _.
Qed.

(** What the server moves, when the components' handlers do. *)
Lemma routes_move {X} (f : App D F -> X) R `{!Tame R} s :
  Aside login_limiter f -> Aside ingest_limiter f ->
  Moves f R (lift_handler (ServeHTTP (ingestHandler s))) ->
  Moves f R (lift_handler (S := CookieSessionStore * Runtime) (LoginHandler (Some (srv_config s)))) ->
  Moves f R (lift_handler (S := CookieSessionStore * Runtime) (LogoutHandler (Some (srv_config s)))) ->
  (forall next, Moves f R next -> Moves f R (requireAuth s next)) ->
  Moves f R (lift_handler (S := D * F) ListMessages) -> Moves f R (lift_handler (S := D * F) GetMessage) ->
  Moves f R (lift_handler (GetRawMIME (srv_store s))) -> Moves f R (lift_handler (GetAttachment (srv_store s))) ->
  Forall (fun rt => forall rest, Moves f R (rt_run rt rest)) (routes (D := D) (F := F) s).
Proof.
  intros. unfold routes, ingest_use, login_use.
  repeat (apply Forall_cons; split; [intros rest; simpl|]); try apply Forall_nil; try exact I; try apply _; auto;
    (apply RateLimit_moves; [apply _|done|]; apply MaxBodySize_moves; [apply _|];
     apply dispatch_moves, Forall_singleton; [apply _|by intros rest']).
Qed.

#[export] Instance app_routes_well_behaved s path : WellBehaved (dispatch (routes (D := D) (F := F) s) path).
Proof. apply dispatch_well_behaved, routes_well_behaved. Qed.

#[export] Instance app_routes_keep_log s path : Keeps app_log (dispatch (routes (D := D) (F := F) s) path).
Proof. apply dispatch_moves, routes_move; intros; unfold requireAuth; apply _. Qed.

(** The request and the writer that reach the router, after the middleware. *)
Definition routed_request (rid : string) (r : Request) : Request :=
  WithContext r (WithValue (ReqCtx r) contextKeyRequestID (CtxString rid)).
(** The headers that are set before the recorder. *)
Definition framed (rid : string) (w : ResponseWriter) : ResponseWriter :=
  set_header "X-Frame-Options" "DENY" (set_header "Content-Security-Policy" contentSecurityPolicy
    (set_header "Referrer-Policy" "no-referrer" (set_header "X-Content-Type-Options" "nosniff"
      (set_header "Strict-Transport-Security" strictTransportSecurity (set_header "X-Request-ID" rid w))))).
Definition routed_writer (s : Server) (rid : string) (r : Request) (w : ResponseWriter) : ResponseWriter :=
  cors_headers (PublicBaseURL (srv_config s)) r (RWRecorder (framed rid w) 200).

(** The request id, and the runtime after it was chosen. *)
Definition request_id (r : Request) (rt : Runtime) : string * Runtime :=
  let requestID := Header_Get (ReqHeader r) "X-Request-ID" in
  if bool_decide (requestID = EmptyString) then generateUUIDv4 rt else (requestID, rt).

(** The state the router starts from: the clock was read once. *)
Definition routed_state (r : Request) (st : App D F) : App D F :=
  put (time_Now (request_id r (app_rt st)).2).2 st.

Lemma serve_eq s r w st :
  let rid := (request_id r (app_rt st)).1 in
  let inner := if bool_decide (Method r = "OPTIONS"%string)
               then (WriteHeader 204 (routed_writer s rid r w), routed_state r st)
               else dispatch (routes s) (URLPath r) (routed_request rid r) (routed_writer s rid r w) (routed_state r st) in
  exists d rt, serve s r w st =
    (recorder_inner inner.1,
     put (app_log inner.2 ++ [mkLog (Method r) (URLPath r) (recorder_status inner.1) d (RemoteAddr r)], rt) inner.2).
Proof.
  unfold serve, middlewares, RequestID, SecurityHeaders, RequestLogging, request_id, routed_state.
  destruct st as [rt log ss l1 l2 db fs]. simpl.
  unfold request_id. destruct (if bool_decide _ then _ else _) as [rid rt1]. simpl. rewrite CORS_eq. simpl.
  unfold routed_request, routed_writer, framed. change (cors_headers ?o (WithContext r _) ?w) with (cors_headers o r w).
  destruct (bool_decide _); [by eexists _, _|].
  match goal with |- context [dispatch ?a ?b ?c ?d ?e] => destruct (dispatch a b c d e) as [rec st1] end.
  simpl. by eexists _, _.
Qed.
Lemma framed_not_sent rid w : not_sent w -> not_sent (framed rid w).
Proof. unfold framed. by simpl_http. Qed.

(** The middleware around the router: what is sent is what the router did to the
    recorder's writer, and what is logged is what was sent. *)
Lemma serve_recorded s r w st :
  not_sent w ->
  let rid := (request_id r (app_rt st)).1 in
  exists b w1 n st1 d rt,
    serve s r w st = (w1, put (app_log st ++ [mkLog (Method r) (URLPath r) (resp_status w1) d (RemoteAddr r)], rt) st1) /\
    acts outer_edit (framed rid w) b w1 /\
    acts inner_edit (routed_writer s rid r w) b (RWRecorder w1 n) /\
    (RWRecorder w1 n, st1) =
      (if bool_decide (Method r = "OPTIONS"%string)
       then (WriteHeader 204 (routed_writer s rid r w), routed_state r st)
       else dispatch (routes s) (URLPath r) (routed_request rid r) (routed_writer s rid r w) (routed_state r st)).
Proof.
  intros Hw rid. destruct (serve_eq s r w st) as (d & rt & ->). fold rid.
  pose proof (CORS_acts (PublicBaseURL (srv_config s)) (dispatch (routes s) (URLPath r)) (routed_request rid r)
    (RWRecorder (framed rid w) 200) (routed_state r st)) as (b & Ho & Hi).
  pose proof (CORS_moves app_log (fun _ => eq) (PublicBaseURL (srv_config s)) (dispatch (routes s) (URLPath r)) _ (routed_request rid r)
    (RWRecorder (framed rid w) 200) (routed_state r st)) as Hlog.
  rewrite CORS_eq in Ho, Hi, Hlog.
  change (cors_headers ?o (routed_request rid r) (RWRecorder _ 200)) with (routed_writer s rid r w) in Ho, Hi, Hlog.
  change (Method (routed_request rid r)) with (Method r) in Ho, Hi, Hlog.
  set (inner := if bool_decide (Method r = "OPTIONS"%string) then _ else _) in *.
  destruct inner as [rec st1] eqn:Ein. simpl in Ho, Hi, Hlog |- *.
  destruct (acts_recorder _ _ _ _ (framed_not_sent rid w Hw) Ho) as (w1 & n & -> & Ho1 & Hs). simpl.
  exists b, w1, n, st1, d, rt. split_and!; try done. simpl.
  rewrite Hlog. repeat f_equal. destruct b; [by destruct Hs as [-> _]|]. destruct Hs as [-> Hs].
  unfold resp_status. by rewrite Hs.
Qed.

Lemma serve_log s r w st w' st' :
  not_sent w -> serve s r w st = (w', st') ->
  exists d, app_log st' = app_log st ++ [mkLog (Method r) (URLPath r) (resp_status w') d (RemoteAddr r)].
Proof.
  intros Hw. destruct (serve_recorded s r w st Hw) as (b & w1 & n & st1 & d & rt & -> & _).
  intros [= <- <-]. by exists d.
Qed.
Lemma framed_header k rid w :
  CanonicalHeaderKey k ∉ map (fun kv => CanonicalHeaderKey kv.1) (("X-Request-ID"%string, EmptyString) :: security_headers) ->
  Header_Get (bw_header (rw_base (framed rid w))) k = Header_Get (bw_header (rw_base w)) k.
Proof.
  intros Hk. unfold framed. simpl_http.
  rewrite !Header_Get_Set_ne; [done|..]; intros E; apply Hk; rewrite <-E; apply (bool_decide_unpack _); by vm_compute.
Qed.

Lemma framed_security rid w :
  Forall (fun kv => Header_Get (bw_header (rw_base (framed rid w))) kv.1 = kv.2) security_headers.
Proof.
  unfold framed. repeat apply Forall_cons_2; try apply Forall_nil_2; try exact I; simpl_http;
    rewrite ?Header_Get_Set_ne by done; by rewrite Header_Get_Set.
Qed.

Lemma framed_id rid w : Header_Get (bw_header (rw_base (framed rid w))) "X-Request-ID" = rid.
Proof. unfold framed. simpl_http. rewrite !Header_Get_Set_ne by done. by rewrite Header_Get_Set. Qed.

Lemma has_header_fresh k w : not_sent w -> has_header k (Header_Get (bw_header (rw_base w)) k) (rw_base w).
Proof. unfold not_sent, has_header. by intros ->. Qed.

(** C17: Every reply of the server, to any request and on every path, the router's
    own 404 and 405 included, carries the five security headers with their exact
    values, and the request's id or a fresh version 4 UUID; it allows another
    origin to read it exactly when that origin is the configured one; and it is
    logged once, with the status that was sent. Preflight requests are answered
    204 by the middleware. *)
Theorem every_reply_is_protected s r st w' st' :
  serve s r new_writer st = (w', st') ->
  (forall k v, (k, v) ∈ security_headers -> Header_Get (resp_header w') k = v) /\
  (let rid := Header_Get (resp_header w') "X-Request-ID" in
   let given := Header_Get (ReqHeader r) "X-Request-ID" in
   (given <> EmptyString -> rid = given) /\ (given = EmptyString -> uuid_shape rid)) /\
  (let origin := Header_Get (ReqHeader r) "Origin" in
   Header_Get (resp_header w') "Access-Control-Allow-Origin" =
   (if bool_decide (origin <> EmptyString) && bool_decide (origin = PublicBaseURL (srv_config s))
    then PublicBaseURL (srv_config s) else EmptyString)) /\
  (Method r = "OPTIONS"%string -> resp_status w' = 204 /\ resp_body w' = []) /\
  exists d, app_log st' = app_log st ++ [mkLog (Method r) (URLPath r) (resp_status w') d (RemoteAddr r)].
Proof.
  intros Hrun. destruct (serve_recorded s r new_writer st not_sent_new) as (b & w1 & n & st1 & d & rt & E & Ho & Hi & Hin).
  pose proof (serve_log s r new_writer st w' st' not_sent_new Hrun) as Hlog.
  rewrite E in Hrun. injection Hrun as -> _. set (rid := (request_id r (app_rt st)).1) in *.
  pose proof (framed_not_sent rid new_writer not_sent_new) as Hf. split_and!; [| | | |exact Hlog].
  - intros k v Hkv. apply has_header_resp. eapply acts_has_header; [exact Ho|by apply protected_security|].
    pose proof (framed_security rid new_writer) as Hs. rewrite Forall_forall in Hs. specialize (Hs _ Hkv). simpl in Hs.
    rewrite <-Hs. by apply has_header_fresh.
  - assert (Header_Get (resp_header w') "X-Request-ID" = rid) as ->.
    { apply has_header_resp. eapply acts_has_header; [exact Ho|apply protected_fixed; by left|].
      rewrite <-(framed_id rid new_writer) at 1. by apply has_header_fresh. }
    cbv zeta. subst rid. unfold request_id. split; intros Hg.
    + by rewrite bool_decide_eq_false_2.
    + rewrite bool_decide_eq_true_2 by done. apply generateUUIDv4_shape.
  - apply has_header_resp.
    change (rw_base w') with (rw_base (RWRecorder w' n)). eapply acts_has_header; [exact Hi|apply protected_fixed; right; by left|].
    unfold routed_writer.
    rewrite <-(cors_allow_origin _ r (RWRecorder (framed rid new_writer) 200)).
    + apply has_header_fresh. unfold cors_headers. by destruct (_ && _); simpl_http.
    + refine (eq_trans (framed_header _ rid new_writer _) eq_refl). apply (bool_decide_unpack _). by vm_compute.
  - intros Hm. rewrite bool_decide_eq_true_2 in Hin by done. 
    assert (rw_base w' = rw_base (WriteHeader 204 (routed_writer s rid r new_writer))) as Hb
      by exact (f_equal (fun x => rw_base x.1) Hin).
    unfold resp_status, resp_body. rewrite Hb. clear. unfold routed_writer, cors_headers, framed.
    destruct (_ && _); simpl_http; split; reflexivity.
Qed.
End serving.

(** ** Requests to one of the routes *)

(** The routes as they are registered. *)
Definition registered : list ChiRoute :=
  [ Endpoint (Some "GET") "/healthz"; MountAt "/api/ingest"; MountAt "/api/login";
    Endpoint (Some "POST") "/api/logout"; Endpoint (Some "GET") "/api/messages";
    Endpoint (Some "GET") "/api/messages/{id}"; Endpoint (Some "GET") "/api/messages/{id}/raw";
    Endpoint (Some "GET") "/api/messages/{id}/attachments/{idx}"; Endpoint (Some "GET") "/";
    Endpoint (Some "GET") "/login"; Endpoint (Some "GET") "/messages/{id}"; Endpoint None "/static/*" ]%string.

(** The router leads [r] to the route [rt]; a mounted router gets [rest]. *)
Definition reaches `{ChiRouter} (r : Request) (rt : ChiRoute) (params : list (string * string)) (rest : string) : Prop :=
  exists i, chi_Find registered (Method r) (URLPath r) = RouteFound i params rest /\ registered !! i = Some rt.

(** The routes behind [RequireAuth]. *)
Definition mail_patterns : list string :=
  ["/api/messages"; "/api/messages/{id}"; "/api/messages/{id}/raw"; "/api/messages/{id}/attachments/{idx}"]%string.

Section routed.
Context `{UnicodeTable} `{MailLib} `{ChiLaws} `{StaticLaws}
  {D T F : Type} `{SQLDriver D T} `{FileSystem F}.
Implicit Types (s : Server) (st : App D F).

Lemma registered_routes s : map rt_chi (routes (D := D) (F := F) s) = registered.
Proof. done. Qed.

(** What runs for the protected routes. *)
Definition mail_handler (s : Server) (pattern : string) : Handler (App D F) :=
  requireAuth s
    (if bool_decide (pattern = "/api/messages"%string) then lift_handler (S := D * F) ListMessages
     else if bool_decide (pattern = "/api/messages/{id}"%string) then lift_handler (S := D * F) GetMessage
     else if bool_decide (pattern = "/api/messages/{id}/raw"%string) then lift_handler (GetRawMIME (srv_store s))
     else lift_handler (GetAttachment (srv_store s))).

Lemma reaches_route s r rt params rest :
  reaches r rt params rest -> (match rt with Endpoint (Some m) _ => Method r = m | _ => True end) /\
  exists run, In (rt, run) (map (fun x => (rt_chi x, rt_run x)) (routes (D := D) (F := F) s)) /\
    forall w st, dispatch (routes s) (URLPath r) r w st = run rest (with_params r params) w st.
Proof.
  intros (i & Hf & Hi). split.
  { destruct (chi_found _ _ _ _ _ _ Hf) as (rt' & Hi' & Hm). rewrite Hi in Hi'. injection Hi' as <-.
    destruct rt as [[m|] p|p]; [by rewrite Hm|done..]. }
  unfold dispatch. rewrite registered_routes, Hf. rewrite <-(registered_routes s) in Hi.
  rewrite list_lookup_fmap in Hi. destruct (routes s !! i) as [x|] eqn:Ex; [|done]. injection Hi as <-.
  exists (rt_run x). split; [|done]. apply in_map_iff. exists x. split; [done|].
  apply list_elem_of_In. by eapply list_elem_of_lookup_2.
Qed.

Lemma routed_not_sent s rid r w : not_sent w -> not_sent (routed_writer s rid r w).
Proof.
  intros Hw. apply (framed_not_sent rid) in Hw. unfold routed_writer, cors_headers.
  destruct (_ && _); revert Hw; generalize (framed rid w); intros; by simpl_http.
Qed.

Lemma routed_body s rid r w : resp_body (routed_writer s rid r w) = resp_body w.
Proof. unfold routed_writer, cors_headers, framed. destruct (_ && _); simpl_http; reflexivity. Qed.
(** A request as a route's handler sees it. *)
Definition at_route (r : Request) (st : App D F) (params : list (string * string)) : Request :=
  with_params (routed_request (request_id r (app_rt st)).1 r) params.

Lemma serve_route s r w st rt params rest :
  not_sent w -> Method r <> "OPTIONS"%string -> reaches r rt params rest ->
  exists run, In (rt, run) (map (fun x => (rt_chi x, rt_run x)) (routes (D := D) (F := F) s)) /\
  exists w1 n st1 d rt', serve s r w st =
    (w1, put (app_log st ++ [mkLog (Method r) (URLPath r) (resp_status w1) d (RemoteAddr r)], rt') st1) /\
    (RWRecorder w1 n, st1) =
      run rest (at_route r st params) (routed_writer s (request_id r (app_rt st)).1 r w) (routed_state r st).
Proof.
  intros Hw Hm Hr. destruct (serve_recorded s r w st Hw) as (b & w1 & n & st1 & d & rt' & Hs & _ & _ & Hin).
  rewrite bool_decide_eq_false_2 in Hin by done.
  destruct (reaches_route s (routed_request (request_id r (app_rt st)).1 r) rt params rest Hr) as (_ & run & Hrun & Hd).
  exists run. split; [exact Hrun|]. exists w1, n, st1, d, rt'. split; [exact Hs|]. rewrite Hin. apply Hd.
Qed.

Lemma mail_route s pattern run :
  pattern ∈ mail_patterns ->
  In (Endpoint (Some "GET"%string) pattern, run) (map (fun x => (rt_chi x, rt_run x)) (routes (D := D) (F := F) s)) ->
  run = fun _ => mail_handler s pattern.
Proof.
  intros Hp Hin. unfold mail_patterns in Hp. rewrite !elem_of_cons in Hp.
  destruct Hp as [-> |[-> |[-> |[-> |[]%elem_of_nil]]]]; simpl in Hin;
    repeat (destruct Hin as [Hin|Hin]; [try discriminate Hin; by injection Hin as <-|]); done.
Qed.

Lemma serve_mail s r w st pattern params rest :
  not_sent w -> pattern ∈ mail_patterns -> reaches r (Endpoint (Some "GET"%string) pattern) params rest ->
  exists w1 n st1 d rt', serve s r w st =
    (w1, put (app_log st ++ [mkLog (Method r) (URLPath r) (resp_status w1) d (RemoteAddr r)], rt') st1) /\
    (RWRecorder w1 n, st1) = mail_handler s pattern (at_route r st params)
      (routed_writer s (request_id r (app_rt st)).1 r w) (routed_state r st).
Proof.
  intros Hw Hp Hr. destruct (reaches_route s r _ _ _ Hr) as [Hm _].
  destruct (serve_route s r w st _ params rest Hw (ltac:(by rewrite Hm)) Hr) as (run & Hrun & Hrest).
  by rewrite (mail_route s pattern run Hp Hrun) in Hrest.
Qed.

(** No session is live for the request when the server looks: logging has read
    the clock once. *)
Definition no_session s r st : Prop :=
  forall v sess, Req_Cookie r (sessionCookieName (Some (srv_config s))) = Some v ->
    Get v (app_sessions st) = Ok sess ->
    ExpiresAt sess < clock_at (app_rt st) (S (clock_pos (app_rt st))).
Definition live_session s r st (sess : Session) : Prop :=
  exists v, Req_Cookie r (sessionCookieName (Some (srv_config s))) = Some v /\
    Get v (app_sessions st) = Ok sess /\
    clock_at (app_rt st) (S (clock_pos (app_rt st))) <= ExpiresAt sess.

Lemma session_cases s r st : no_session s r st \/ exists sess, live_session s r st sess.
Proof.
  unfold no_session, live_session. destruct (Req_Cookie r _) as [v|]; [|by left].
  destruct (Get v (app_sessions st)) as [sess|e] eqn:Eg; [|left; intros ? ? [= <-]; by rewrite Eg].
  destruct (Z.le_gt_cases (clock_at (app_rt st) (S (clock_pos (app_rt st)))) (ExpiresAt sess)).
  - right. by exists sess, v.
  - left. intros ? ? [= <-]. rewrite Eg. intros [= <-]. lia.
Qed.

Lemma routed_clock r st :
  let rt := app_rt (routed_state r st) in
  clock_at rt = clock_at (app_rt st) /\ clock_pos rt = S (clock_pos (app_rt st)).
Proof.
  unfold routed_state, request_id, generateUUIDv4, rand_Read. simpl.
  by destruct (bool_decide _).
Qed.
(** The mail routes without a session. *)
Lemma mail_unauthenticated s r pattern params rest st w' st' :
  pattern ∈ mail_patterns -> reaches r (Endpoint (Some "GET"%string) pattern) params rest ->
  no_session s r st -> serve s r new_writer st = (w', st') ->
  resp_status w' = 401 /\ resp_body w' = [Json auth_required] /\
  app_db st' = app_db st /\ app_fs st' = app_fs st /\
  forall t, Get t (app_sessions st') = Get t (app_sessions st) \/ Get t (app_sessions st') = Err ErrSessionNotFound.
Proof.
  intros Hp Hr Hno Hrun.
  destruct (serve_mail s r new_writer st pattern params rest not_sent_new Hp Hr) as (w1 & n & st1 & d & rt' & E & Hh).
  rewrite E in Hrun. injection Hrun as -> <-. unfold mail_handler, requireAuth in Hh.
  destruct (routed_clock r st) as [Hc1 Hc2].
  destruct (RequireAuth_rejects (S := CookieSessionStore) (W := App D F) (Some (srv_config s)) (at_route r st params)
    (routed_writer s (request_id r (app_rt st)).1 r new_writer) (routed_state r st)
    (app_sessions st) (app_rt (routed_state r st))) as (w3 & st3 & Heq & Hst & Hb & Hs).
  - done.
  - by apply routed_not_sent.
  - intros v sess Hv Hg. rewrite Hc1, Hc2. by apply (Hno v sess).
  - assert (Keeps (fun x : App D F => (app_db x, app_fs x)) (requireAuth s (fun _ w st => (w, st)))) as K
      by (unfold requireAuth; apply RequireAuth_moves; [apply _|apply _|by intros ? ? ?]).
    specialize (K (at_route r st params) (routed_writer s (request_id r (app_rt st)).1 r new_writer) (routed_state r st)).
    unfold requireAuth in K. rewrite Heq in K.
    rewrite Heq in Hh. injection Hh as <- <-. rewrite routed_body in Hb.
    split_and!; [exact Hst|exact Hb| | |exact Hs].
    + by apply (f_equal fst) in K.
    + by apply (f_equal snd) in K.
Qed.
(** The mail routes are closed without a session. A request that the router
    leads to one of the four mail routes, with no session cookie, with a token
    the store does not know or with an expired session, is answered 401 "authentication
    required"; the database and the files are as they were, and no session has
    been added or changed. *)
Theorem mail_needs_a_session s r pattern params rest st w' st' :
  pattern ∈ mail_patterns -> reaches r (Endpoint (Some "GET"%string) pattern) params rest ->
  no_session s r st -> serve s r new_writer st = (w', st') ->
  resp_status w' = 401 /\ resp_body w' = [Json auth_required] /\
  app_db st' = app_db st /\ app_fs st' = app_fs st /\
  forall t, Get t (app_sessions st') = Get t (app_sessions st) \/ Get t (app_sessions st') = Err ErrSessionNotFound.
Proof. apply mail_unauthenticated. Qed.
(** The API's handler for a protected route. *)
Definition mail_api (s : Server) (pattern : string) : Handler (D * F) :=
  if bool_decide (pattern = "/api/messages"%string) then ListMessages
  else if bool_decide (pattern = "/api/messages/{id}"%string) then GetMessage
  else if bool_decide (pattern = "/api/messages/{id}/raw"%string) then GetRawMIME (srv_store s)
  else GetAttachment (srv_store s).

(** With a live session the reply is the API handler's. *)
Lemma serve_mail_live s r w st pattern params rest sess w' st' :
  not_sent w -> pattern ∈ mail_patterns -> reaches r (Endpoint (Some "GET"%string) pattern) params rest ->
  live_session s r st sess -> serve s r w st = (w', st') ->
  exists ctx n, SessionFromContext ctx = Some sess /\
    let out := mail_api s pattern (WithContext (at_route r st params) ctx)
                 (routed_writer s (request_id r (app_rt st)).1 r w) (app_db st, app_fs st) in
    RWRecorder w' n = out.1 /\ (app_db st', app_fs st') = out.2 /\
    app_sessions st' = app_sessions st.
Proof.
  intros Hw Hp Hr (v & Hv & Hg & Ht) Hrun.
  destruct (serve_mail s r w st pattern params rest Hw Hp Hr) as (w1 & n & st1 & d & rt' & E & Hh).
  rewrite E in Hrun. injection Hrun as -> <-. unfold mail_handler, requireAuth in Hh.
  destruct (routed_clock r st) as [Hc1 Hc2].
  rewrite (RequireAuth_live (S := CookieSessionStore) (W := App D F) (Some (srv_config s)) _ (at_route r st params) _
    (routed_state r st) (app_sessions st) (app_rt (routed_state r st)) v sess) in Hh; [|done..|by rewrite Hc1, Hc2].
  exists (WithSession (ReqCtx (at_route r st params)) sess), n. split; [done|]. revert Hh.
  unfold mail_api. repeat case_bool_decide; unfold lift_handler; simpl;
    match goal with |- context [let '(_, _) := ?h in _] => destruct h as [wo [db1 fs1]] end;
    by intros [= <- ->].
Qed.

Context {sqllaws : SQLDriverLaws D T}.

(** What a session may be told, by route: the specification of the mail API. *)
Inductive mail_reply (s : Server) (r : Request) (sess : Session) (db : D) (fs : F) : string -> list Chunk -> Prop :=
| reply_list l :
    let offset := wrap64 ((page_number r - 1) * page_size r) in
    Permutation l (listed sql_eq fulltext (Api.list_filter r sess) (tables db)) -> Sorted newest_first l -> 0 <= offset ->
    mail_reply s r sess db fs "/api/messages"
      [Json (list_json (map listed_dto (take (Z.to_nat (page_size r)) (drop (Z.to_nat offset) l)))
         (Z.of_nat (length l)) (page_number r) (page_size r))]
| reply_message id m :
    canonical 1 (URLParam r "id") id -> m ∈ messages (tables db) -> m_id m = id ->
    may_see sql_eq (viewer sess) (tables db) m = true ->
    mail_reply s r sess db fs "/api/messages/{id}" [Json (messageDTO_json (message_dto (tables db) m))]
| reply_raw id m data :
    canonical 1 (URLParam r "id") id -> m ∈ messages (tables db) -> m_id m = id ->
    may_see sql_eq (viewer sess) (tables db) m = true -> ReadRawMIME (srv_store s) (m_content_hash m) fs = Ok data ->
    mail_reply s r sess db fs "/api/messages/{id}/raw" [Bytes data]
| reply_attachment id idx m a data :
    canonical 1 (URLParam r "id") id -> canonical 0 (URLParam r "idx") idx ->
    m ∈ messages (tables db) -> m_id m = id -> may_see sql_eq (viewer sess) (tables db) m = true ->
    attachments_of id (tables db) !! Z.to_nat idx = Some a ->
    ReadAttachment (srv_store s) id (a_storage_key a) fs = Ok data ->
    mail_reply s r sess db fs "/api/messages/{id}/attachments/{idx}" [Bytes data].

(** Only the query and the parameters of the request matter. *)
Lemma mail_reply_ext s r r' sess db fs pattern body :
  Query r = Query r' -> URLParams r = URLParams r' ->
  mail_reply s r sess db fs pattern body -> mail_reply s r' sess db fs pattern body.
Proof.
  intros Hq Hu Hr.
  assert (forall k, URLParam r k = URLParam r' k) as Hp by (intros k; unfold URLParam; by rewrite Hu).
  assert (page_number r = page_number r') as H1' by (unfold page_number, Query_Get; by rewrite Hq).
  assert (page_size r = page_size r') as H2' by (unfold page_size, Query_Get; by rewrite Hq).
  assert (forall x, Api.list_filter r x = Api.list_filter r' x) as H3'
    by (intros x; unfold Api.list_filter, Query_Get; by rewrite Hq).
  destruct Hr as [l off Hl Hs Ho| | |].
  - unfold off in *. rewrite H3' in Hl. rewrite H1', H2' in *. by apply reply_list.
  - eapply reply_message; by rewrite <-?Hp.
  - eapply reply_raw; rewrite <-?Hp; eassumption.
  - eapply reply_attachment; rewrite <-?Hp; eassumption.
Qed.

(** The API handlers, with a session, refuse or give such a reply. *)
Lemma mail_api_spec s r w sess pattern db fs :
  not_sent w -> resp_body w = [] -> pattern ∈ mail_patterns -> SessionFromContext (ReqCtx r) = Some sess ->
  let out := mail_api s pattern r w (db, fs) in
  out.2 = (db, fs) /\
  (refusal w out.1 \/ resp_status out.1 = 200 /\ mail_reply s r sess db fs pattern (resp_body out.1)).
Proof.
  intros Hw Hb Hp Hs. unfold mail_patterns in Hp. rewrite !elem_of_cons in Hp.
  destruct Hp as [-> |[-> |[-> |[-> |[]%elem_of_nil]]]]; intros out.
  - change out with (ListMessages r w (db, fs)). clear out.
    destruct (ListMessages_cases r w db fs) as [-> [Hr|(sess' & l & K2 & K3 & K4 & K5 & Ho)]]; (split; [done|]).
    { by left. }
    right. rewrite Hs in K2. injection K2 as <-. rewrite Ho. autorewrite with reply. split; [done|].
    rewrite Hb. by apply reply_list.
  - change out with (GetMessage r w (db, fs)). clear out.
    destruct (GetMessage_cases (srv_store s) r w db fs) as [-> [Hr|(sess' & id & m & rest & K2 & K3 & K4 & Ho)]]; (split; [done|]).
    { by left. }
    right. rewrite Hs in K2. injection K2 as <-. apply by_id_cons in K4 as (Hm & Hid & Hsee). rewrite Ho. autorewrite with reply. split; [done|]. rewrite Hb. by eapply reply_message.
  - change out with (GetRawMIME (srv_store s) r w (db, fs)). clear out.
    destruct (GetRawMIME_cases (srv_store s) r w db fs) as [-> [Hr|(sess' & id & m & rest & data & K2 & K3 & K4 & K5 & Ho)]];
      (split; [done|]).
    { by left. }
    right. rewrite Hs in K2. injection K2 as <-. apply by_id_cons in K4 as (Hm & Hid & Hsee). rewrite Ho. unfold raw_reply. simpl_http. unfold base_Write, base_WriteHeader. simpl.
    rewrite Hw. simpl. split; [done|]. rewrite Hb. by eapply reply_raw.
  - change out with (GetAttachment (srv_store s) r w (db, fs)). clear out.
    destruct (GetAttachment_cases (srv_store s) r w db fs)
      as [-> [Hr|(sess' & id & idx & m & rest & a & data & K2 & K3 & K4 & K5 & K6 & K7 & Ho)]]; (split; [done|]).
    { by left. }
    right. rewrite Hs in K2. injection K2 as <-. apply by_id_cons in K5 as (Hm & Hid & Hsee). rewrite Ho. unfold attachment_reply. simpl_http. unfold base_Write, base_WriteHeader. simpl.
    rewrite Hw. simpl. split; [done|]. rewrite Hb. by eapply reply_attachment.
Qed.
(** The two replies that tell nothing. *)
Definition plain_refusal (w : ResponseWriter) : Prop :=
  (resp_status w = 404 /\ resp_body w = [Bytes ("404 page not found" +:+ String (byte 10) EmptyString)]) \/
  (resp_status w = 500 /\ resp_body w = [Bytes ("Internal Server Error" +:+ String (byte 10) EmptyString)]).

Lemma refusal_plain w w' : not_sent w -> resp_body w = [] -> refusal w w' -> plain_refusal w'.
Proof.
  intros Hw Hb [-> | ->]; [left|right]; unfold internal_error, NotFound; autorewrite with reply; by rewrite Hb.
Qed.

(** With a live session, the reply is one that the session may be given. *)
Lemma serve_mail_session s r pattern params rest st sess w' st' :
  pattern ∈ mail_patterns -> reaches r (Endpoint (Some "GET"%string) pattern) params rest ->
  live_session s r st sess -> serve s r new_writer st = (w', st') ->
  app_db st' = app_db st /\ app_fs st' = app_fs st /\
  (plain_refusal w' \/
   resp_status w' = 200 /\ mail_reply s (with_params r params) sess (app_db st) (app_fs st) pattern (resp_body w')).
Proof.
  intros Hp Hr Hlive Hrun.
  destruct (serve_mail_live s r new_writer st pattern params rest sess w' st' not_sent_new Hp Hr Hlive Hrun)
    as (ctx & n & Hctx & Hw & Hst & _).
  destruct (mail_api_spec s (WithContext (at_route r st params) ctx)
    (routed_writer s (request_id r (app_rt st)).1 r new_writer) sess pattern (app_db st) (app_fs st)
    (routed_not_sent _ _ _ _ not_sent_new) (routed_body _ _ _ _) Hp Hctx) as [Ho Hout].
  rewrite Ho in Hst. injection Hst as -> ->. rewrite <-Hw in Hout. split_and!; [done..|].
  destruct Hout as [Hout|[Hout Hbody]].
  - left. apply refusal_plain in Hout; [exact Hout|by apply routed_not_sent|by rewrite routed_body].
  - right. split; [exact Hout|]. eapply mail_reply_ext; [..|exact Hbody]; done.
Qed.

(** C7: What the mail routes serve. Every request that the router leads to one of
    them leaves the database and the files as they were; with no live session it
    is answered 401; and with one, either by one of two constant refusals, or with 200 and
    a body the specification [mail_reply] allows that session on that route: the
    page of its own messages, one message it may see, or the stored file of
    such a message. *)
Theorem served_mail_is_authorised s r pattern params rest st w' st' :
  pattern ∈ mail_patterns -> reaches r (Endpoint (Some "GET"%string) pattern) params rest ->
  serve s r new_writer st = (w', st') ->
  app_db st' = app_db st /\ app_fs st' = app_fs st /\
  ((no_session s r st /\ resp_status w' = 401) \/
   exists sess, live_session s r st sess /\
     (plain_refusal w' \/
      resp_status w' = 200 /\
      mail_reply s (with_params r params) sess (app_db st) (app_fs st) pattern (resp_body w'))).
Proof.
  intros Hp Hr Hrun. destruct (session_cases s r st) as [Hno|[sess Hlive]].
  - destruct (mail_unauthenticated s r pattern params rest st w' st' Hp Hr Hno Hrun) as (H401 & _ & Hdb & Hfs & _). auto.
  - destruct (serve_mail_session s r pattern params rest st sess w' st' Hp Hr Hlive Hrun) as (Hdb & Hfs & Hout).
    split_and!; [done..|]. right. by exists sess.
Qed.
End routed.

(** ** The mounted routers *)

Section mounted.
Context `{UnicodeTable} `{MailLib} `{ChiLaws} `{StaticLaws}
  {D T F : Type} `{SQLDriver D T} `{FileSystem F}.
Implicit Types (s : Server) (st : App D F).

(** The mounted router leads the request to its only route. *)
Definition reaches_post (r : Request) (mount : string) (params : list (string * string)) : Prop :=
  Method r = "POST"%string /\ exists params1 rest params2 rest2,
    reaches r (MountAt mount) params1 rest /\
    chi_Find [Endpoint (Some "POST"%string) "/"%string] "POST" rest = RouteFound 0 params2 rest2 /\
    params = params2 ++ params1.

(** What a mounted router does, given its limiter, its body limit and its handler. *)
Lemma serve_mounted {L : Lens (App D F) (rateLimiter * Runtime)} s r w st mount params rpm limit (h : Handler (App D F)) :
  (forall rest run, In (MountAt mount, run) (map (fun x => (rt_chi x, rt_run x)) (routes (D := D) (F := F) s)) ->
     run rest = RateLimit rpm rpm (MaxBodySize limit (dispatch [Post_ "/" h] rest))) ->
  not_sent w -> reaches_post r mount params ->
  (forall st, (view st).2 = app_rt st) ->
  let w0 := routed_writer s (request_id r (app_rt st)).1 r w in
  let v := Allow (getClientIP r) (clock_at (app_rt st) (S (clock_pos (app_rt st)))) (view (routed_state r st)).1 in
  let st2 := put (v.2, (time_Now (app_rt (routed_state r st))).2) (routed_state r st) in
  exists w1 n st1 d rt', serve s r w st =
    (w1, put (app_log st ++ [mkLog (Method r) (URLPath r) (resp_status w1) d (RemoteAddr r)], rt') st1) /\
    (RWRecorder w1 n, st1) =
      (if negb v.1.1.1 then
         (Write (Bytes rate_limit_body)
            (WriteHeader 429 (set_header "Content-Type" "application/json" (limit_headers rpm v.1 w0))), st2)
       else if max_body_default limit <? ContentLength r then
         (Write (Bytes max_body_text)
            (WriteHeader 413 (set_header "Content-Type" "application/json" (limit_headers rpm v.1 w0))), st2)
       else h (with_body (at_route r st params) (MaxBytesReader (ReqBody r) (max_body_default limit)))
              (limit_headers rpm v.1 w0) st2).
Proof.
  intros Hrun Hw (Hm & params1 & rest & params2 & rest2 & Hr & Hf & ->) Hview w0 v st2.
  destruct (serve_route s r w st (MountAt mount) params1 rest Hw (ltac:(by rewrite Hm)) Hr)
    as (run & Hin & w1 & n & st1 & d & rt' & E & Hres).
  exists w1, n, st1, d, rt'. split; [exact E|]. rewrite Hres, (Hrun rest run Hin), RateLimit_eq.
  destruct (routed_clock r st) as [Hc1 Hc2].
  assert (verdict (at_route r st params1) (routed_state r st) = v) as ->.
  { unfold verdict, v. rewrite Hview, Hc1, Hc2. done. }
  rewrite Hview. fold st2. destruct v.1.1.1; [|done]. simpl negb. cbv iota.
  unfold MaxBodySize. change (ContentLength (at_route r st params1)) with (ContentLength r).
  destruct (_ <? _); [done|]. unfold dispatch. simpl map. 
  change (Method (with_body (at_route r st params1) _)) with (Method r). rewrite Hm, Hf. simpl.
  f_equal. unfold at_route, with_params, with_body, routed_request, WithContext. simpl. by rewrite app_assoc.
Qed.
(** The limiters' answers, asked after logging has read the clock. *)
Definition ingest_verdict (r : Request) st : (bool * Z * Z) * rateLimiter :=
  Allow (getClientIP r) (clock_at (app_rt st) (S (clock_pos (app_rt st)))) (app_ingest_limiter st).
Definition login_verdict (r : Request) st : (bool * Z * Z) * rateLimiter :=
  Allow (getClientIP r) (clock_at (app_rt st) (S (clock_pos (app_rt st)))) (app_login_limiter st).

Lemma ingest_mount s rest run :
  In (MountAt "/api/ingest", run) (map (fun x => (rt_chi x, rt_run x)) (routes (D := D) (F := F) s)) ->
  run rest = RateLimit (H := ingest_limiter) rateLimitIngest rateLimitIngest (MaxBodySize (MaxMessageBytes (srv_config s))
    (dispatch [Post_ "/" (lift_handler (ServeHTTP (ingestHandler s)))] rest)).
Proof.
  simpl. intros Hin. repeat (destruct Hin as [Hin|Hin]; [try discriminate Hin; by injection Hin as <-|]). done.
Qed.

Lemma login_mount s rest run :
  In (MountAt "/api/login", run) (map (fun x => (rt_chi x, rt_run x)) (routes (D := D) (F := F) s)) ->
  run rest = RateLimit (H := login_limiter) rateLimitLogin rateLimitLogin (MaxBodySize maxBodyBytes
    (dispatch [Post_ "/" (lift_handler (S := CookieSessionStore * Runtime) (LoginHandler (Some (srv_config s))))] rest)).
Proof.
  simpl. intros Hin. repeat (destruct Hin as [Hin|Hin]; [try discriminate Hin; by injection Hin as <-|]). done.
Qed.

Lemma limit_headers_not_sent rpm v w : not_sent w -> not_sent (limit_headers rpm v w).
Proof. unfold limit_headers. by simpl_http. Qed.
Lemma limit_headers_body rpm v w : resp_body (limit_headers rpm v w) = resp_body w.
Proof. unfold limit_headers. by simpl_http. Qed.

(** A reply of the middleware before the handler. *)
Lemma early_reply c body w :
  not_sent w -> let w' := Write (Bytes body) (WriteHeader c (set_header "Content-Type" "application/json" w)) in
  resp_status w' = c /\ resp_body w' = resp_body w ++ [Bytes body].
Proof. intros Hw. simpl_http. unfold base_WriteHeader; simpl. by rewrite Hw. Qed.

(** C30: The limits of the ingest route, as served. A refused caller gets 429. For
    an admitted one with the key, a declared length over the limit gets 413 and a
    longer body without a declared length gets 400, with the database and the files as they
    were; a body within the limit is handed to the ingestion whole. The limit is
    [MAX_MESSAGE_BYTES], but 1 MiB when that is not positive, although the ingest
    handler would take 25 MiB then. *)
Theorem served_ingest_limits s r params st w' st' :
  reaches_post r "/api/ingest" params -> authentic (ingestHandler s) r ->
  MaxMessageBytes (srv_config s) < max_int64 -> serve s r new_writer st = (w', st') ->
  let limit := max_body_default (MaxMessageBytes (srv_config s)) in
  let body := body_bytes (ReqBody r) in
  let same := app_db st' = app_db st /\ app_fs st' = app_fs st in
  ((ingest_verdict r st).1.1.1 = false -> resp_status w' = 429 /\ same) /\
  ((ingest_verdict r st).1.1.1 = true ->
   (limit < ContentLength r -> resp_status w' = 413 /\ same) /\
   (ContentLength r <= limit < slen body ->
      resp_status w' = 400 /\ resp_body w' = [Json (json_error "read request body")] /\ same) /\
   (ContentLength r <= limit -> slen body <= limit -> body_error (ReqBody r) = None ->
      exists w0 rt n, not_sent w0 /\ resp_body w0 = [] /\
        let out := ingest_message (srv_store s) body w0 (app_db st) (app_fs st) rt in
        RWRecorder w' n = out.1 /\ app_db st' = out.2.1.1 /\ app_fs st' = out.2.1.2)).
Proof.
  intros Hr Hau Hmax Hrun limit body same.
  destruct (serve_mounted (L := ingest_limiter) s r new_writer st _ params rateLimitIngest (MaxMessageBytes (srv_config s))
    (lift_handler (ServeHTTP (ingestHandler s))) (ingest_mount s) not_sent_new Hr (fun _ => eq_refl))
    as (w1 & n & st1 & d & rt' & E & Hres).
  rewrite E in Hrun. injection Hrun as -> <-. unfold same. clear same E.
  change (Allow _ _ _) with (ingest_verdict r st) in Hres. fold limit in Hres.
  pose proof (limit_headers_not_sent rateLimitIngest (ingest_verdict r st).1 _
    (routed_not_sent s (request_id r (app_rt st)).1 r new_writer not_sent_new)) as Hw.
  pose proof (limit_headers_body rateLimitIngest (ingest_verdict r st).1
    (routed_writer s (request_id r (app_rt st)).1 r new_writer)) as Hb. rewrite routed_body in Hb. change (resp_body new_writer) with (@nil Chunk) in Hb.
  set (w0 := limit_headers _ _ _) in *. set (st2 := put _ (routed_state r st)) in *.
  assert (forall c x, (RWRecorder w' n, st1) = (Write (Bytes x) (WriteHeader c (set_header "Content-Type" "application/json" w0)), st2) ->
    resp_status w' = c /\ app_db st1 = app_db st /\ app_fs st1 = app_fs st) as Hearly.
  { intros c x Ho. destruct (early_reply c x w0 Hw) as [Hc _].
    split; [|by injection Ho as _ ->]. etrans; [|exact Hc]. exact (f_equal (fun y => resp_status y.1) Ho). }
  destruct (ingest_verdict r st).1.1.1; (split; intros Hv; [try discriminate Hv|try discriminate Hv]).
  2:{ exact (Hearly _ _ Hres). }
  simpl negb in Hres. cbv iota in Hres.
  set (r2 := with_body _ _) in Hres. assert (0 < limit <= message_limit (srv_config s)) as Hlim.
  { unfold limit, max_body_default, message_limit. destruct (Z.leb_spec (MaxMessageBytes (srv_config s)) 0); lia. }
  assert (wrap64 (message_limit (srv_config s) + 1) = message_limit (srv_config s) + 1) as Hwrap.
  { apply wrap64_id. unfold in_int64, message_limit, min_int64, max_int64 in *.
    destruct (Z.leb_spec (MaxMessageBytes (srv_config s)) 0); lia. }
  pose proof (fun o => ServeHTTP_authentic (srv_store s) (ingestHandler s) r2 (srv_config s) w0 (app_db st2) (app_fs st2)
    (app_rt st2) o Hau eq_refl eq_refl eq_refl) as HS. rewrite Hwrap in HS. split_and!.
  - intros Hlen. rewrite (proj2 (Z.ltb_lt _ _) Hlen) in Hres. exact (Hearly _ _ Hres).
  - intros [Hlen Hlong]. rewrite (proj2 (Z.ltb_ge _ _)) in Hres by done. unfold lift_handler in Hres.
    change (view st2) with (app_db st2, app_fs st2, app_rt st2) in Hres. rewrite (HS (stake (Z.to_nat limit) body, Some ErrBodyTooLarge)) in Hres.
    + injection Hres as Hw1 ->. split_and!; [| |done..].
      * etrans; [exact (f_equal resp_status Hw1)|]. by apply writeJSON_status.
      * etrans; [exact (f_equal resp_body Hw1)|]. rewrite writeJSON_body by done. by rewrite Hb.
    + simpl. unfold MaxBytesReader. rewrite (proj2 (Z.ltb_lt _ _)) by exact Hlong. unfold LimitReader, slen. simpl.
      unfold slen, body in *. rewrite stake_length by lia. rewrite (proj2 (Z.leb_gt _ _)) by lia. reflexivity.
  - intros Hlen Hshort Hnone. rewrite (proj2 (Z.ltb_ge _ _)) in Hres by done. unfold lift_handler in Hres.
    change (view st2) with (app_db st2, app_fs st2, app_rt st2) in Hres. rewrite (HS (body, None)) in Hres.
    + rewrite (proj2 (Z.ltb_ge _ _)) in Hres by lia.
      exists w0, (app_rt st2), n. split; [done|]. split; [done|]. cbv zeta. change (app_db st2) with (app_db st) in Hres.
      change (app_fs st2) with (app_fs st) in Hres.
      destruct (ingest_message _ _ _ _ _ _) as [wo [[db fs] rt]]. by injection Hres as -> ->.
    + simpl. unfold MaxBytesReader, LimitReader. rewrite (proj2 (Z.ltb_ge _ _)) by exact Hshort.
      rewrite (proj2 (Z.leb_gt _ _)) by (fold body; lia). unfold ReadAll. by rewrite Hnone.
Qed.

(** A login that the server answers 200: the cookie it sets, and the session under
    its token, with the identity of the credentials. *)
Lemma login_served s r params st w1 st1 :
  valid_cookie_name (sessionCookieName (Some (srv_config s))) = true ->
  reaches_post r "/api/login" params -> serve s r new_writer st = (w1, st1) -> resp_status w1 = 200 ->
  exists req email adm token,
    let expires := clock_at (app_rt st) (S (S (clock_pos (app_rt st)))) + sessionTTL (Some (srv_config s)) in
    decode_login (MaxBytesReader (ReqBody r) 1048576) = Ok req /\
    authenticate (srv_config s) req = Some (email, adm) /\
    last (h_cookies (resp_header w1)) = Some (NewSessionCookie (Some (srv_config s)) token expires) /\
    app_db st1 = app_db st /\ app_fs st1 = app_fs st /\
    Get token (app_sessions st1) = Ok (mkSession email adm expires token).
Proof.
  intros Hname Hr Hrun H200.
  destruct (serve_mounted (L := login_limiter) s r new_writer st _ params rateLimitLogin maxBodyBytes
    (lift_handler (S := CookieSessionStore * Runtime) (LoginHandler (Some (srv_config s)))) (login_mount s) not_sent_new Hr
    (fun _ => eq_refl)) as (w1' & n & st1' & d & rt' & E & Hres).
  rewrite E in Hrun. injection Hrun as -> <-. clear E.
  change (Allow _ _ _) with (login_verdict r st) in Hres.
  pose proof (limit_headers_not_sent rateLimitLogin (login_verdict r st).1 _
    (routed_not_sent s (request_id r (app_rt st)).1 r new_writer not_sent_new)) as Hw.
  set (w0 := limit_headers _ _ _) in *. set (st2 := put _ (routed_state r st)) in *.
  assert (forall c x, (RWRecorder w1 n, st1') = (Write (Bytes x) (WriteHeader c (set_header "Content-Type" "application/json" w0)), st2) ->
    c = 200) as Hearly.
  { intros c x Ho. destruct (early_reply c x w0 Hw) as [Hc _]. rewrite <-Hc, <-H200. symmetry.
    exact (f_equal (fun y => resp_status y.1) Ho). }
  destruct (negb _); [by apply Hearly in Hres|]. destruct (_ <? _); [by apply Hearly in Hres|]. clear Hearly.
  unfold lift_handler in Hres. change (view st2) with (app_sessions st, app_rt st2) in Hres.
  destruct (LoginHandler _ _ _ _) as [wl [ss rt]] eqn:EL. injection Hres as Hwl ->.
  assert (resp_status wl = 200) as H200' by (rewrite <-H200; exact (eq_sym (f_equal resp_status Hwl))).
  destruct (LoginHandler_200 _ _ _ _ _ _ _ _ Hw EL H200') as (_ & req & email & adm & sess & Hd & Ha & Hc & Hwl').
  destruct (create_ok _ _ _ _ _ _ Hc) as (_ & Hs & _ & Hg & _). unfold set_token in Hs. simpl in Hs.
  destruct (routed_clock r st) as [Hc1 Hc2].
  assert (clock_at (app_rt st2) (clock_pos (app_rt st2)) = clock_at (app_rt st) (S (S (clock_pos (app_rt st))))) as Hexp.
  { cbv zeta in Hc1, Hc2. change (app_rt st2) with (time_Now (app_rt (routed_state r st))).2. unfold time_Now. cbn [snd clock_at clock_pos]. by rewrite Hc1, Hc2. }
  assert (sess = mkSession email adm (clock_at (app_rt st) (S (S (clock_pos (app_rt st)))) + sessionTTL (Some (srv_config s)))
    (Token sess)) as Hs' by (rewrite <-Hexp; exact Hs). clear Hexp Hc Hs. rename Hs' into Hs.
  exists req, email, adm, (Token sess). cbv zeta. set (expires := clock_at _ _ + _) in *.
  change (default zero_config (Some (srv_config s))) with (srv_config s) in *. fold expires in Hs.
  assert (ExpiresAt sess = expires) as He by (by rewrite Hs).
  split_and!; [exact Hd|exact Ha| |done|done|].
  - transitivity (last (h_cookies (resp_header wl))); [exact (f_equal (fun y => last (h_cookies (resp_header y))) Hwl)|].
    rewrite Hwl', writeJSON_header by (by autorewrite with http). simpl.
    rewrite SetCookie_cookies by exact Hname. by rewrite last_snoc, He.
  - rewrite <-Hs. exact Hg.
Qed.
End mounted.

(** ** Sequences of requests *)

(** The cleanup goroutines of the limiters, at a tick. *)
Definition cleanup_login {D F} (st : App D F) : App D F :=
  let '(now, rt) := time_Now (app_rt st) in
  mkApp rt (app_log st) (app_sessions st) (cleanup now (app_login_limiter st)) (app_ingest_limiter st)
    (app_db st) (app_fs st).
Definition cleanup_ingest {D F} (st : App D F) : App D F :=
  let '(now, rt) := time_Now (app_rt st) in
  mkApp rt (app_log st) (app_sessions st) (app_login_limiter st) (cleanup now (app_ingest_limiter st))
    (app_db st) (app_fs st).

(** What happens to the server: requests are served one after the other, and the
    cleanup goroutines run between them. *)
Inductive happening := Serve (r : Request) | TickLogin | TickIngest.

Definition happen `{UnicodeTable} `{MailLib} `{ChiRouter} `{StaticFiles} {D T F}
  `{SQLDriver D T} `{FileSystem F} (s : Server) (h : happening) (st : App D F) : App D F :=
  match h with
  | Serve r => (serve s r new_writer st).2
  | TickLogin => cleanup_login st
  | TickIngest => cleanup_ingest st
  end.

Inductive app_step `{UnicodeTable} `{MailLib} `{ChiRouter} `{StaticFiles} {D T F}
  `{SQLDriver D T} `{FileSystem F} (s : Server) : relation (App D F) :=
| step_happens h st : app_step s st (happen s h st).

Section system.
Context `{UnicodeTable} `{MailLibLaws} `{ChiLaws} `{StaticLaws}
  {D T F : Type} `{SQLDriverLaws D T} `{FileSystemLaws F}.
Implicit Types (s : Server) (st : App D F).

Lemma serve_moves {X} (f : App D F -> X) R `{!Tame R} s :
  Aside app_runtime f -> Aside app_logging f ->
  Forall (fun rt => forall rest, Moves f R (rt_run rt rest)) (routes (D := D) (F := F) s) ->
  Moves f R (serve s).
Proof.
  intros Hr Hl Hf r w st. unfold serve, middlewares.
  apply RequestID_moves, SecurityHeaders_moves, RequestLogging_moves, CORS_moves, dispatch_moves; done || apply _.
Qed.

(** The database and the files move only through the ingest handler. *)
Definition app_store (st : App D F) : D * F := (app_db st, app_fs st).
Definition ingest_moves (s : Server) (r : Request) (x y : D * F) : Prop :=
  x = y \/ exists r' w rt w' rt', alike r r' /\
    ServeHTTP (ingestHandler s) r' w (x.1, x.2, rt) = (w', (y.1, y.2, rt')).

#[export] Instance ingest_moves_tame s : Tame (ingest_moves s).
Proof.
  split; [by left|]. intros r r' x y [Hm Hh] [->|(r2 & w & rt & w' & rt' & [Hm2 Hh2] & E)]; [by left|right].
  exists r2, w, rt, w', rt'. split; [|exact E]. split; congruence.
Qed.

Lemma readonly_moves s (h : Handler (D * F)) :
  (forall r w db fs, (h r w (db, fs)).2 = (db, fs)) -> Moves app_store (ingest_moves s) (lift_handler h).
Proof.
  intros Hh r w st. left. unfold lift_handler, app_store. simpl. specialize (Hh r w (app_db st) (app_fs st)).
  destruct (h r w _) as [w' [db fs]]. simpl in *. congruence.
Qed.

Lemma serve_store s : Moves app_store (ingest_moves s) (serve s).
Proof.
  apply serve_moves; [apply _..|]. apply routes_move; try apply _.
  - intros r w st. right. exists r, w, (app_rt st).
    destruct (ServeHTTP (ingestHandler s) r w (app_db st, app_fs st, app_rt st)) as [w' [[db fs] rt']] eqn:E.
    exists w', rt'. split; [done|]. unfold app_store, lift_handler. cbn [fst snd view app_ingest]. rewrite E. by destruct st.
  - apply readonly_moves. intros. apply ListMessages_cases.
  - apply readonly_moves. intros. apply (GetMessage_cases (srv_store s)).
  - apply readonly_moves. intros. apply GetRawMIME_cases.
  - apply readonly_moves. intros. apply GetAttachment_cases.
Qed.

(** The sessions keep the store's invariant. *)
Lemma serve_sessions s : Moves app_sessions (fun _ x y => store_ok x -> store_ok y) (serve (D := D) (F := F) s).
Proof.
  apply serve_moves; [apply _..|]. apply routes_move; try apply _.
  - intros r w st Hok. unfold lift_handler.
    pose proof (LoginHandler_ok (S := CookieSessionStore) (Some (srv_config s)) r w (app_sessions st) (app_rt st) Hok) as E.
    change (view st) with (app_sessions st, app_rt st). by destruct (LoginHandler _ r w _) as [w' [ss rt]].
  - intros r w st Hok. unfold lift_handler.
    pose proof (LogoutHandler_ok (S := CookieSessionStore) (Some (srv_config s)) r w (app_sessions st) (app_rt st) Hok) as E.
    change (view st) with (app_sessions st, app_rt st). by destruct (LogoutHandler _ r w _) as [w' [ss rt]].
  - intros next Hn r w st Hok. unfold requireAuth, RequireAuth. walk; try done.
    + by apply map_Forall_delete.
    + by apply Hn.
Qed.
(** C9: Only the worker writes. A request that does not carry the configured
    ingest key in a POST changes neither the database nor the files, on whatever
    path, with whatever session and body: no other route of the server can. *)
Theorem only_the_worker_writes s r st w' st' :
  serve s r new_writer st = (w', st') -> ~ authentic (ingestHandler s) r ->
  app_db st' = app_db st /\ app_fs st' = app_fs st.
Proof.
  intros Hrun Hna. pose proof (serve_store s r new_writer st) as Hm. rewrite Hrun in Hm. simpl in Hm.
  destruct Hm as [[= -> ->]|(r' & w & rt & w1 & rt1 & [Hmeth Hhead] & E)]; [done|].
  unfold app_store in E. cbn [fst snd] in E.
  assert (~ authentic (ingestHandler s) r') as Hna' by (unfold authentic in *; by rewrite <-Hmeth, <-Hhead).
  destruct (ServeHTTP_unauthentic _ _ w (app_db st, app_fs st, rt) Hna') as [E' _]. rewrite E' in E.
  injection E as _ -> -> _. done.
Qed.

(** Rows are only ever added, at the end. *)
Definition grows (t t' : Tables) : Prop :=
  messages t `prefix_of` messages t' /\ message_recipients t `prefix_of` message_recipients t' /\
  attachments t `prefix_of` attachments t' /\ ingest_events t `prefix_of` ingest_events t'.

#[export] Instance grows_preorder : PreOrder grows.
Proof.
  split; [by repeat split|]. intros t1 t2 t3 (? & ? & ? & ?) (? & ? & ? & ?). split_and!; by etrans.
Qed.

(** The files that the rows of [t] refer to are the same in [fs'] as in [fs]. *)
Definition kept_files (s : Server) (t : Tables) (fs fs' : F) : Prop :=
  forall b d, blob_ok b -> known t b -> blob_get (srv_store s) fs b = Some d -> blob_get (srv_store s) fs' b = Some d.

Record sound (s : Server) (t0 : Tables) (fs0 : F) (st : App D F) : Prop := mkSound {
  so_consistent : consistent (srv_store s) (tables (app_db st)) (app_fs st);
  so_sessions : store_ok (app_sessions st);
  so_grows : grows t0 (tables (app_db st));
  so_files : kept_files s t0 fs0 (app_fs st)
}.

Lemma known_grows t t' b : grows t t' -> known t b -> known t' b.
Proof. intros (_ & _ & [l E] & _). destruct b; [done|]. simpl. rewrite E, Exists_app. by left. Qed.

Lemma serve_sound s t0 fs0 r st :
  baseDir (srv_store s) <> EmptyString -> sound s t0 fs0 st -> sound s t0 fs0 (serve s r new_writer st).2.
Proof.
  intros Hb [Hc Hs Hg Hf]. pose proof (serve_store s r new_writer st) as Hm.
  pose proof (serve_sessions s r new_writer st Hs) as Hs'. set (st' := (serve s r new_writer st).2) in *. clearbody st'.
  unfold app_store in Hm. destruct Hm as [[= E1 E2]|(r' & w & rt & w1 & rt1 & _ & E)].
  { rewrite E1, E2 in *. by split. }
  cbn [fst snd] in E. pose proof E as Hcons. eapply ServeHTTP_consistent in Hcons; [|done|done|done].
  destruct Hc as (Hn & _). apply (ServeHTTP_effect (srv_store s) Hb) in E as (_ & Hkeep & Ht); [|done|done].
  assert (grows (tables (app_db st)) (tables (app_db st'))) as Hgr.
  { destruct Ht as [->|(raw & p & status & perr & rt2 & id & _ & _ & [[_ _ _ _ (m & recs & atts & e & -> & _)] _ _ _] & _)];
      [done|]. simpl. split_and!; by eexists. }
  split; [done|done|by etrans|]. intros b d Hok Hkn Hget. apply Hkeep; [done|by eapply known_grows|by apply Hf].
Qed.
Lemma New_spec cfg (db : D) (fs : F) rt s st fs1 :
  New cfg db fs rt = (Ok (s, st), fs1) ->
  s = mkServer (config_defaults cfg) (mkStorage (DataDir (config_defaults cfg))) /\ baseDir (srv_store s) <> EmptyString /\
  st = mkApp rt [] (NewCookieSessionStore (SessionCookieName (config_defaults cfg)))
         (newRateLimiter rateLimitLogin) (newRateLimiter rateLimitIngest) db fs1 /\
  (forall b, blob_get (srv_store s) fs1 b = blob_get (srv_store s) fs b) /\
  (no_blob_dirs (srv_store s) fs -> no_blob_dirs (srv_store s) fs1).
Proof.
  unfold New. destruct (NewStorage _ fs) as [[store|e] fs2] eqn:E; [|done]. intros [= <- <- <-].
  apply NewStorage_spec in E as (-> & Hne & Hg & Hd). by split_and!.
Qed.

(** C8: Stored mail survives. Start the server over a consistent store and let it
    serve any requests, authentic or not, answered or failing at any point of
    the database or the file system, with the limiters' cleanup in between: every
    row still has its file, rows have only been added, the files that rows
    referred to at the start are the same byte for byte, and every session is
    filed under its token. *)
Theorem stored_mail_survives cfg (db : D) (fs : F) rt s st0 fs1 st :
  New cfg db fs rt = (Ok (s, st0), fs1) -> consistent (srv_store s) (tables db) fs ->
  rtc (app_step s) st0 st ->
  consistent (srv_store s) (tables (app_db st)) (app_fs st) /\
  grows (tables db) (tables (app_db st)) /\ kept_files s (tables db) fs (app_fs st) /\
  sessions_wf (app_sessions st).
Proof.
  intros (_ & Hb & -> & Hg & Hd)%New_spec (Hn & Hm & Ha) Hsteps.
  enough (sound s (tables db) fs st) as [? ? ? ?] by done.
  match type of Hsteps with rtc _ ?st0 _ => assert (sound s (tables db) fs st0) as H0' end.
  { split; simpl.
    - split; [auto|]. split; [eapply Forall_impl; [exact Hm|]|eapply Forall_impl; [exact Ha|]]; simpl; intros ?; by rewrite Hg.
    - apply map_Forall_empty.
    - done.
    - intros b d _ _. by rewrite Hg. }
  clear Hg Hd Hm Ha. induction Hsteps as [|st1 st2 st3 Hstep _ IH]; [done|]. apply IH.
  destruct Hstep as [[r| |] st]; [by apply serve_sound|..]; destruct H0'; by split.
Qed.
(** *** Guessing passwords *)

(** The request reaches the router mounted for logins, and so its limiter. *)
Definition hits_login (r : Request) : bool :=
  negb (bool_decide (Method r = "OPTIONS"%string)) &&
  match chi_Find registered (Method r) (URLPath r) with RouteFound 2 _ _ => true | _ => false end.

Lemma serve_hits_login s r st :
  hits_login r = true ->
  let v := login_verdict r st in
  app_login_limiter (serve s r new_writer st).2 = v.2 /\
  (v.1.1.1 = false -> resp_status (serve s r new_writer st).1 = 429).
Proof.
  unfold hits_login. rewrite andb_true_iff, negb_true_iff, bool_decide_eq_false. intros [Hm Hf].
  set (v := login_verdict r st).
  destruct (chi_Find _ _ _) as [[|[|[|i]]] params rest| |] eqn:Ef; try done.
  assert (reaches r (MountAt "/api/login") params rest) as Hr by (exists 2%nat; by split).
  destruct (serve_route s r new_writer st _ params rest not_sent_new Hm Hr) as (run & Hin & w1 & n & st1 & d & rt' & -> & Hres).
  rewrite (login_mount s rest run Hin), RateLimit_eq in Hres.
  destruct (routed_clock r st) as [Hc1 Hc2]. cbv zeta in Hc1, Hc2.
  assert (verdict (H := login_limiter) (at_route r st params) (routed_state r st) = v) as Hv.
  { unfold verdict, v, login_verdict. cbn [view login_limiter snd fst]. by rewrite Hc1, Hc2. }
  cbv zeta in Hres. rewrite Hv in Hres. simpl. destruct v.1.1.1; split; try done.
  - match type of Hres with _ = ?h ?r ?w ?st0 => assert (Keeps app_login_limiter h) as K end.
    { apply MaxBodySize_moves; [apply _|]. apply dispatch_moves, Forall_singleton; [apply _|]. intros ?. apply _. }
    apply (f_equal snd) in Hres. cbn [snd] in Hres. rewrite Hres. etrans; [symmetry; apply K|done].
  - by injection Hres as _ ->.
  - intros _. etrans; [exact (f_equal (fun y => resp_status y.1) Hres)|].
    apply early_reply, limit_headers_not_sent, routed_not_sent, not_sent_new.
Qed.
Lemma routes_keep_login s :
  Forall (fun rt => rt_chi rt <> MountAt "/api/login" -> forall rest, Keeps app_login_limiter (rt_run rt rest))
    (routes (D := D) (F := F) s).
Proof.
  unfold routes, requireAuth, ingest_use.
  repeat (apply Forall_cons; split; [intros Hne rest; simpl|]); try apply Forall_nil; try exact I; try apply _; [|done].
  apply RateLimit_moves; [apply _|apply _|]. apply MaxBodySize_moves; [apply _|].
  apply dispatch_moves, Forall_singleton; [apply _|]. intros ?. apply _.
Qed.

Lemma serve_misses_login s r st :
  hits_login r = false -> app_login_limiter (serve s r new_writer st).2 = app_login_limiter st.
Proof.
  intros Hh. destruct (serve_recorded s r new_writer st not_sent_new) as (b & w1 & n & st1 & d & rt & -> & _ & _ & Hin).
  simpl. unfold hits_login in Hh. destruct (bool_decide (Method r = "OPTIONS"%string)); [by injection Hin as _ ->|].
  simpl in Hh. unfold dispatch in Hin. rewrite registered_routes in Hin.
  change (Method (routed_request _ r)) with (Method r) in Hin.
  destruct (chi_Find registered (Method r) (URLPath r)) as [i params rest| |]; [|by injection Hin as _ ->..].
  destruct (routes s !! i) as [rt0|] eqn:Ei; [|by injection Hin as _ ->].
  pose proof (routes_keep_login s) as Hk. rewrite Forall_lookup in Hk.
  assert (rt_chi rt0 <> MountAt "/api/login") as Hne.
  { do 12 (destruct i as [|i]; [simpl in Ei; injection Ei as <-; done|]). done. }
  pose proof (Hk i rt0 Ei Hne rest) as K. apply (f_equal snd) in Hin. cbn [snd] in Hin. rewrite Hin.
  etrans; [symmetry; apply K|done].
Qed.

(** The operations of the login limiter while [hs] happens, and the login
    requests of one address that were not refused by it: the guesses. *)
Fixpoint login_trace (s : Server) (hs : list happening) (st : App D F) : list (Z * op) :=
  match hs with
  | [] => []
  | h :: hs' =>
      match h with
      | Serve r => if hits_login r then [(clock_at (app_rt st) (S (clock_pos (app_rt st))), OpAllow (getClientIP r))] else []
      | TickLogin => [(clock_at (app_rt st) (clock_pos (app_rt st)), OpCleanup)]
      | TickIngest => []
      end ++ login_trace s hs' (happen s h st)
  end.

Fixpoint after (s : Server) (hs : list happening) (st : App D F) : App D F :=
  match hs with [] => st | h :: hs' => after s hs' (happen s h st) end.

Fixpoint guesses (ip : string) (s : Server) (hs : list happening) (st : App D F) : Z :=
  match hs with
  | [] => 0
  | h :: hs' =>
      match h with
      | Serve r => if hits_login r && bool_decide (getClientIP r = ip)
                      && negb (resp_status (serve s r new_writer st).1 =? 429) then 1 else 0
      | _ => 0
      end + guesses ip s hs' (happen s h st)
  end.

Lemma login_trace_run s hs st :
  (run (app_login_limiter st) (login_trace s hs st)).2 = app_login_limiter (after s hs st).
Proof.
  revert st. induction hs as [|[r| |] hs IH]; intros st; simpl; [done| |exact (IH (cleanup_login st))|exact (IH (cleanup_ingest st))].
  destruct (hits_login r) eqn:Eh; simpl.
  - destruct (serve_hits_login s r st Eh) as [Hl _]. unfold login_verdict in Hl.
    destruct (Allow _ _ _) as [o rl] eqn:Ea. simpl in Hl. subst rl. rewrite <-IH.
    by destruct (run _ (login_trace _ _ _)).
  - rewrite <-(serve_misses_login s r st Eh). apply IH.
Qed.

Lemma guesses_granted ip s hs st :
  guesses ip s hs st <= grants ip (login_trace s hs st) (run (app_login_limiter st) (login_trace s hs st)).1.
Proof.
  revert st. induction hs as [|[r| |] hs IH]; intros st; simpl;
    [done| |exact (IH (cleanup_login st))|exact (IH (cleanup_ingest st))].
  destruct (hits_login r) eqn:Eh; simpl.
  - destruct (serve_hits_login s r st Eh) as [Hl Hno]. unfold login_verdict in Hl, Hno.
    destruct (Allow _ _ _) as [[[ok n] t] rl] eqn:Ea. simpl in Hl, Hno. subst rl.
    specialize (IH (serve s r new_writer st).2).
    destruct (run _ (login_trace _ _ _)) as [os rl]. simpl in *.
    destruct ok; simpl; [|rewrite (Hno eq_refl), andb_false_r; lia].
    destruct (bool_decide _); simpl; [|lia]. destruct (negb _); lia.
  - rewrite <-(serve_misses_login s r st Eh). apply IH.
Qed.

Lemma login_trace_app s hs1 hs2 st :
  login_trace s (hs1 ++ hs2) st = login_trace s hs1 st ++ login_trace s hs2 (after s hs1 st).
Proof. revert st. induction hs1 as [|h hs1 IH]; intros st; simpl; [done|]. by rewrite IH, app_assoc. Qed.

(** C16: Password guesses are bounded. Whatever a server has been through, in any
    stretch of what happens to it between times [t0] and [T], with the limiter's
    cleanup running and any other requests in between, the login requests of one
    client address that are not refused with 429 number at most ten, plus one for
    every six seconds of the stretch. (The address is the one the client claims:
    see [forwarded_for_evades_limit].) *)
Theorem password_guesses_bounded cfg (db : D) (fs : F) rt s st0 fs1 hs1 hs2 c t0 T' ip :
  New cfg db fs rt = (Ok (s, st0), fs1) -> clock_from c (login_trace s (hs1 ++ hs2) st0) -> t0 <= T' ->
  Forall (fun x => t0 <= x.1 <= T') (login_trace s hs2 (after s hs1 st0)) ->
  guesses ip s hs2 (after s hs1 st0) <= 10 + (T' - t0) / (6 * Second).
Proof.
  intros (_ & _ & Hst & _)%New_spec Hc Ht HT. rewrite login_trace_app in Hc.
  etrans; [apply guesses_granted|]. rewrite <-login_trace_run.
  assert (app_login_limiter st0 = newRateLimiter 10) as -> by (by subst st0).
  etrans; [eapply (window_grants 10); [done|by exists 6|exact Hc|exact Ht|exact HT]|].
  apply Z.add_le_mono_l. change minute_ns with (6 * Second * 10). rewrite Z.div_mul_cancel_r; done.
Qed.
End system.

(** ** The theorems at concrete inputs *)

Module ServerDemo.
(** A router that compares the segments of the path in order. *)
Fixpoint match_segments (pattern path : list string) : option (list (string * string)) :=
  match pattern, path with
  | [], [] => Some []
  | p :: ps, s :: ss =>
      if bool_decide (p = "*"%string) then Some [("*"%string, GoStrings.Join (s :: ss) "/")]
      else if HasPrefix p "{" then
        match match_segments ps ss with
        | Some l => Some ((stake (String.length p - 2) (sdrop 1 p), s) :: l)
        | None => None
        end
      else if bool_decide (p = s) then match_segments ps ss else None
  | _, _ => None
  end.

Definition mount_rest (pattern path : string) : option string :=
  if bool_decide (path = pattern) then Some "/"%string
  else if HasPrefix path (pattern +:+ "/") then Some (sdrop (String.length pattern) path) else None.

Fixpoint find_from (i : nat) (rs : list ChiRoute) (m p : string) (wrong : bool) : route_result :=
  match rs with
  | [] => if wrong then RouteNoMethod else RouteNotFound
  | MountAt pat :: rs' =>
      match mount_rest pat p with
      | Some rest => RouteFound i [] rest
      | None => find_from (S i) rs' m p wrong
      end
  | Endpoint om pat :: rs' =>
      match match_segments (Split pat slash) (Split p slash) with
      | Some params =>
          match om with
          | Some m' => if bool_decide (m' = m) then RouteFound i params EmptyString else find_from (S i) rs' m p true
          | None => RouteFound i params EmptyString
          end
      | None => find_from (S i) rs' m p wrong
      end
  end.

#[export] Instance router : ChiRouter := {|
  chi_Find rs m p := find_from 0 rs m p false;
  chi_NotFound _ w := NotFound w;
  chi_MethodNotAllowed _ w := WriteHeader 405 w
|}.

Lemma find_from_found rs m p i wrong j params rest :
  find_from i rs m p wrong = RouteFound j params rest ->
  exists k rt, j = (i + k)%nat /\ rs !! k = Some rt /\ match rt with Endpoint (Some m') _ => m' = m | _ => True end.
Proof.
  revert i wrong. induction rs as [|rt rs IH]; intros i wrong; simpl; [by destruct wrong|].
  assert (forall wrong, find_from (S i) rs m p wrong = RouteFound j params rest ->
    exists k rt', j = (i + k)%nat /\ (rt :: rs) !! k = Some rt' /\ match rt' with Endpoint (Some m') _ => m' = m | _ => True end) as Hrec.
  { intros wrong' (k & rt' & -> & Hk & Hm)%IH. exists (S k), rt'. split; [lia|]. by split. }
  destruct rt as [[m'|] pat|pat].
  - destruct (match_segments _ _); [|apply Hrec]. case_bool_decide; [|apply Hrec].
    intros [= <- _ _]. exists 0%nat. eexists. split; [lia|]. by split.
  - destruct (match_segments _ _); [|apply Hrec]. intros [= <- _ _]. exists 0%nat. eexists. split; [lia|]. by split.
  - destruct (mount_rest _ _); [|apply Hrec]. intros [= <- _ _]. exists 0%nat. eexists. split; [lia|]. by split.
Qed.

#[export] Instance router_laws : ChiLaws.
Proof.
  split.
  - intros rs m p i params rest (k & rt & -> & Hk & Hm)%find_from_found. by exists rt.
  - intros r w. eexists. simpl. apply acts_NotFound, acts_refl.
  - intros r w. eexists. simpl. apply acts_status, acts_refl.
Qed.

#[export] Instance static : StaticFiles := {| index_html := Ok "<html>"%string; static_serve _ w := NotFound w |}.
#[export] Instance static_laws : StaticLaws.
Proof. intros r w. eexists. apply acts_NotFound, acts_refl. Qed.
End ServerDemo.

#[local] Existing Instance Small.lib.
#[local] Existing Instance Small.lib_laws.
#[local] Existing Instance unicode_latin.
#[local] Existing Instance ServerDemo.router.
#[local] Existing Instance ServerDemo.router_laws.
#[local] Existing Instance ServerDemo.static.
#[local] Existing Instance ServerDemo.static_laws.

Module ServerWorld.
Definition cfg : Config :=
  mkConfig "" "./data" "https://mail.example.com" 1000 "" 1 "user-key" "admin-key" "key" ":8080" "production".
Definition srv : Server := mkServer (config_defaults (Some cfg)) (mkStorage "./data").
Definition world : App MemDB MemFS :=
  mkApp (Auth.Demo.runtime 1000) [] (mkStore "lite_mail_session" {[ Auth.Demo.token0 := Auth.Demo.session0 ]})
    (newRateLimiter 10) (newRateLimiter 60) Api.Demo.database Api.Demo.files.

Definition request (m path : string) (h : Header) (cookies : list (string * string)) (body : string) : Request :=
  mkRequest m path [] h cookies "10.0.0.1:4000" (slen body) (mkBody body None) [] [].
Definition get (path : string) (cookies : list (string * string)) : Request :=
  request "GET" path (Header_Set empty_header "Origin" "https://evil.example.com") cookies EmptyString.
Definition cookie (token : string) : list (string * string) := [("lite_mail_session"%string, token)].
Definition raw7 : Request := get "/api/messages/7/raw" (cookie Auth.Demo.token0).
Definition raw7_reply : ResponseWriter * App MemDB MemFS := serve srv raw7 new_writer world.
Definition anonymous : Request := get "/api/messages/7/raw" [].
Definition login : Request := request "POST" "/api/login" empty_header [] (Auth.login_body "user-key" "Carol@example.com ").
Definition logged_in : ResponseWriter * App MemDB MemFS := serve srv login new_writer world.
Definition upload (psk body : string) : Request :=
  request "POST" "/api/ingest" (Header_Set empty_header ingestPSKHeader psk) [] body.

Lemma reaches_raw7 cookies :
  reaches (get "/api/messages/7/raw" cookies) (Endpoint (Some "GET"%string) "/api/messages/{id}/raw") [("id", "7")]%string EmptyString.
Proof. exists 6%nat. by split. Qed.
End ServerWorld.

Lemma every_reply_is_protected_witness :
  Header_Get (resp_header (serve ServerWorld.srv ServerWorld.anonymous new_writer ServerWorld.world).1) "X-Frame-Options"
    = "DENY"%string /\
  Header_Get (resp_header (serve ServerWorld.srv ServerWorld.anonymous new_writer ServerWorld.world).1)
    "Access-Control-Allow-Origin" = EmptyString.
Proof.
  destruct (every_reply_is_protected ServerWorld.srv ServerWorld.anonymous ServerWorld.world _ _
    (surjective_pairing _)) as (Hs & _ & Ho & _).
  split; [|exact Ho]. apply Hs. apply (bool_decide_unpack _). by vm_compute.
Defined.

Lemma mail_needs_a_session_witness :
  resp_status (serve ServerWorld.srv ServerWorld.anonymous new_writer ServerWorld.world).1 = 401.
Proof.
  refine (proj1 (mail_needs_a_session ServerWorld.srv ServerWorld.anonymous "/api/messages/{id}/raw" _ _ ServerWorld.world
    _ _ _ (ServerWorld.reaches_raw7 []) _ (surjective_pairing _))).
  - apply (bool_decide_unpack _). by vm_compute.
  - intros v sess Hv. vm_compute in Hv. discriminate Hv.
Defined.

Lemma served_mail_is_authorised_witness :
  exists sess, live_session ServerWorld.srv ServerWorld.raw7 ServerWorld.world sess /\
    mail_reply ServerWorld.srv (with_params ServerWorld.raw7 [("id", "7")]%string) sess Api.Demo.database Api.Demo.files
      "/api/messages/{id}/raw" (resp_body ServerWorld.raw7_reply.1).
Proof.
  assert (resp_status ServerWorld.raw7_reply.1 = 200) as H200 by (vm_compute; reflexivity).
  destruct (served_mail_is_authorised ServerWorld.srv ServerWorld.raw7 "/api/messages/{id}/raw" _ _ ServerWorld.world
    ServerWorld.raw7_reply.1 ServerWorld.raw7_reply.2 ltac:(apply (bool_decide_unpack _); by vm_compute)
    (ServerWorld.reaches_raw7 _) (surjective_pairing _)) as (_ & _ & [[_ H]|(sess & Hl & [[[H _]|[H _]]|[_ Hm]])]);
    [rewrite H200 in H; discriminate H..|].
  exists sess. split; [exact Hl|exact Hm].
Defined.

Lemma only_the_worker_writes_witness :
  app_fs (serve ServerWorld.srv (ServerWorld.upload "guess" "From: a@b.c") new_writer ServerWorld.world).2 = Api.Demo.files.
Proof.
  refine (proj2 (only_the_worker_writes ServerWorld.srv (ServerWorld.upload "guess" "From: a@b.c") ServerWorld.world _ _
    (surjective_pairing _) _)).
  intros [_ (c & Hc & _ & X)]. injection Hc as <-. vm_compute in X. discriminate X.
Defined.

Lemma served_ingest_limits_witness :
  let r := ServerWorld.upload "key" (bytes_from (fun _ => "x"%char) 0 1001) in
  resp_status (serve ServerWorld.srv r new_writer ServerWorld.world).1 = 413.
Proof.
  cbv zeta. eapply (served_ingest_limits ServerWorld.srv
    (ServerWorld.upload "key" (bytes_from (fun _ => "x"%char) 0 1001)) [] ServerWorld.world).
  - split; [done|]. exists [], "/"%string, [], EmptyString. split; [|by split]. exists 1%nat. by split.
  - split; [done|]. eexists. split_and!; [reflexivity|done|by vm_compute].
  - done.
  - apply surjective_pairing.
  - by vm_compute.
  - by vm_compute.
Defined.

Module ServerStart.
Definition started : result (Server * App MemDB MemFS) * MemFS :=
  New (Some ServerWorld.cfg) IngestDemo.db0 IngestDemo.fs0 (Auth.Demo.runtime 1000).
Definition st0 : App MemDB MemFS :=
  mkApp (Auth.Demo.runtime 1000) [] (NewCookieSessionStore "lite_mail_session")
    (newRateLimiter rateLimitLogin) (newRateLimiter rateLimitIngest) IngestDemo.db0 started.2.
Definition st1 : App MemDB MemFS := (serve ServerWorld.srv (ServerWorld.upload "key" Small.sample) new_writer st0).2.

Lemma started_eq : started = (Ok (ServerWorld.srv, st0), started.2).
Proof. reflexivity. Qed.

Lemma accepted : length (messages (tables (app_db st1))) = 1%nat.
Proof. vm_compute. reflexivity. Qed.
End ServerStart.

Lemma stored_mail_survives_witness :
  length (messages (tables (app_db ServerStart.st1))) = 1%nat /\
  consistent (mkStorage "./data") (tables (app_db ServerStart.st1)) (app_fs ServerStart.st1).
Proof.
  split; [exact ServerStart.accepted|].
  refine (proj1 (stored_mail_survives (Some ServerWorld.cfg) IngestDemo.db0 IngestDemo.fs0 (Auth.Demo.runtime 1000)
    ServerWorld.srv ServerStart.st0 ServerStart.started.2 ServerStart.st1 ServerStart.started_eq IngestDemo.start_consistent _)).
  apply rtc_once. exact (step_happens ServerWorld.srv (Serve (ServerWorld.upload "key" Small.sample)) ServerStart.st0).
Defined.

Lemma password_guesses_bounded_witness :
  guesses "10.0.0.1:4000" ServerWorld.srv [Serve ServerWorld.login; Serve ServerWorld.login] ServerStart.st0 <= 11.
Proof.
  assert (login_trace ServerWorld.srv [Serve ServerWorld.login; Serve ServerWorld.login] ServerStart.st0 =
    [(1001 * Second, OpAllow "10.0.0.1:4000"); (1005 * Second, OpAllow "10.0.0.1:4000")]) as E by (vm_compute; reflexivity).
  etrans; [apply (password_guesses_bounded (Some ServerWorld.cfg) IngestDemo.db0 IngestDemo.fs0 (Auth.Demo.runtime 1000)
    ServerWorld.srv ServerStart.st0 ServerStart.started.2 [] [Serve ServerWorld.login; Serve ServerWorld.login] 0
    (1001 * Second) (1007 * Second) "10.0.0.1:4000" ServerStart.started_eq)|by vm_compute].
  - rewrite app_nil_l, E. clear E. by vm_compute.
  - by vm_compute.
  - simpl after. rewrite E. repeat constructor; by vm_compute.
Defined.
