(* ===== verification/Access.v ===== *)
(** * Sessions in traffic

    What a session lives through: every operation of the server, whatever the
    request, keeps the session of a token as long as the clock has not passed its
    expiry, the random source does not repeat the token, and the token is not
    presented to the logout route. *)

From S2P Require Export Server.

Open Scope Z_scope.

(** ** Time and randomness only advance *)

Record advances (rt rt' : Runtime) : Prop := {
  adv_clock : clock_at rt' = clock_at rt;
  adv_rand : rand_at rt' = rand_at rt;
  adv_clock_pos : (clock_pos rt <= clock_pos rt')%nat;
  adv_rand_pos : (rand_pos rt <= rand_pos rt')%nat
}.

#[export] Instance advances_preorder : PreOrder advances.
Proof.
  split; [by intros rt|]. intros r1 r2 r3 [A1 A2 A3 A4] [B1 B2 B3 B4].
  split; [by rewrite B1|by rewrite B2|lia|lia].
Qed.

Lemma advances_Now rt : advances rt (time_Now rt).2.
Proof. split; simpl; (done || lia). Qed.
Lemma advances_Read n rt : advances rt (rand_Read n rt).2.
Proof. split; simpl; (done || lia). Qed.

Lemma advances_Now' rt now rt' : time_Now rt = (now, rt') -> advances rt rt'.
Proof. intros [= _ <-]. apply advances_Now. Qed.

Section ingest_time.
Context `{UnicodeTable} `{MailLib} {D T F : Type} `{SQLDriver D T} `{FileSystem F}.

Lemma parse_advances raw h rt p status perr rt' :
  parse_or_fallback raw h rt = (p, status, perr, rt') -> advances rt rt'.
Proof.
  unfold parse_or_fallback. destruct (ParseMIME raw) as [q [e|]].
  - destruct (fallbackParsedMessageWithError raw h e rt) as [q' rt1] eqn:Ef. intros [= _ _ _ <-].
    unfold fallbackParsedMessageWithError in Ef. destruct (time_Now rt) as [now rt2] eqn:En.
    apply advances_Now' in En.
    destruct (mail_ReadMessage raw) as [[hd b]|re]; [destruct (ParseMediaType _) as [[mt ps] me]|]; by injection Ef as _ <-.
  - by intros [= _ _ _ <-].
Qed.

Lemma recipients_advance id l tx rt r rt' : insert_recipients id l tx rt = (r, rt') -> advances rt rt'.
Proof.
  revert tx rt. induction l as [|rc l IH]; intros tx rt; cbn [insert_recipients]; [by intros [= _ <-]|].
  destruct (time_Now rt) as [now rt1] eqn:En. apply advances_Now' in En.
  destruct (tx_Exec _ _ tx) as [[rid|e] tx1]; [intros ?%IH; by etrans|by intros [= _ <-]].
Qed.

Lemma persist_advances store p status perr db (fs : F) rt r db' fs' rt' :
  persist store p status perr db fs rt = (r, (db', fs', rt')) -> advances rt rt'.
Proof.
  unfold persist. destruct (db_Begin db) as [tx|e]; [|by intros [= _ _ _ <-]].
  destruct (if IsZero _ then _ else _) as [date rt1] eqn:Ed.
  assert (advances rt rt1) as A1 by (destruct (IsZero _); [by apply advances_Now' in Ed|by injection Ed as _ <-]).
  destruct (time_Now rt1) as [now rt2] eqn:En. apply advances_Now' in En. assert (advances rt rt2) as A2 by (by etrans).
  destruct (tx_Exec _ _ tx) as [[id|e] tx1]; [|by intros [= _ _ _ <-]].
  destruct (insert_recipients id _ tx1 rt2) as [rr rt3] eqn:Er. apply recipients_advance in Er.
  assert (advances rt rt3) as A3 by (by etrans). destruct rr as [tx2|e]; [|by intros [= _ _ _ <-]].
  destruct (insert_attachments _ _ _ tx2 fs) as [[tx3|e] fs1]; [|by intros [= _ _ _ <-]].
  destruct (tx_Exec _ _ tx3) as [[eid|e] tx4]; [|by intros [= _ _ _ <-]].
  destruct (tx_Commit tx4 db) as [[u|e] db1]; by intros [= _ _ _ <-].
Qed.

Lemma ServeHTTP_advances h r w db (fs : F) rt : advances rt (ServeHTTP h r w (db, fs, rt)).2.2.
Proof.
  unfold ServeHTTP. destruct (bool_decide _); [done|]. destruct (ih_config h) as [c|]; [|done].
  destruct (_ || _); [done|]. destruct (ReadAll _) as [raw [e|]]; [done|]. destruct (_ <? _); [done|].
  destruct (ih_db_present h), (ih_storage h) as [store|]; try done. unfold ingest_message.
  destruct (isDuplicate _ db) as [[]|e]; [done| |done].
  destruct (parse_or_fallback raw (HashBytes raw) rt) as [[[p status] perr] rt1] eqn:Ep. apply parse_advances in Ep.
  destruct (SaveRawMIME _ _ _ fs) as [[u|e] fs1]; [|done].
  destruct (persist store p status perr db fs1 rt1) as [[id|e] [[db2 fs2] rt2]] eqn:Es; apply persist_advances in Es; by etrans.
Qed.
End ingest_time.

(** ** What a session lives through *)

Section session.
Context (token : string) (sess : Session).

(** No reading of the clock on the way is past the expiry; none of the random
    source gives the token. *)
Definition unexpired (rt rt' : Runtime) : Prop :=
  forall i, (clock_pos rt <= i < clock_pos rt')%nat -> clock_at rt i <= ExpiresAt sess.
Definition unrepeated (rt rt' : Runtime) : Prop :=
  forall j b, (rand_pos rt <= j < rand_pos rt')%nat -> rand_at rt j = Some b -> hex_EncodeToString (bytes_from b 0 32) <> token.

(** The sessions and the runtime before and after a stretch. *)
Record outlives (x y : CookieSessionStore * Runtime) : Prop := {
  out_time : advances x.2 y.2;
  out_ok : store_ok x.1 -> store_ok y.1;
  out_live : store_ok x.1 -> Get token x.1 = Ok sess -> unexpired x.2 y.2 -> unrepeated x.2 y.2 ->
    Get token y.1 = Ok sess
}.

#[export] Instance outlives_preorder : PreOrder outlives.
Proof using Type.
  split; [by intros x|]. intros x y z [T1 O1 L1] [T2 O2 L2]. split; [by etrans|by auto|].
  destruct T1 as [Tc Tr Tp Tq], T2 as [Uc Ur Up Uq]. intros Hok Hg He Hn. apply L2; [by apply O1| | |].
  - apply L1; [done|done| |].
    + intros i Hi. apply He. lia.
    + intros j b Hj. apply Hn. lia.
  - intros i Hi. rewrite Tc. apply He. lia.
  - intros j b Hj. rewrite Tr. apply Hn. lia.
Qed.

(** Time that passes by itself. *)
Lemma outlives_time ss rt rt' : advances rt rt' -> outlives (ss, rt) (ss, rt').
Proof using Type. by intros Ha. Qed.

Lemma outlives_now ss rt : outlives (ss, rt) (ss, (time_Now rt).2).
Proof using Type. apply outlives_time, advances_Now. Qed.

(** A new session takes a token that the random source gives. *)
Lemma outlives_Create s rt ss r rt' ss' :
  Token s = EmptyString -> Create s rt ss = (r, rt', ss') -> outlives (ss, rt) (ss', rt').
Proof using Type.
  intros Ht. cbn [Create CookieSessionStore_store]. unfold store_Create. rewrite bool_decide_eq_true_2 by done.
  unfold GenerateToken, rand_Read. destruct (rand_at rt (rand_pos rt)) as [b|] eqn:Eb; intros [= <- <- <-].
  - split; cbn [fst snd].
    + split; cbn; (done || lia).
    + intros Hok. eapply (create_keeps_ok s rt ss). { exact Hok. }
      cbn [Create CookieSessionStore_store]. unfold store_Create. rewrite bool_decide_eq_true_2 by done.
      unfold GenerateToken, rand_Read. by rewrite Eb.
    + intros _ Hg _ Hn. cbn [Get CookieSessionStore_store] in *. unfold store_Get in *. cbn [sessions Token set_token].
      destruct (bool_decide (token = EmptyString)); [done|].
      rewrite lookup_insert_ne; [done|]. intros E. apply (Hn (rand_pos rt) b); [cbn; lia|done|exact E].
  - split; cbn; [split; cbn; (done || lia)|done|done].
Qed.

Lemma outlives_Delete v ss rt : v <> token -> outlives (ss, rt) ((Session.Delete v ss).2, rt).
Proof using Type.
  intros Hv. split; cbn [fst snd]; [done|by apply Delete_ok|].
  intros _ Hg _ _. destruct (Session.Delete v ss) as [r ss'] eqn:Ed. rewrite <-Hg. eapply delete_other; [exact Ed|congruence].
Qed.

(** An expired session is evicted: it is another one. *)
Lemma outlives_evict v s0 ss rt :
  Get v ss = Ok s0 -> After (clock_at rt (clock_pos rt)) (ExpiresAt s0) = true ->
  outlives (ss, rt) ((Session.Delete (Token s0) ss).2, (time_Now rt).2).
Proof using Type.
  intros Hv Ha. split; cbn [fst snd]; [apply advances_Now|by apply Delete_ok|].
  intros Hok Hg He _. destruct (decide (Token s0 = token)) as [E|E].
  - exfalso. pose proof (get_token _ _ _ Hok Hv) as Ht. rewrite <-Ht, E, Hg in Hv. injection Hv as <-.
    unfold After in Ha. apply Z.ltb_lt in Ha. specialize (He (clock_pos rt)). cbn in He. lia.
  - destruct (Session.Delete (Token s0) ss) as [r ss'] eqn:Ed. rewrite <-Hg. eapply delete_other; [exact Ed|congruence].
Qed.

(** ** Every handler *)

Section handlers.
Context `{UnicodeTable} `{MailLib} `{ChiRouter} `{StaticFiles} {D T F : Type} `{SQLDriver D T} `{FileSystem F}.
Implicit Types (s : Server) (st : App D F).

Definition lived st : CookieSessionStore * Runtime := (app_sessions st, app_rt st).

(** [h] lets the session be, whatever the request. *)
Class Endures (h : Handler (App D F)) := endures : forall r w st, outlives (lived st) (lived (h r w st).2).

Lemma RateLimit_endures {L : Lens (App D F) (rateLimiter * Runtime)} rpm burst next :
  (forall st, (view st).2 = app_rt st) -> (forall x st, lived (put x st) = (app_sessions st, x.2)) ->
  Endures next -> Endures (RateLimit rpm burst next).
Proof using Type.
  intros Hv Hp Hn r w st. unfold RateLimit. specialize (Hv st). destruct (view st) as [rl rt]. cbn [snd] in Hv. subst rt.
  destruct (time_Now (app_rt st)) as [now rt1] eqn:En. apply advances_Now' in En.
  destruct (Allow _ _ rl) as [[[ok n] t] rl']. cbn zeta.
  assert (outlives (lived st) (lived (put (rl', rt1) st))) as Ho by (rewrite Hp; by apply outlives_time).
  destruct ok; cbn [negb]; [|exact Ho]. etrans; [exact Ho|apply Hn].
Qed.

Lemma MaxBodySize_endures n next : Endures next -> Endures (MaxBodySize n next).
Proof using Type. intros Hn r w st. unfold MaxBodySize. destruct (_ <? _); [done|apply Hn]. Qed.

Lemma requireAuth_endures s next : Endures next -> Endures (requireAuth s next).
Proof using Type.
  intros Hn r w st. unfold requireAuth, RequireAuth. change (view st) with (lived st). unfold lived.
  destruct (Req_Cookie r _) as [v|]; [|done]. destruct (Get v (app_sessions st)) as [s0|e] eqn:Eg; [|by destruct (negb _)].
  change (time_Now (app_rt st)) with (clock_at (app_rt st) (clock_pos (app_rt st)), (time_Now (app_rt st)).2).
  cbv iota beta. destruct (After _ _) eqn:Ea.
  - pose proof (outlives_evict v s0 _ _ Eg Ea) as Ho. by destruct (Session.Delete _ _) as [x ss'].
  - etrans; [apply outlives_now|].
    match goal with |- context [next ?r' ?w' ?st'] => exact (Hn r' w' st') end.
Qed.

(** The mail handlers touch neither the sessions nor the clock. *)
Lemma mail_endures (h : Handler (D * F)) : Endures (lift_handler h).
Proof using Type. intros r w st. unfold lift_handler. by destruct (h r w (view st)). Qed.

Lemma login_endures s :
  Endures (lift_handler (S := CookieSessionStore * Runtime) (LoginHandler (Some (srv_config s)))).
Proof using Type.
  intros r w st. unfold lift_handler. change (view st) with (lived st). unfold lived at 2.
  assert (outlives (lived st) (LoginHandler (Some (srv_config s)) r w (app_sessions st, app_rt st)).2) as Ho.
  { unfold LoginHandler. destruct (bool_decide _); [done|]. destruct (decode_login _) as [req|]; [|done].
    destruct (authenticate _ req) as [[mail adm]|]; [|done].
    destruct (time_Now (app_rt st)) as [now rt1] eqn:En. apply advances_Now' in En.
    destruct (Create _ rt1 _) as [[[s0|e] rt2] ss2] eqn:Ec; apply outlives_Create in Ec; try done;
      (etrans; [by apply outlives_time|exact Ec]). }
  destruct (LoginHandler _ _ _ _) as [w' [ss rt]]. exact Ho.
Qed.

Lemma ingest_endures s : Endures (lift_handler (ServeHTTP (ingestHandler s))).
Proof using Type.
  intros r w st. unfold lift_handler. change (view st) with (app_db st, app_fs st, app_rt st).
  pose proof (ServeHTTP_advances (ingestHandler s) r w (app_db st) (app_fs st) (app_rt st)) as Ha.
  destruct (ServeHTTP _ _ _ _) as [w' [[db fs] rt]]. by apply outlives_time.
Qed.

(** Logging out lets the session be, unless its token is presented. *)
Lemma logout_endures s r w st :
  Req_Cookie r (sessionCookieName (Some (srv_config s))) <> Some token ->
  outlives (lived st)
    (lived (lift_handler (S := CookieSessionStore * Runtime) (LogoutHandler (Some (srv_config s))) r w st).2).
Proof using Type.
  intros Hc. unfold lift_handler, LogoutHandler. change (view st) with (lived st). unfold lived at 2.
  destruct (bool_decide _); [done|]. destruct (Req_Cookie r _) as [v|]; [|done].
  apply (outlives_Delete v). congruence.
Qed.

Lemma dispatch_endures (rs : list (Route (App D F))) path :
  Forall (fun rt => forall rest, Endures (rt_run rt rest)) rs -> Endures (dispatch rs path).
Proof using Type.
  intros Hrs r w st. unfold dispatch. destruct (chi_Find _ _ _) as [i params rest| |]; [|done..].
  destruct (rs !! i) as [rt|] eqn:Ei; [|done]. eapply Forall_lookup_1 in Hrs; [|exact Ei]. apply Hrs.
Qed.

Lemma reflexive_endures (h : Handler (App D F)) : (forall r w st, (h r w st).2 = st) -> Endures h.
Proof using Type. intros Hh r w st. by rewrite Hh. Qed.

(** All routes but the logout. *)
Lemma routes_endure s :
  Forall (fun rt => rt_chi rt <> Endpoint (Some "POST"%string) "/api/logout" -> forall rest, Endures (rt_run rt rest))
    (routes (D := D) (F := F) s).
Proof using Type.
  unfold routes.
  repeat (apply Forall_cons; split; [intros Hne rest; cbn [rt_run Get_ Post_ Handle_ Route_]|]);
    try apply Forall_nil; try exact I; unfold ingest_use, login_use;
    first [apply requireAuth_endures, mail_endures
          |by destruct Hne
          |apply RateLimit_endures; [done|done|]; apply MaxBodySize_endures, dispatch_endures, Forall_singleton;
             intros rest'; first [apply ingest_endures|apply login_endures]
          |apply reflexive_endures; intros r w st; try done].
  all: unfold spaHandler; by destruct index_html.
Qed.
End handlers.

(** ** The server *)

#[local] Instance ChiRoute_eq_dec : EqDecision ChiRoute.
Proof. solve_decision. Defined.

(** A request that the router leads to the logout with the token in its cookie. *)
Definition logs_out `{ChiRouter} (s : Server) (r : Request) : Prop :=
  Req_Cookie r (sessionCookieName (Some (srv_config s))) = Some token /\
  exists params rest, reaches r (Endpoint (Some "POST"%string) "/api/logout") params rest.

Section serving.
Context `{UnicodeTable} `{MailLib} `{ChiLaws} `{StaticLaws} {D T F : Type} `{SQLDriver D T} `{FileSystem F}.
Implicit Types (s : Server) (st : App D F).

Lemma serve_lived s r w st :
  let rid := (request_id r (app_rt st)).1 in
  let inner := if bool_decide (Method r = "OPTIONS"%string)
               then (WriteHeader 204 (routed_writer s rid r w), routed_state r st)
               else dispatch (routes s) (URLPath r) (routed_request rid r) (routed_writer s rid r w) (routed_state r st) in
  lived (serve s r w st).2 = (app_sessions inner.2, (time_Now (app_rt inner.2)).2).
Proof using Type.
  unfold serve, middlewares, RequestID, SecurityHeaders, RequestLogging, request_id, routed_state.
  destruct st as [rt log ss l1 l2 db fs]. simpl.
  unfold request_id. destruct (if bool_decide _ then _ else _) as [rid rt1]. simpl. rewrite CORS_eq. simpl.
  unfold routed_request, routed_writer, framed. change (cors_headers ?o (WithContext r _) ?w) with (cors_headers o r w).
  destruct (bool_decide _); [done|].
  match goal with |- context [dispatch ?a ?b ?c ?d ?e] => destruct (dispatch a b c d e) as [rec st1] end. done.
Qed.

Lemma routed_lived r st : outlives (lived st) (lived (routed_state r st)).
Proof using Type.
  change (lived (routed_state r st)) with (app_sessions st, (time_Now (request_id r (app_rt st)).2).2).
  apply outlives_time. etrans; [|apply advances_Now]. unfold request_id.
  destruct (bool_decide _); [|done]. apply (advances_Read 16).
Qed.

Lemma serve_outlives s r w st : ~ logs_out s r -> outlives (lived st) (lived (serve s r w st).2).
Proof using Type.
  intros Hno. pose proof (serve_lived s r w st) as E. cbv zeta in E. rewrite E. clear E.
  etrans; [apply (routed_lived r)|]. etrans; [|apply outlives_now].
  set (rid := (request_id r (app_rt st)).1). destruct (bool_decide _); [done|].
  fold (lived (dispatch (routes s) (URLPath r) (routed_request rid r) (routed_writer s rid r w) (routed_state r st)).2).
  unfold dispatch. rewrite registered_routes. change (Method (routed_request rid r)) with (Method r).
  destruct (chi_Find registered (Method r) (URLPath r)) as [i params rest| |] eqn:Ef; [|done..].
  destruct (routes s !! i) as [rt|] eqn:Ei; [|done].
  assert (registered !! i = Some (rt_chi rt)) as Hi.
  { rewrite <-(registered_routes (D := D) (F := F) s), list_lookup_fmap. by rewrite Ei. }
  destruct (decide (rt_chi rt = Endpoint (Some "POST"%string) "/api/logout")) as [El|El].
  - assert (Req_Cookie r (sessionCookieName (Some (srv_config s))) <> Some token) as Hc.
    { intros Hc. apply Hno. split; [exact Hc|]. exists params, rest, i. by rewrite <-El. }
    assert (i = 3%nat) as ->.
    { rewrite El in Hi. do 12 (destruct i as [|i]; [try discriminate Hi; reflexivity|]). discriminate Hi. }
    injection Ei as <-. by apply logout_endures.
  - pose proof (routes_endure s) as Hall. rewrite Forall_lookup in Hall. by apply (Hall i rt Ei El).
Qed.

Lemma after_outlives s hs st :
  Forall (fun h => match h with Serve r => ~ logs_out s r | _ => True end) hs -> outlives (lived st) (lived (after s hs st)).
Proof using Type.
  intros Hall. revert st. induction Hall as [|h hs Hh _ IH]; intros st; [done|]. cbn [after].
  etrans; [|apply IH]. destruct h as [r| |]; cbn [happen]; [by apply serve_outlives|apply outlives_now..].
Qed.
End serving.
End session.

(** ** Properties *)

(** C10: Logging in gives access, until the session expires or is logged out. A
    login that the server answers 200 sets a cookie with a token. Let then anything
    happen: requests with or without the cookie, other logins, deliveries, the
    cleanups - anything but a logout that presents the token - while no reading
    of the clock is past the session's expiry (the TTL after the login) and the
    random source does not give the same token again. A request that then presents
    the cookie on a mail route is answered as the identity the credentials gave,
    never 401: with one of the constant refusals, or with 200 and what that session
    may see of the database and the files as they are by then. *)
Theorem login_gives_access `{UnicodeTable} `{MailLib} `{ChiLaws} `{StaticLaws} {D T F} `{SQLDriverLaws D T} `{FileSystem F}
  s r params (st : App D F) w1 st1 :
  valid_cookie_name (sessionCookieName (Some (srv_config s))) = true -> store_ok (app_sessions st) ->
  reaches_post r "/api/login" params -> serve s r new_writer st = (w1, st1) -> resp_status w1 = 200 ->
  exists req email adm token,
    let expires := clock_at (app_rt st) (S (S (clock_pos (app_rt st)))) + sessionTTL (Some (srv_config s)) in
    let sess := mkSession email adm expires token in
    decode_login (MaxBytesReader (ReqBody r) 1048576) = Ok req /\
    authenticate (srv_config s) req = Some (email, adm) /\
    last (h_cookies (resp_header w1)) = Some (NewSessionCookie (Some (srv_config s)) token expires) /\
    app_db st1 = app_db st /\ app_fs st1 = app_fs st /\
    forall hs r2 pattern params2 rest2 w2 st3,
      let st2 := after s hs st1 in
      Forall (fun h => match h with Serve q => ~ logs_out token s q | _ => True end) hs ->
      (forall i, (clock_pos (app_rt st1) <= i <= S (clock_pos (app_rt st2)))%nat -> clock_at (app_rt st1) i <= expires) ->
      unrepeated token (app_rt st1) (app_rt st2) ->
      pattern ∈ mail_patterns -> reaches r2 (Endpoint (Some "GET"%string) pattern) params2 rest2 ->
      Req_Cookie r2 (sessionCookieName (Some (srv_config s))) = Some token ->
      serve s r2 new_writer st2 = (w2, st3) ->
      plain_refusal w2 \/
      resp_status w2 = 200 /\
        mail_reply s (with_params r2 params2) sess (app_db st2) (app_fs st2) pattern (resp_body w2).
Proof.
  intros Hname Hok Hr Hrun H200.
  destruct (login_served s r params st w1 st1 Hname Hr Hrun H200)
    as (req & email & adm & token & Hd & Ha & Hc & Hdb & Hfs & Hg).
  exists req, email, adm, token. split_and!; [exact Hd|exact Ha|exact Hc|exact Hdb|exact Hfs|].
  intros hs r2 pattern params2 rest2 w2 st3 st2 Hno Hclock Hrand Hp Hr2 Hck Hrun2.
  match goal with |- _ \/ _ /\ mail_reply _ _ ?x _ _ _ _ => set (sess := x) in * end.
  assert (store_ok (app_sessions st1)) as Hok1.
  { pose proof (serve_sessions s r new_writer st Hok) as Hs. by rewrite Hrun in Hs. }
  destruct (after_outlives token sess s hs st1 Hno) as [Ht _ Hlive]. fold st2 in Ht, Hlive.
  destruct Ht as [Tc _ Tp _]. cbn [snd lived] in Tc, Tp.
  eapply serve_mail_session in Hrun2 as (_ & _ & Hout); [exact Hout|done|exact Hr2|].
  exists token. split_and!; [exact Hck| |].
  - apply Hlive; [exact Hok1|exact Hg| |exact Hrand]. intros i Hi. apply Hclock. cbn [snd lived] in Hi. lia.
  - rewrite Tc. apply Hclock. lia.
Qed.

(** ** The theorem at a concrete input *)

#[local] Existing Instance Small.lib.
#[local] Existing Instance unicode_latin.
#[local] Existing Instance ServerDemo.router.
#[local] Existing Instance ServerDemo.router_laws.
#[local] Existing Instance ServerDemo.static.
#[local] Existing Instance ServerDemo.static_laws.

Module AccessDemo.
(** The token of the login: the second reading of the random source. *)
Definition token : string := hex_EncodeToString (bytes_from (fun i => byte (Z.of_nat (1 + i))) 0 32).
Definition expires : Z := 1002 * Second + Hour.
Definition ask : Request := ServerWorld.get "/api/messages/7/raw" (ServerWorld.cookie token).
Definition logout (token : string) : Request :=
  ServerWorld.request "POST" "/api/logout" empty_header (ServerWorld.cookie token) "".
(** Bob logs in and asks for his message; then the limiter is cleaned up, somebody
    else logs in and out, and Bob asks again. *)
Definition login (email : string) : Request :=
  ServerWorld.request "POST" "/api/login" empty_header [] (Auth.login_body "user-key" email).
Definition logged_in : ResponseWriter * App MemDB MemFS := serve ServerWorld.srv (login " Bob@Example.com") new_writer ServerWorld.world.
Definition traffic : list happening :=
  [Serve ask; Serve ServerWorld.anonymous; TickLogin; Serve (login "carol@example.com"); Serve (logout Auth.Demo.token0); Serve ask].
Definition later : App MemDB MemFS := after ServerWorld.srv traffic logged_in.2.
Definition reply : ResponseWriter * App MemDB MemFS := serve ServerWorld.srv ask new_writer later.

Lemma login_routed mail : reaches_post (login mail) "/api/login" [].
Proof. split; [done|]. exists [], "/"%string, [], EmptyString. split; [|by split]. exists 2%nat. by split. Qed.
Lemma login_ok : resp_status logged_in.1 = 200.
Proof. vm_compute. reflexivity. Qed.
Lemma login_cookie : last (h_cookies (resp_header logged_in.1)) = Some (NewSessionCookie (Some (srv_config ServerWorld.srv)) token expires).
Proof. vm_compute. reflexivity. Qed.
Lemma reply_ok : resp_status reply.1 = 200.
Proof. vm_compute. reflexivity. Qed.

(** The positions of the clock and the random source before and after the traffic. *)
Lemma clock_start : clock_pos (app_rt logged_in.2) = 4%nat.
Proof. vm_compute. reflexivity. Qed.
Lemma rand_start : rand_pos (app_rt logged_in.2) = 2%nat.
Proof. vm_compute. reflexivity. Qed.
Lemma clock_end : clock_pos (app_rt later) = 19%nat.
Proof. vm_compute. reflexivity. Qed.
Lemma rand_end : rand_pos (app_rt later) = 8%nat.
Proof. vm_compute. reflexivity. Qed.
Lemma clock i : clock_at (app_rt logged_in.2) i = 1000 * Second + Z.of_nat i * Second.
Proof. reflexivity. Qed.
Lemma random j : rand_at (app_rt logged_in.2) j = Some (fun i => byte (Z.of_nat (j + i))).
Proof. reflexivity. Qed.

Lemma fresh : unrepeated token (app_rt logged_in.2) (app_rt later).
Proof.
  intros j b. rewrite rand_start, rand_end, random. intros Hj [= <-].
  assert (Forall (fun j => hex_EncodeToString (bytes_from (fun i => byte (Z.of_nat (j + i))) 0 32) <> token) (seq 2 6)) as Hall
    by (apply (bool_decide_unpack _); vm_compute; exact I).
  rewrite Forall_forall in Hall. apply Hall. apply elem_of_seq. lia.
Qed.

Lemma no_logout : Forall (fun h => match h with Serve q => ~ logs_out token ServerWorld.srv q | _ => True end) traffic.
Proof.
  repeat constructor; intros [Hc (params & rest & i & Hf & Hi)]; vm_compute in Hc; try discriminate Hc;
    vm_compute in Hf; injection Hf as <- _ _; discriminate Hi.
Qed.
End AccessDemo.

(** Bob's second request is answered 200 with what his session may see. *)
Lemma login_gives_access_witness :
  mail_reply ServerWorld.srv (with_params AccessDemo.ask [("id", "7")]%string)
    (mkSession "bob@example.com" false AccessDemo.expires AccessDemo.token)
    (app_db AccessDemo.later) (app_fs AccessDemo.later) "/api/messages/{id}/raw" (resp_body AccessDemo.reply.1).
Proof.
  destruct (login_gives_access ServerWorld.srv (AccessDemo.login " Bob@Example.com") [] ServerWorld.world AccessDemo.logged_in.1
    AccessDemo.logged_in.2) as (req & email & adm & token & Hd & Ha & Hc & _ & _ & Hmail).
  - by vm_compute.
  - apply map_Forall_singleton. reflexivity.
  - apply AccessDemo.login_routed.
  - apply surjective_pairing.
  - exact AccessDemo.login_ok.
  - rewrite AccessDemo.login_cookie in Hc.
    assert (token = AccessDemo.token) as -> by (symmetry; exact (f_equal (fun c => c_Value (default (mkCookie "" "" true true true "" 0 0) c)) Hc)).
    vm_compute in Hd. injection Hd as <-. vm_compute in Ha. injection Ha as <- <-.
    destruct (Hmail AccessDemo.traffic AccessDemo.ask "/api/messages/{id}/raw"%string [("id", "7")]%string EmptyString
      AccessDemo.reply.1 AccessDemo.reply.2) as [[[Hs _]|[Hs _]]|[_ Hm]].
    + exact AccessDemo.no_logout.
    + intros i. change (after _ _ _) with AccessDemo.later.
      rewrite AccessDemo.clock_start, AccessDemo.clock_end, AccessDemo.clock. intros Hi.
      change (1000 * Second + Z.of_nat i * Second <= 1002 * Second + 3600 * Second). unfold Second. lia.
    + exact AccessDemo.fresh.
    + apply (bool_decide_unpack _). by vm_compute.
    + exact (ServerWorld.reaches_raw7 _).
    + reflexivity.
    + apply surjective_pairing.
    + pose proof AccessDemo.reply_ok as E. rewrite Hs in E. discriminate E.
    + pose proof AccessDemo.reply_ok as E. rewrite Hs in E. discriminate E.
    + exact Hm.
Defined.
