(* ===== verification/Fits.v ===== *)
(** * The statements of the server and the tables of the migrations

    The catalog of the database after the shipped migrations, read off their
    texts; a check of a statement with its arguments against it; and a driver
    that refuses every statement that fails the check. A request never notices
    that driver: whatever the server sends, for any request and in any state,
    fits the tables. *)

From S2P Require Export Server Schema.

Open Scope Z_scope.

(** ** The catalog *)

(** A column: its type, the values of an [ENUM], whether it takes [NULL], and
    whether a new row must give it. *)
Record Column := mkColumn {
  c_name : string; c_type : string; c_values : list string; c_null : bool; c_required : bool
}.

(** Tables with their columns, and the columns of each full-text index. *)
Record Catalog := mkCatalog {
  ct_tables : list (string * list Column); ct_searches : list (string * list string)
}.

Fixpoint before (stop : string) (ws : list string) : list string :=
  match ws with
  | [] => []
  | w :: ws' => if bool_decide (w = stop) then [] else w :: before stop ws'
  end.
Fixpoint after_word (start : string) (ws : list string) : list string :=
  match ws with
  | [] => []
  | w :: ws' => if bool_decide (w = start) then ws' else after_word start ws'
  end.

Definition read_column (line : string) : Column :=
  let ws := words line in
  let has w := bool_decide (w ∈ ws) in
  mkColumn (default EmptyString (ws !! 0%nat)) (default EmptyString (ws !! 1%nat))
    (if bool_decide (ws !! 1%nat = Some "ENUM"%string) then before "NOT" (drop 2 ws) else [])
    (negb (has "NOT") && negb (has "PRIMARY"))%string
    (has "NOT" && negb (has "DEFAULT"))%string.

(** The lines of a table's definition that are columns: they do not start with a
    keyword. *)
Definition is_column (line : string) : bool :=
  match words line with
  | w :: _ => negb (bool_decide (w ∈ ["CREATE"; "INDEX"; "UNIQUE"; "FOREIGN"; "ENGINE=InnoDB"]%string))
  | [] => false
  end.

(** The statements that every database of the program has executed. *)
Definition creates (t q : string) : bool := bool_decide (take 6 (words q) = ["CREATE"; "TABLE"; "IF"; "NOT"; "EXISTS"; t]%string).
Definition indexes (i : string * string) (q : string) : bool :=
  bool_decide (take 7 (words q) = ["ALTER"; "TABLE"; i.1; "ADD"; "FULLTEXT"; "INDEX"; i.2]%string).

Definition columns_of (t : string) : list Column :=
  match List.find (creates t) (statements shipped) with
  | Some q => map read_column (List.filter is_column (Split q nl_char))
  | None => []
  end.
Definition index_columns (i : string * string) : list string :=
  match List.find (indexes i) (statements shipped) with Some q => drop 7 (words q) | None => [] end.

(** The database after all the migrations. *)
Definition catalog : Catalog :=
  match schema_at 3 with
  | Some s => mkCatalog (map (fun t => (t, columns_of t)) (sc_tables s))
                (map (fun i => (i.1, index_columns i)) (sc_indexes s))
  | None => mkCatalog [] []
  end.

(** ** The check *)

Section check.
Context (cat : Catalog).

Definition table_columns (t : string) : option (list Column) :=
  snd <$> List.find (fun x => bool_decide (x.1 = t)) (ct_tables cat).
Definition is_table (w : string) : bool := bool_decide (w ∈ map fst (ct_tables cat)).
Definition column_in (cols : list Column) (name : string) : option Column :=
  List.find (fun c => bool_decide (c_name c = name)) cols.

(** A value that a column can hold, up to its length. *)
Definition holds (c : Column) (v : sqlval) : bool :=
  match v with
  | VNull => c_null c
  | VInt _ => bool_decide (c_type c = "BIGINT"%string)
  | VTime _ => bool_decide (c_type c = "DATETIME"%string)
  | VStr s => if bool_decide (c_type c = "ENUM"%string) then bool_decide (s ∈ c_values c)
              else bool_decide (c_type c ∈ ["VARCHAR"; "TEXT"; "LONGTEXT"]%string)
  end.

(** [INSERT]: a value for each column, arguments for the placeholders. *)
Fixpoint insert_values (cols : list Column) (names values : list string) (args : list sqlval) : bool :=
  match names, values, args with
  | [], [], [] => true
  | n :: names, v :: values, _ =>
      match column_in cols n with
      | None => false
      | Some c =>
          if bool_decide (v = "?"%string) then
            match args with a :: args => holds c a && insert_values cols names values args | [] => false end
          else holds c (VStr v) && insert_values cols names values args
      end
  | _, _, _ => false
  end.

Definition sql_words : list string :=
  ["SELECT"; "FROM"; "WHERE"; "LIMIT"; "COALESCE"; "COUNT"; "DISTINCT"; "EXISTS"; "AND"; "ORDER"; "BY"; "DESC";
   "OFFSET"; "JOIN"; "ON"; "MATCH"; "AGAINST"; "IN"; "BOOLEAN"; "MODE"; "="; "?"]%string.

(** The table that a short name stands for: it follows the table's name. *)
Fixpoint short_for (ws : list string) (short : string) : option string :=
  match ws with
  | t :: ws' =>
      match ws' with
      | w :: _ => if is_table t && bool_decide (w = short) && negb (bool_decide (short ∈ sql_words))
                  then Some t else short_for ws' short
      | [] => None
      end
  | [] => None
  end.

(** The table and column that a name in a statement stands for; without a short
    name, only one table of the statement may have the column. *)
Definition resolve (ws : list string) (name : string) : option (string * Column) :=
  match Split name "." with
  | [short; column] =>
      t ← short_for ws short; cols ← table_columns t; c ← column_in cols column; Some (t, c)
  | [column] =>
      match omap (fun t => cols ← table_columns t; c ← column_in cols column; Some (t, c))
              (List.filter (fun t => bool_decide (t ∈ ws)) (map fst (ct_tables cat))) with
      | [x] => Some x
      | _ => None
      end
  | _ => None
  end.

Definition known (ws : list string) (w : string) : bool :=
  bool_decide (w ∈ sql_words) || sforall is_digit w || is_table w
  || bool_decide (is_Some (short_for ws w)) || bool_decide (is_Some (resolve ws w)).

(** The argument of a placeholder, by the two words before it. *)
Definition argument_ok (ws : list string) (w2 w1 : string) (a : sqlval) : bool :=
  if bool_decide (w1 = "="%string) then
    match resolve ws w2 with Some (_, c) => holds c a && negb (bool_decide (a = VNull)) | None => false end
  else if bool_decide (w1 ∈ ["LIMIT"; "OFFSET"]%string) then match a with VInt _ => true | _ => false end
  else if bool_decide (w1 = "AGAINST"%string) then match a with VStr _ => true | _ => false end
  else false.

Fixpoint arguments_ok (ws : list string) (w2 w1 : string) (rest : list string) (args : list sqlval) : bool :=
  match rest with
  | [] => match args with [] => true | _ => false end
  | w :: rest' =>
      if bool_decide (w = "?"%string) then
        match args with a :: args => argument_ok ws w2 w1 a && arguments_ok ws w1 w rest' args | [] => false end
      else arguments_ok ws w1 w rest' args
  end.

(** A full-text search names the columns of an index of one table. *)
Definition search_ok (ws : list string) : bool :=
  if bool_decide ("MATCH"%string ∈ ws) then
    match mapM (resolve ws) (before "AGAINST" (after_word "MATCH" ws)) with
    | Some xs => existsb (fun i => bool_decide (map (fun x => (x.1, c_name x.2)) xs = map (pair i.1) i.2)) (ct_searches cat)
    | None => false
    end
  else true.

(** An [INSERT] names a table and columns of it, each once and all that it must
    give, and gives each a value it can hold. In a [SELECT] every name stands for
    something, every placeholder has an argument of the type it is compared with,
    and a search has its index. Nothing else is sent. *)
Definition fits (q : string) (args : list sqlval) : bool :=
  let ws := words q in
  match ws with
  | "INSERT" :: "INTO" :: t :: ws' =>
      match table_columns t with
      | None => false
      | Some cols =>
          let names := before "VALUES" ws' in
          bool_decide (NoDup names)
          && forallb (fun c => bool_decide (c_name c ∈ names)) (List.filter c_required cols)
          && insert_values cols names (after_word "VALUES" ws') args
      end
  | "SELECT" :: _ => forallb (known ws) ws && arguments_ok ws EmptyString EmptyString ws args && search_ok ws
  | _ => false
  end%string.
End check.

Lemma catalog_tables : map fst (ct_tables catalog) = mail_tables.
Proof. vm_compute. reflexivity. Qed.

Example misspelt_column : fits catalog "SELECT contents FROM messages WHERE id = ?" [VInt 1] = false.
Proof. vm_compute. reflexivity. Qed.
Example swapped_arguments : forall id mail,
  fits catalog sql_raw_user [VInt id; VStr mail] = true /\ fits catalog sql_raw_user [VStr mail; VInt id] = false.
Proof. intros. split; vm_compute; reflexivity. Qed.
Example unknown_status : forall cf h id,
  fits catalog sql_insert_event [VStr cf; VStr h] = true /\
  fits catalog sql_insert_recipient [VInt id; VStr cf; VStr "from"; VTime 0] = false.
Proof. intros. split; vm_compute; reflexivity. Qed.

(** ** A driver that checks *)

Section checked.
Context {D T : Type} (drv : SQLDriver D T).

Definition ErrRefused : error := EText "the statement does not fit the tables".

(** The database, behind a check of every statement with its arguments. *)
Definition checked : SQLDriver D T := {|
  db_Query q args d := if fits catalog q args then db_Query q args d else Err ErrRefused;
  db_Exec q args d := if fits catalog q args then db_Exec q args d else (Err ErrRefused, d);
  db_Begin := db_Begin;
  tx_Exec q args t := if fits catalog q args then tx_Exec q args t else (Err ErrRefused, t);
  tx_Commit := tx_Commit
|}.

Lemma checked_Query q args d : fits catalog q args = true -> @db_Query D T checked q args d = db_Query q args d.
Proof using Type. intros Hf. unfold checked at 1. cbn [db_Query]. by rewrite Hf. Qed.

Lemma checked_Exec q args t : fits catalog q args = true -> @tx_Exec D T checked q args t = tx_Exec q args t.
Proof using Type. intros Hf. unfold checked at 1. cbn [tx_Exec]. by rewrite Hf. Qed.

Lemma checked_QueryRow {A} (scan : list sqlval -> result A) q args d :
  fits catalog q args = true -> @QueryRow D T A checked scan q args d = QueryRow scan q args d.
Proof using Type. intros Hf. unfold QueryRow. by rewrite checked_Query. Qed.

Lemma checked_query_rows {A} (scan : list sqlval -> result A) q args d :
  fits catalog q args = true -> @query_rows D T checked A scan q args d = query_rows scan q args d.
Proof using Type. intros Hf. unfold query_rows. by rewrite checked_Query. Qed.
End checked.

(** ** The statements of the handlers *)

Ltac fit := vm_compute; reflexivity.

Lemma raw_query_fits session id :
  fits catalog (rawMessageAuthQuery session id).1 (rawMessageAuthQuery session id).2 = true.
Proof. unfold rawMessageAuthQuery. destruct (IsAdmin session); fit. Qed.

Lemma message_query_fits session id :
  fits catalog (messageAuthQuery session id).1 (messageAuthQuery session id).2 = true.
Proof. unfold messageAuthQuery. destruct (IsAdmin session); fit. Qed.

Lemma attachment_query_fits session id idx :
  fits catalog (attachmentAuthQuery session id idx).1 (attachmentAuthQuery session id idx).2 = true.
Proof. unfold attachmentAuthQuery. destruct (IsAdmin session); fit. Qed.

Lemma count_query_fits session q :
  fits catalog ("SELECT COUNT(DISTINCT m.id) FROM messages m " +:+ (listWhere session q).1) (listWhere session q).2 = true.
Proof. unfold listWhere. destruct (IsAdmin session), (isSearchQueryUsable q); fit. Qed.

Lemma list_query_fits session q n off :
  fits catalog ("SELECT DISTINCT m.id, m.sender, COALESCE(m.subject,''), m.message_date, m.received_at, COALESCE(m.text_body,''), COALESCE(m.html_body,'')"
    +:+ newline +:+ "FROM messages m " +:+ (listWhere session q).1 +:+ " ORDER BY m.received_at DESC LIMIT ? OFFSET ?")
    ((listWhere session q).2 ++ [VInt n; VInt off]) = true.
Proof. unfold listWhere. destruct (IsAdmin session), (isSearchQueryUsable q); fit. Qed.

Section api.
Context {D T F : Type} (drv : SQLDriver D T) `{FileSystem F}.

Lemma checked_recipients id d : @recipients D T (checked drv) id d = recipients id d.
Proof using Type. unfold recipients. apply checked_query_rows. fit. Qed.

Lemma checked_attachments id d : @Api.attachments D T (checked drv) id d = Api.attachments id d.
Proof using Type. unfold Api.attachments. apply checked_query_rows. fit. Qed.

Lemma checked_getMessage id session d : @getMessage D T (checked drv) id session d = getMessage id session d.
Proof using Type.
  unfold getMessage. pose proof (message_query_fits session id) as Hf. destruct (messageAuthQuery session id) as [q args].
  by rewrite checked_QueryRow, checked_recipients, checked_attachments.
Qed.
End api.

(** From here on, that a statement fits is all that matters of it. *)
#[local] Opaque fits.

(** ** Handlers that cannot be told apart *)

Definition handler_eq {W} : relation (Handler W) := fun h h' => forall r w st, h r w st = h' r w st.

#[export] Instance handler_eq_equiv {W} : Equivalence (@handler_eq W).
Proof.
  split; [by intros h r w st|by intros h h' Hh r w st; rewrite Hh|intros h1 h2 h3 H1 H2 r w st; by rewrite H1, H2].
Qed.

#[export] Instance RequestID_proper {W} `{Lens W Runtime} name :
  Proper (handler_eq ==> handler_eq) (RequestID (W := W) name).
Proof.
  intros h h' Hh r w st. unfold RequestID. destruct (if bool_decide _ then _ else _) as [rid rt]. apply Hh.
Qed.
#[export] Instance SecurityHeaders_proper {W} : Proper (handler_eq ==> handler_eq) (SecurityHeaders (W := W)).
Proof. intros h h' Hh r w st. apply Hh. Qed.
#[export] Instance RequestLogging_proper {W} `{Lens W (list LogRecord * Runtime)} :
  Proper (handler_eq ==> handler_eq) (RequestLogging (W := W)).
Proof.
  intros h h' Hh r w st. unfold RequestLogging. destruct (view st) as [log rt]. destruct (time_Now rt) as [start rt1].
  by rewrite Hh.
Qed.
#[export] Instance CORS_proper {W} o : Proper (handler_eq ==> handler_eq) (CORS (W := W) o).
Proof. intros h h' Hh r w st. unfold CORS. by rewrite Hh. Qed.
#[export] Instance RateLimit_proper {W} {L : Lens W (rateLimiter * Runtime)} rpm burst :
  Proper (handler_eq ==> handler_eq) (RateLimit (W := W) rpm burst).
Proof.
  intros h h' Hh r w st. unfold RateLimit. destruct (view st) as [rl rt]. destruct (time_Now rt) as [now rt1].
  destruct (Allow _ _ rl) as [[[ok n] t] rl']. destruct ok; [apply Hh|done].
Qed.
#[export] Instance MaxBodySize_proper {W} n : Proper (handler_eq ==> handler_eq) (MaxBodySize (W := W) n).
Proof. intros h h' Hh r w st. unfold MaxBodySize. destruct (_ <? _); [done|apply Hh]. Qed.
#[export] Instance RequireAuth_proper {S} `{SessionStore S} {W} {L : Lens W (S * Runtime)} cfg :
  Proper (handler_eq ==> handler_eq) (RequireAuth (W := W) cfg).
Proof.
  intros h h' Hh r w st. unfold RequireAuth. destruct (view st) as [ss rt]. destruct (Req_Cookie r _) as [v|]; [|done].
  destruct (Get v ss) as [session|e]; [|done]. destruct (time_Now rt) as [now rt1].
  destruct (After now _); [done|apply Hh].
Qed.
#[export] Instance lift_handler_proper {W S} {L : Lens W S} : Proper (handler_eq ==> handler_eq) (lift_handler (W := W)).
Proof. intros h h' Hh r w st. unfold lift_handler. by rewrite Hh. Qed.

(** Routes that are registered alike and run alike. *)
Definition route_eq {W} (rt rt' : Route W) : Prop :=
  rt_chi rt = rt_chi rt' /\ forall rest, handler_eq (rt_run rt rest) (rt_run rt' rest).

#[export] Instance route_eq_equiv {W} : Equivalence (@route_eq W).
Proof.
  split; [by intros rt|intros rt rt' [Hc Hr]; split; [done|by intros rest; symmetry; apply Hr]|].
  intros r1 r2 r3 [C1 R1] [C2 R2]. split; [congruence|]. intros rest. by rewrite R1.
Qed.

Lemma Get_eq {W} p (h h' : Handler W) : handler_eq h h' -> route_eq (Get_ p h) (Get_ p h').
Proof. by intros Hh. Qed.
Lemma Post_eq {W} p (h h' : Handler W) : handler_eq h h' -> route_eq (Post_ p h) (Post_ p h').
Proof. by intros Hh. Qed.

#[export] Instance dispatch_proper `{ChiRouter} {W} :
  Proper (Forall2 route_eq ==> eq ==> handler_eq) (dispatch (W := W)).
Proof.
  intros rs rs' Hrs path ? <- r w st. unfold dispatch.
  assert (map rt_chi rs = map rt_chi rs') as ->.
  { induction Hrs as [|rt rt' rs rs' [Hc _] _ IH]; [done|]. simpl. by rewrite Hc, IH. }
  destruct (chi_Find _ _ _) as [i params rest| |]; [|done..].
  apply (proj1 (Forall2_lookup _ _ _)) with (i := i) in Hrs. inversion Hrs as [rt rt' [_ Hrt] E E'|E E']; [|done].
  apply Hrt.
Qed.

Lemma Route_eq `{ChiRouter} {W} p (use : Middleware W) rs rs' :
  Proper (handler_eq ==> handler_eq) use -> Forall2 route_eq rs rs' ->
  route_eq (Route_ p use rs) (Route_ p use rs').
Proof. intros Hu Hrs. split; [done|]. intros rest. by apply Hu, dispatch_proper. Qed.

#[export] Instance ingest_use_proper {D F} s : Proper (handler_eq ==> handler_eq) (ingest_use (D := D) (F := F) s).
Proof. intros h h' Hh. unfold ingest_use. by apply RateLimit_proper, MaxBodySize_proper. Qed.

(** ** Delivering mail *)

(** What the table of recipients admits as a type, and the table of messages as a
    status. *)
Definition typed_recipients (l : list Recipient) : Prop :=
  Forall (fun rc => rc_Type rc ∈ ["to"; "cc"; "bcc"]%string) l.
Definition parser_statuses : list string := ["success"; "partial"; "failed"]%string.

Lemma parse_types `{UnicodeTable} `{MailLibLaws} raw rt p status perr rt' :
  parse_or_fallback raw (HashBytes raw) rt = (p, status, perr, rt') ->
  typed_recipients (Recipients p) /\ status ∈ parser_statuses.
Proof.
  intros Hp. apply parse_or_fallback_spec in Hp as (_ & _ & Hp).
  destruct (ParseMIME raw).2 eqn:Ee.
  - destruct Hp as (_ & -> & _ & -> & _). split; [by constructor|]. unfold parser_statuses. set_solver.
  - destruct Hp as (-> & -> & _). split; [|unfold parser_statuses; set_solver].
    destruct (ParseMIME_spec raw) as (_ & _ & Henv). destruct (mail_ReadMessage raw) as [[header body]|e].
    + destruct Henv as (_ & _ & _ & -> & _). unfold typed_recipients, envelope. cbn [Recipients].
      rewrite !Forall_app.
      split_and!; (eapply Forall_impl; [apply recipients_canonical|]; intros r (-> & _); set_solver).
    + rewrite Henv. constructor.
Qed.

Lemma insert_recipient_fits id rc now :
  rc_Type rc ∈ ["to"; "cc"; "bcc"]%string ->
  fits catalog "INSERT INTO message_recipients (message_id, recipient_email, recipient_type, received_at) VALUES (?, ?, ?, ?)"
    [VInt id; VStr (rc_Email rc); VStr (rc_Type rc); VTime now] = true.
Proof.
  destruct rc as [mail type]. cbn [rc_Type rc_Email]. intros Ht. rewrite !elem_of_cons in Ht.
  destruct Ht as [->|[->|[->|[]%elem_of_nil]]]; fit.
Qed.

Lemma insert_attachment_fits id key name mime size h :
  fits catalog "INSERT INTO attachments (message_id, storage_key, original_filename, mime_type, size_bytes, content_hash) VALUES (?, ?, ?, ?, ?, ?)"
    [VInt id; VStr key; nullable name; VStr mime; VInt size; VStr h] = true.
Proof. destruct name; fit. Qed.

Lemma insert_message_fits cf h sender subject date now text html path status perr :
  status ∈ parser_statuses ->
  fits catalog "INSERT INTO messages (cloudflare_message_id, content_hash, sender, subject, message_date, received_at, text_body, html_body, raw_mime_path, parser_status, parser_error) VALUES (?, ?, ?, ?, ?, ?, ?, ?, ?, ?, ?)"
    [VStr cf; VStr h; VStr sender; VStr subject; VTime date; VTime now; VStr text; VStr html; VStr path;
     VStr status; nullable perr] = true.
Proof.
  unfold parser_statuses. intros Hs. rewrite !elem_of_cons in Hs.
  destruct Hs as [->|[->|[->|[]%elem_of_nil]]]; destruct perr; fit.
Qed.

Section ingest.
Context `{UnicodeTable} `{MailLibLaws} {D T F : Type} (drv : SQLDriver D T) `{FileSystem F}.

Lemma checked_isDuplicate h db : @isDuplicate D T (checked drv) h db = isDuplicate h db.
Proof using Type. unfold isDuplicate. rewrite checked_QueryRow; [done|fit]. Qed.

Lemma checked_insert_recipients id l tx rt :
  typed_recipients l -> @insert_recipients D T (checked drv) id l tx rt = insert_recipients id l tx rt.
Proof using Type.
  intros Hl. revert tx rt. induction Hl as [|rc l Hrc _ IH]; intros tx rt; [done|]. cbn [insert_recipients].
  destruct (time_Now rt) as [now rt1]. rewrite checked_Exec by (by apply insert_recipient_fits).
  destruct (tx_Exec _ _ tx) as [[rid|e] tx1]; [apply IH|done].
Qed.

Lemma checked_insert_attachments store id l tx (fs : F) :
  @insert_attachments D T F (checked drv) _ store id l tx fs = insert_attachments store id l tx fs.
Proof using Type.
  revert tx fs. induction l as [|a l IH]; intros tx fs; [done|]. cbn [insert_attachments].
  destruct (SaveAttachment _ _ _ _ fs) as [[u|e] fs1]; [|done]. rewrite checked_Exec by apply insert_attachment_fits.
  destruct (tx_Exec _ _ tx) as [[aid|e] tx1]; [apply IH|done].
Qed.

Lemma checked_persist store p status perr db (fs : F) rt :
  typed_recipients (Recipients p) -> status ∈ parser_statuses ->
  @persist D T F (checked drv) _ store p status perr db fs rt = persist store p status perr db fs rt.
Proof using Type.
  intros Hr Hs. unfold persist. change (@db_Begin D T (checked drv) db) with (db_Begin db).
  destruct (db_Begin db) as [tx|e]; [|done]. destruct (if IsZero _ then _ else _) as [date rt1].
  destruct (time_Now rt1) as [now rt2]. rewrite checked_Exec by (by apply insert_message_fits).
  destruct (tx_Exec _ _ tx) as [[id|e] tx1]; [|done]. rewrite checked_insert_recipients by done.
  destruct (insert_recipients id _ tx1 rt2) as [[tx2|e] rt3]; [|done]. rewrite checked_insert_attachments.
  destruct (insert_attachments store id _ tx2 fs) as [[tx3|e] fs1]; [|done].
  rewrite checked_Exec by fit. destruct (tx_Exec _ _ tx3) as [[eid|e] tx4]; [|done]. reflexivity.
Qed.

Lemma checked_ServeHTTP h : handler_eq (@ServeHTTP _ _ D T F (checked drv) _ h) (ServeHTTP h).
Proof using All.
  intros r w [[db fs] rt]. unfold ServeHTTP. destruct (bool_decide _); [done|]. destruct (ih_config h) as [c|]; [|done].
  destruct (_ || _); [done|]. destruct (ReadAll _) as [raw [e|]]; [done|]. destruct (_ <? _); [done|].
  destruct (ih_db_present h); [|reflexivity]. destruct (ih_storage h) as [store|]; [|reflexivity].
  unfold ingest_message. rewrite checked_isDuplicate. destruct (isDuplicate _ db) as [[]|e]; [reflexivity| |reflexivity].
  destruct (parse_or_fallback raw (HashBytes raw) rt) as [[[p status] perr] rt1] eqn:Ep.
  apply parse_types in Ep as [Hr Hs].
  destruct (SaveRawMIME _ _ _ fs) as [[u|e] fs1]; [|done]. by rewrite checked_persist.
Qed.
End ingest.

(** ** The server *)

Section server.
Context `{UnicodeTable} `{MailLibLaws} `{ChiRouter} `{StaticFiles} {D T F : Type} (drv : SQLDriver D T) `{FileSystem F}.

Lemma checked_ListMessages : handler_eq (@ListMessages D T F (checked drv)) ListMessages.
Proof using Type.
  intros r w [db fs]. unfold ListMessages. destruct (SessionFromContext _) as [session|]; [|done].
  destruct (page_params r) as [[page n] off]. pose proof (count_query_fits session (TrimSpace (Query_Get r "q"))) as Hc.
  pose proof (list_query_fits session (TrimSpace (Query_Get r "q")) n off) as Hl.
  destruct (listWhere session _) as [where_ args]. cbn [fst snd] in Hc, Hl. rewrite checked_QueryRow by done.
  destruct (QueryRow scan_total _ args db) as [total|e]; [|done]. by rewrite checked_query_rows.
Qed.

Lemma checked_GetMessage : handler_eq (@GetMessage D T F (checked drv)) GetMessage.
Proof using Type.
  intros r w [db fs]. unfold GetMessage. destruct (numericURLParam w r "id") as [[id []] w1]; [|done].
  destruct (SessionFromContext _) as [session|]; [|done]. by rewrite checked_getMessage.
Qed.

Lemma checked_GetRawMIME store : handler_eq (@GetRawMIME D T F (checked drv) _ store) (GetRawMIME store).
Proof using Type.
  intros r w [db fs]. unfold GetRawMIME. destruct (numericURLParam w r "id") as [[id []] w1]; [|done].
  destruct (SessionFromContext _) as [session|]; [|done]. pose proof (raw_query_fits session id) as Hf.
  destruct (rawMessageAuthQuery session id) as [q args]. by rewrite checked_QueryRow.
Qed.

Lemma checked_GetAttachment store : handler_eq (@GetAttachment D T F (checked drv) _ store) (GetAttachment store).
Proof using Type.
  intros r w [db fs]. unfold GetAttachment. destruct (numericURLParam w r "id") as [[id []] w1]; [|done].
  destruct (numericURLParamAllowZero w1 r "idx") as [[idx []] w2]; [|done].
  destruct (SessionFromContext _) as [session|]; [|done]. pose proof (attachment_query_fits session id idx) as Hf.
  destruct (attachmentAuthQuery session id idx) as [q args]. by rewrite checked_QueryRow.
Qed.

Lemma checked_routes s : Forall2 route_eq (@routes _ _ _ _ D T F (checked drv) _ s) (routes s).
Proof using All.
  unfold routes.
  apply Forall2_cons_2; [reflexivity|].
  apply Forall2_cons_2.
  { apply Route_eq; [apply ingest_use_proper|]. apply Forall2_cons_2; [|apply Forall2_nil_2].
    apply Post_eq, lift_handler_proper, checked_ServeHTTP. }
  do 2 (apply Forall2_cons_2; [reflexivity|]).
  apply Forall2_cons_2; [apply Get_eq, RequireAuth_proper, lift_handler_proper, checked_ListMessages|].
  apply Forall2_cons_2; [apply Get_eq, RequireAuth_proper, lift_handler_proper, checked_GetMessage|].
  apply Forall2_cons_2; [apply Get_eq, RequireAuth_proper, lift_handler_proper, checked_GetRawMIME|].
  apply Forall2_cons_2; [apply Get_eq, RequireAuth_proper, lift_handler_proper, checked_GetAttachment|].
  reflexivity.
Qed.

Lemma checked_serve s : handler_eq (@serve _ _ _ _ D T F (checked drv) _ s) (serve s).
Proof using All.
  intros r w st. unfold serve, middlewares.
  apply RequestID_proper, SecurityHeaders_proper, RequestLogging_proper, CORS_proper, dispatch_proper; [|done].
  apply checked_routes.
Qed.
End server.

(** ** Properties *)

(** C25: The code's SQL fits the shipped tables. Put between the server and its
    database a check that refuses a statement unless every table and column it
    names exists after the shipped migrations, every short name is declared and
    every column belongs to one table only; every placeholder has an argument of
    the type of the column it is compared with or stored in; an INSERT gives each
    column once, with a value it can hold, up to its length, an ENUM one of its
    own and a NOT NULL column no NULL, and leaves out only columns with a default;
    and a full-text search names the columns of a full-text index. Then for every
    database, every request and every state, the server with the check replies and
    leaves the state exactly as without it: it never sends a statement that does
    not fit. Of the mail libraries this assumes that parsing ends. *)
Theorem statements_fit_the_tables `{UnicodeTable} `{MailLibLaws} `{ChiRouter} `{StaticFiles} {D T F}
  (drv : SQLDriver D T) `{FileSystem F} (s : Server) (r : Request) w (st : App D F) :
  @serve _ _ _ _ D T F (checked drv) _ s r w st = serve s r w st.
Proof. apply checked_serve. Qed.

(** ** The theorem at a concrete input *)

#[local] Existing Instance Small.lib.
#[local] Existing Instance Small.lib_laws.
#[local] Existing Instance unicode_latin.
#[local] Existing Instance ServerDemo.router.
#[local] Existing Instance ServerDemo.static.

Module FitsDemo.
(** The server over the checked in-memory database, and the mail of the sample. *)
Definition upload : ResponseWriter * App MemDB MemFS :=
  @serve _ _ _ _ _ _ MemFS (checked MemDB_driver) _ ServerWorld.srv (ServerWorld.upload "key" Small.sample) new_writer ServerStart.st0.
End FitsDemo.

(** The check lets a delivery pass. *)
Lemma statements_fit_the_tables_witness :
  resp_status FitsDemo.upload.1 = 200 /\ length (messages (tables (app_db FitsDemo.upload.2))) = 1%nat.
Proof.
  refine (eq_ind_r (fun o : ResponseWriter * App MemDB MemFS => resp_status o.1 = 200 /\ length (messages (tables (app_db o.2))) = 1%nat)
    _ (statements_fit_the_tables MemDB_driver ServerWorld.srv (ServerWorld.upload "key" Small.sample) new_writer ServerStart.st0)).
  split; [vm_compute; reflexivity|exact ServerStart.accepted].
Defined.
