(* ===== verification/Delivery.v ===== *)
(** * From the worker to the reader

    What the mail routes of a running server tell about a message that its ingest
    route accepted, whatever is requested in between: the reverse direction of
    [Server.served_mail_is_authorised], which says that nothing else is told. *)

From S2P Require Export Server.

Open Scope Z_scope.

(** ** What is to be told *)

Section told.
Context `{UnicodeTable} `{MailLib}.

(** A message that cannot be parsed has neither recipients nor attachments. *)
Definition addressees (raw : string) : list Recipient :=
  match (ParseMIME raw).2 with None => Recipients (ParseMIME raw).1 | Some _ => [] end.
Definition enclosed (raw : string) : list ParsedAttachment :=
  match (ParseMIME raw).2 with None => Attachments (ParseMIME raw).1 | Some _ => [] end.

(** An administrator reads everything, a user what was addressed to him. *)
Definition may_read (eq : string -> string -> bool) (raw : string) (sess : Session) : bool :=
  IsAdmin sess || existsb (fun rc => eq (rc_Email rc) (Email sess)) (addressees raw).

Definition shown_attachment (a : ParsedAttachment) (d : attachmentDTO) : Prop :=
  ad_OriginalFilename d = default EmptyString (nullableString (pa_OriginalFilename a)) /\
  ad_MimeType d = pa_MimeType a /\ ad_SizeBytes d = pa_Size a.

(** The view of a message: the parts of the parse, and [failed] without one. *)
Record shown (round : Z -> Z) (id : Z) (raw : string) (d : messageDTO) : Prop := mkShown {
  sw_id : md_ID d = id;
  sw_recipients : md_Recipients d = map (fun rc => mkRecipientDTO (rc_Email rc) (rc_Type rc)) (addressees raw);
  sw_attachments : Forall2 shown_attachment (enclosed raw) (md_Attachments d);
  sw_content : let p := (ParseMIME raw).1 in
    match (ParseMIME raw).2 with
    | None => md_ParserStatus d = "success"%string /\ md_Sender d = Sender p /\ md_Subject d = Subject p /\
        md_TextBody d = TextBody p /\ md_HTMLBody d = HTMLBody p /\
        (IsZero (MessageDate p) = false -> md_MessageDate d = round (MessageDate p))
    | Some e => md_ParserStatus d = "failed"%string /\
        md_TextBody d = ("[Parse Error: " +:+ error_Error e +:+ "]")%string
    end
}.

(** The body of a good answer, by route. [kept] is what was stored under the hash
    of the message before, if anything was. *)
Inductive delivered (round : Z -> Z) (id : Z) (raw : string) (kept : option string) (r : Request)
  : string -> list Chunk -> Prop :=
| delivered_raw : delivered round id raw kept r "/api/messages/{id}/raw" [Bytes (default raw kept)]
| delivered_view d : shown round id raw d ->
    delivered round id raw kept r "/api/messages/{id}" [Json (messageDTO_json d)]
| delivered_attachment idx a :
    canonical 0 (URLParam r "idx") idx -> enclosed raw !! Z.to_nat idx = Some a ->
    delivered round id raw kept r "/api/messages/{id}/attachments/{idx}" [Bytes (pa_Content a)].

(** The request asks for something that the message has. *)
Definition asks_for (raw : string) (r : Request) (pattern : string) : Prop :=
  pattern = "/api/messages/{id}"%string \/ pattern = "/api/messages/{id}/raw"%string \/
  (pattern = "/api/messages/{id}/attachments/{idx}"%string /\
   exists idx, canonical 0 (URLParam r "idx") idx /\ is_Some (enclosed raw !! Z.to_nat idx)).

Lemma asks_for_mail raw r pattern : asks_for raw r pattern -> pattern ∈ mail_patterns.
Proof. unfold mail_patterns. intros [->|[->|[-> _]]]; set_solver. Qed.

Lemma delivered_raw_inv round id raw kept r body :
  delivered round id raw kept r "/api/messages/{id}/raw" body -> body = [Bytes (default raw kept)].
Proof. by inversion 1. Qed.
End told.

(** ** Acceptance *)

Section acceptance.
Context `{UnicodeTable} `{MailLibLaws} `{ChiLaws} `{StaticLaws}
  {D T F : Type} `{SQLDriverLaws D T} `{FileSystemLaws F}.
Implicit Types (s : Server) (st : App D F).

(** What is read through both limits without an error is the whole body. *)
Lemma read_whole b limit n raw :
  0 < limit -> limit < n -> ReadAll (LimitReader (MaxBytesReader b limit) n) = (raw, None) -> raw = body_bytes b.
Proof using.
  intros Hl Hn. unfold ReadAll, LimitReader, MaxBytesReader.
  destruct (Z.ltb_spec limit (slen (body_bytes b))) as [Hlt|Hge]; simpl.
  - unfold slen in *. rewrite stake_length by lia. rewrite (proj2 (Z.leb_gt _ _)) by lia. simpl. congruence.
  - rewrite (proj2 (Z.leb_gt _ _)) by lia. simpl. congruence.
Qed.

(** A request that the served ingest route answers as accepted was taken whole. *)
Lemma serve_accepted s r params st w' st' id :
  baseDir (srv_store s) <> EmptyString -> MaxMessageBytes (srv_config s) < max_int64 ->
  no_blob_dirs (srv_store s) (app_fs st) -> reaches_post r "/api/ingest" params ->
  serve s r new_writer st = (w', st') -> resp_body w' = [Json (accepted_json id)] ->
  let raw := body_bytes (ReqBody r) in
  no_blob_dirs (srv_store s) (app_fs st') /\
  exists p status perr rt rt1, parse_or_fallback raw (HashBytes raw) rt = (p, status, perr, rt1) /\
    taken (srv_store s) raw id p status perr (app_db st) (app_db st') (app_fs st) (app_fs st').
Proof using All.
  intros Hb Hmax Hn Hr Hrun Hbody raw.
  destruct (serve_mounted (L := ingest_limiter) s r new_writer st _ params rateLimitIngest (MaxMessageBytes (srv_config s))
    (lift_handler (ServeHTTP (ingestHandler s))) (ingest_mount s) not_sent_new Hr (fun _ => eq_refl))
    as (w1 & n & st1 & d & rt' & E & Hres).
  rewrite E in Hrun. injection Hrun as -> <-. clear E. change (Allow _ _ _) with (ingest_verdict r st) in Hres.
  pose proof (limit_headers_not_sent rateLimitIngest (ingest_verdict r st).1 _
    (routed_not_sent s (request_id r (app_rt st)).1 r new_writer not_sent_new)) as Hw.
  pose proof (limit_headers_body rateLimitIngest (ingest_verdict r st).1
    (routed_writer s (request_id r (app_rt st)).1 r new_writer)) as Hb0. rewrite routed_body in Hb0.
  change (resp_body new_writer) with (@nil Chunk) in Hb0.
  set (w0 := limit_headers _ _ _) in *. set (st2 := put _ (routed_state r st)) in *.
  assert (forall c x, (RWRecorder w' n, st1) =
    (Write (Bytes x) (WriteHeader c (set_header "Content-Type" "application/json" w0)), st2) -> False) as Hearly.
  { intros c x Ho. destruct (early_reply c x w0 Hw) as [_ Hc]. rewrite Hb0 in Hc.
    apply (f_equal (fun y => resp_body y.1)) in Ho. cbn [fst] in Ho. rewrite Hc in Ho.
    change (resp_body (RWRecorder w' n)) with (resp_body w') in Ho. by rewrite Hbody in Ho. }
  destruct (negb _); [by apply Hearly in Hres|]. destruct (_ <? _); [by apply Hearly in Hres|]. clear Hearly.
  unfold lift_handler in Hres. change (view st2) with (app_db st, app_fs st, app_rt st2) in Hres.
  set (r2 := with_body _ _) in Hres.
  destruct (ServeHTTP (ingestHandler s) r2 w0 (app_db st, app_fs st, app_rt st2)) as [wo [[db fs] rt]] eqn:ES.
  injection Hres as Hwo ->. apply (f_equal resp_body) in Hwo. change (resp_body (RWRecorder w' n)) with (resp_body w') in Hwo.
  rewrite Hbody in Hwo. cbn [app_db app_fs].
  destruct (ServeHTTP_rejected (srv_store s) (ingestHandler s) r2 w0 (app_db st) (app_fs st) (app_rt st2) eq_refl)
    as [[raw' Had]|(c & m & Hrej)].
  2:{ rewrite Hrej in ES. injection ES as <- _ _ _. rewrite writeJSON_body, Hb0 in Hwo by done. done. }
  rewrite (ServeHTTP_admitted _ _ _ _ _ _ _ _ Had) in ES.
  assert (raw' = raw) as ->.
  { destruct Had as (_ & _ & _ & c & Hc & _ & Hread). injection Hc as <-.
    assert (0 < max_body_default (MaxMessageBytes (srv_config s)) <= message_limit (srv_config s) /\ message_limit (srv_config s) < max_int64) as Hlim.
    { unfold max_body_default, message_limit. unfold max_int64 in *. destruct (Z.leb_spec (MaxMessageBytes (srv_config s)) 0); lia. }
    rewrite wrap64_id in Hread by (unfold in_int64, min_int64, max_int64 in *; lia).
    by eapply read_whole in Hread; [exact Hread|lia|lia]. }
  destruct (parse_or_fallback raw (HashBytes raw) (app_rt st2)) as [[[p status] perr] rt1] eqn:Ep.
  destruct (ingest_message_spec (srv_store s) Hb _ _ _ _ _ _ _ _ _ _ _ _ _ Hn Ep ES) as ((_ & _ & Hn') & Hout).
  split; [exact Hn'|]. exists p, status, perr, (app_rt st2), rt1. split; [exact Ep|].
  destruct Hout as [(Hw1 & _)|[(id' & Hw1 & Ht)|(m & Hw1 & _)]]; rewrite Hw1, writeJSON_body, Hb0 in Hwo by done; try done.
  by injection Hwo as ->.
Qed.
End acceptance.

(** ** What stays as it is once a message is filed *)

Lemma filter_all {A} (f : A -> bool) l : Forall (fun x => f x = true) l -> List.filter f l = l.
Proof. induction 1 as [|x l Hx Hl IH]; [done|]. simpl. by rewrite Hx, IH. Qed.
Lemma filter_none {A} (f : A -> bool) l : Forall (fun x => f x = false) l -> List.filter f l = [].
Proof. induction 1 as [|x l Hx Hl IH]; [done|]. simpl. by rewrite Hx. Qed.

Lemma visible_recipients eq email t m :
  visible eq email t m = existsb (fun r => eq (r_recipient_email r) email) (recipients_of (m_id m) t).
Proof.
  unfold visible, recipients_of. induction (message_recipients t) as [|r l IH]; [done|]. simpl. rewrite IH.
  by destruct (_ =? _).
Qed.

Section filed.
Context `{UnicodeTable} {round : Z -> Z}.

(** What a new message adds under its own id, and what it leaves under others. *)
Lemma stored_own id p status perr t t' :
  stored id p status perr round t t' ->
  exists m, m ∈ messages t' /\ m_id m = id /\ Forall (fun x => m_id x = id -> x = m) (messages t') /\
    m_content_hash m = ContentHash p /\ message_dto t' m =
      mkMessageDTO id (Sender p) (Subject p) (m_message_date m) (m_received_at m) (TextBody p) (HTMLBody p) status
        (map recipient_dto (recipients_of id t')) (map attachment_dto (attachments_of id t')) /\
    (IsZero (MessageDate p) = false -> m_message_date m = round (MessageDate p)) /\
    Forall2 (recipient_stored id) (Recipients p) (recipients_of id t') /\
    Forall2 (attachment_stored id) (Attachments p) (attachments_of id t').
Proof.
  intros [Hfm Hfr Hfa Hid (m & recs & atts & e & -> & (date & received & Hm & Hd) & Hrecs & Hatts & _)].
  exists m. simpl. assert (recipients_of id (add_event e (with_attachments atts (with_recipients recs (add_message m t)))) = recs) as Er.
  { unfold recipients_of. simpl. rewrite List.filter_app, filter_none, filter_all; [done|..].
    - clear -Hrecs. induction Hrecs as [|a x l l' (E & _) Hl IH]; constructor; [by rewrite E, Z.eqb_refl|done].
    - eapply Forall_impl; [exact Hfr|]. intros x Hx. simpl in Hx. apply Z.eqb_neq. lia. }
  assert (attachments_of id (add_event e (with_attachments atts (with_recipients recs (add_message m t)))) = atts) as Ea.
  { unfold attachments_of. simpl. rewrite List.filter_app, filter_none, filter_all; [done|..].
    - clear -Hatts. induction Hatts as [|a x l l' (E & _) Hl IH]; constructor; [by rewrite E, Z.eqb_refl|done].
    - eapply Forall_impl; [exact Hfa|]. intros x Hx. simpl in Hx. apply Z.eqb_neq. lia. }
  rewrite Er, Ea. assert (m_id m = id) as Em by (by subst m). split_and!; try done.
  - apply elem_of_app. right. by apply list_elem_of_singleton.
  - apply Forall_app. split; [|by apply Forall_singleton].
    eapply Forall_impl; [exact Hfm|]. intros x Hx. simpl in Hx. lia.
  - by subst m.
  - unfold message_dto. rewrite Em, Er, Ea. by subst m.
  - intros Hz. subst m. simpl. by rewrite (Hd Hz).
Qed.

Lemma stored_others id id' p status perr t t' m :
  stored id' p status perr round t t' -> m ∈ messages t -> m_id m = id ->
  id <> id' /\ recipients_of id t' = recipients_of id t /\ attachments_of id t' = attachments_of id t /\
  (Forall (fun x => m_id x = id -> x = m) (messages t) -> Forall (fun x => m_id x = id -> x = m) (messages t')) /\
  grows t t'.
Proof.
  intros [Hfm _ _ _ (m' & recs & atts & e & -> & (date & received & Hm & _) & Hrecs & Hatts & _)] Hin Hid.
  assert (id < id') as Hlt. { rewrite Forall_forall in Hfm. by rewrite <-Hid; apply Hfm. }
  split_and!; [lia|..].
  - unfold recipients_of. simpl. rewrite List.filter_app, (filter_none _ recs); [by rewrite app_nil_r|].
    clear -Hrecs Hlt. induction Hrecs as [|a x l l' (E & _) Hl IH]; constructor; [rewrite E; apply Z.eqb_neq; lia|done].
  - unfold attachments_of. simpl. rewrite List.filter_app, (filter_none _ atts); [by rewrite app_nil_r|].
    clear -Hatts Hlt. induction Hatts as [|a x l l' (E & _) Hl IH]; constructor; [rewrite E; apply Z.eqb_neq; lia|done].
  - intros Ho. simpl. apply Forall_app. split; [done|]. apply Forall_singleton. subst m'. simpl. lia.
  - simpl. split_and!; by eexists.
Qed.
End filed.

Section delivery.
Context `{UnicodeTable} `{MailLibLaws} `{ChiLaws} `{StaticLaws}
  {D T F : Type} `{SQLDriverLaws D T} `{FileSystemLaws F}.
Context (s : Server) (base_ne : baseDir (srv_store s) <> EmptyString).
Implicit Types (st : App D F).

(** The message [m] with these recipients, attachments and files is stored. *)
Record filed (id : Z) (m : MessageRow) (recs : list RecipientRow) (atts : list AttachmentRow)
  (files : list (blob * string)) (x : D * F) : Prop := mkFiled {
  fi_dirs : no_blob_dirs (srv_store s) x.2;
  fi_row : m ∈ messages (tables x.1);
  fi_id : m_id m = id;
  fi_only : Forall (fun y => m_id y = id -> y = m) (messages (tables x.1));
  fi_recs : recipients_of id (tables x.1) = recs;
  fi_atts : attachments_of id (tables x.1) = atts;
  fi_files : Forall (fun f => blob_ok f.1 /\ known (tables x.1) f.1 /\ blob_get (srv_store s) x.2 f.1 = Some f.2) files
}.

(** Nothing that happens to the server takes it away. *)
Lemma ingest_keeps_filed id m recs atts files r x y :
  ingest_moves s r x y -> filed id m recs atts files x -> filed id m recs atts files y.
Proof using All.
  intros [->|(r' & w & rt & w1 & rt1 & _ & E)]; [done|]. intros [Hd Hm Hid Ho Hr Ha Hf].
  apply (ServeHTTP_effect (srv_store s) base_ne) in E as (Hd' & Hkeep & Ht); [|done|done].
  destruct Ht as [Ht|(raw & p & status & perr & rt2 & id' & _ & _ & [Hst _ _ _] & _)].
  - split; rewrite ?Ht; try done. eapply Forall_impl; [exact Hf|]. intros [b d] (Hok & Hk & Hg). simpl in *.
    split_and!; [done|done|by apply Hkeep].
  - destruct (stored_others _ _ _ _ _ _ _ _ Hst Hm Hid) as (_ & Er & Ea & Ho' & Hgr).
    split; rewrite ?Er, ?Ea; auto.
    + destruct Hgr as ([l ->] & _). apply elem_of_app. by left.
    + eapply Forall_impl; [exact Hf|]. intros [b d] (Hok & Hk & Hg). simpl in *.
      split_and!; [done|by eapply known_grows|by apply Hkeep].
Qed.

Lemma steps_keep_filed id m recs atts files st st' :
  rtc (app_step s) st st' -> filed id m recs atts files (app_store st) -> filed id m recs atts files (app_store st').
Proof using All.
  induction 1 as [|st1 st2 st3 Hstep _ IH]; [done|]. intros Hf. apply IH. clear IH. destruct Hstep as [[r| |] st]; [|done..].
  eapply ingest_keeps_filed; [exact (serve_store s r new_writer st)|done].
Qed.

(** The files of a message: its raw form and its attachments. *)
Definition files_of (raw : string) (kept : option string) (id : Z) (l : list ParsedAttachment) : list (blob * string) :=
  (Raw (HashBytes raw), default raw kept) :: map (fun a => (Att id (pa_ContentHash a), pa_Content a)) l.

Lemma taken_filed raw id p status perr rt rt1 (db db' : D) (fs fs' : F) :
  no_blob_dirs (srv_store s) fs' -> parse_or_fallback raw (HashBytes raw) rt = (p, status, perr, rt1) ->
  taken (srv_store s) raw id p status perr db db' fs fs' ->
  exists m recs atts,
    filed id m recs atts (files_of raw (blob_get (srv_store s) fs (Raw (HashBytes raw))) id (enclosed raw)) (db', fs') /\
    m_content_hash m = HashBytes raw /\
    Forall2 (recipient_stored id) (addressees raw) recs /\ Forall2 (attachment_stored id) (enclosed raw) atts /\
    shown stored_time id raw (message_dto (tables db') m).
Proof using All.
  intros Hd Hp ([Hst _ _ Hfiles] & Hrec & _).
  destruct (parse_or_fallback_spec _ _ _ _ _ _ Hp) as (Hh & Hfa & Hpar).
  pose proof (st_id _ _ _ _ _ _ _ Hst) as Hid.
  destruct (stored_own _ _ _ _ _ _ Hst) as (m & Hm & Em & Ho & Ehash & Edto & Hdate & Hrecs & Hatts).
  assert (Recipients p = addressees raw /\ Attachments p = enclosed raw) as [Er Ea].
  { unfold addressees, enclosed. destruct (ParseMIME raw).2; [by destruct Hpar as (_ & _ & _ & ? & ? & _)|by destruct Hpar as [-> _]]. }
  rewrite Er in Hrecs. rewrite Ea in Hatts, Hfiles, Hfa.
  exists m, (recipients_of id (tables db')), (attachments_of id (tables db')).
  split_and!; [|by rewrite Ehash|done|done|].
  - split; try done. apply Forall_cons. split; [split_and!; [apply HashBytes_plain|done|exact Hrec]|].
    apply Forall_map, Forall_forall. intros a Hin. simpl. rewrite Forall_forall in Hfa, Hfiles.
    split_and!; [apply Hid..| | |by apply Hfiles].
    + destruct (Hfa a Hin) as (_ & -> & _). apply HashBytes_plain.
    + apply list_elem_of_lookup_1 in Hin as [i Hi]. destruct (Forall2_lookup_l _ _ _ _ _ Hatts Hi) as (x & Hx & Ex & _).
      apply list_elem_of_lookup_2, list_elem_of_In, filter_In in Hx as [Hx _].
      apply Exists_exists. exists x. split; [by apply list_elem_of_In|done].
  - split.
    + by rewrite Edto.
    + rewrite Edto. simpl. clear -Hrecs. induction Hrecs as [|a x l l' (_ & E1 & E2) Hl IH]; [done|]. simpl.
      rewrite IH. unfold recipient_dto. by rewrite E1, E2.
    + rewrite Edto. simpl. clear -Hatts. induction Hatts as [|a x l l' (_ & _ & E1 & E2 & E3 & _) Hl IH]; constructor; [|done].
      unfold shown_attachment, attachment_dto. simpl. by rewrite E1, E2, E3.
    + rewrite Edto. cbv zeta. destruct (ParseMIME raw).2 as [e|].
      * destruct Hpar as (_ & -> & _ & _ & _ & ->). by split.
      * destruct Hpar as (Ep & -> & _). rewrite Ep in *. by split_and!.
Qed.

(** *** Reading *)

Lemma addressed_existsb id raw recs email :
  Forall2 (recipient_stored id) (addressees raw) recs ->
  existsb (fun r => sql_eq (r_recipient_email r) email) recs = existsb (fun rc => sql_eq (rc_Email rc) email) (addressees raw).
Proof using Type. induction 1 as [|a x l l' (_ & E & _) Hl IH]; [done|]. simpl. by rewrite E, IH. Qed.

(** Whom the database shows a filed message. *)
Lemma filed_by_id id m raw recs atts files st sess :
  filed id m recs atts files (app_store st) -> Forall2 (recipient_stored id) (addressees raw) recs ->
  if may_read sql_eq raw sess then exists rest, by_id sql_eq id (viewer sess) (tables (app_db st)) = m :: rest
  else by_id sql_eq id (viewer sess) (tables (app_db st)) = [].
Proof using All.
  intros [_ Hm Hid Ho Hr _ _] Hrecs. unfold app_store in *. simpl in *.
  assert (may_see sql_eq (viewer sess) (tables (app_db st)) m = may_read sql_eq raw sess) as Hsee.
  { unfold may_read, viewer. destruct (IsAdmin sess); [done|]. simpl.
    by rewrite visible_recipients, Hid, Hr, (addressed_existsb _ _ _ _ Hrecs). }
  assert (forall y, In y (by_id sql_eq id (viewer sess) (tables (app_db st))) -> y = m) as Hone.
  { intros y [Hy [Hy2%Z.eqb_eq _]%andb_true_iff]%filter_In. rewrite Forall_forall in Ho.
    apply Ho; [by apply list_elem_of_In|done]. }
  destruct (may_read sql_eq raw sess).
  - destruct (by_id _ _ _ _) as [|y rest] eqn:E; [|exists rest; by rewrite (Hone y); [|left]].
    assert (In m []) as []. rewrite <-E. apply filter_In. split; [by apply list_elem_of_In|].
    by rewrite Hid, Z.eqb_refl, Hsee.
  - destruct (by_id _ _ _ _) as [|y rest] eqn:E; [done|]. exfalso.
    assert (y = m) as -> by (apply Hone; by left).
    assert (In m (m :: rest)) as Hin by (by left). rewrite <-E in Hin.
    apply filter_In in Hin as [_ [_ Hs]%andb_true_iff]. by rewrite Hsee in Hs.
Qed.

(** The API's handlers about a filed message. *)
Lemma mail_api_filed id m raw kept recs atts st sess r w pattern :
  filed id m recs atts (files_of raw kept id (enclosed raw)) (app_store st) ->
  m_content_hash m = HashBytes raw -> Forall2 (recipient_stored id) (addressees raw) recs ->
  Forall2 (attachment_stored id) (enclosed raw) atts -> shown stored_time id raw (message_dto (tables (app_db st)) m) ->
  not_sent w -> resp_body w = [] ->
  SessionFromContext (ReqCtx r) = Some sess -> canonical 1 (URLParam r "id") id ->
  let out := (mail_api s pattern r w (app_db st, app_fs st)).1 in
  (may_read sql_eq raw sess = true -> asks_for raw r pattern ->
     out = internal_error w \/ resp_status out = 200 /\ delivered stored_time id raw kept r pattern (resp_body out)) /\
  (may_read sql_eq raw sess = false -> pattern ∈ mail_patterns -> pattern <> "/api/messages"%string -> refusal w out).
Proof using All.
  intros Hf Hh Hrecs Hatts Hshown Hw Hb Hs Hid out.
  pose proof (filed_by_id id m raw recs atts _ st sess Hf Hrecs) as Hby.
  destruct Hf as [_ _ _ _ _ Ha Hfiles]. unfold app_store in *. cbn [fst snd] in *.
  apply Forall_cons in Hfiles as [(_ & _ & Hraw) Hfiles]. cbn [fst snd] in Hraw.
  split; intros Hmay; rewrite Hmay in Hby.
  - destruct Hby as [rest Hby]. intros [->|[->|[-> (idx & Hidx & [a Hx])]]].
    + change out with (GetMessage r w (app_db st, app_fs st)).1. clear out.
      destruct (GetMessage_visible (srv_store s) r w (app_db st) (app_fs st) sess id m rest Hs Hid Hby) as [->| ->]; [by left|right].
      autorewrite with reply. rewrite Hb. split; [done|]. by apply delivered_view.
    + change out with (GetRawMIME (srv_store s) r w (app_db st, app_fs st)).1. clear out.
      destruct (GetRawMIME_visible (srv_store s) r w (app_db st) (app_fs st) sess id m rest Hs Hid Hby (default raw kept))
        as [->| ->]; [|by left|right].
      { rewrite Hh. apply ReadRawMIME_spec; [apply HashBytes_plain|done]. }
      unfold raw_reply. simpl_http. unfold base_Write, base_WriteHeader. simpl. rewrite Hw. simpl.
      split; [done|]. rewrite Hb. apply delivered_raw.
    + change out with (GetAttachment (srv_store s) r w (app_db st, app_fs st)).1. clear out.
      destruct (Forall2_lookup_l _ _ _ _ _ Hatts Hx) as (x & Hrow & _ & Ekey & _).
      destruct (GetAttachment_visible (srv_store s) r w (app_db st) (app_fs st) sess id m rest Hs Hid Hby idx x (pa_Content a))
        as [->| ->]; [done|by rewrite Ha| |by left|right].
      { rewrite Forall_map, Forall_forall in Hfiles. destruct (Hfiles a (list_elem_of_lookup_2 _ _ _ Hx)) as (Hok & _ & Hg).
        rewrite Ekey. by apply ReadAttachment_spec. }
      unfold attachment_reply. simpl_http. unfold base_Write, base_WriteHeader. simpl. rewrite Hw. simpl.
      split; [done|]. rewrite Hb. by eapply delivered_attachment.
  - intros Hp Hne. unfold mail_patterns in Hp. rewrite !elem_of_cons in Hp.
    destruct (unseen_refused (srv_store s) r w (app_db st) sess id Hs Hid Hby) as (H1' & H2' & H3').
    destruct Hp as [?|[-> |[-> |[-> |[]%elem_of_nil]]]]; [done|..]; [apply H2'|apply H1'|apply H3'].
Qed.

Lemma steps_keep_dirs st st' :
  rtc (app_step s) st st' -> no_blob_dirs (srv_store s) (app_fs st) -> no_blob_dirs (srv_store s) (app_fs st').
Proof using All.
  induction 1 as [|st1 st2 st3 Hstep _ IH]; [done|]. intros Hd. apply IH. clear IH. destruct Hstep as [[r| |] st]; [|done..].
  destruct (serve_store s r new_writer st) as [E|(r' & w & rt & w1 & rt1 & _ & E)].
  - apply (f_equal snd) in E. unfold app_store in E. cbn [snd] in E. simpl. by rewrite <-E.
  - by apply (ServeHTTP_effect (srv_store s) base_ne) in E as (Hd' & _).
Qed.

(** A live session asks the server about a filed message. *)
Lemma serve_filed id m raw kept recs atts st sess r pattern params rest w' st' :
  filed id m recs atts (files_of raw kept id (enclosed raw)) (app_store st) ->
  m_content_hash m = HashBytes raw -> Forall2 (recipient_stored id) (addressees raw) recs ->
  Forall2 (attachment_stored id) (enclosed raw) atts -> shown stored_time id raw (message_dto (tables (app_db st)) m) ->
  reaches r (Endpoint (Some "GET"%string) pattern) params rest ->
  canonical 1 (URLParam (with_params r params) "id") id -> live_session s r st sess ->
  serve s r new_writer st = (w', st') ->
  (may_read sql_eq raw sess = true -> asks_for raw (with_params r params) pattern ->
     resp_status w' = 500 \/
     resp_status w' = 200 /\ delivered stored_time id raw kept (with_params r params) pattern (resp_body w')) /\
  (may_read sql_eq raw sess = false -> pattern ∈ mail_patterns -> pattern <> "/api/messages"%string -> plain_refusal w').
Proof using All.
  intros Hf Hh Hrecs Hatts Hshown Hr Hid Hlive Hrun.
  assert (forall Hp : pattern ∈ mail_patterns, exists ctx n w0, not_sent w0 /\ resp_body w0 = [] /\ SessionFromContext ctx = Some sess /\
    RWRecorder w' n = (mail_api s pattern (WithContext (at_route r st params) ctx) w0 (app_db st, app_fs st)).1) as Hserve.
  { intros Hp. destruct (serve_mail_live s r new_writer st pattern params rest sess w' st' not_sent_new Hp Hr Hlive Hrun)
      as (ctx & n & Hctx & Hw & _ & _).
    exists ctx, n, (routed_writer s (request_id r (app_rt st)).1 r new_writer).
    split_and!; [by apply routed_not_sent|by rewrite routed_body|done|done]. }
  split.
  - intros Hmay Hasks. destruct (Hserve (asks_for_mail _ _ _ Hasks)) as (ctx & n & w0 & Hw0 & Hb0 & Hctx & Hw).
    destruct (mail_api_filed id m raw kept recs atts st sess (WithContext (at_route r st params) ctx) w0 pattern
      Hf Hh Hrecs Hatts Hshown Hw0 Hb0 Hctx Hid) as [Hgood _].
    destruct (Hgood Hmay Hasks) as [Ho|[Ho Hd]]; rewrite <-Hw in *.
    + left. change (resp_status w') with (resp_status (RWRecorder w' n)). rewrite Ho. by apply http_Error_status.
    + right. split; [exact Ho|]. change (resp_body w') with (resp_body (RWRecorder w' n)).
      destruct Hd as [|d Hd|idx a Hidx Ha]; [apply delivered_raw|by apply delivered_view|by eapply delivered_attachment].
  - intros Hmay Hp Hne. destruct (Hserve Hp) as (ctx & n & w0 & Hw0 & Hb0 & Hctx & Hw).
    destruct (mail_api_filed id m raw kept recs atts st sess (WithContext (at_route r st params) ctx) w0 pattern
      Hf Hh Hrecs Hatts Hshown Hw0 Hb0 Hctx Hid) as [_ Hbad].
    specialize (Hbad Hmay Hp Hne). rewrite <-Hw in Hbad. exact (refusal_plain _ _ Hw0 Hb0 Hbad).
Qed.
End delivery.

Section properties.
Context `{UnicodeTable} `{MailLibLaws} `{ChiLaws} `{StaticLaws}
  {D T F : Type} `{SQLDriverLaws D T} `{FileSystemLaws F}.
Implicit Types (s : Server) (st : App D F).

(** C1: Mail reaches its readers, and nobody else. Take a server from its start
    through any requests; let its ingest route accept a message, and let anything
    happen after that. Then a live session that asks for the message, its view or
    one of its attachments gets, if it is an administrator's or one of the
    parsed recipients', exactly what was posted: the raw bytes (or what an older
    file under the same hash held), the parsed fields, the bytes of the
    attachment - unless the database fails and it gets 500, never 404. Any other session
    gets one of the two constant refusals. *)
Theorem delivered_mail_reaches_its_readers cfg (db : D) (fs : F) rt s st0 fs1 st1 r params w1 st2 id st3
  r' pattern params' rest' sess w' st4 :
  New cfg db fs rt = (Ok (s, st0), fs1) -> no_blob_dirs (srv_store s) fs ->
  MaxMessageBytes (srv_config s) < max_int64 -> rtc (app_step s) st0 st1 ->
  reaches_post r "/api/ingest" params -> serve s r new_writer st1 = (w1, st2) ->
  resp_body w1 = [Json (accepted_json id)] -> rtc (app_step s) st2 st3 ->
  reaches r' (Endpoint (Some "GET"%string) pattern) params' rest' ->
  canonical 1 (URLParam (with_params r' params') "id") id -> live_session s r' st3 sess ->
  serve s r' new_writer st3 = (w', st4) ->
  let raw := body_bytes (ReqBody r) in
  let kept := blob_get (srv_store s) (app_fs st1) (Raw (HashBytes raw)) in
  (may_read sql_eq raw sess = true -> asks_for raw (with_params r' params') pattern ->
     resp_status w' = 500 \/
     resp_status w' = 200 /\ delivered stored_time id raw kept (with_params r' params') pattern (resp_body w')) /\
  (may_read sql_eq raw sess = false -> pattern ∈ mail_patterns -> pattern <> "/api/messages"%string -> plain_refusal w').
Proof.
  intros (_ & Hb & -> & _ & Hd)%New_spec Hn Hmax Hsteps Hr Hrun Hbody Hsteps' Hr' Hid Hlive Hrun' raw kept.
  apply (steps_keep_dirs s Hb) in Hsteps; [|by apply Hd].
  destruct (serve_accepted s r params st1 w1 st2 id Hb Hmax Hsteps Hr Hrun Hbody)
    as (Hn2 & p & status & perr & rt2 & rt3 & Hp & Ht).
  destruct (taken_filed s Hb _ _ _ _ _ _ _ _ _ _ _ Hn2 Hp Ht) as (m & recs & atts & Hf & Hh & Hrecs & Hatts & Hshown).
  pose proof (steps_keep_filed s Hb _ _ _ _ _ _ _ Hsteps' Hf) as Hf'.
  apply (serve_filed s Hb id m raw kept recs atts st3 sess r' pattern params' rest' w' st4); try done.
  destruct Hf as [_ _ E _ E1 E2 _], Hf' as [_ _ _ _ E1' E2' _]. unfold message_dto, app_store in *. cbn [fst snd] in *.
  rewrite E in *. by rewrite E1', E2', <-E1, <-E2.
Qed.
End properties.

(** ** The theorem at a concrete input *)

#[local] Existing Instance Small.lib.
#[local] Existing Instance Small.lib_laws.
#[local] Existing Instance unicode_latin.
#[local] Existing Instance ServerDemo.router.
#[local] Existing Instance ServerDemo.router_laws.
#[local] Existing Instance ServerDemo.static.
#[local] Existing Instance ServerDemo.static_laws.

Module DeliveryDemo.
Definition upload : Request := ServerWorld.upload "key" Small.sample.
Definition login (email : string) : Request :=
  ServerWorld.request "POST" "/api/login" empty_header [] (Auth.login_body "user-key" email).
Definition token (n : nat) : string := hex_EncodeToString (bytes_from (fun i => byte (Z.of_nat (n + i))) 0 32).
Definition accepted : ResponseWriter * App MemDB MemFS := serve ServerWorld.srv upload new_writer ServerStart.st0.
(** Bob is a recipient of the sample, Eve is not. *)
Definition with_bob : App MemDB MemFS := (serve ServerWorld.srv (login "bob@example.com") new_writer accepted.2).2.
Definition with_eve : App MemDB MemFS := (serve ServerWorld.srv (login "eve@example.com") new_writer with_bob).2.
Definition ask (token : string) : Request := ServerWorld.get "/api/messages/1/raw" (ServerWorld.cookie token).
Definition reply (token : string) : ResponseWriter * App MemDB MemFS := serve ServerWorld.srv (ask token) new_writer with_eve.
Definition session (email : string) (expires : Z) (token : string) : Session := mkSession email false expires token.

Lemma traffic : rtc (app_step ServerWorld.srv) accepted.2 with_eve.
Proof.
  eapply rtc_l; [exact (step_happens ServerWorld.srv (Serve (login "bob@example.com")) accepted.2)|].
  apply rtc_once. exact (step_happens ServerWorld.srv (Serve (login "eve@example.com")) with_bob).
Qed.

Lemma upload_routed : reaches_post upload "/api/ingest" [].
Proof. split; [done|]. exists [], "/"%string, [], EmptyString. split; [|by split]. exists 1%nat. by split. Qed.

Lemma ask_routed t : reaches (ask t) (Endpoint (Some "GET"%string) "/api/messages/{id}/raw") [("id", "1")]%string EmptyString.
Proof. exists 6%nat. by split. Qed.

Lemma ask_canonical t : canonical 1 (URLParam (with_params (ask t) [("id", "1")]%string) "id") 1.
Proof. split_and!; [lia|by apply (bool_decide_unpack _); vm_compute|done]. Qed.
End DeliveryDemo.

Lemma delivered_mail_reaches_its_readers_witness :
  resp_body (DeliveryDemo.reply (DeliveryDemo.token 2)).1 = [Bytes Small.sample] /\
  plain_refusal (DeliveryDemo.reply (DeliveryDemo.token 4)).1.
Proof.
  assert (forall n email expires,
    live_session ServerWorld.srv (DeliveryDemo.ask (DeliveryDemo.token n)) DeliveryDemo.with_eve
      (DeliveryDemo.session email expires (DeliveryDemo.token n)) -> _) as Hread
    by (intros n email expires Hlive;
      exact (delivered_mail_reaches_its_readers (Some ServerWorld.cfg) IngestDemo.db0 IngestDemo.fs0 (Auth.Demo.runtime 1000)
        ServerWorld.srv ServerStart.st0 ServerStart.started.2 ServerStart.st0 DeliveryDemo.upload []
        DeliveryDemo.accepted.1 DeliveryDemo.accepted.2 1 DeliveryDemo.with_eve
        (DeliveryDemo.ask (DeliveryDemo.token n)) _ _ EmptyString _ _ _ ServerStart.started_eq IngestDemo.files_ok eq_refl
        (rtc_refl _ _) DeliveryDemo.upload_routed (surjective_pairing _) ltac:(vm_compute; reflexivity)
        DeliveryDemo.traffic (DeliveryDemo.ask_routed _) (DeliveryDemo.ask_canonical _) Hlive (surjective_pairing _))).
  split.
  - destruct (proj1 (Hread 2%nat "bob@example.com"%string 4610000000000
      ltac:(exists (DeliveryDemo.token 2); split_and!; by vm_compute))) as [H5|[_ Hd]];
      [by vm_compute|right; by left|vm_compute in H5; discriminate H5|].
    change (DeliveryDemo.reply (DeliveryDemo.token 2)).1 with
      (serve ServerWorld.srv (DeliveryDemo.ask (DeliveryDemo.token 2)) new_writer DeliveryDemo.with_eve).1.
    apply delivered_raw_inv in Hd. etrans; [exact Hd|]. by vm_compute.
  - apply (proj2 (Hread 4%nat "eve@example.com"%string 4614000000000
      ltac:(exists (DeliveryDemo.token 4); split_and!; by vm_compute))); [by vm_compute| |done].
    apply (bool_decide_unpack _). by vm_compute.
Defined.
