(* ===== verification/Main.v ===== *)
(** * The process (cmd/server/main.go, Start and Shutdown of internal/server)

    First the start: configuration, database, migrations, server. Then the two
    goroutines of the running process, the one that serves and the one that waits
    for a signal, as a transition system over their channel. Log records and the
    ten seconds of the shutdown's context are not modelled. *)

From S2P Require Export Server Schema.

Open Scope Z_scope.

(** ** Starting *)

Inductive startup (D F : Type) :=
  | StartExit (code : Z) | StartPanic (e : error) | Started (s : Server) (st : App D F).
Arguments StartExit {D F} _.
Arguments StartPanic {D F} _.
Arguments Started {D F} _ _.

Section start.
Context {C D T F : Type} `{MySQLDriver C D} `{MigDriver D T} `{SortLib} `{FileSystem F}.

Variable Getenv : string -> string.

Definition main_start (fs : F) (rt : Runtime) : startup D F :=
  let cfg := Load Getenv in
  match Connect (DatabaseURL cfg) with
  | Err _ => StartExit 1
  | Ok database =>
      match LoadMigrations MigrationsFS with
      | Err _ => StartExit 1
      | Ok migrations =>
          match RunMigrations migrations database with
          | (Some _, _) => StartExit 1
          | (None, database) =>
              match New (Some cfg) database fs rt with
              | (Err e, _) => StartPanic e
              | (Ok (app, st), _) => Started app st
              end
          end
      end
  end.
End start.

(** ** Running *)

Definition ErrServerClosed : error := ESentinel "http.ErrServerClosed" "http: Server closed".

(** Where the two goroutines are. The server's is [Starting] until [Start] has
    stored the [http.Server] that [Shutdown] looks for. *)
Inductive main_pc := Selecting | Stopping | Waiting | Exited (code : Z).
Inductive serve_pc := Starting | Listening | Closing | Returned.

(** [serverErrors] is a channel of capacity one; [shutting] is set once
    [http.Server.Shutdown] has been called. *)
Record process := mkProcess {
  main_at : main_pc;
  serve_at : serve_pc;
  serverErrors : option error;
  errors_closed : bool;
  shutting : bool
}.

Definition process_start : process := mkProcess Selecting Starting None false false.

Inductive event :=
  | EvStart                          (* Start stores the server and calls ListenAndServe *)
  | EvServeReturns (e : error)       (* ListenAndServe returns *)
  | EvClose                          (* close(serverErrors) *)
  | EvSignal                         (* the select takes a signal *)
  | EvReceive                        (* main receives from serverErrors *)
  | EvShutdown (r : option error).   (* Shutdown returns *)

(** [s.Start], as its goroutine runs it. *)
Definition Start_step (ev : event) (p : process) : option process :=
  match ev, serve_at p with
  | EvStart, Starting => Some (mkProcess (main_at p) Listening (serverErrors p) (errors_closed p) (shutting p))
  | EvServeReturns e, Listening =>
      if errors_Is e ErrServerClosed then
        if shutting p then Some (mkProcess (main_at p) Closing (serverErrors p) (errors_closed p) true) else None
      else Some (mkProcess (main_at p) Closing (Some e) (errors_closed p) (shutting p))
  | EvClose, Closing => Some (mkProcess (main_at p) Returned (serverErrors p) true (shutting p))
  | _, _ => None
  end.

(** [s.Shutdown]: nothing to do while there is no [http.Server]. *)
Definition Shutdown_result (r : option error) (p : process) : option (option error * bool) :=
  match serve_at p with
  | Starting => match r with None => Some (None, shutting p) | Some _ => None end
  | _ => Some (r, true)
  end.

(** What main does with what it received. *)
Definition receive (p : process) : option process :=
  match serverErrors p with
  | Some _ => Some (mkProcess (Exited 1) (serve_at p) None (errors_closed p) (shutting p))
  | None => if errors_closed p then Some (mkProcess (Exited 0) (serve_at p) None true (shutting p)) else None
  end.

Definition main_step (ev : event) (p : process) : option process :=
  match ev, main_at p with
  | EvSignal, Selecting => Some (mkProcess Stopping (serve_at p) (serverErrors p) (errors_closed p) (shutting p))
  | EvReceive, (Selecting | Waiting) => receive p
  | EvShutdown r, Stopping =>
      match Shutdown_result r p with
      | Some (None, sh) => Some (mkProcess Waiting (serve_at p) (serverErrors p) (errors_closed p) sh)
      | Some (Some _, sh) => Some (mkProcess (Exited 1) (serve_at p) (serverErrors p) (errors_closed p) sh)
      | None => None
      end
  | _, _ => None
  end.

(** No goroutine runs after the process has exited. *)
Definition step (ev : event) (p : process) : option process :=
  match main_at p with
  | Exited _ => None
  | _ => match ev with
         | EvStart | EvServeReturns _ | EvClose => Start_step ev p
         | EvSignal | EvReceive | EvShutdown _ => main_step ev p
         end
  end.

(** The process after a sequence of events. *)
Fixpoint exec (evs : list event) (p : process) : option process :=
  match evs with
  | [] => Some p
  | ev :: evs' => match step ev p with Some p' => exec evs' p' | None => None end
  end.

(** The steps the program takes by itself: all but a signal and a failing
    server. *)
Definition own_move (p : process) (ev : event) : bool :=
  match ev with
  | EvSignal => false
  | EvServeReturns e => errors_Is e ErrServerClosed
  | _ => true
  end.

Definition quiescent (p : process) : Prop := forall ev, own_move p ev = true -> step ev p = None.

(** ** The running process: lemmas *)

Definition is_signal (ev : event) : bool := match ev with EvSignal => true | _ => false end.
Definition is_start (ev : event) : bool := match ev with EvStart => true | _ => false end.
Definition is_shutdown (ev : event) : bool := match ev with EvShutdown None => true | _ => false end.
(** The server failed, or could not be shut down. *)
Definition is_failure (ev : event) : bool :=
  match ev with
  | EvServeReturns e => negb (errors_Is e ErrServerClosed)
  | EvShutdown (Some _) => true
  | _ => false
  end.

(** [Shutdown] came before the server's goroutine had started it. *)
Fixpoint early_shutdown (evs : list event) : bool :=
  match evs with
  | [] => false
  | ev :: evs' => is_shutdown ev || negb (is_start ev) && early_shutdown evs'
  end.

Lemma exec_snoc evs ev p : exec (evs ++ [ev]) p = match exec evs p with Some p' => step ev p' | None => None end.
Proof.
  revert p. induction evs as [|x evs IH]; intros p; simpl; [by destruct (step ev p)|]. by destruct (step x p).
Qed.

Lemma early_shutdown_snoc evs ev :
  early_shutdown (evs ++ [ev]) = early_shutdown evs || (negb (existsb is_start evs) && is_shutdown ev).
Proof. induction evs as [|x evs IH]; simpl; [by destruct ev as [| | | | |[]]|]. rewrite IH. by destruct (is_shutdown x), (is_start x). Qed.

(** What is known of a process that has not exited. *)
Definition serving_ok (evs : list event) (p : process) : Prop :=
  match serve_at p with
  | Starting => serverErrors p = None /\ errors_closed p = false /\ shutting p = false /\
                existsb is_start evs = false /\ existsb is_failure evs = false
  | Listening => serverErrors p = None /\ errors_closed p = false /\ existsb is_failure evs = false
  | at_ => errors_closed p = (match at_ with Returned => true | _ => false end) /\
           match serverErrors p with
           | Some _ => existsb is_failure evs = true
           | None => existsb is_failure evs = false /\ shutting p = true
           end
  end.

Definition process_ok (evs : list event) (p : process) : Prop :=
  match main_at p with
  | Selecting => shutting p = false /\ serving_ok evs p
  | Stopping => shutting p = false /\ existsb is_signal evs = true /\ serving_ok evs p
  | Waiting => (shutting p = false -> early_shutdown evs = true) /\ existsb is_signal evs = true /\
               existsb is_shutdown evs = true /\ serving_ok evs p
  | Exited 0 => existsb is_failure evs = false /\ existsb is_signal evs = true /\ existsb is_shutdown evs = true
  | Exited c => c = 1 /\ existsb is_failure evs = true
  end.

Lemma process_invariant evs p : exec evs process_start = Some p -> process_ok evs p.
Proof.
  revert p. induction evs as [|ev evs IH] using rev_ind; intros p; [intros [= <-]; by repeat split|].
  rewrite exec_snoc. destruct (exec evs process_start) as [q|]; [|done]. specialize (IH q eq_refl).
  destruct q as [m sv ch cl sh]. unfold process_ok, serving_ok, step, Start_step, main_step, Shutdown_result in *.
  rewrite early_shutdown_snoc, !existsb_app. simpl.
  destruct m as [| | |[|c|c]], sv, ev as [|e| | | |[e|]]; simpl in *; try done; unfold receive; simpl;
    repeat match goal with |- context [match ?x with _ => _ end = Some _] => destruct x eqn:? end;
    try done; intros Heq; try discriminate Heq; injection Heq as <-; simpl; destruct_and?;
    simplify_eq/=; rewrite ?andb_false_r, ?andb_true_r, ?orb_false_r, ?orb_true_r;
    repeat match goal with H : existsb _ evs = _ |- _ => rewrite ?H; revert H end;
    try destruct ch; rewrite ?orb_true_r, ?orb_false_r; intuition congruence.
Qed.

(** Every step takes one of the goroutines further. *)
Definition main_rank (m : main_pc) : nat := match m with Selecting => 3 | Stopping => 2 | Waiting => 1 | Exited _ => 0 end.
Definition serve_rank (g : serve_pc) : nat := match g with Starting => 3 | Listening => 2 | Closing => 1 | Returned => 0 end.
Definition rank (p : process) : nat := main_rank (main_at p) + serve_rank (serve_at p).

Lemma step_rank ev p p' : step ev p = Some p' -> (rank p' < rank p)%nat.
Proof.
  destruct p as [m sv ch cl sh]. unfold step, Start_step, main_step, Shutdown_result, receive, rank. simpl.
  destruct m, sv, ev as [|e| | | |[e|]]; simpl; try done;
    repeat match goal with |- context [match ?x with _ => _ end = Some _] => destruct x end;
    intros Heq; try discriminate Heq; injection Heq as <-; simpl; lia.
Qed.

Lemma exec_rank evs p p' : exec evs p = Some p' -> (length evs + rank p' <= rank p)%nat.
Proof.
  revert p. induction evs as [|ev evs IH]; intros p; simpl; [by intros [= <-]|].
  destruct (step ev p) as [q|] eqn:Es; [|done]. intros Hx%IH. apply step_rank in Es. lia.
Qed.

(** ** Properties *)

(** The exit status is right. When the process exits, it is with status 1 if the
    server failed or could not be shut down, and with status 0 otherwise; and
    status 0 means that a signal was received and the server was shut down. *)
Theorem exit_status_exact evs p c :
  exec evs process_start = Some p -> main_at p = Exited c ->
  c = (if existsb is_failure evs then 1 else 0) /\
  (c = 0 -> existsb is_signal evs = true /\ existsb is_shutdown evs = true).
Proof.
  intros Hok%process_invariant Hm. unfold process_ok in Hok. rewrite Hm in Hok.
  destruct c as [|c|c]; [|destruct Hok as [[= ->] Hf]; by rewrite Hf|destruct Hok; lia].
  destruct Hok as (-> & ? & ?). by split.
Qed.

(** C37: The process comes to rest, and where. At most six steps are ever taken; and
    when the program can take no more by itself, it has exited, or it is serving
    and no signal has come, or it hangs: it waits for a server that nobody has
    told to stop, which happens only if the shutdown preceded the start of the
    server's goroutine. *)
Theorem process_comes_to_rest evs p :
  exec evs process_start = Some p ->
  (length evs <= 6)%nat /\
  (quiescent p ->
   (exists c, main_at p = Exited c) \/
   (main_at p = Selecting /\ serve_at p = Listening /\ existsb is_failure evs = false) \/
   (main_at p = Waiting /\ serve_at p = Listening /\ early_shutdown evs = true)).
Proof.
  intros Hx. split; [apply exec_rank in Hx; unfold rank in Hx; simpl in Hx; lia|].
  apply process_invariant in Hx. destruct p as [m sv ch cl sh]. intros Hq.
  pose proof (Hq EvStart eq_refl) as Q1. pose proof (Hq EvClose eq_refl) as Q2.
  pose proof (Hq EvReceive eq_refl) as Q3. pose proof (Hq (EvShutdown None) eq_refl) as Q4.
  pose proof (Hq (EvServeReturns ErrServerClosed) eq_refl) as Q5. clear Hq.
  unfold process_ok, serving_ok in Hx. unfold step, Start_step, main_step, Shutdown_result, receive in *.
  destruct m as [| | |c]; [| | |left; by eexists]; destruct sv; simpl in *; try discriminate; destruct_and?;
    try (destruct ch; simplify_eq/=; destruct_and?; congruence); try (destruct sh; simplify_eq/=; naive_solver).
Qed.

(** An early signal is lost. If a signal arrives before the server's goroutine
    has run, [Shutdown] finds no server and returns nil; the server then starts,
    and the process serves on while main waits for it to end: no further signal
    is taken, and the only step left is a failure of the server. *)
Theorem early_signal_hangs :
  exists p, exec [EvSignal; EvShutdown None; EvStart] process_start = Some p /\ quiescent p /\
    main_at p = Waiting /\ serve_at p = Listening /\
    (forall ev p', step ev p = Some p' -> exists e, ev = EvServeReturns e /\ errors_Is e ErrServerClosed = false).
Proof.
  eexists. split; [reflexivity|]. split_and!; [|done|done|].
  - intros [|e| | | |[e|]] Hev; try done. unfold step, Start_step. simpl in *. by rewrite Hev.
  - intros [|e| | | |[e|]] p'; try done. unfold step, Start_step. simpl.
    destruct (errors_Is e ErrServerClosed) eqn:E; [done|]. eauto.
Qed.

Section starting.
Context {C D T F : Type} `{MySQLDriver C D} `{MigLaws D T} `{SortLaws} `{FileSystemLaws F}.

(** A run without an error applies all that was missing. *)
Lemma run_complete ms (d d' : D) :
  Forall (fun m => Forall (foreign (D := D) (T := T)) (splitSQL (UpSQL m))) ms ->
  RunMigrations ms d = (None, d') ->
  Forall (fun m => Version m ∈ versions d') ms /\
  recorded d' = recorded d ++ records (plan ms (versions d)) /\
  journal d' = journal d ++ statements (plan ms (versions d)).
Proof using Type* H2 H3.
  intros Hf Er. apply RunMigrations_spec in Er as (l & rest & part & Hp & Hr & Hj & Hn & _); [|done].
  destruct (Hn eq_refl) as [-> ->]. rewrite app_nil_r in Hp, Hj. rewrite Hp. split_and!; [|done..].
  apply Forall_forall. intros m Hm. pose proof (plan_covers ms (versions d) m Hm) as Hcov.
  unfold versions in *. rewrite Hr, map_app. unfold records. rewrite map_map, <-Hp. exact Hcov.
Qed.

(** C36: A server that runs is ready. When [main] gets as far as serving, the
    database it serves has exactly those of the shipped migrations that were
    missing applied, each with all its statements, in the order of their versions,
    and every version recorded; if it stood after the first few of them, it has
    exactly the mail tables now. The configuration has a positive session lifetime,
    a cookie name and a data directory; nobody is logged in. There are just two
    other ways to start. The process ends with status 1, without a server, when the
    database cannot be reached or the migrations report an error; and [New] panics,
    with the migrations applied, when the data directory cannot be prepared. Of
    the database this assumes its laws, [MigLaws], and of the statements in the
    shipped files that none touches schema_migrations. *)
Theorem server_starts_ready Getenv (fs : F) rt :
  Forall (foreign (D := D) (T := T)) shipped_statements ->
  match main_start (D := D) (T := T) Getenv fs rt with
  | StartExit c =>
      c = 1 /\
      ((exists e, Connect (DatabaseURL (Load Getenv)) = Err e) \/
       exists d0 e d1, Connect (DatabaseURL (Load Getenv)) = Ok d0 /\ RunMigrations shipped d0 = (Some e, d1))
  | StartPanic e =>
      (NewStorage (DataDir (config_defaults (Some (Load Getenv)))) fs).1 = Err e /\
      exists d0 d1, Connect (DatabaseURL (Load Getenv)) = Ok d0 /\ RunMigrations shipped d0 = (None, d1) /\
        Forall (fun m => Version m ∈ versions d1) shipped
  | Started s st =>
      exists d0, Connect (DatabaseURL (Load Getenv)) = Ok d0 /\
        Forall (fun m => Version m ∈ versions (app_db st)) shipped /\
        recorded (app_db st) = recorded d0 ++ records (plan shipped (versions d0)) /\
        journal (app_db st) = journal d0 ++ statements (plan shipped (versions d0)) /\
        (forall k, (k <= 3)%nat -> stands_at k d0 -> stands_at 3 (app_db st)) /\
        0 < SessionTTLHours (srv_config s) /\ SessionCookieName (srv_config s) <> EmptyString /\
        baseDir (srv_store s) <> EmptyString /\ baseDir (srv_store s) = DataDir (srv_config s) /\
        sessions (app_sessions st) = ∅ /\ app_log st = []
  end.
Proof.
  intros Hf. unfold main_start. rewrite load_shipped. destruct (Connect _) as [d0|e] eqn:Ec; [|eauto].
  destruct (RunMigrations shipped d0) as [[e|] d1] eqn:Er; [eauto 10|].
  destruct (run_complete shipped d0 d1 (foreign_up Hf) Er) as (Hcov & Hr & Hj).
  destruct (New _ d1 fs rt) as [[[s st]|e] fs1] eqn:En.
  2:{ split; [|by exists d0, d1]. unfold New in En. destruct (NewStorage _ fs) as [[store|e'] fs2]; [done|].
      by injection En as -> _. }
  apply New_spec in En as (Hc & Hb & -> & _). exists d0. cbn [app_db app_sessions app_log sessions].
  assert (forall k, (k <= 3)%nat -> stands_at k d0 -> stands_at 3 d1) as Hstands
    by (intros k Hk Hd; by eapply stands_at_run in Er).
  subst s. cbn [srv_config srv_store] in *. split_and!; try first [exact eq_refl|exact Hb|assumption].
  - cbn. destruct (Z.leb_spec (getEnvInt Getenv "SESSION_TTL_HOURS" 24) 0); lia.
  - cbn. destruct (decide (getEnv Getenv "SESSION_COOKIE_NAME" "lite_mail_session" = EmptyString)) as [E|E].
    + by rewrite bool_decide_eq_true_2.
    + by rewrite bool_decide_eq_false_2.
Qed.
End starting.

(** ** The theorems at concrete inputs *)

Module ProcessDemo.
(** A signal that arrives while the server serves. *)
Definition clean : list event :=
  [EvStart; EvSignal; EvShutdown None; EvServeReturns ErrServerClosed; EvClose; EvReceive].
Definition ended : process := mkProcess (Exited 0) Returned None true true.
End ProcessDemo.

Lemma exit_status_exact_witness : existsb is_signal ProcessDemo.clean = true.
Proof. exact (proj1 (proj2 (exit_status_exact ProcessDemo.clean ProcessDemo.ended 0 eq_refl eq_refl) eq_refl)). Defined.

Lemma process_comes_to_rest_witness : (length ProcessDemo.clean <= 6)%nat.
Proof. exact (proj1 (process_comes_to_rest ProcessDemo.clean ProcessDemo.ended eq_refl)). Defined.

#[local] Existing Instance SchemaDemo.plain_mysql.

Module StartDemo.
Definition env (key : string) : string := if bool_decide (key = "DATABASE_URL"%string) then "dsn" else "".
Definition run : startup DDLMig MemFS :=
  main_start (C := string) (T := DDLTx) env (mem_new (fun _ => None)) (Auth.Demo.runtime 0).
Definition app : Server := mkServer (config_defaults (Some (Load env))) (mkStorage "./data").
Definition state : App DDLMig MemFS :=
  match run with
  | Started _ st => st
  | _ => mkApp (Auth.Demo.runtime 0) [] (mkStore "" ∅) (newRateLimiter 1) (newRateLimiter 1) SchemaDemo.fresh (mem_new (fun _ => None))
  end.
Lemma run_eq : run = Started app state.
Proof. vm_compute. reflexivity. Qed.
End StartDemo.

(** The first start, on an empty database. *)
Lemma server_starts_ready_witness :
  Forall (fun m => Version m ∈ versions (app_db StartDemo.state)) shipped /\ stands_at 3 (app_db StartDemo.state).
Proof.
  pose proof (server_starts_ready (C := string) (D := DDLMig) (T := DDLTx) StartDemo.env
    (mem_new (fun _ => None)) (Auth.Demo.runtime 0)
    (Forall_true _ _ (fun q => I))) as Hs.
  pose proof StartDemo.run_eq as E. unfold StartDemo.run in E. rewrite E in Hs.
  destruct Hs as (d0 & Hc & Hv & _ & _ & Hstands & _). split; [exact Hv|]. apply (Hstands 0%nat); [lia|].
  assert (d0 = SchemaDemo.fresh) as -> by (injection Hc as <-; reflexivity). by split.
Defined.
