(* ===== verification/TestSupport.v ===== *)
(** * The test helpers (internal/testutil)

    The setup and teardown of a test database, the fixtures under testdata, and
    the requests that carry a test key. The testing package's outcomes (a skipped
    test, a fatal message) are values; closing a database, the transport and the
    stack of calls are arguments. *)

From S2P Require Export Server Schema.

Open Scope Z_scope.

(** ** testutil.go *)

Definition DefaultPSK : string := "test-psk-for-unit-tests".
Definition TestMaxMessageBytes : Z := 25 * 1024 * 1024.

(** ** db.go *)

Section database.
Context {D T : Type} `{MigDriver D T} {C : Type} `{MySQLDriver C D} `{SortLib}.
Variable Getenv : string -> string.
Variable db_Close : D -> option error.

(** What a helper leaves of the test: it goes on with a database, is skipped, or
    ends at a fatal message, with the database it opened and closed, if any. *)
Inductive Setup :=
  | Ready (database : D)
  | Skip (msg : string)
  | Fatalf (msg : string) (closed : option D).

Definition SetupTestDB : Setup :=
  let dbURL := Getenv "TEST_DATABASE_URL" in
  if bool_decide (dbURL = EmptyString) then Skip "TEST_DATABASE_URL not set, skipping database test"
  else
    match Connect dbURL with
    | Err err => Fatalf ("connect to test database: " +:+ error_Error err) None
    | Ok database =>
        match LoadMigrations MigrationsFS with
        | Err err => Fatalf ("load migrations: " +:+ error_Error err) (Some database)
        | Ok migrations =>
            match RunMigrations migrations database with
            | (Some err, database) => Fatalf ("run migrations: " +:+ error_Error err) (Some database)
            | (None, database) => Ready database
            end
        end
    end.

(** The warnings logged, and the database as it is closed. *)
Definition TeardownTestDB (database : option D) : list string * option D :=
  match database with
  | None => ([], None)
  | Some database =>
      match LoadMigrations MigrationsFS with
      | Err err => (["WARNING: failed to load migrations for teardown: " +:+ error_Error err], Some database)
      | Ok migrations =>
          let '(rolled, _, database) := RollbackMigration migrations database in
          (match rolled with
           | Some err => ["WARNING: failed to rollback migration: " +:+ error_Error err]
           | None => []
           end ++
           match db_Close database with
           | Some err => ["WARNING: failed to close database: " +:+ error_Error err]
           | None => []
           end, Some database)
      end
  end.

Definition DBURL : string := Getenv "TEST_DATABASE_URL".
Definition HasDB : bool := bool_decide (Getenv "TEST_DATABASE_URL" <> EmptyString).
End database.
Arguments Setup : clear implicits.

(** ** fixture.go *)

(** [runtime.Caller(skip)]: the source files of the frames on the stack, the
    innermost first. *)
Definition runtime_Caller (stack : list string) (skip : nat) : option string := stack !! skip.

Section fixtures.
Context {F R : Type} `{FileSystem F}.

(** The path of fixture.go in the build, and opening a file for reading. *)
Variable fixture_go : string.
Variable os_Open : string -> F -> result R.

(** [callers] are the files of the frames below the function's own. *)
Definition fixturePath (callers : list string) (name : string) : result string :=
  match runtime_Caller (fixture_go :: callers) 1 with
  | None => Err (EText "failed to get caller")
  | Some file =>
      let projectRoot := Dir (Dir (Dir file)) in
      Ok (path_Join [projectRoot; "testdata"%string; name])
  end.

Definition LoadFixture (callers : list string) (name : string) (f : F) : result string :=
  match fixturePath (fixture_go :: callers) name with
  | Err err => Err (EWrap "resolve fixture path" err)
  | Ok path =>
      match os_ReadFile path f with
      | Err err => Err (EWrap ("read fixture " +:+ name) err)
      | Ok data => Ok data
      end
  end.

Definition LoadFixtureReader (callers : list string) (name : string) (f : F) : result R :=
  match fixturePath (fixture_go :: callers) name with
  | Err err => Err (EWrap "resolve fixture path" err)
  | Ok path =>
      match os_Open path f with
      | Err err => Err (EWrap ("open fixture " +:+ name) err)
      | Ok file => Ok file
      end
  end.
End fixtures.

(** ** http.go *)

(** [req.Header.Set(k, v)] on a clone of the request: a clone has its own header. *)
Definition with_header (k v : string) (r : Request) : Request :=
  mkRequest (Method r) (URLPath r) (Query r) (Header_Set (ReqHeader r) k v) (ReqCookies r) (RemoteAddr r)
    (ContentLength r) (ReqBody r) (ReqCtx r) (URLParams r).

Definition AuthRequest (req : Request) (psk : string) : Request :=
  if bool_decide (psk <> EmptyString) then with_header "X-PSK" psk req else req.

Section client.
(** The network, its replies, [http.DefaultTransport], [http.NewRequest] and
    [(&http.Client{Transport: rt}).Do] over a transport. *)
Context {N Resp : Type}.
Definition RoundTripper : Type := Request -> N -> result Resp * N.
Variable DefaultTransport : RoundTripper.
Variable NewRequest : string -> string -> option Body -> result Request.
Variable client_Do : RoundTripper -> RoundTripper.

Record PSKTransport := mkPSKTransport { PSK : string }.

Definition RoundTrip (t : PSKTransport) : RoundTripper := fun req =>
  let req := if bool_decide (PSK t <> EmptyString) then with_header "X-PSK" (PSK t) req else req in
  DefaultTransport req.

(** [http.Client]: the transport is [nil] for the default one. *)
Record Client := mkClient { Transport : option PSKTransport }.
Definition NewPSKClient (psk : string) : Client := mkClient (Some (mkPSKTransport psk)).
Definition Client_Do (c : Client) : RoundTripper :=
  client_Do match Transport c with Some t => RoundTrip t | None => DefaultTransport end.

(** A fatal message or the response. The body that is given is not sent. *)
Definition DoPSKRequest {B : Type} (method url psk : string) (body : B) (n : N) : sum string Resp * N :=
  match NewRequest method url None with
  | Err err => (inl ("create request: " +:+ error_Error err), n)
  | Ok req =>
      match Client_Do (mkClient None) (AuthRequest req psk) n with
      | (Err err, n) => (inl ("do request: " +:+ error_Error err), n)
      | (Ok resp, n) => (inr resp, n)
      end
  end.
End client.

(** A test server answers with its handler; [http.NewServeMux()] is an argument. *)
Record TestServer (W : Type) := mkTestServer { ts_Handler : Handler W }.
Arguments mkTestServer {W}.
Arguments ts_Handler {W}.
Definition NewTestServer {W} (handler : Handler W) : TestServer W := mkTestServer handler.
Definition NewTestServerWithRouter {W} (NewServeMux : Handler W) : TestServer W := mkTestServer NewServeMux.

(** ** The lifecycle of a test database *)

Definition share_table_names : list string := ["share_tokens"; "telegram_deliveries"]%string.

Lemma schema_2_tables : sc_tables <$> schema_at 2 = Some (mail_tables ++ share_table_names).
Proof. vm_compute. reflexivity. Qed.

Section lifecycle.
Context {D T : Type} `{MigLaws D T} {C : Type} `{MySQLDriver C D} `{SortLaws}.
Context (shipped_foreign : Forall (foreign (D := D) (T := T)) shipped_statements).
Variable Getenv : string -> string.
Variable db_Close : D -> option error.

Lemma setup_ready k d d' :
  (k <= 3)%nat -> Connect (C := C) (Getenv "TEST_DATABASE_URL") = Ok d -> stands_at k d ->
  SetupTestDB (C := C) Getenv = Ready d' -> stands_at 3 d'.
Proof using All.
  intros Hk Hc Hd. unfold SetupTestDB. destruct (bool_decide _); [discriminate|]. rewrite Hc, load_shipped.
  destruct (RunMigrations shipped d) as [[e|] d1] eqn:E; [discriminate|]. intros [= <-].
  by eapply stands_at_run in E.
Qed.

Lemma teardown_back k d d' :
  (k <= 3)%nat -> stands_at k d -> TeardownTestDB db_Close (Some d) = ([], Some d') -> stands_at (pred k) d'.
Proof using All.
  intros Hk Hd. unfold TeardownTestDB. rewrite load_shipped.
  destruct (RollbackMigration shipped d) as [[[e|] ms'] d1] eqn:E; [destruct (db_Close d1); discriminate|].
  destruct (db_Close d1); [discriminate|]. intros [= <-]. by eapply stands_at_rollback in E.
Qed.
End lifecycle.

(** ** Where a fixture is read from *)

Section fixture_path.
(** The project's root directory, [base/cs...], and what is below it. *)
Context (base : string) (cs : list string).
Context (Hbase : base <> EmptyString) (Hcs : cs <> []) (Hplain : Forall plain_elem cs).

Definition in_project (elems : list string) : string := path_Join (base :: cs ++ elems).

Lemma Dir_in_project elems k :
  Forall plain_elem elems -> plain_elem k -> Dir (in_project (elems ++ [k])) = in_project elems.
Proof using All.
  intros He Hk. unfold in_project. rewrite app_assoc. apply Dir_path_Join; [done| |by apply Forall_app|done].
  by destruct cs.
Qed.

Lemma in_project_ne elems : Forall plain_elem elems -> in_project elems <> EmptyString.
Proof using All.
  intros He. unfold in_project. assert (Forall plain_elem (cs ++ elems)) as Hp by (by apply Forall_app).
  rewrite path_Join_plain; [|done|by destruct cs|done].
  destruct cs as [|c cs']; [done|]. cbn [app] in *. apply Forall_cons in Hp as [(Hc & _) _].
  destruct (dir_prefix base); [|discriminate]. destruct c; [done|]. by destruct (cs' ++ elems).
Qed.

Lemma join_in_project name :
  plain_elem name -> path_Join [in_project []; "testdata"%string; name] = in_project ["testdata"; name]%string.
Proof using All.
  intros Hn. assert (plain_elem "testdata") as Ht by (by repeat split).
  assert (in_project [] <> EmptyString) as Hne by (by apply in_project_ne).
  pose proof (path_Join_nested (in_project []) ["testdata"%string] name) as Hj. cbn [app] in Hj.
  rewrite <-Hj by (done || by constructor).
  unfold in_project. rewrite app_nil_r, (path_Join_nested base cs) by done.
  rewrite (path_Join_nested base (cs ++ ["testdata"%string])); [by rewrite <-app_assoc|done|by destruct cs| |done].
  apply Forall_app. by split; [|constructor].
Qed.

Lemma fixturePath_eq callers name :
  plain_elem name ->
  fixturePath (in_project ["internal"; "testutil"; "fixture.go"]%string)
    (in_project ["internal"; "testutil"; "fixture.go"]%string :: callers) name
  = Ok (in_project ["testdata"; name]%string).
Proof using All.
  intros Hn. unfold fixturePath. cbn [runtime_Caller lookup list_lookup].
  assert (plain_elem "internal" /\ plain_elem "testutil" /\ plain_elem "fixture.go") as (H1 & H2 & H3)
    by (split_and!; by repeat split).
  pose proof (Dir_in_project ["internal"; "testutil"]%string "fixture.go") as D1.
  pose proof (Dir_in_project ["internal"]%string "testutil") as D2. pose proof (Dir_in_project [] "internal") as D3.
  cbn [app] in D1, D2, D3. rewrite D1, D2, D3 by (done || by repeat constructor). by rewrite join_in_project.
Qed.
End fixture_path.

(** ** Which request headers the server reads *)

(** [h] does not read the header [k]. *)
Class Blind {W} (k : string) (h : Handler W) := blind : forall r v w st, h (with_header k v r) w st = h r w st.

Lemma Header_Get_with_header k v k' r :
  CanonicalHeaderKey k' <> CanonicalHeaderKey k ->
  Header_Get (ReqHeader (with_header k v r)) k' = Header_Get (ReqHeader r) k'.
Proof. intros Hne. by apply Header_Get_Set_ne. Qed.

(** The headers that the code names, those that net/http turns into other parts of
    the request before a handler sees it, and those that the file server looks at. *)
Definition read_headers : list string := ["X-Request-ID"; "Origin"; "X-Forwarded-For"; ingestPSKHeader]%string.
Definition request_headers : list string := ["Cookie"; "Content-Length"; "Transfer-Encoding"]%string.
Definition file_server_headers : list string :=
  ["Range"; "If-Range"; "If-Match"; "If-None-Match"; "If-Modified-Since"; "If-Unmodified-Since"]%string.

(** [k] is none of [names], up to the case of its letters. *)
Definition differs (k : string) (names : list string) : Prop :=
  Forall (fun k' => CanonicalHeaderKey k' <> CanonicalHeaderKey k) names.
Class UnreadHeader (k : string) : Prop := {
  unread_header : differs k read_headers;
  unread_by_files : differs k file_server_headers
}.

Section blind.
Context (k : string) `{!UnreadHeader k}.

Lemma unread_Get k' v r :
  k' ∈ read_headers -> Header_Get (ReqHeader (with_header k v r)) k' = Header_Get (ReqHeader r) k'.
Proof using All.
  intros Hin. apply Header_Get_with_header. by eapply Forall_forall in Hin; [|exact unread_header].
Qed.

#[local] Ltac named := unfold read_headers; rewrite !elem_of_cons; tauto.

#[export] Instance ServeHTTP_blind `{UnicodeTable} `{MailLib} {D T F} `{SQLDriver D T} `{FileSystem F} h :
  Blind k (ServeHTTP (D := D) (F := F) h).
Proof using All.
  intros r v w [[db fs] rt]. unfold ServeHTTP. rewrite unread_Get by named. reflexivity.
Qed.

#[export] Instance LoginHandler_blind `{UnicodeTable} {S} `{SessionStore S} cfg : Blind k (LoginHandler (S := S) cfg).
Proof using Type. intros r v w [st rt]. reflexivity. Qed.
#[export] Instance LogoutHandler_blind {S} `{SessionStore S} cfg : Blind k (LogoutHandler (S := S) cfg).
Proof using Type. intros r v w [st rt]. reflexivity. Qed.

Section api.
Context {D T F : Type} `{SQLDriver D T} `{FileSystem F}.
#[export] Instance ListMessages_blind : Blind k (ListMessages (D := D) (F := F)).
Proof using Type. intros r v w [db fs]. reflexivity. Qed.
#[export] Instance GetMessage_blind : Blind k (GetMessage (D := D) (F := F)).
Proof using Type. intros r v w [db fs]. reflexivity. Qed.
#[export] Instance GetRawMIME_blind s : Blind k (GetRawMIME (D := D) (F := F) s).
Proof using Type. intros r v w [db fs]. reflexivity. Qed.
#[export] Instance GetAttachment_blind s : Blind k (GetAttachment (D := D) (F := F) s).
Proof using Type. intros r v w [db fs]. reflexivity. Qed.
End api.

Context {W : Type}.

#[export] Instance RequestID_blind `{Lens W Runtime} (next : Handler W) :
  Blind k next -> Blind k (RequestID "X-Request-ID" next).
Proof using All.
  intros Hn r v w st. unfold RequestID. rewrite unread_Get by named.
  destruct (if bool_decide _ then _ else _) as [rid rt].
  exact (Hn (WithContext r (WithValue (ReqCtx r) contextKeyRequestID (CtxString rid))) v _ _).
Qed.

#[export] Instance SecurityHeaders_blind (next : Handler W) : Blind k next -> Blind k (SecurityHeaders next).
Proof using Type. intros Hn r v w st. apply Hn. Qed.

#[export] Instance RequestLogging_blind `{Lens W (list LogRecord * Runtime)} (next : Handler W) :
  Blind k next -> Blind k (RequestLogging next).
Proof using Type.
  intros Hn r v w st. unfold RequestLogging. destruct (view st) as [log rt]. destruct (time_Now rt) as [start rt1].
  by rewrite Hn.
Qed.

#[export] Instance CORS_blind o (next : Handler W) : Blind k next -> Blind k (CORS o next).
Proof using All. intros Hn r v w st. unfold CORS. rewrite unread_Get by named. by rewrite Hn. Qed.

#[export] Instance RateLimit_blind {L : Lens W (rateLimiter * Runtime)} rpm burst (next : Handler W) :
  Blind k next -> Blind k (RateLimit rpm burst next).
Proof using All.
  intros Hn r v w st. unfold RateLimit, getClientIP. rewrite unread_Get by named.
  cbn [RemoteAddr with_header]. destruct (view st) as [rl rt]. destruct (time_Now rt) as [now rt1].
  destruct (Allow _ _ rl) as [[[ok n] t] rl']. destruct ok; [apply Hn|done].
Qed.

#[export] Instance MaxBodySize_blind n (next : Handler W) : Blind k next -> Blind k (MaxBodySize n next).
Proof using Type.
  intros Hn r v w st. unfold MaxBodySize. cbn [ContentLength ReqBody with_header].
  destruct (_ <? _); [done|]. exact (Hn (with_body r _) v w st).
Qed.

#[export] Instance RequireAuth_blind {S} `{SessionStore S} {L : Lens W (S * Runtime)} cfg (next : Handler W) :
  Blind k next -> Blind k (RequireAuth cfg next).
Proof using Type.
  intros Hn r v w st. unfold RequireAuth. change (Req_Cookie (with_header k v r)) with (Req_Cookie r).
  destruct (view st) as [ss rt]. destruct (Req_Cookie r _) as [value|]; [|done]. destruct (Get value ss) as [session|e]; [|done].
  destruct (time_Now rt) as [now rt1]. destruct (After now _); [done|].
  exact (Hn (WithContext r (WithSession (ReqCtx r) session)) v w _).
Qed.

#[export] Instance lift_handler_blind {S} {L : Lens W S} (h : Handler S) : Blind k h -> Blind k (lift_handler h).
Proof using Type. intros Hh r v w st. unfold lift_handler. by rewrite Hh. Qed.

#[export] Instance healthHandler_blind : Blind k (W := W) healthHandler.
Proof using Type. intros r v w st. reflexivity. Qed.
#[export] Instance spaHandler_blind `{StaticFiles} : Blind k (W := W) spaHandler.
Proof using Type. intros r v w st. reflexivity. Qed.

End blind.

(** The documented use of the header by the libraries: the router's own answers,
    "404 page not found" and 405, depend on none of it; the file server's only on
    the range and the conditions. *)
Class LibraryReads `{ChiRouter} `{StaticFiles} : Prop := {
  chi_NotFound_reads : forall k r v w, chi_NotFound (with_header k v r) w = chi_NotFound r w;
  chi_MethodNotAllowed_reads : forall k r v w, chi_MethodNotAllowed (with_header k v r) w = chi_MethodNotAllowed r w;
  static_serve_reads : forall k r v w, differs k file_server_headers ->
    static_serve (with_header k v r) w = static_serve r w
}.

Section serving.
Context `{UnicodeTable} `{MailLib} `{LibraryReads} (k : string) `{!UnreadHeader k}
  {D T F : Type} `{SQLDriver D T} `{FileSystem F}.

#[local] Instance staticHandler_blind : Blind k (staticHandler (D := D) (F := F)).
Proof using All. intros r v w st. unfold staticHandler. rewrite static_serve_reads; [done|apply unread_by_files]. Qed.

Lemma dispatch_blind {W} (rs : list (Route W)) path :
  Forall (fun rt => forall rest, Blind k (rt_run rt rest)) rs -> Blind k (dispatch rs path).
Proof using All.
  intros Hrs r v w st. unfold dispatch. change (Method (with_header k v r)) with (Method r).
  destruct (chi_Find _ _ _) as [i params rest| |].
  - destruct (rs !! i) as [rt|] eqn:Ei; [|by rewrite chi_NotFound_reads].
    eapply Forall_lookup_1 in Hrs; [|exact Ei]. exact (Hrs rest (with_params r params) v w st).
  - by rewrite chi_MethodNotAllowed_reads.
  - by rewrite chi_NotFound_reads.
Qed.

Lemma routes_blind s : Forall (fun rt => forall rest, Blind k (rt_run rt rest)) (routes (D := D) (F := F) s).
Proof using All.
  unfold routes. repeat constructor; intros rest; cbn [rt_run Get_ Post_ Handle_ Route_];
    unfold ingest_use, login_use, requireAuth;
    repeat first [apply RateLimit_blind|apply MaxBodySize_blind|apply RequireAuth_blind]; try apply _.
  all: apply dispatch_blind; repeat constructor; intros rest'; cbn [rt_run Post_]; apply _.
Qed.

Lemma serve_blind s : Blind k (serve (D := D) (F := F) s).
Proof using All.
  intros r v w st. unfold serve. change (URLPath (with_header k v r)) with (URLPath r).
  unfold middlewares. apply RequestID_blind, SecurityHeaders_blind, RequestLogging_blind, CORS_blind, dispatch_blind, routes_blind; done.
Qed.
End serving.

(** ** Properties *)

(** The teardown of a test database undoes the latest migration only. When the
    setup gives a database, all three migrations are applied, wherever it stood
    before. A teardown without a warning then leaves it after the second: with the
    four mail tables, and with the two tables that the third migration had
    dropped. *)
Theorem teardown_undoes_one_migration {D T} `{MigLaws D T} {C} `{MySQLDriver C D} `{SortLaws}
  Getenv (db_Close : D -> option error) (d d1 : D) k :
  Forall (foreign (D := D) (T := T)) shipped_statements -> (k <= 3)%nat ->
  Connect (C := C) (Getenv "TEST_DATABASE_URL"%string) = Ok d -> stands_at k d ->
  SetupTestDB (C := C) Getenv = Ready d1 ->
  stands_at 3 d1 /\
  (forall d2, TeardownTestDB db_Close (Some d1) = ([], Some d2) ->
    stands_at 2 d2 /\
  exists s, ddl_all no_tables (journal d2) = Some s /\ sc_tables s = mail_tables ++ share_table_names).
Proof.
  intros Hf Hk Hc Hd Hs. pose proof (setup_ready Hf Getenv db_Close k d d1 Hk Hc Hd Hs) as Hr1. split; [exact Hr1|].
  intros d2 Ht. pose proof (teardown_back Hf Getenv db_Close 3 d1 d2 (le_n 3) Hr1 Ht) as Hr2. split; [exact Hr2|].
  destruct Hr2 as [_ ->]. pose proof schema_2_tables as Hs2. destruct (schema_at (pred 3)) as [s|] eqn:E.
  - exists s. split; [reflexivity|]. change (pred 3) with 2%nat in E. rewrite E in Hs2. by injection Hs2.
  - change (pred 3) with 2%nat in E. rewrite E in Hs2. discriminate Hs2.
Qed.

(** A fixture is found wherever the test is. The frame that the path starts
    from is the helper's own file, internal/testutil/fixture.go, never the test's;
    so for every stack of callers the fixture [name] is testdata/[name] in the
    project's root directory: it is read when it is there, and reported with its
    name when it is not. *)
Theorem fixture_found_from_anywhere `{FileSystemLaws F} {R} (os_Open : string -> F -> result R) base cs callers name f :
  base <> EmptyString -> cs <> [] -> Forall plain_elem cs -> plain_elem name ->
  let fixture_go := in_project base cs ["internal"; "testutil"; "fixture.go"]%string in
  let path := path_Join (base :: cs ++ ["testdata"; name]%string) in
  match file f path with
  | Some data => LoadFixture fixture_go callers name f = Ok data
  | None => exists e, LoadFixture fixture_go callers name f = Err (EWrap ("read fixture " +:+ name) e)
  end /\
  LoadFixtureReader fixture_go os_Open callers name f
  = match os_Open path f with Ok h => Ok h | Err e => Err (EWrap ("open fixture " +:+ name) e) end.
Proof.
  intros Hb Hcs Hp Hn fixture_go path. unfold LoadFixture, LoadFixtureReader, fixture_go.
  rewrite fixturePath_eq by done. change (in_project base cs ["testdata"; name]%string) with path. split; [|done].
  destruct (file f path) as [data|] eqn:E.
  - by rewrite (proj2 (read_file path f data) E).
  - destruct (os_ReadFile path f) as [data|e] eqn:Er; [|by eexists]. apply read_file in Er. congruence.
Qed.

(** C20: The handler of the server, [s.Handler()], reads four request headers by
    name: the request id, the origin, the forwarded address and the ingest key. A
    header that is none of these, nor one of the six that the file server under
    /static/ looks at (Range and the conditions If-...), nor one that net/http
    makes another part of the request of (the cookies, the length and the transfer
    encoding of the body), changes nothing of any reply or of the state, whatever
    its value. In particular the key that the test helpers put on a request, in
    X-PSK, opens nothing. Of the libraries this assumes [LibraryReads]: the
    router's own 404 and 405 read no header, and the file server no others than
    those six. *)
Theorem test_key_opens_nothing `{UnicodeTable} `{MailLib} `{LibraryReads} {D T F}
  `{SQLDriver D T} `{FileSystem F} (s : Server) (r : Request) w (st : App D F) :
  (forall k v, differs k (read_headers ++ file_server_headers ++ request_headers) ->
     serve s (with_header k v r) w st = serve s r w st) /\
  (forall psk, serve s (AuthRequest r psk) w st = serve s r w st).
Proof.
  assert (forall k v, differs k (read_headers ++ file_server_headers ++ request_headers) ->
    serve s (with_header k v r) w st = serve s r w st) as Hall.
  { intros k v [Hc [Hf _]%Forall_app]%Forall_app. assert (UnreadHeader k) by done. by apply serve_blind. }
  split; [exact Hall|]. intros psk. unfold AuthRequest. case_bool_decide; [|done].
  apply Hall, (bool_decide_unpack _). vm_compute. exact I.
Qed.

(** ** The theorems at concrete inputs *)

#[local] Existing Instance Small.lib.
#[local] Existing Instance unicode_latin.
#[local] Existing Instance ServerDemo.router.
#[local] Existing Instance ServerDemo.static.
#[local] Existing Instance SchemaDemo.plain_mysql.

#[local] Instance demo_reads : LibraryReads.
Proof. by split. Qed.

Module SupportDemo.
Definition env (key : string) : string := if bool_decide (key = "TEST_DATABASE_URL"%string) then "dsn"%string else EmptyString.
Definition ready : Setup DDLMig := SetupTestDB (T := DDLTx) (C := string) env.
Definition prepared : DDLMig := match ready with Ready d => d | _ => SchemaDemo.fresh end.
Definition torn_down : list string * option DDLMig := TeardownTestDB (T := DDLTx) (fun _ => None) (Some prepared).
Lemma ready_eq : ready = Ready prepared.
Proof. vm_compute. reflexivity. Qed.
Lemma torn_down_eq : torn_down = ([], Some (default SchemaDemo.fresh torn_down.2)).
Proof. vm_compute. reflexivity. Qed.

Definition files : MemFS := mkMemFS {[ "/src/lite-mail/testdata/simple-text.eml"%string := "From: a@b.c"%string ]} ∅ 0 (fun _ => None).
End SupportDemo.

Lemma teardown_undoes_one_migration_witness :
  exists d, SupportDemo.torn_down = ([], Some d) /\ stands_at 2 d.
Proof.
  destruct (teardown_undoes_one_migration (T := DDLTx) (C := string) SupportDemo.env (fun _ => None)
    SchemaDemo.fresh SupportDemo.prepared 0) as [_ Ht];
    [by apply Forall_true|lia|reflexivity|by split|exact SupportDemo.ready_eq|].
  exists (default SchemaDemo.fresh SupportDemo.torn_down.2).
  split; [exact SupportDemo.torn_down_eq|]. exact (proj1 (Ht _ SupportDemo.torn_down_eq)).
Defined.

Lemma fixture_found_from_anywhere_witness :
  LoadFixture "/src/lite-mail/internal/testutil/fixture.go" ["/src/lite-mail/internal/ingest/parser_test.go"]%string
    "simple-text.eml" SupportDemo.files = Ok "From: a@b.c"%string.
Proof.
  refine (proj1 (fixture_found_from_anywhere (F := MemFS) (fun _ _ => Ok tt) "/src" ["lite-mail"]%string
    ["/src/lite-mail/internal/ingest/parser_test.go"]%string "simple-text.eml" SupportDemo.files _ _ _ _)).
  - discriminate.
  - discriminate.
  - repeat constructor; discriminate.
  - by repeat split.
Defined.

Lemma test_key_opens_nothing_witness :
  resp_status (serve ServerWorld.srv (AuthRequest ServerWorld.anonymous "admin-key") new_writer ServerWorld.world).1 = 401.
Proof.
  rewrite (proj2 (test_key_opens_nothing ServerWorld.srv ServerWorld.anonymous new_writer ServerWorld.world)
    "admin-key"%string).
  vm_compute. reflexivity.
Defined.
